(* ===== verification/_CoqProject ===== *)
-Q . S2P
Prelude.v
Bytes.v
HmacMd5.v
HmacMd5Ok.v
MstpTypes.v
MstpPriority.v
MstpBpdu.v
MstpMonad.v
MstpOut.v
MstpPort.v
MstpInfo.v
MstpRoles.v
MstpTransitions.v
MstpForwarding.v
MstpRun.v
MstpConfig.v
MstpEvents.v
MstpAdmin.v
MstpVlan.v
Bridges.v
MstpInv.v
MstpPortOk.v
MstpInfoOk.v
MstpRolesOk.v
MstpTransitionsOk.v
MstpForwardingOk.v
MstpRunOk.v
MstpInvariant.v
MstpVlanOk.v
MstpLoops.v
MstpEventsOk.v
MstpTreesOk.v
MstpSafety.v
MstpDryRun.v
MstpScenario.v
MstpVlanSpec.v
MstpDiverge.v
MstpFrame.v
BridgesOk.v
MstpElection.v
MstpTcsm.v
MstpPortState.v
MstpOps.v
MstpExchange.v
MstpNoLeak.v
Daemon.v
MstpTheorems.v
CLib.v
Effect.v
CLibOk.v
Poe.v
PoeDaemon.v
PoeKeeps.v
PoeProtocol.v
PoeOk.v
Autorestart.v
AutorestartDaemon.v
AutorestartRules.v
AutorestartSafe.v
AutorestartRuns.v
AutorestartOk.v
AutorestartCycle.v
Syslog.v
SyslogFormats.v
SyslogMain.v
SyslogOk.v
SyslogLines.v
SyslogRun.v
SyslogJson.v
SyslogTheorems.v
SyslogCsv.v
SyslogSpec.v
Hwsys.v
HwsysEvents.v
HwsysDaemon.v
HwsysOk.v
HwsysRun.v
HwsysTheorems.v
HwsysLimits.v
