(* ===== verification/Prelude.v ===== *)
(** * Verification of the switch management packages: root file

    The repository is the package feed of a PoE switch. This library models
    the packages that carry logic of their own, in C:

    - [mstpd] (src/mstpd/src): the spanning tree daemon, 802.1D and 802.1Q;
    - [realtek-poe] (src/realtek-poe-tfortis/src/main.c): the daemon that
      controls the PoE ports through a microcontroller on a serial line;
    - [autorestartd] (src/tf_ar_poe/src/autorestartd): the daemon that tests
      the devices on the ports and restarts them by switching their power;
    - [syslog_fc] (src/syslog_fc/src/src): the converter of log files to text,
      CSV, JSON, HTML and tables;
    - [tf_hwsys] (src/tf_hwsys): the daemon that reads the registers of the
      I/O microcontroller over I2C, reports events and answers clients, and
      its control client.

    ** Conventions

    A C integer of w bits is a [Z]; assignments reduce it modulo 2^w where it
    can leave its range. Octets in memory are [list Z]. A pointer to an object
    of a list is its position. An operation of the program is a function in a
    state monad whose result is a value and a state, or the use of an invalid
    pointer or of an element outside an array ([Fault], [Crash], [None]).
    Where the C code recurses, the definition has a bound on the depth, and
    running out of it is a result of its own ([Fuel], [Endless]): it is never
    a value, and theorems say for which states it cannot happen. Allocation
    succeeds. Every operation takes its guards and early returns from the
    code, in their order.

    ** mstpd: the protocol engine (mstp.c, mstp.h, hmac_md5.c)

    - [Bytes], [HmacMd5]: octet strings, memcmp, MD5 and HMAC-MD5.
      [HmacMd5Ok]: the streaming code computes RFC 1321 and RFC 2104.
    - [MstpTypes]: the structures of mstp.h as records; [MstpPriority]:
      identifiers and the comparison of priority vectors; [MstpBpdu]: the
      packed message, clause 14.4 validation, the messages that are built.
    - [MstpMonad]: the state [world] (one bridge, the outputs to the kernel,
      the clock, the uninitialised local variable in which messages are built)
      and the weakest precondition [wp]. [MstpOut]: MSTP_OUT_*.
    - The state machines, one function X_to_S for each state S of machine X as
      in the code and X_runf for X_run with its depth: [MstpPort] (clauses
      13.27 to 13.31), [MstpInfo] (13.32), [MstpRoles] (13.33),
      [MstpTransitions] (13.34), [MstpForwarding] (13.35, 13.36). [MstpRun]:
      the scheduling of the machines, br_state_machines_run. The depths are
      PPMSM 4, PTSM 32, PISM 10, PSTSM 4, TCSM 16 and PRTSM 64 calls;
      [MstpTcsm] proves that those of the first five are enough, TCSM outside
      of the endless recursion of [MstpDiverge].
      The loop of br_state_machines_run is bounded by the clock: the state
      has the number of passes that fit in the second of the k-th run.
    - [MstpConfig], [MstpEvents], [MstpAdmin], [MstpVlan]: creation of
      objects, MSTP_IN_*, clause 12 management, VLANs and trees.

    Theorems on the engine: [MstpInv] states the invariant and the rule
    [keeps]; Mstp*Ok prove it operation by operation, [MstpSafety] for every
    event of a bridge. [MstpFrame] proves, once for every invariant of the
    class [EngineInv], that the engine keeps it, and with it that what the
    kernel was told of an interface (the record of its calls of br_set_state,
    [kernel_view]) is the state of the port. [MstpTheorems] draws the
    properties of reachable bridges: no invalid pointer, blocking of ports,
    agreement with the kernel, the digest, the transmit limit, the shape of
    trees and ports. [MstpDryRun]: dry runs are exact. [MstpDiverge]: one TCN
    BPDU hangs a bridge, stated for every depth of the recursion ([run_at]).
    [MstpElection]: the root election. [MstpPortState]: the port state machine
    refines its specification. [MstpOps], [MstpExchange], [MstpNoLeak],
    [MstpVlanSpec]: single operations, exchange of messages between bridges,
    transmission without uninitialised octets, the commands on VLANs and
    trees. [MstpScenario]: what holds of settled bridges, and concrete
    histories for the witnesses.

    ** mstpd: the daemon around the engine (bridge_track.c)

    [Bridges] models the list of bridges and interfaces, the notifications of
    the kernel, received packets, the tick and the CTL_* commands of the
    control socket, each calling the engine on one bridge ([on_bridge]). What
    the kernel answers to a question is a stream of the state ([d_kernel]),
    about which nothing is assumed. A packet is the receive buffer with what
    earlier packets have left in it, and the length that was received.
    [MstpFrame] proves that the engine leaves the interface data alone,
    [BridgesOk] keeps the invariant through every handler, and [Daemon] states
    the properties of the life of the daemon: no invalid pointer, every bridge
    is in a state that the engine reaches by itself (so that all its theorems
    apply), one owner for each interface, the tracking of links, the filter of
    packets, the refusal of unknown objects.

    ** realtek-poe

    [CLib] has the C library functions that the packages use (strtoul, strtol,
    strncpy, strcmp, decimal printing, IEEE 754 arithmetic), [CLibOk] their
    properties. [Effect] has the monad of this and the next package with its
    rules. [Poe] models the queue of commands, the frames, the replies and the
    reading of the line; [PoeDaemon] the configuration, the setup of the
    ports, the timers, the methods on the bus and main. [PoeKeeps] has the
    invariant and proves it operation by operation. [PoeProtocol] states the
    stop-and-wait protocol of the line as a transition system and proves that
    every event refines a step of it. [PoeOk] states the properties of the
    life of the daemon, among them the frames on the line with the number of
    their transmissions (the ledger of the commands that were queued), the accesses out of bounds that an
    unexpected reply or configuration causes and the stall after a lost
    reply, the packing of ports into commands and "sendframe".

    ** autorestartd

    [Autorestart] has the data of port_module.h, the reading of the
    configuration (init_module.c) and the text functions of utils_module.c;
    [AutorestartDaemon] the tests of a port (port_module.c, test_module.c), the
    restart and the alarms (events_module.c) and the commands of clients
    (client_module.c). Three threads work on the ports without locks. A
    [step] is one visit of a thread to a port (one part of a test, one round
    of the loop of eventsHandler, one message of a client) and a [run] is any
    sequence of visits; inside of a visit a thread is not interrupted. Each
    visit has its own answers of the surroundings: the clock, files, output
    of commands, ping. [AutorestartRules] has the rules for a visit of one
    port, [AutorestartSafe] what every operation keeps and the answers that
    are needed to stay inside of the arrays, [AutorestartRuns] the rule for
    runs. [AutorestartOk]: restarts are limited, a port that is given up
    stays. [AutorestartCycle]: a restart refines an abstract machine and ends
    with power on; no overrun, what the speed test measures, the overruns of
    the start, and a ping under way that is taken for a success.

    ** syslog_fc

    [Syslog] has syslog_entry.c: an entry specification is turned into fields,
    a line is taken apart by them. [SyslogFormats] has the six formats of
    formats/, functions from an entry to what is printed; [SyslogMain] the
    reading of the file in pieces by fgets into a growing buffer, the
    conversion and the command line. Lines are octets without 0; a pointer
    into a line is what follows it, and reading behind the end is a result of
    its own ([Overrun], [None], [Overran]). The loops have fuel for one round
    for each octet of the file, and [SyslogLines] proves that every round
    reads one. [SyslogOk]: fields of an accepted specification are separated,
    parsed values have the type of their field. [SyslogLines]: the pieces are
    the lines of the file. [SyslogRun]: every format prints every entry, and a
    conversion prints the entries of the lines. [SyslogJson]: a grammar of
    JSON, and what the JSON format prints is derived by it. [SyslogTheorems]:
    conversions end, print the entries of the lines, and print JSON.
    [SyslogCsv]: a reader of CSV reads the values back. [SyslogSpec]: accepted
    specifications, lines of the default one, and the specifications, lines
    and values that the code treats wrongly.

    ** tf_hwsys

    [Hwsys] has the table of registers, the transfers on the bus and the dumps
    of the microcontroller (i2c_module.c, the timers of utils_module.c);
    [HwsysEvents] the handlers of events_handlers.c, each with its static
    variable as an element of [prevValue]; [HwsysDaemon] the messages of
    clients (socket_module.c, client_comm.c), the rounds of the three threads
    (main_app.c) and the control client (hwsys_ctrl.c, the names of
    gpio_module.c). An entry of the table is its 80 octets, since messages and
    entries are copied onto each other. Threads are visits in any order, as
    for autorestartd; the clock, the bus, the sockets and what uninitialised
    variables hold are a stream of answers. The addresses of the handlers are
    a parameter: the class [linked] says that they are different and not null.
    The loop of i2c_parse_tlv has fuel for 1001 rounds, and each reads two or
    more of 1000 octets.

    [HwsysOk] has a reference for the handlers, a table of limits and states
    with a reaction to a value ([shape_of], [reaction]), and proves that each
    handler reacts like it. [HwsysRun] has the invariant, what a well-behaved
    microcontroller and client send ([well_behaved]), and the rule for runs:
    nothing undefined happens, and the messages of a handler are its reactions
    to the values it was called with. [HwsysTheorems]: the life of the daemon,
    changes and excursions are reported, "get" prints the register (the text
    has a reference of its own, [reading]), a register that was set is not
    reported any more. [HwsysLimits]: dumps are read back, "set" reaches the
    bus in the first round without a dump, the microcontroller is never reset,
    and the descriptors for clients run out; with the rules [keeps] for what a
    view of the state ([Insensitive]) does not see.

    ** Not modelled

    - mstpd: main.c, brmon.c, epoll_loop.c, packet.c, netif_utils.c,
      ctl_socket_*.c and worker.c are system calls around the functions
      modelled here; ctl_main.c parses and prints; libnetlink.c is third-party;
      the Broadcom driver calls a vendor SDK. Log messages.
    - libubox, libubus and libuci (the event loop, the bus, the configuration
      database) are not in the repository: their callbacks are the events, the
      values that they deliver are inputs. strtof is a parameter.
    - localtime, mktime and the JSON library (jansson) are parameters of the
      autorestart daemon; ping.c (raw sockets), the text of shell commands,
      the sockets and the control client autorestart_ctrl are left out.
    - syslog_fc: strptime, strftime, mktime, the names of <syslog.h> and
      getopt_long are parameters; freeing of memory, the text of the usage and
      messages to stderr are left out.
    - tf_hwsys: the calls of libgpiod, the set-up of sockets and threads, debug
      output, and the number printed by a log message, which send_log leaves
      undefined.
    - tf_device_monitor: nearly every path is undefined before it has computed
      anything (an array of 5 callbacks is indexed up to 9, hash_data[32] gets
      a text of 32 octets with its end, texts without end, an uninitialised
      command, results that depend on the order of evaluation).
    - rtk (the SDK of the switch chip and generated register tables), luci
      (the upstream web interface), test programs, Lua, shell and JavaScript.

    ** Open

    PRTSM has no proof that 64 calls are enough: the master port role can
    cycle. *)

From stdpp Require Export base list option strings numbers.
From Stdlib Require Export ZArith Lia Bool.

(** ** Machine integers

    C integers are kept as [Z]; an assignment to a [w]-bit unsigned object
    reduces the value modulo [2^w]. *)

Open Scope Z_scope.

Definition u8 (x : Z) : Z := x mod 256.
Definition u16 (x : Z) : Z := x mod 65536.
Definition u32 (x : Z) : Z := x mod 4294967296.

Lemma u8_range x : 0 <= u8 x < 256.
Proof. unfold u8. apply Z.mod_pos_bound. lia. Qed.

Lemma u16_range x : 0 <= u16 x < 65536.
Proof. unfold u16. apply Z.mod_pos_bound. lia. Qed.

Lemma u32_range x : 0 <= u32 x < 4294967296.
Proof. unfold u32. apply Z.mod_pos_bound. lia. Qed.

Lemma u8_small x : 0 <= x < 256 -> u8 x = x.
Proof. apply Z.mod_small. Qed.

Lemma u16_small x : 0 <= x < 65536 -> u16 x = x.
Proof. apply Z.mod_small. Qed.

Lemma u32_small x : 0 <= x < 4294967296 -> u32 x = x.
Proof. apply Z.mod_small. Qed.

(** ** Records with named field updates

    [r <| f := v |>] reads like the C assignment [r->f = v]. An instance of
    [Eta] lists the fields of a record once; [mk_setter] derives the update
    of one field from it. *)

Class Eta (R : Type) := eta : R -> R.
Class SetterFor {R T : Type} (proj : R -> T) := set_field : T -> R -> R.
#[global] Hint Mode SetterFor - - ! : typeclass_instances.
Arguments set_field {R T} proj {_} v r : simpl never.

Notation "r <| p := v |>" := (set_field p v r)
  (at level 1, left associativity, p at level 9, v at level 99,
   format "r  <| p  :=  v |>").

Ltac mk_setter :=
  lazymatch goal with
  | |- @SetterFor ?R ?T ?p =>
      let v := fresh "v" in
      let r := fresh "r" in
      refine (fun (v : T) (r : R) => _);
      let i := constr:(_ : Eta R) in
      let e := eval hnf in (@eta R i r) in
      let t := eval pattern (p r) in e in
      lazymatch t with
      | ?F _ => let b := eval cbv beta in (F v) in exact b
      end
  end.

(** [upd_simpl] computes every projection of an update: the updated field
    gives the new value, any other field is read from the old record. *)

Ltac is_projection p :=
  lazymatch p with
  | set_field _ _ => fail
  | _ => let i := constr:(_ : SetterFor p) in idtac
  end.

(** The equation that reads [p] from an update of [q]; it is proved for
    variables, since conversion of nested updates is slow. *)
Ltac read_update E p R T q I :=
  first
    [ constr_eq p q;
      assert (forall (v0 : T) (r0 : R), p (@set_field R T q I v0 r0) = v0) as E
        by (intros; reflexivity)
    | assert (forall (v0 : T) (r0 : R), p (@set_field R T q I v0 r0) = p r0) as E
        by (intros; reflexivity) ].

Ltac upd_simpl_goal :=
  repeat match goal with
  | |- context [?p (@set_field ?R ?T ?q ?I ?v ?r)] =>
      is_projection p;
      let E := fresh "E" in
      read_update E p R T q I; rewrite !(E v r); clear E
  end.

Ltac upd_simpl_hyp H :=
  repeat match type of H with
  | context [?p (@set_field ?R ?T ?q ?I ?v ?r)] =>
      is_projection p;
      let E := fresh "E" in
      read_update E p R T q I; rewrite !(E v r) in H; clear E
  end.

Tactic Notation "upd_simpl" := upd_simpl_goal.
Tactic Notation "upd_simpl" "in" hyp(H) := upd_simpl_hyp H.
Tactic Notation "upd_simpl" "in" "*" :=
  upd_simpl_goal;
  repeat match goal with
  | H : context [set_field _ _ _] |- _ => progress (upd_simpl_hyp H)
  end.

(** ** Booleans *)

(** [bool_hyps] turns boolean hypotheses that were produced by the guards of
    the code into propositions. *)
Ltac bool_hyps :=
  repeat match goal with
  | H : _ && _ = true |- _ => apply andb_true_iff in H; destruct H
  | H : _ || _ = false |- _ => apply orb_false_iff in H; destruct H
  | H : negb _ = true |- _ => apply negb_true_iff in H
  | H : negb _ = false |- _ => apply negb_false_iff in H
  | H : bool_decide _ = true |- _ => apply bool_decide_eq_true in H
  | H : bool_decide _ = false |- _ => apply bool_decide_eq_false in H
  | H : (_ =? _) = true |- _ => apply Z.eqb_eq in H
  | H : (_ =? _) = false |- _ => apply Z.eqb_neq in H
  | H : (_ <? _) = true |- _ => apply Z.ltb_lt in H
  | H : (_ <? _) = false |- _ => apply Z.ltb_ge in H
  | H : (_ <=? _) = true |- _ => apply Z.leb_le in H
  | H : (_ <=? _) = false |- _ => apply Z.leb_gt in H
  | H : ?b = true, H' : ?b = false |- _ => congruence
  end.

(** [guard_simpl] computes the goal with the boolean facts at hand. *)
Ltac guard_simpl :=
  bool_hyps;
  repeat match goal with
  | H : ?b = true |- context [?b] => rewrite H
  | H : ?b = false |- context [?b] => rewrite H
  end;
  cbn.

(** C's conversion of a boolean guard on a bit of a flag octet. *)
Definition test_bit (flags offset : Z) : bool := negb (Z.land flags (Z.shiftl 1 offset) =? 0).

Lemma test_bit_spec flags offset :
  0 <= offset -> test_bit flags offset = Z.testbit flags offset.
Proof.
  intros Ho. unfold test_bit.
  rewrite Z.shiftl_1_l.
  destruct (Z.testbit flags offset) eqn:Hb.
  - apply negb_true_iff, Z.eqb_neq. intros Hz.
    assert (Z.testbit (Z.land flags (2 ^ offset)) offset = false) as Hf
      by (rewrite Hz; apply Z.bits_0).
    rewrite Z.land_spec, Hb, Z.pow2_bits_true in Hf by lia. discriminate.
  - apply negb_false_iff, Z.eqb_eq. apply Z.bits_inj'. intros n Hn.
    rewrite Z.land_spec, Z.bits_0.
    destruct (decide (n = offset)) as [->|Hne]; [by rewrite Hb|].
    rewrite Z.pow2_bits_false by lia. by rewrite andb_false_r.
Qed.
