(* ===== verification/Bytes.v ===== *)
(** * Octet strings

    Big-endian integers in memory ([be_bytes], [be_val]) and the comparison
    of memory blocks ([memcmp]). The spanning tree daemon compares its
    network-order identifiers with memcmp; [memcmp_be_bytes] is why the
    model may compare the numbers they encode. *)

From S2P Require Import Prelude.

(** The [n] octets of [x], most significant first, and the value of a string. *)
Fixpoint be_bytes (n : nat) (x : Z) : list Z :=
  match n with
  | O => []
  | S n => Z.shiftr x (8 * Z.of_nat n) mod 256 :: be_bytes n x
  end.

Definition be_val (l : list Z) : Z := fold_left (fun acc b => acc * 256 + b) l 0.

(** The C library's memcmp: the first octet that differs decides. *)
Fixpoint memcmp (l1 l2 : list Z) : comparison :=
  match l1, l2 with
  | a :: l1, b :: l2 =>
      match a ?= b with
      | Eq => memcmp l1 l2
      | c => c
      end
  | _, _ => Eq
  end.

Definition is_byte (b : Z) : Prop := 0 <= b < 256.
Definition bytes_ok (l : list Z) : Prop := Forall is_byte l.

Section be.
Lemma length_be_bytes n x : length (be_bytes n x) = n.
Proof. induction n; simpl; congruence. Qed.

Lemma be_bytes_ok n x : bytes_ok (be_bytes n x).
Proof.
  induction n as [|n IH]; simpl; constructor; [|done].
  apply Z.mod_pos_bound. lia.
Qed.

Lemma fold_be acc l :
  fold_left (fun acc b => acc * 256 + b) l acc =
  acc * 256 ^ Z.of_nat (length l) + be_val l.
Proof.
  unfold be_val. revert acc. induction l as [|b l IH]; intros acc; simpl.
  - change (Z.of_nat 0) with 0. rewrite Z.pow_0_r. lia.
  - rewrite (IH (acc * 256 + b)), (IH (0 * 256 + b)).
    replace (Z.of_nat (S (length l))) with (Z.succ (Z.of_nat (length l))) by lia.
    rewrite Z.pow_succ_r by lia. ring.
Qed.

Lemma be_val_cons b l : be_val (b :: l) = b * 256 ^ Z.of_nat (length l) + be_val l.
Proof. unfold be_val at 1. simpl. by rewrite fold_be. Qed.

Lemma be_val_app l1 l2 : be_val (l1 ++ l2) = be_val l1 * 256 ^ Z.of_nat (length l2) + be_val l2.
Proof.
  unfold be_val at 1. rewrite fold_left_app. rewrite fold_be. done.
Qed.

Lemma be_val_range l : bytes_ok l -> 0 <= be_val l < 256 ^ Z.of_nat (length l).
Proof.
  induction 1 as [|b l Hb Hl IH]; [done|].
  rewrite be_val_cons. simpl length.
  replace (Z.of_nat (S (length l))) with (Z.succ (Z.of_nat (length l))) by lia.
  rewrite Z.pow_succ_r by lia. unfold is_byte in Hb. nia.
Qed.

Lemma be_val_be_bytes n x : be_val (be_bytes n x) = x mod 256 ^ Z.of_nat n.
Proof.
  induction n as [|n IH]; [by rewrite Z.mod_1_r|].
  change (be_bytes (S n) x) with (Z.shiftr x (8 * Z.of_nat n) mod 256 :: be_bytes n x).
  rewrite be_val_cons, length_be_bytes, IH, Z.shiftr_div_pow2 by lia.
  replace (2 ^ (8 * Z.of_nat n)) with (256 ^ Z.of_nat n)
    by (rewrite Z.pow_mul_r by lia; done).
  replace (Z.of_nat (S n)) with (Z.succ (Z.of_nat n)) by lia.
  rewrite Z.pow_succ_r by lia.
  rewrite (Z.mul_comm 256), Z.rem_mul_r by lia. lia.
Qed.

Lemma be_val_be_bytes_small n x :
  0 <= x < 256 ^ Z.of_nat n -> be_val (be_bytes n x) = x.
Proof. intros Hx. rewrite be_val_be_bytes. by apply Z.mod_small. Qed.

Lemma memcmp_be_val l1 l2 :
  bytes_ok l1 -> bytes_ok l2 -> length l1 = length l2 ->
  memcmp l1 l2 = (be_val l1 ?= be_val l2).
Proof.
  intros H1. revert l2. induction H1 as [|a l1 Ha H1 IH]; intros l2 H2 Hlen;
    destruct H2 as [|b l2 Hb H2]; try done; simpl in Hlen.
  simpl memcmp. rewrite !be_val_cons.
  assert (length l1 = length l2) as Hl by lia. rewrite Hl.
  pose proof (be_val_range _ H1) as R1. pose proof (be_val_range _ H2) as R2.
  rewrite Hl in R1. unfold is_byte in *.
  destruct (Z.compare_spec a b) as [->|Hlt|Hgt].
  - rewrite IH by done. symmetry.
    destruct (Z.compare_spec (be_val l1) (be_val l2));
      [apply Z.compare_eq_iff|apply Z.compare_lt_iff|apply Z.compare_gt_iff]; lia.
  - symmetry. apply Z.compare_lt_iff. nia.
  - symmetry. apply Z.compare_gt_iff. nia.
Qed.

Lemma memcmp_be_bytes n x y :
  0 <= x < 256 ^ Z.of_nat n -> 0 <= y < 256 ^ Z.of_nat n ->
  memcmp (be_bytes n x) (be_bytes n y) = (x ?= y).
Proof.
  intros Hx Hy. rewrite memcmp_be_val; auto using be_bytes_ok.
  - by rewrite !be_val_be_bytes_small.
  - by rewrite !length_be_bytes.
Qed.
End be.
