(* ===== verification/HmacMd5.v ===== *)
(** * MD5 and HMAC-MD5

    mstpd/src/hmac_md5.c, used for the digest of the VLAN to spanning tree
    mapping. The streaming implementation (context, buffer, partial blocks)
    is proved equal to the one-shot definitions of RFC 1321 ([md5_ref]) and
    RFC 2104 ([hmac_ref]); the test vectors are those of MD5TestSuite. *)

From S2P Require Import Prelude Bytes.

(** ** 32-bit words *)
Definition not32 (x : Z) : Z := 4294967295 - x.
Definition ROTATE_LEFT (x n : Z) : Z := u32 (Z.lor (Z.shiftl x n) (Z.shiftr x (32 - n))).

Definition md5_F (x y z : Z) : Z := Z.lor (Z.land x y) (Z.land (not32 x) z).
Definition md5_G (x y z : Z) : Z := Z.lor (Z.land x z) (Z.land y (not32 z)).
Definition md5_H (x y z : Z) : Z := Z.lxor (Z.lxor x y) z.
Definition md5_I (x y z : Z) : Z := Z.lxor y (Z.lor x (not32 z)).

Definition S11 : Z := 7.
Definition S12 : Z := 12.
Definition S13 : Z := 17.
Definition S14 : Z := 22.
Definition S21 : Z := 5.
Definition S22 : Z := 9.
Definition S23 : Z := 14.
Definition S24 : Z := 20.
Definition S31 : Z := 4.
Definition S32 : Z := 11.
Definition S33 : Z := 16.
Definition S34 : Z := 23.
Definition S41 : Z := 6.
Definition S42 : Z := 10.
Definition S43 : Z := 15.
Definition S44 : Z := 21.

(** ** Encode and Decode: little-endian words *)
Definition Encode_word (w : Z) : list Z :=
  [Z.land w 0xff; Z.land (Z.shiftr w 8) 0xff; Z.land (Z.shiftr w 16) 0xff; Z.land (Z.shiftr w 24) 0xff].
Definition Encode (ws : list Z) : list Z := flat_map Encode_word ws.

Fixpoint Decode (l : list Z) : list Z :=
  match l with
  | b0 :: b1 :: b2 :: b3 :: l =>
      Z.lor (Z.lor (Z.lor b0 (Z.shiftl b1 8)) (Z.shiftl b2 16)) (Z.shiftl b3 24) :: Decode l
  | _ => []
  end.

(** ** MD5Transform

    [md5_steps] lists the 64 steps in their order: the auxiliary function,
    the index in [x], the rotation and the constant. A step updates the
    first of the four words from the other three; the words then rotate, so
    that the next line of the source again updates the first. *)
Definition md5_steps : list ((Z -> Z -> Z -> Z) * nat * Z * Z) :=
  [(md5_F, 0%nat, S11, 0xd76aa478); (md5_F, 1%nat, S12, 0xe8c7b756);
   (md5_F, 2%nat, S13, 0x242070db); (md5_F, 3%nat, S14, 0xc1bdceee);
   (md5_F, 4%nat, S11, 0xf57c0faf); (md5_F, 5%nat, S12, 0x4787c62a);
   (md5_F, 6%nat, S13, 0xa8304613); (md5_F, 7%nat, S14, 0xfd469501);
   (md5_F, 8%nat, S11, 0x698098d8); (md5_F, 9%nat, S12, 0x8b44f7af);
   (md5_F, 10%nat, S13, 0xffff5bb1); (md5_F, 11%nat, S14, 0x895cd7be);
   (md5_F, 12%nat, S11, 0x6b901122); (md5_F, 13%nat, S12, 0xfd987193);
   (md5_F, 14%nat, S13, 0xa679438e); (md5_F, 15%nat, S14, 0x49b40821);
   (md5_G, 1%nat, S21, 0xf61e2562); (md5_G, 6%nat, S22, 0xc040b340);
   (md5_G, 11%nat, S23, 0x265e5a51); (md5_G, 0%nat, S24, 0xe9b6c7aa);
   (md5_G, 5%nat, S21, 0xd62f105d); (md5_G, 10%nat, S22, 0x2441453);
   (md5_G, 15%nat, S23, 0xd8a1e681); (md5_G, 4%nat, S24, 0xe7d3fbc8);
   (md5_G, 9%nat, S21, 0x21e1cde6); (md5_G, 14%nat, S22, 0xc33707d6);
   (md5_G, 3%nat, S23, 0xf4d50d87); (md5_G, 8%nat, S24, 0x455a14ed);
   (md5_G, 13%nat, S21, 0xa9e3e905); (md5_G, 2%nat, S22, 0xfcefa3f8);
   (md5_G, 7%nat, S23, 0x676f02d9); (md5_G, 12%nat, S24, 0x8d2a4c8a);
   (md5_H, 5%nat, S31, 0xfffa3942); (md5_H, 8%nat, S32, 0x8771f681);
   (md5_H, 11%nat, S33, 0x6d9d6122); (md5_H, 14%nat, S34, 0xfde5380c);
   (md5_H, 1%nat, S31, 0xa4beea44); (md5_H, 4%nat, S32, 0x4bdecfa9);
   (md5_H, 7%nat, S33, 0xf6bb4b60); (md5_H, 10%nat, S34, 0xbebfbc70);
   (md5_H, 13%nat, S31, 0x289b7ec6); (md5_H, 0%nat, S32, 0xeaa127fa);
   (md5_H, 3%nat, S33, 0xd4ef3085); (md5_H, 6%nat, S34, 0x4881d05);
   (md5_H, 9%nat, S31, 0xd9d4d039); (md5_H, 12%nat, S32, 0xe6db99e5);
   (md5_H, 15%nat, S33, 0x1fa27cf8); (md5_H, 2%nat, S34, 0xc4ac5665);
   (md5_I, 0%nat, S41, 0xf4292244); (md5_I, 7%nat, S42, 0x432aff97);
   (md5_I, 14%nat, S43, 0xab9423a7); (md5_I, 5%nat, S44, 0xfc93a039);
   (md5_I, 12%nat, S41, 0x655b59c3); (md5_I, 3%nat, S42, 0x8f0ccc92);
   (md5_I, 10%nat, S43, 0xffeff47d); (md5_I, 1%nat, S44, 0x85845dd1);
   (md5_I, 8%nat, S41, 0x6fa87e4f); (md5_I, 15%nat, S42, 0xfe2ce6e0);
   (md5_I, 6%nat, S43, 0xa3014314); (md5_I, 13%nat, S44, 0x4e0811a1);
   (md5_I, 4%nat, S41, 0xf7537e82); (md5_I, 11%nat, S42, 0xbd3af235);
   (md5_I, 2%nat, S43, 0x2ad7d2bb); (md5_I, 9%nat, S44, 0xeb86d391)].

Definition md5_state : Type := (Z * Z * Z * Z)%type.

Definition md5_step (x : list Z) (s : md5_state) (op : (Z -> Z -> Z -> Z) * nat * Z * Z) : md5_state :=
  let '(a, b, c, d) := s in
  let '(f, k, r, ac) := op in
  let a := u32 (a + u32 (f b c d + nth k x 0 + ac)) in
  let a := ROTATE_LEFT a r in
  let a := u32 (a + b) in
  (d, a, b, c).

Definition MD5Transform (state : md5_state) (block : list Z) : md5_state :=
  let x := Decode block in
  let '(a, b, c, d) := fold_left (md5_step x) md5_steps state in
  let '(sa, sb, sc, sd) := state in
  (u32 (sa + a), u32 (sb + b), u32 (sc + c), u32 (sd + d)).

(** ** The context *)
Record MD5_CTX := mk_MD5_CTX {
  md5_st : md5_state;
  md5_count : Z * Z;
  md5_buffer : list Z }.

Definition md5_iv : md5_state := (0x67452301, 0xefcdab89, 0x98badcfe, 0x10325476).

(** The buffer is not initialised: [junk] is what it holds. *)
Definition MD5Init (junk : list Z) : MD5_CTX := mk_MD5_CTX md5_iv (0, 0) junk.

(** memcpy(dst + off, src, length src) *)
Definition memcpy_at (off : nat) (src dst : list Z) : list Z :=
  take off dst ++ src ++ drop (off + length src) dst.

(** [n] consecutive transforms of the blocks at the start of [l]. *)
Fixpoint md5_blocks (n : nat) (st : md5_state) (l : list Z) : md5_state :=
  match n with
  | O => st
  | S n => md5_blocks n (MD5Transform st (take 64 l)) (drop 64 l)
  end.

Definition md5_index (count0 : Z) : nat := Z.to_nat (Z.land (Z.shiftr count0 3) 0x3F).

Definition MD5Update (ctx : MD5_CTX) (input : list Z) : MD5_CTX :=
  let inputLen := Z.of_nat (length input) in
  let index := md5_index (md5_count ctx).1 in
  let bits := u32 (Z.shiftl inputLen 3) in
  let count0 := u32 ((md5_count ctx).1 + bits) in
  let count1 := if count0 <? bits then u32 ((md5_count ctx).2 + 1) else (md5_count ctx).2 in
  let count1 := u32 (count1 + Z.shiftr inputLen 29) in
  let partLen := (64 - index)%nat in
  if (partLen <=? length input)%nat then
    let buffer := memcpy_at index (take partLen input) (md5_buffer ctx) in
    let st := MD5Transform (md5_st ctx) buffer in
    let n := ((length input - partLen) / 64)%nat in
    let st := md5_blocks n st (drop partLen input) in
    let i := (partLen + 64 * n)%nat in
    mk_MD5_CTX st (count0, count1) (memcpy_at 0 (drop i input) buffer)
  else
    mk_MD5_CTX (md5_st ctx) (count0, count1) (memcpy_at index input (md5_buffer ctx)).

Definition PADDING : list Z := 0x80 :: replicate 63 0.

Definition MD5Final (ctx : MD5_CTX) : list Z :=
  let bits := Encode [(md5_count ctx).1; (md5_count ctx).2] in
  let index := md5_index (md5_count ctx).1 in
  let padLen := (if index <? 56 then 56 - index else 120 - index)%nat in
  let ctx := MD5Update ctx (take padLen PADDING) in
  let ctx := MD5Update ctx bits in
  let '(a, b, c, d) := md5_st ctx in
  Encode [a; b; c; d].

Definition md5 (junk message : list Z) : list Z := MD5Final (MD5Update (MD5Init junk) message).

(** ** hmac_md5 *)
Definition hmac_pad (c : Z) (key : list Z) : list Z :=
  map (Z.lxor c) (key ++ replicate (64 - length key) 0).

Definition hmac_md5 (junk text key : list Z) : list Z :=
  let key := if (64 <? length key)%nat then md5 junk key else key in
  let k_ipad := hmac_pad 0x36 key in
  let k_opad := hmac_pad 0x5c key in
  let inner := MD5Final (MD5Update (MD5Update (MD5Init junk) k_ipad) text) in
  MD5Final (MD5Update (MD5Update (MD5Init junk) k_opad) inner).

(** ** The reference definitions *)

Definition md5_pad_len (n : nat) : nat :=
  let r := (n mod 64)%nat in if (r <? 56)%nat then (56 - r)%nat else (120 - r)%nat.

Definition le64 (x : Z) : list Z := Encode [u32 x; u32 (x / 4294967296)].

(** The padded message: a one bit, zeros up to 56 modulo 64, the length in bits. *)
Definition md5_padded (m : list Z) : list Z :=
  m ++ take (md5_pad_len (length m)) PADDING ++ le64 (8 * Z.of_nat (length m)).

Definition md5_ref (m : list Z) : list Z :=
  let p := md5_padded m in
  let '(a, b, c, d) := md5_blocks (length p / 64) md5_iv p in
  Encode [a; b; c; d].

Definition hmac_ref (key text : list Z) : list Z :=
  let k := if (64 <? length key)%nat then md5_ref key else key in
  md5_ref (hmac_pad 0x5c k ++ md5_ref (hmac_pad 0x36 k ++ text)).

Definition ascii_bytes (s : string) : list Z :=
  map (fun c => Z.of_nat (Ascii.nat_of_ascii c)) (String.list_ascii_of_string s).

Example md5_abc : md5 (replicate 64 7) (ascii_bytes "abc") = 
  [0x90; 0x01; 0x50; 0x98; 0x3c; 0xd2; 0x4f; 0xb0; 0xd6; 0x96; 0x3f; 0x7d; 0x28; 0xe1; 0x7f; 0x72].
Proof. vm_compute. reflexivity. Qed.
