(* ===== verification/HmacMd5Ok.v ===== *)
(** * MD5 and HMAC-MD5 compute the digests of their standards

    The streaming implementation of mstpd/src/hmac_md5.c is equal to the
    one-shot definitions of RFC 1321 and RFC 2104, for every message, however
    it is cut into pieces and whatever the buffer holds at the start. *)

From S2P Require Import Prelude Bytes HmacMd5.

(** ** Blocks *)

Lemma md5_blocks_add a b st l :
  md5_blocks (a + b) st l = md5_blocks b (md5_blocks a st l) (drop (64 * a) l).
Proof.
  revert st l. induction a as [|a IH]; intros st l.
  - by rewrite Nat.mul_0_r, drop_0.
  - cbn [Nat.add md5_blocks]. rewrite IH, drop_drop. do 2 f_equal. lia.
Qed.

Lemma md5_blocks_prefix n st l l' :
  (64 * n <= length l)%nat -> md5_blocks n st (l ++ l') = md5_blocks n st l.
Proof.
  revert st l. induction n as [|n IH]; intros st l Hl; [done|]. cbn [md5_blocks].
  rewrite take_app_le, drop_app_le by lia. apply IH. rewrite length_drop. lia.
Qed.

(** ** The context of a message *)

(** The context has absorbed the message [m]: the state is that of the whole
    blocks of [m], the buffer starts with the rest, and the counters hold the
    length in bits. *)
Record absorbed (ctx : MD5_CTX) (m : list Z) : Prop := {
  abs_state : md5_st ctx = md5_blocks (length m / 64) md5_iv m;
  abs_count : md5_count ctx = (u32 (8 * Z.of_nat (length m)),
                               u32 (8 * Z.of_nat (length m) / 4294967296));
  abs_buffer : take (length m mod 64) (md5_buffer ctx) = drop (64 * (length m / 64)) m;
  abs_size : length (md5_buffer ctx) = 64%nat }.

Lemma absorbed_init junk : length junk = 64%nat -> absorbed (MD5Init junk) [].
Proof. intros Hj. by constructor. Qed.

Lemma md5_index_length n : md5_index (u32 (8 * Z.of_nat n)) = (n mod 64)%nat.
Proof.
  unfold md5_index. change 0x3F with (Z.ones 6). rewrite Z.land_ones, Z.shiftr_div_pow2 by lia.
  unfold u32. rewrite <-(Nat2Z.id (n mod 64)), Nat2Z.inj_mod. f_equal.
  change (2 ^ 6) with 64. change (2 ^ 3) with 8. change (Z.of_nat 64) with 64.
  replace (8 * Z.of_nat n) with (Z.of_nat n * 8) by lia.
  change 4294967296 with (536870912 * 8). rewrite Z.mul_mod_distr_r, Z.div_mul by lia.
  change 536870912 with (64 * 8388608). rewrite Z.rem_mul_r by lia.
  rewrite (Z.mul_comm 64), Z.mod_add, Z.mod_mod by lia. done.
Qed.

(** The two counters are one 64-bit counter of bits. *)
Lemma count_update n k :
  0 <= n -> 0 <= k ->
  let bits := u32 (Z.shiftl k 3) in
  let count0 := u32 (u32 (8 * n) + bits) in
  let c1 := u32 (8 * n / 4294967296) in
  let count1 := if count0 <? bits then u32 (c1 + 1) else c1 in
  (count0, u32 (count1 + Z.shiftr k 29))
  = (u32 (8 * (n + k)), u32 (8 * (n + k) / 4294967296)).
Proof.
  intros Hn Hk. cbv zeta. rewrite Z.shiftl_mul_pow2, Z.shiftr_div_pow2 by lia.
  change (2 ^ 3) with 8. change (2 ^ 29) with 536870912. unfold u32. f_equal.
  - rewrite Z.mul_comm with (n := k), <-Z.add_mod by lia. f_equal. lia.
  - assert (k / 536870912 = 8 * k / 4294967296) as ->
      by (change 4294967296 with (8 * 536870912); by rewrite Z.div_mul_cancel_l by lia).
    rewrite (Z.mul_comm k 8).
    replace (8 * (n + k)) with (8 * n + 8 * k) by lia.
    generalize (8 * n), (8 * k). clear. intros a b.
    pose proof (Z.div_mod a 4294967296 ltac:(lia)) as Ha.
    pose proof (Z.div_mod b 4294967296 ltac:(lia)) as Hb.
    pose proof (Z.mod_pos_bound a 4294967296 ltac:(lia)) as Ha'.
    pose proof (Z.mod_pos_bound b 4294967296 ltac:(lia)) as Hb'.
    set (qa := a / 4294967296) in *. set (ra := a mod 4294967296) in *.
    set (qb := b / 4294967296) in *. set (rb := b mod 4294967296) in *.
    destruct (decide (ra + rb < 4294967296)) as [Hlt|Hge].
    + rewrite (Z.mod_small (ra + rb)) by lia.
      replace (ra + rb <? rb) with false by (symmetry; apply Z.ltb_ge; lia).
      replace ((a + b) / 4294967296) with (qa + qb)
        by (apply (Z.div_unique _ _ _ (ra + rb)); lia).
      by rewrite Z.add_mod_idemp_l by lia.
    + replace ((ra + rb) mod 4294967296) with (ra + rb - 4294967296)
        by (apply (Z.mod_unique _ _ 1); lia).
      replace (_ <? rb) with true by (symmetry; apply Z.ltb_lt; lia).
      replace ((a + b) / 4294967296) with (qa + 1 + qb)
        by (apply (Z.div_unique _ _ _ (ra + rb - 4294967296)); lia).
      rewrite Z.add_mod_idemp_l by lia. rewrite <-Z.add_assoc, Z.add_mod_idemp_l by lia.
      f_equal. lia.
Qed.

Section update.
Context (ctx : MD5_CTX) (m l : list Z) (Habs : absorbed ctx m).

Abbreviation q := (length m / 64)%nat.
Abbreviation i := (length m mod 64)%nat.

Lemma length_split : (length m = 64 * q + i /\ i < 64)%nat.
Proof.
  split; [apply Nat.div_mod; lia|apply Nat.mod_upper_bound; lia].
Qed.

Lemma counts_absorbed (st : md5_state) (buf : list Z) :
  MD5Update ctx l = mk_MD5_CTX (md5_st (MD5Update ctx l)) (md5_count (MD5Update ctx l))
                      (md5_buffer (MD5Update ctx l))
  /\ md5_count (MD5Update ctx l) = (u32 (8 * Z.of_nat (length (m ++ l))),
                                    u32 (8 * Z.of_nat (length (m ++ l)) / 4294967296)).
Proof.
  split; [by destruct (MD5Update ctx l)|].
  rewrite length_app, Nat2Z.inj_add, <-count_update by lia.
  unfold MD5Update. rewrite (abs_count _ _ Habs). cbv zeta. by destruct (_ <=? _)%nat.
Qed.

(** The block that the old buffer and the start of [l] make up. *)
Lemma buffer_filled :
  (64 - i <= length l)%nat ->
  memcpy_at i (take (64 - i) l) (md5_buffer ctx) = take 64 (drop (64 * q) (m ++ l)).
Proof.
  intros Hl. destruct length_split as [Hm Hi]. unfold memcpy_at.
  rewrite (abs_buffer _ _ Habs), length_take_le, (drop_ge (md5_buffer ctx)), app_nil_r
    by (rewrite ?(abs_size _ _ Habs); lia).
  rewrite drop_app_le, take_app, length_drop by lia.
  rewrite (take_ge (drop _ m)) by (rewrite length_drop; lia). do 2 f_equal. lia.
Qed.

Lemma absorbed_update : absorbed (MD5Update ctx l) (m ++ l).
Proof.
  destruct length_split as [Hm Hi]. pose proof (abs_size _ _ Habs) as Hsize.
  pose proof (proj2 (counts_absorbed md5_iv [])) as Hcount.
  unfold MD5Update in *. rewrite (abs_count _ _ Habs) in *. cbn [fst snd] in *.
  rewrite md5_index_length in *. cbv zeta in *.
  destruct (64 - i <=? length l)%nat eqn:Hfill.
  - apply Nat.leb_le in Hfill. set (n := ((length l - (64 - i)) / 64)%nat) in *.
    assert (length (m ++ l) / 64 = q + 1 + n)%nat as Hq.
    { rewrite length_app. subst n.
      replace (length m + length l)%nat with ((length l - (64 - i)) + (q + 1) * 64)%nat by lia.
      rewrite Nat.div_add by lia. lia. }
    assert (length (m ++ l) mod 64 = length l - (64 - i) - 64 * n)%nat as Hr.
    { rewrite Nat.mod_eq, Hq, length_app by lia. lia. }
    assert (64 * n <= length l - (64 - i))%nat as Hn by (subst n; apply Nat.Div0.mul_div_le).
    assert (length l - (64 - i) - 64 * n < 64)%nat as Hlt.
    { rewrite <-Hr. apply Nat.mod_upper_bound. lia. }
    rewrite (buffer_filled Hfill) in *.
    constructor; cbn [md5_st md5_count md5_buffer] in *; [|done| |].
    + rewrite Hq, (abs_state _ _ Habs), !md5_blocks_add, md5_blocks_prefix by lia.
      cbn [md5_blocks]. rewrite (drop_app_ge m l (64 * (q + 1))) by lia. do 2 f_equal. lia.
    + rewrite Hr, Hq. unfold memcpy_at. rewrite take_0, app_nil_l.
      rewrite (drop_app_ge m l (64 * (q + 1 + n))) by lia.
      rewrite take_app_length' by (rewrite length_drop; lia). f_equal. lia.
    + unfold memcpy_at. repeat first [rewrite length_app | rewrite length_drop | rewrite length_take]. lia.
  - apply Nat.leb_gt in Hfill.
    assert (length (m ++ l) / 64 = q)%nat as Hq.
    { rewrite length_app. symmetry. apply (Nat.div_unique _ _ _ (i + length l)); lia. }
    assert (length (m ++ l) mod 64 = i + length l)%nat as Hr.
    { rewrite Nat.mod_eq, Hq, length_app by lia. lia. }
    constructor; cbn [md5_st md5_count md5_buffer] in *; [|done| |].
    + rewrite Hq, md5_blocks_prefix by lia. apply Habs.
    + rewrite Hr, Hq. unfold memcpy_at. rewrite (abs_buffer _ _ Habs), drop_app_le by lia.
      rewrite app_assoc, take_app_length'; [done|]. rewrite length_app, length_drop. lia.
    + unfold memcpy_at. rewrite !length_app, length_take, length_drop. lia.
Qed.
End update.

(** ** The digests *)

Lemma final_absorbed ctx m : absorbed ctx m -> MD5Final ctx = md5_ref m.
Proof.
  intros Habs. unfold MD5Final, md5_ref.
  assert (Encode [(md5_count ctx).1; (md5_count ctx).2] = le64 (8 * Z.of_nat (length m))) as ->
    by (by rewrite (abs_count _ _ Habs)).
  rewrite (abs_count _ _ Habs). cbn [fst]. rewrite md5_index_length. cbv zeta.
  change (if (length m mod 64 <? 56)%nat then (56 - length m mod 64)%nat
          else (120 - length m mod 64)%nat) with (md5_pad_len (length m)).
  pose proof (absorbed_update _ _ (take (md5_pad_len (length m)) PADDING) Habs) as H1.
  pose proof (absorbed_update _ _ (le64 (8 * Z.of_nat (length m))) H1) as H2.
  rewrite (abs_state _ _ H2). unfold md5_padded. by rewrite <-app_assoc.
Qed.

Lemma md5_is_ref junk m : length junk = 64%nat -> md5 junk m = md5_ref m.
Proof.
  intros Hj. apply final_absorbed. exact (absorbed_update _ [] m (absorbed_init _ Hj)).
Qed.

Lemma hmac_is_ref junk text key :
  length junk = 64%nat -> hmac_md5 junk text key = hmac_ref key text.
Proof.
  intros Hj. unfold hmac_md5, hmac_ref. rewrite md5_is_ref by done. cbv zeta.
  set (k := if (64 <? length key)%nat then _ else _).
  assert (forall pad l, MD5Final (MD5Update (MD5Update (MD5Init junk) pad) l) = md5_ref (pad ++ l))
    as H.
  { intros pad l. apply final_absorbed, absorbed_update.
    exact (absorbed_update _ [] pad (absorbed_init _ Hj)). }
  by rewrite !H.
Qed.

(** The cut of a message into pieces does not matter. *)
Lemma absorbed_pieces pieces ctx m :
  absorbed ctx m -> absorbed (fold_left MD5Update pieces ctx) (m ++ concat pieces).
Proof.
  revert ctx m. induction pieces as [|l pieces IH]; intros ctx m H; simpl.
  - by rewrite app_nil_r.
  - rewrite app_assoc. by apply IH, absorbed_update.
Qed.

(** ** Test vectors: the test suites of RFC 1321 and RFC 2104 *)

Example md5_ref_empty : md5_ref [] =
  [0xd4; 0x1d; 0x8c; 0xd9; 0x8f; 0x00; 0xb2; 0x04; 0xe9; 0x80; 0x09; 0x98; 0xec; 0xf8; 0x42; 0x7e].
Proof. vm_compute. reflexivity. Qed.

Example md5_ref_message_digest : md5_ref (ascii_bytes "message digest") =
  [0xf9; 0x6b; 0x69; 0x7d; 0x7c; 0xb7; 0x93; 0x8d; 0x52; 0x5a; 0x2f; 0x31; 0xaa; 0xf1; 0x61; 0xd0].
Proof. vm_compute. reflexivity. Qed.

Example hmac_ref_hi_there : hmac_ref (replicate 16 0x0B) (ascii_bytes "Hi There") =
  [0x92; 0x94; 0x72; 0x7a; 0x36; 0x38; 0xbb; 0x1c; 0x13; 0xf4; 0x8e; 0xf8; 0x15; 0x8b; 0xfc; 0x9d].
Proof. vm_compute. reflexivity. Qed.

(** ** The properties *)

(** C33: MD5Init, any sequence of calls of MD5Update, and MD5Final compute the
    MD5 digest (RFC 1321) of the concatenation of the pieces, whatever the
    uninitialised buffer of the context holds, for messages of any length
    including the wrap-around of the bit counters. *)
Theorem md5_streaming_correct junk pieces :
  length junk = 64%nat ->
  MD5Final (fold_left MD5Update pieces (MD5Init junk)) = md5_ref (concat pieces).
Proof.
  intros Hj. apply final_absorbed.
  exact (absorbed_pieces pieces _ [] (absorbed_init junk Hj)).
Qed.

Lemma md5_streaming_correct_witness :
  MD5Final (fold_left MD5Update [ascii_bytes "mess"; []; ascii_bytes "age"] (MD5Init (replicate 64 7)))
  = md5_ref (ascii_bytes "message").
Proof.
  exact (md5_streaming_correct (replicate 64 7) [ascii_bytes "mess"; []; ascii_bytes "age"] eq_refl).
Defined.

(** Hmac_md5 is HMAC (RFC 2104) with MD5, for keys shorter and longer
    than a block. *)
Theorem hmac_md5_correct junk text key :
  length junk = 64%nat -> hmac_md5 junk text key = hmac_ref key text.
Proof. apply hmac_is_ref. Qed.

Lemma hmac_md5_correct_witness :
  hmac_md5 (replicate 64 0xAA) (ascii_bytes "Hi There") (replicate 16 0x0B) =
  [0x92; 0x94; 0x72; 0x7a; 0x36; 0x38; 0xbb; 0x1c; 0x13; 0xf4; 0x8e; 0xf8; 0x15; 0x8b; 0xfc; 0x9d].
Proof.
  rewrite (hmac_md5_correct (replicate 64 0xAA) (ascii_bytes "Hi There") (replicate 16 0x0B) eq_refl).
  exact hmac_ref_hi_there.
Defined.
