(* ===== verification/MstpTypes.v ===== *)
(** * Data of the spanning tree daemon

    The types of mstpd/src/mstp.h and of the system dependent part in
    mstpd/src/bridge_ctl.h. Pointers between the objects are positions: a
    port is an index in [br_ports], a tree an index in [br_trees], and the
    per-tree port of port [p] in tree [t] is entry [t] of [prt_trees] of
    port [p]. The first constructor of every enumeration is the one with
    value 0, the contents of memory returned by calloc. *)

From S2P Require Import Prelude.

Inductive port_info_t :=
  | OtherInfo | SuperiorDesignatedInfo | RepeatedDesignatedInfo |
  InferiorDesignatedInfo | InferiorRootAlternateInfo.
#[export] Instance port_info_t_eq_dec : EqDecision port_info_t.
Proof. solve_decision. Defined.

Inductive port_info_origin_t :=
  | ioDisabled | ioMine | ioAged | ioReceived.
#[export] Instance port_info_origin_t_eq_dec : EqDecision port_info_origin_t.
Proof. solve_decision. Defined.

Inductive port_role_t :=
  | roleDisabled | roleRoot | roleDesignated | roleAlternate | roleBackup | roleMaster.
#[export] Instance port_role_t_eq_dec : EqDecision port_role_t.
Proof. solve_decision. Defined.

Inductive br_state_t :=
  | BR_STATE_DISABLED | BR_STATE_LISTENING | BR_STATE_LEARNING | BR_STATE_FORWARDING |
  BR_STATE_BLOCKING.
#[export] Instance br_state_t_eq_dec : EqDecision br_state_t.
Proof. solve_decision. Defined.

Inductive PRSM_states_t :=
  | PRSM_DISCARD | PRSM_RECEIVE.
#[export] Instance PRSM_states_t_eq_dec : EqDecision PRSM_states_t.
Proof. solve_decision. Defined.

Inductive PPMSM_states_t :=
  | PPMSM_CHECKING_RSTP | PPMSM_SELECTING_STP | PPMSM_SENSING.
#[export] Instance PPMSM_states_t_eq_dec : EqDecision PPMSM_states_t.
Proof. solve_decision. Defined.

Inductive BDSM_states_t :=
  | BDSM_EDGE | BDSM_NOT_EDGE.
#[export] Instance BDSM_states_t_eq_dec : EqDecision BDSM_states_t.
Proof. solve_decision. Defined.

Inductive PTSM_states_t :=
  | PTSM_TRANSMIT_INIT | PTSM_TRANSMIT_CONFIG | PTSM_TRANSMIT_TCN | PTSM_TRANSMIT_RSTP
  | PTSM_TRANSMIT_PERIODIC | PTSM_IDLE.
#[export] Instance PTSM_states_t_eq_dec : EqDecision PTSM_states_t.
Proof. solve_decision. Defined.

Inductive PISM_states_t :=
  | PISM_DISABLED | PISM_AGED | PISM_UPDATE | PISM_SUPERIOR_DESIGNATED |
  PISM_REPEATED_DESIGNATED | PISM_INFERIOR_DESIGNATED | PISM_NOT_DESIGNATED |
  PISM_OTHER | PISM_CURRENT | PISM_RECEIVE.
#[export] Instance PISM_states_t_eq_dec : EqDecision PISM_states_t.
Proof. solve_decision. Defined.

Inductive PRSSM_states_t :=
  | PRSSM_INIT_TREE | PRSSM_ROLE_SELECTION.
#[export] Instance PRSSM_states_t_eq_dec : EqDecision PRSSM_states_t.
Proof. solve_decision. Defined.

Inductive PRTSM_states_t :=
  | PRTSM_INIT_PORT | PRTSM_DISABLE_PORT | PRTSM_DISABLED_PORT | PRTSM_MASTER_PROPOSED
  | PRTSM_MASTER_AGREED | PRTSM_MASTER_SYNCED | PRTSM_MASTER_RETIRED |
  PRTSM_MASTER_FORWARD | PRTSM_MASTER_LEARN | PRTSM_MASTER_DISCARD | PRTSM_MASTER_PORT
  | PRTSM_ROOT_PROPOSED | PRTSM_ROOT_AGREED | PRTSM_ROOT_SYNCED | PRTSM_REROOT |
  PRTSM_ROOT_FORWARD | PRTSM_ROOT_LEARN | PRTSM_REROOTED | PRTSM_ROOT_PORT |
  PRTSM_DESIGNATED_PROPOSE | PRTSM_DESIGNATED_AGREED | PRTSM_DESIGNATED_SYNCED |
  PRTSM_DESIGNATED_RETIRED | PRTSM_DESIGNATED_FORWARD | PRTSM_DESIGNATED_LEARN |
  PRTSM_DESIGNATED_DISCARD | PRTSM_DESIGNATED_PORT | PRTSM_BLOCK_PORT |
  PRTSM_BACKUP_PORT | PRTSM_ALTERNATE_PROPOSED | PRTSM_ALTERNATE_AGREED |
  PRTSM_ALTERNATE_PORT.
#[export] Instance PRTSM_states_t_eq_dec : EqDecision PRTSM_states_t.
Proof. solve_decision. Defined.

Inductive PSTSM_states_t :=
  | PSTSM_DISCARDING | PSTSM_LEARNING | PSTSM_FORWARDING.
#[export] Instance PSTSM_states_t_eq_dec : EqDecision PSTSM_states_t.
Proof. solve_decision. Defined.

Inductive TCSM_states_t :=
  | TCSM_INACTIVE | TCSM_LEARNING | TCSM_DETECTED | TCSM_NOTIFIED_TCN |
  TCSM_NOTIFIED_TC | TCSM_PROPAGATING | TCSM_ACKNOWLEDGED | TCSM_ACTIVE.
#[export] Instance TCSM_states_t_eq_dec : EqDecision TCSM_states_t.
Proof. solve_decision. Defined.

(** times_t: the timer values carried by a spanning tree message. *)
Record times_t := mk_times_t {
  remainingHops : Z;
  Forward_Delay : Z;
  Max_Age : Z;
  Message_Age : Z;
  Hello_Time : Z }.
#[export] Instance times_t_eq_dec : EqDecision times_t.
Proof. solve_decision. Defined.
#[export] Instance eta_times_t : Eta times_t := fun r =>
  mk_times_t (remainingHops r) (Forward_Delay r) (Max_Age r) (Message_Age r)
  (Hello_Time r).
#[export] Instance set_remainingHops : SetterFor remainingHops := ltac:(mk_setter).
#[export] Instance set_Forward_Delay : SetterFor Forward_Delay := ltac:(mk_setter).
#[export] Instance set_Max_Age : SetterFor Max_Age := ltac:(mk_setter).
#[export] Instance set_Message_Age : SetterFor Message_Age := ltac:(mk_setter).
#[export] Instance set_Hello_Time : SetterFor Hello_Time := ltac:(mk_setter).

(** port_priority_vector_t; identifiers and costs are the values of the big-endian fields. *)
Record port_priority_vector_t := mk_port_priority_vector_t {
  RRootID : Z;
  IntRootPathCost : Z;
  DesignatedBridgeID : Z;
  DesignatedPortID : Z;
  RootID : Z;
  ExtRootPathCost : Z }.
#[export] Instance port_priority_vector_t_eq_dec : EqDecision port_priority_vector_t.
Proof. solve_decision. Defined.
#[export] Instance eta_port_priority_vector_t : Eta port_priority_vector_t := fun r =>
  mk_port_priority_vector_t (RRootID r) (IntRootPathCost r) (DesignatedBridgeID r)
  (DesignatedPortID r) (RootID r) (ExtRootPathCost r).
#[export] Instance set_RRootID : SetterFor RRootID := ltac:(mk_setter).
#[export] Instance set_IntRootPathCost : SetterFor IntRootPathCost := ltac:(mk_setter).
#[export] Instance set_DesignatedBridgeID : SetterFor DesignatedBridgeID := ltac:(mk_setter).
#[export] Instance set_DesignatedPortID : SetterFor DesignatedPortID := ltac:(mk_setter).
#[export] Instance set_RootID : SetterFor RootID := ltac:(mk_setter).
#[export] Instance set_ExtRootPathCost : SetterFor ExtRootPathCost := ltac:(mk_setter).

(** mst_configuration_identifier_t. *)
Record mst_configuration_identifier_t := mk_mst_configuration_identifier_t {
  selector : Z;
  configuration_name : list Z;
  revision_level : Z;
  configuration_digest : list Z }.
#[export] Instance mst_configuration_identifier_t_eq_dec : EqDecision mst_configuration_identifier_t.
Proof. solve_decision. Defined.
#[export] Instance eta_mst_configuration_identifier_t : Eta mst_configuration_identifier_t := fun r =>
  mk_mst_configuration_identifier_t (selector r) (configuration_name r) (revision_level
  r) (configuration_digest r).
#[export] Instance set_selector : SetterFor selector := ltac:(mk_setter).
#[export] Instance set_configuration_name : SetterFor configuration_name := ltac:(mk_setter).
#[export] Instance set_revision_level : SetterFor revision_level := ltac:(mk_setter).
#[export] Instance set_configuration_digest : SetterFor configuration_digest := ltac:(mk_setter).

(** msti_configuration_message_t. *)
Record msti_configuration_message_t := mk_msti_configuration_message_t {
  msti_flags : Z;
  mstiRRootID : Z;
  mstiIntRootPathCost : Z;
  bridgeIdentifierPriority : Z;
  portIdentifierPriority : Z;
  msti_remainingHops : Z }.
#[export] Instance eta_msti_configuration_message_t : Eta msti_configuration_message_t := fun r =>
  mk_msti_configuration_message_t (msti_flags r) (mstiRRootID r) (mstiIntRootPathCost
  r) (bridgeIdentifierPriority r) (portIdentifierPriority r) (msti_remainingHops r).
#[export] Instance set_msti_flags : SetterFor msti_flags := ltac:(mk_setter).
#[export] Instance set_mstiRRootID : SetterFor mstiRRootID := ltac:(mk_setter).
#[export] Instance set_mstiIntRootPathCost : SetterFor mstiIntRootPathCost := ltac:(mk_setter).
#[export] Instance set_bridgeIdentifierPriority : SetterFor bridgeIdentifierPriority := ltac:(mk_setter).
#[export] Instance set_portIdentifierPriority : SetterFor portIdentifierPriority := ltac:(mk_setter).
#[export] Instance set_msti_remainingHops : SetterFor msti_remainingHops := ltac:(mk_setter).

(** bpdu_t; a two byte time field is the pair of its bytes. *)
Record bpdu_t := mk_bpdu_t {
  protocolIdentifier : Z;
  protocolVersion : Z;
  bpduType : Z;
  flags : Z;
  cistRootID : Z;
  cistExtRootPathCost : Z;
  cistRRootID : Z;
  cistPortID : Z;
  MessageAge : (Z * Z)%type;
  MaxAge : (Z * Z)%type;
  HelloTime : (Z * Z)%type;
  ForwardDelay : (Z * Z)%type;
  version1_len : Z;
  version3_len : Z;
  mstConfigurationIdentifier : mst_configuration_identifier_t;
  cistIntRootPathCost : Z;
  cistBridgeID : Z;
  cistRemainingHops : Z;
  mstConfiguration : list msti_configuration_message_t }.
#[export] Instance eta_bpdu_t : Eta bpdu_t := fun r =>
  mk_bpdu_t (protocolIdentifier r) (protocolVersion r) (bpduType r) (flags r)
  (cistRootID r) (cistExtRootPathCost r) (cistRRootID r) (cistPortID r) (MessageAge r)
  (MaxAge r) (HelloTime r) (ForwardDelay r) (version1_len r) (version3_len r)
  (mstConfigurationIdentifier r) (cistIntRootPathCost r) (cistBridgeID r)
  (cistRemainingHops r) (mstConfiguration r).
#[export] Instance set_protocolIdentifier : SetterFor protocolIdentifier := ltac:(mk_setter).
#[export] Instance set_protocolVersion : SetterFor protocolVersion := ltac:(mk_setter).
#[export] Instance set_bpduType : SetterFor bpduType := ltac:(mk_setter).
#[export] Instance set_flags : SetterFor flags := ltac:(mk_setter).
#[export] Instance set_cistRootID : SetterFor cistRootID := ltac:(mk_setter).
#[export] Instance set_cistExtRootPathCost : SetterFor cistExtRootPathCost := ltac:(mk_setter).
#[export] Instance set_cistRRootID : SetterFor cistRRootID := ltac:(mk_setter).
#[export] Instance set_cistPortID : SetterFor cistPortID := ltac:(mk_setter).
#[export] Instance set_MessageAge : SetterFor MessageAge := ltac:(mk_setter).
#[export] Instance set_MaxAge : SetterFor MaxAge := ltac:(mk_setter).
#[export] Instance set_HelloTime : SetterFor HelloTime := ltac:(mk_setter).
#[export] Instance set_ForwardDelay : SetterFor ForwardDelay := ltac:(mk_setter).
#[export] Instance set_version1_len : SetterFor version1_len := ltac:(mk_setter).
#[export] Instance set_version3_len : SetterFor version3_len := ltac:(mk_setter).
#[export] Instance set_mstConfigurationIdentifier : SetterFor mstConfigurationIdentifier := ltac:(mk_setter).
#[export] Instance set_cistIntRootPathCost : SetterFor cistIntRootPathCost := ltac:(mk_setter).
#[export] Instance set_cistBridgeID : SetterFor cistBridgeID := ltac:(mk_setter).
#[export] Instance set_cistRemainingHops : SetterFor cistRemainingHops := ltac:(mk_setter).
#[export] Instance set_mstConfiguration : SetterFor mstConfiguration := ltac:(mk_setter).

(** sysdep_br_data_t (bridge_ctl.h). *)
Record sysdep_br_data_t := mk_sysdep_br_data_t {
  br_if_index : Z;
  br_macaddr : Z;
  br_name : string;
  br_up : bool }.
#[export] Instance eta_sysdep_br_data_t : Eta sysdep_br_data_t := fun r =>
  mk_sysdep_br_data_t (br_if_index r) (br_macaddr r) (br_name r) (br_up r).
#[export] Instance set_br_if_index : SetterFor br_if_index := ltac:(mk_setter).
#[export] Instance set_br_macaddr : SetterFor br_macaddr := ltac:(mk_setter).
#[export] Instance set_br_name : SetterFor br_name := ltac:(mk_setter).
#[export] Instance set_br_up : SetterFor br_up := ltac:(mk_setter).

(** sysdep_if_data_t (bridge_ctl.h). *)
Record sysdep_if_data_t := mk_sysdep_if_data_t {
  if_index : Z;
  if_macaddr : Z;
  if_name : string;
  if_up : bool;
  if_speed : Z;
  if_duplex : Z }.
#[export] Instance eta_sysdep_if_data_t : Eta sysdep_if_data_t := fun r =>
  mk_sysdep_if_data_t (if_index r) (if_macaddr r) (if_name r) (if_up r) (if_speed r)
  (if_duplex r).
#[export] Instance set_if_index : SetterFor if_index := ltac:(mk_setter).
#[export] Instance set_if_macaddr : SetterFor if_macaddr := ltac:(mk_setter).
#[export] Instance set_if_name : SetterFor if_name := ltac:(mk_setter).
#[export] Instance set_if_up : SetterFor if_up := ltac:(mk_setter).
#[export] Instance set_if_speed : SetterFor if_speed := ltac:(mk_setter).
#[export] Instance set_if_duplex : SetterFor if_duplex := ltac:(mk_setter).

(** tree_t without its list anchors: its position in [br_trees] is the anchor, and its list [ports] is the column of the per-tree ports of the bridge at that position. *)
Record tree_t := mk_tree_t {
  tree_MSTID : Z;
  BridgeIdentifier : Z;
  rootPortId : Z;
  rootPriority : port_priority_vector_t;
  BridgePriority : port_priority_vector_t;
  BridgeTimes : times_t;
  rootTimes : times_t;
  time_since_topology_change : Z;
  topology_change_count : Z;
  topology_change : bool;
  topology_change_port : string;
  last_topology_change_port : string;
  PRSSM_state : PRSSM_states_t }.
#[export] Instance eta_tree_t : Eta tree_t := fun r =>
  mk_tree_t (tree_MSTID r) (BridgeIdentifier r) (rootPortId r) (rootPriority r)
  (BridgePriority r) (BridgeTimes r) (rootTimes r) (time_since_topology_change r)
  (topology_change_count r) (topology_change r) (topology_change_port r)
  (last_topology_change_port r) (PRSSM_state r).
#[export] Instance set_tree_MSTID : SetterFor tree_MSTID := ltac:(mk_setter).
#[export] Instance set_BridgeIdentifier : SetterFor BridgeIdentifier := ltac:(mk_setter).
#[export] Instance set_rootPortId : SetterFor rootPortId := ltac:(mk_setter).
#[export] Instance set_rootPriority : SetterFor rootPriority := ltac:(mk_setter).
#[export] Instance set_BridgePriority : SetterFor BridgePriority := ltac:(mk_setter).
#[export] Instance set_BridgeTimes : SetterFor BridgeTimes := ltac:(mk_setter).
#[export] Instance set_rootTimes : SetterFor rootTimes := ltac:(mk_setter).
#[export] Instance set_time_since_topology_change : SetterFor time_since_topology_change := ltac:(mk_setter).
#[export] Instance set_topology_change_count : SetterFor topology_change_count := ltac:(mk_setter).
#[export] Instance set_topology_change : SetterFor topology_change := ltac:(mk_setter).
#[export] Instance set_topology_change_port : SetterFor topology_change_port := ltac:(mk_setter).
#[export] Instance set_last_topology_change_port : SetterFor last_topology_change_port := ltac:(mk_setter).
#[export] Instance set_PRSSM_state : SetterFor PRSSM_state := ltac:(mk_setter).

(** per_tree_port_t; the pointer [rcvdMstiConfig] into the array of the port's copy of the last BPDU is the index of the entry, [None] for NULL. *)
Record per_tree_port_t := mk_per_tree_port_t {
  ptp_MSTID : Z;
  ptp_state : br_state_t;
  fdWhile : Z;
  rrWhile : Z;
  rbWhile : Z;
  tcWhile : Z;
  rcvdInfoWhile : Z;
  agree : bool;
  agreed : bool;
  disputed : bool;
  forward : bool;
  forwarding : bool;
  learn : bool;
  learning : bool;
  rcvdInfo : port_info_t;
  infoIs : port_info_origin_t;
  proposed : bool;
  proposing : bool;
  rcvdMsg : bool;
  rcvdTc : bool;
  reRoot : bool;
  reselect : bool;
  selected : bool;
  fdbFlush : bool;
  tcProp : bool;
  updtInfo : bool;
  sync : bool;
  synced : bool;
  portId : Z;
  role : port_role_t;
  selectedRole : port_role_t;
  designatedPriority : port_priority_vector_t;
  msgPriority : port_priority_vector_t;
  portPriority : port_priority_vector_t;
  designatedTimes : times_t;
  msgTimes : times_t;
  portTimes : times_t;
  master : bool;
  mastered : bool;
  InternalPortPathCost : Z;
  AdminInternalPortPathCost : Z;
  start_time : Z;
  PISM_state : PISM_states_t;
  PRTSM_state : PRTSM_states_t;
  PSTSM_state : PSTSM_states_t;
  TCSM_state : TCSM_states_t;
  calledFromFlushRoutine : bool;
  rcvdMstiConfig : option nat }.
#[export] Instance eta_per_tree_port_t : Eta per_tree_port_t := fun r =>
  mk_per_tree_port_t (ptp_MSTID r) (ptp_state r) (fdWhile r) (rrWhile r) (rbWhile r)
  (tcWhile r) (rcvdInfoWhile r) (agree r) (agreed r) (disputed r) (forward r)
  (forwarding r) (learn r) (learning r) (rcvdInfo r) (infoIs r) (proposed r) (proposing
  r) (rcvdMsg r) (rcvdTc r) (reRoot r) (reselect r) (selected r) (fdbFlush r) (tcProp
  r) (updtInfo r) (sync r) (synced r) (portId r) (role r) (selectedRole r)
  (designatedPriority r) (msgPriority r) (portPriority r) (designatedTimes r) (msgTimes
  r) (portTimes r) (master r) (mastered r) (InternalPortPathCost r)
  (AdminInternalPortPathCost r) (start_time r) (PISM_state r) (PRTSM_state r)
  (PSTSM_state r) (TCSM_state r) (calledFromFlushRoutine r) (rcvdMstiConfig r).
#[export] Instance set_ptp_MSTID : SetterFor ptp_MSTID := ltac:(mk_setter).
#[export] Instance set_ptp_state : SetterFor ptp_state := ltac:(mk_setter).
#[export] Instance set_fdWhile : SetterFor fdWhile := ltac:(mk_setter).
#[export] Instance set_rrWhile : SetterFor rrWhile := ltac:(mk_setter).
#[export] Instance set_rbWhile : SetterFor rbWhile := ltac:(mk_setter).
#[export] Instance set_tcWhile : SetterFor tcWhile := ltac:(mk_setter).
#[export] Instance set_rcvdInfoWhile : SetterFor rcvdInfoWhile := ltac:(mk_setter).
#[export] Instance set_agree : SetterFor agree := ltac:(mk_setter).
#[export] Instance set_agreed : SetterFor agreed := ltac:(mk_setter).
#[export] Instance set_disputed : SetterFor disputed := ltac:(mk_setter).
#[export] Instance set_forward : SetterFor forward := ltac:(mk_setter).
#[export] Instance set_forwarding : SetterFor forwarding := ltac:(mk_setter).
#[export] Instance set_learn : SetterFor learn := ltac:(mk_setter).
#[export] Instance set_learning : SetterFor learning := ltac:(mk_setter).
#[export] Instance set_rcvdInfo : SetterFor rcvdInfo := ltac:(mk_setter).
#[export] Instance set_infoIs : SetterFor infoIs := ltac:(mk_setter).
#[export] Instance set_proposed : SetterFor proposed := ltac:(mk_setter).
#[export] Instance set_proposing : SetterFor proposing := ltac:(mk_setter).
#[export] Instance set_rcvdMsg : SetterFor rcvdMsg := ltac:(mk_setter).
#[export] Instance set_rcvdTc : SetterFor rcvdTc := ltac:(mk_setter).
#[export] Instance set_reRoot : SetterFor reRoot := ltac:(mk_setter).
#[export] Instance set_reselect : SetterFor reselect := ltac:(mk_setter).
#[export] Instance set_selected : SetterFor selected := ltac:(mk_setter).
#[export] Instance set_fdbFlush : SetterFor fdbFlush := ltac:(mk_setter).
#[export] Instance set_tcProp : SetterFor tcProp := ltac:(mk_setter).
#[export] Instance set_updtInfo : SetterFor updtInfo := ltac:(mk_setter).
#[export] Instance set_sync : SetterFor sync := ltac:(mk_setter).
#[export] Instance set_synced : SetterFor synced := ltac:(mk_setter).
#[export] Instance set_portId : SetterFor portId := ltac:(mk_setter).
#[export] Instance set_role : SetterFor role := ltac:(mk_setter).
#[export] Instance set_selectedRole : SetterFor selectedRole := ltac:(mk_setter).
#[export] Instance set_designatedPriority : SetterFor designatedPriority := ltac:(mk_setter).
#[export] Instance set_msgPriority : SetterFor msgPriority := ltac:(mk_setter).
#[export] Instance set_portPriority : SetterFor portPriority := ltac:(mk_setter).
#[export] Instance set_designatedTimes : SetterFor designatedTimes := ltac:(mk_setter).
#[export] Instance set_msgTimes : SetterFor msgTimes := ltac:(mk_setter).
#[export] Instance set_portTimes : SetterFor portTimes := ltac:(mk_setter).
#[export] Instance set_master : SetterFor master := ltac:(mk_setter).
#[export] Instance set_mastered : SetterFor mastered := ltac:(mk_setter).
#[export] Instance set_InternalPortPathCost : SetterFor InternalPortPathCost := ltac:(mk_setter).
#[export] Instance set_AdminInternalPortPathCost : SetterFor AdminInternalPortPathCost := ltac:(mk_setter).
#[export] Instance set_start_time : SetterFor start_time := ltac:(mk_setter).
#[export] Instance set_PISM_state : SetterFor PISM_state := ltac:(mk_setter).
#[export] Instance set_PRTSM_state : SetterFor PRTSM_state := ltac:(mk_setter).
#[export] Instance set_PSTSM_state : SetterFor PSTSM_state := ltac:(mk_setter).
#[export] Instance set_TCSM_state : SetterFor TCSM_state := ltac:(mk_setter).
#[export] Instance set_calledFromFlushRoutine : SetterFor calledFromFlushRoutine := ltac:(mk_setter).
#[export] Instance set_rcvdMstiConfig : SetterFor rcvdMstiConfig := ltac:(mk_setter).

(** port_t; [prt_trees] is the list of its per-tree ports, CIST first. *)
Record port_t := mk_port_t {
  port_number : Z;
  prt_trees : list per_tree_port_t;
  mdelayWhile : Z;
  helloWhen : Z;
  edgeDelayWhile : Z;
  txCount : Z;
  operEdge : bool;
  portEnabled : bool;
  infoInternal : bool;
  rcvdInternal : bool;
  mcheck : bool;
  rcvdBpdu : bool;
  rcvdRSTP : bool;
  rcvdSTP : bool;
  rcvdTcAck : bool;
  rcvdTcn : bool;
  sendRSTP : bool;
  tcAck : bool;
  newInfo : bool;
  newInfoMsti : bool;
  operPointToPointMAC : bool;
  restrictedRole : bool;
  restrictedTcn : bool;
  ExternalPortPathCost : Z;
  AdminExternalPortPathCost : Z;
  AdminP2P : Z;
  AdminEdgePort : bool;
  AutoEdge : bool;
  BpduGuardPort : bool;
  BpduGuardError : bool;
  NetworkPort : bool;
  BaInconsistent : bool;
  dontTxmtBpdu : bool;
  bpduFilterPort : bool;
  rapidAgeingWhile : Z;
  brAssuRcvdInfoWhile : Z;
  PRSM_state : PRSM_states_t;
  PPMSM_state : PPMSM_states_t;
  BDSM_state : BDSM_states_t;
  PTSM_state : PTSM_states_t;
  rcvdBpduData : bpdu_t;
  rcvdBpduNumOfMstis : Z;
  deleted : bool;
  prt_sysdeps : sysdep_if_data_t;
  num_rx_bpdu_filtered : Z;
  num_rx_bpdu : Z;
  num_rx_tcn : Z;
  num_tx_bpdu : Z;
  num_tx_tcn : Z;
  num_trans_fwd : Z;
  num_trans_blk : Z }.
#[export] Instance eta_port_t : Eta port_t := fun r =>
  mk_port_t (port_number r) (prt_trees r) (mdelayWhile r) (helloWhen r) (edgeDelayWhile
  r) (txCount r) (operEdge r) (portEnabled r) (infoInternal r) (rcvdInternal r) (mcheck
  r) (rcvdBpdu r) (rcvdRSTP r) (rcvdSTP r) (rcvdTcAck r) (rcvdTcn r) (sendRSTP r)
  (tcAck r) (newInfo r) (newInfoMsti r) (operPointToPointMAC r) (restrictedRole r)
  (restrictedTcn r) (ExternalPortPathCost r) (AdminExternalPortPathCost r) (AdminP2P r)
  (AdminEdgePort r) (AutoEdge r) (BpduGuardPort r) (BpduGuardError r) (NetworkPort r)
  (BaInconsistent r) (dontTxmtBpdu r) (bpduFilterPort r) (rapidAgeingWhile r)
  (brAssuRcvdInfoWhile r) (PRSM_state r) (PPMSM_state r) (BDSM_state r) (PTSM_state r)
  (rcvdBpduData r) (rcvdBpduNumOfMstis r) (deleted r) (prt_sysdeps r)
  (num_rx_bpdu_filtered r) (num_rx_bpdu r) (num_rx_tcn r) (num_tx_bpdu r) (num_tx_tcn
  r) (num_trans_fwd r) (num_trans_blk r).
#[export] Instance set_port_number : SetterFor port_number := ltac:(mk_setter).
#[export] Instance set_prt_trees : SetterFor prt_trees := ltac:(mk_setter).
#[export] Instance set_mdelayWhile : SetterFor mdelayWhile := ltac:(mk_setter).
#[export] Instance set_helloWhen : SetterFor helloWhen := ltac:(mk_setter).
#[export] Instance set_edgeDelayWhile : SetterFor edgeDelayWhile := ltac:(mk_setter).
#[export] Instance set_txCount : SetterFor txCount := ltac:(mk_setter).
#[export] Instance set_operEdge : SetterFor operEdge := ltac:(mk_setter).
#[export] Instance set_portEnabled : SetterFor portEnabled := ltac:(mk_setter).
#[export] Instance set_infoInternal : SetterFor infoInternal := ltac:(mk_setter).
#[export] Instance set_rcvdInternal : SetterFor rcvdInternal := ltac:(mk_setter).
#[export] Instance set_mcheck : SetterFor mcheck := ltac:(mk_setter).
#[export] Instance set_rcvdBpdu : SetterFor rcvdBpdu := ltac:(mk_setter).
#[export] Instance set_rcvdRSTP : SetterFor rcvdRSTP := ltac:(mk_setter).
#[export] Instance set_rcvdSTP : SetterFor rcvdSTP := ltac:(mk_setter).
#[export] Instance set_rcvdTcAck : SetterFor rcvdTcAck := ltac:(mk_setter).
#[export] Instance set_rcvdTcn : SetterFor rcvdTcn := ltac:(mk_setter).
#[export] Instance set_sendRSTP : SetterFor sendRSTP := ltac:(mk_setter).
#[export] Instance set_tcAck : SetterFor tcAck := ltac:(mk_setter).
#[export] Instance set_newInfo : SetterFor newInfo := ltac:(mk_setter).
#[export] Instance set_newInfoMsti : SetterFor newInfoMsti := ltac:(mk_setter).
#[export] Instance set_operPointToPointMAC : SetterFor operPointToPointMAC := ltac:(mk_setter).
#[export] Instance set_restrictedRole : SetterFor restrictedRole := ltac:(mk_setter).
#[export] Instance set_restrictedTcn : SetterFor restrictedTcn := ltac:(mk_setter).
#[export] Instance set_ExternalPortPathCost : SetterFor ExternalPortPathCost := ltac:(mk_setter).
#[export] Instance set_AdminExternalPortPathCost : SetterFor AdminExternalPortPathCost := ltac:(mk_setter).
#[export] Instance set_AdminP2P : SetterFor AdminP2P := ltac:(mk_setter).
#[export] Instance set_AdminEdgePort : SetterFor AdminEdgePort := ltac:(mk_setter).
#[export] Instance set_AutoEdge : SetterFor AutoEdge := ltac:(mk_setter).
#[export] Instance set_BpduGuardPort : SetterFor BpduGuardPort := ltac:(mk_setter).
#[export] Instance set_BpduGuardError : SetterFor BpduGuardError := ltac:(mk_setter).
#[export] Instance set_NetworkPort : SetterFor NetworkPort := ltac:(mk_setter).
#[export] Instance set_BaInconsistent : SetterFor BaInconsistent := ltac:(mk_setter).
#[export] Instance set_dontTxmtBpdu : SetterFor dontTxmtBpdu := ltac:(mk_setter).
#[export] Instance set_bpduFilterPort : SetterFor bpduFilterPort := ltac:(mk_setter).
#[export] Instance set_rapidAgeingWhile : SetterFor rapidAgeingWhile := ltac:(mk_setter).
#[export] Instance set_brAssuRcvdInfoWhile : SetterFor brAssuRcvdInfoWhile := ltac:(mk_setter).
#[export] Instance set_PRSM_state : SetterFor PRSM_state := ltac:(mk_setter).
#[export] Instance set_PPMSM_state : SetterFor PPMSM_state := ltac:(mk_setter).
#[export] Instance set_BDSM_state : SetterFor BDSM_state := ltac:(mk_setter).
#[export] Instance set_PTSM_state : SetterFor PTSM_state := ltac:(mk_setter).
#[export] Instance set_rcvdBpduData : SetterFor rcvdBpduData := ltac:(mk_setter).
#[export] Instance set_rcvdBpduNumOfMstis : SetterFor rcvdBpduNumOfMstis := ltac:(mk_setter).
#[export] Instance set_deleted : SetterFor deleted := ltac:(mk_setter).
#[export] Instance set_prt_sysdeps : SetterFor prt_sysdeps := ltac:(mk_setter).
#[export] Instance set_num_rx_bpdu_filtered : SetterFor num_rx_bpdu_filtered := ltac:(mk_setter).
#[export] Instance set_num_rx_bpdu : SetterFor num_rx_bpdu := ltac:(mk_setter).
#[export] Instance set_num_rx_tcn : SetterFor num_rx_tcn := ltac:(mk_setter).
#[export] Instance set_num_tx_bpdu : SetterFor num_tx_bpdu := ltac:(mk_setter).
#[export] Instance set_num_tx_tcn : SetterFor num_tx_tcn := ltac:(mk_setter).
#[export] Instance set_num_trans_fwd : SetterFor num_trans_fwd := ltac:(mk_setter).
#[export] Instance set_num_trans_blk : SetterFor num_trans_blk := ltac:(mk_setter).

(** bridge_t. *)
Record bridge_t := mk_bridge_t {
  br_ports : list port_t;
  br_trees : list tree_t;
  bridgeEnabled : bool;
  MstConfigId : mst_configuration_identifier_t;
  ForceProtocolVersion : Z;
  MaxHops : Z;
  br_Forward_Delay : Z;
  br_Max_Age : Z;
  br_Hello_Time : Z;
  Transmit_Hold_Count : Z;
  Migrate_Time : Z;
  Ageing_Time : Z;
  vid2fid : list Z;
  fid2mstid : list Z;
  uptime : Z;
  br_sysdeps : sysdep_br_data_t }.
#[export] Instance eta_bridge_t : Eta bridge_t := fun r =>
  mk_bridge_t (br_ports r) (br_trees r) (bridgeEnabled r) (MstConfigId r)
  (ForceProtocolVersion r) (MaxHops r) (br_Forward_Delay r) (br_Max_Age r)
  (br_Hello_Time r) (Transmit_Hold_Count r) (Migrate_Time r) (Ageing_Time r) (vid2fid
  r) (fid2mstid r) (uptime r) (br_sysdeps r).
#[export] Instance set_br_ports : SetterFor br_ports := ltac:(mk_setter).
#[export] Instance set_br_trees : SetterFor br_trees := ltac:(mk_setter).
#[export] Instance set_bridgeEnabled : SetterFor bridgeEnabled := ltac:(mk_setter).
#[export] Instance set_MstConfigId : SetterFor MstConfigId := ltac:(mk_setter).
#[export] Instance set_ForceProtocolVersion : SetterFor ForceProtocolVersion := ltac:(mk_setter).
#[export] Instance set_MaxHops : SetterFor MaxHops := ltac:(mk_setter).
#[export] Instance set_br_Forward_Delay : SetterFor br_Forward_Delay := ltac:(mk_setter).
#[export] Instance set_br_Max_Age : SetterFor br_Max_Age := ltac:(mk_setter).
#[export] Instance set_br_Hello_Time : SetterFor br_Hello_Time := ltac:(mk_setter).
#[export] Instance set_Transmit_Hold_Count : SetterFor Transmit_Hold_Count := ltac:(mk_setter).
#[export] Instance set_Migrate_Time : SetterFor Migrate_Time := ltac:(mk_setter).
#[export] Instance set_Ageing_Time : SetterFor Ageing_Time := ltac:(mk_setter).
#[export] Instance set_vid2fid : SetterFor vid2fid := ltac:(mk_setter).
#[export] Instance set_fid2mstid : SetterFor fid2mstid := ltac:(mk_setter).
#[export] Instance set_uptime : SetterFor uptime := ltac:(mk_setter).
#[export] Instance set_br_sysdeps : SetterFor br_sysdeps := ltac:(mk_setter).
