(* ===== verification/MstpPriority.v ===== *)
(** * Identifiers and priority vectors

    The identifier macros of mstpd/src/mstp.h and the comparison helpers of
    mstpd/src/mstp.c. [better_key] lists the components of a priority vector
    in the order in which 802.1Q compares them; the comparison of the code
    is the lexicographic order on these keys. *)

From S2P Require Import Prelude MstpTypes.

(** ** Constants of mstp.h *)
Definition MAX_PORT_NUMBER : Z := 4095.
Definition MAX_VID : Z := 4094.
Definition MAX_FID : Z := 4095.
Definition MAX_MSTID : Z := 4094.
Definition MAX_STANDARD_MSTIS : Z := 64.
Definition MAX_IMPLEMENTATION_MSTIS : Z := 63.
Definition MAX_PATH_COST : Z := 200000000.
Definition CONFIGURATION_NAME_LEN : nat := 32.
Definition CONFIGURATION_DIGEST_LEN : nat := 16.

(** protocol_version_t and bpduType_t arrive from outside, so they stay
    integers. *)
Definition protoSTP : Z := 0.
Definition protoRSTP : Z := 2.
Definition protoMSTP : Z := 3.
Definition bpduTypeConfig : Z := 0.
Definition bpduTypeRST : Z := 2.
Definition bpduTypeTCN : Z := 128.
Definition encodedRoleMaster : Z := 0.
Definition encodedRoleAlternateBackup : Z := 1.
Definition encodedRoleRoot : Z := 2.
Definition encodedRoleDesignated : Z := 3.
Definition offsetTc : Z := 0.
Definition offsetProposal : Z := 1.
Definition offsetRole : Z := 2.
Definition offsetLearnig : Z := 4.
Definition offsetForwarding : Z := 5.
Definition offsetAgreement : Z := 6.
Definition offsetTcAck : Z := 7.
Definition offsetMaster : Z := offsetTcAck.
Definition p2pAuto : Z := 0.
Definition p2pForceTrue : Z := 1.
Definition p2pForceFalse : Z := 2.

Definition BPDU_FLAGS_ROLE_SET (r : Z) : Z := Z.shiftl (Z.land r 3) offsetRole.
Definition BPDU_FLAGS_ROLE_GET (fl : Z) : Z := Z.land (Z.shiftr fl offsetRole) 3.

(** ** Identifiers

    [w] is the width of the identifier, 64 for a bridge and 16 for a port;
    the macros work on its first octet. *)
Definition GET_PRIORITY_FROM_IDENTIFIER (w id : Z) : Z := Z.land (Z.shiftr id (w - 8)) 0xF0.
Definition SET_PRIORITY_IN_IDENTIFIER (w pri id : Z) : Z :=
  Z.lor (Z.land id (Z.ones (w - 4))) (Z.shiftl (Z.land pri 0xF0) (w - 8)).

(** The two members of the packed struct in bridge_identifier_t. *)
Definition bid_priority (id : Z) : Z := Z.shiftr id 48.
Definition bid_mac_address (id : Z) : Z := Z.land id (Z.ones 48).
Definition make_bid (priority mac : Z) : Z := Z.lor (Z.shiftl priority 48) mac.

(** rstpVersion(br) *)
Definition rstpVersion (b : bridge_t) : bool := protoRSTP <=? ForceProtocolVersion b.
(** assurancePort(prt) *)
Definition assurancePort (prt : port_t) : bool :=
  NetworkPort prt && operPointToPointMAC prt && sendRSTP prt.

(** 13.37.1 - Table 13-3 *)
Definition compute_pcost (speed : Z) : Z :=
  if 0 <? speed then (if speed <? 20000000 then 20000000 / speed else 1) else MAX_PATH_COST.

(** ** Comparison of priority vectors *)

Definition samePriorityAndTimers (vec1 vec2 : port_priority_vector_t) (time1 time2 : times_t)
    (cist : bool) : bool :=
  (if cist then
     (Forward_Delay time1 =? Forward_Delay time2)
     && (Max_Age time1 =? Max_Age time2)
     && (Message_Age time1 =? Message_Age time2)
     && (Hello_Time time1 =? Hello_Time time2)
     && (RootID vec1 =? RootID vec2)
     && (ExtRootPathCost vec1 =? ExtRootPathCost vec2)
   else true)
  && (remainingHops time1 =? remainingHops time2)
  && (RRootID vec1 =? RRootID vec2)
  && (IntRootPathCost vec1 =? IntRootPathCost vec2)
  && (DesignatedBridgeID vec1 =? DesignatedBridgeID vec2)
  && (DesignatedPortID vec1 =? DesignatedPortID vec2).

(** [cmp_then x y rest]: worse gives false, better gives true, the same goes on. *)
Definition cmp_then (x y : Z) (rest : bool) : bool :=
  match x ?= y with
  | Gt => false
  | Lt => true
  | Eq => rest
  end.

Definition betterorsamePriority (vec1 vec2 : port_priority_vector_t) (pId1 pId2 : Z)
    (cist : bool) : bool :=
  let internal :=
    cmp_then (RRootID vec1) (RRootID vec2)
      (cmp_then (IntRootPathCost vec1) (IntRootPathCost vec2)
         (cmp_then (DesignatedBridgeID vec1) (DesignatedBridgeID vec2)
            (cmp_then (DesignatedPortID vec1) (DesignatedPortID vec2)
               (pId1 <=? pId2)))) in
  if cist then
    cmp_then (RootID vec1) (RootID vec2)
      (cmp_then (ExtRootPathCost vec1) (ExtRootPathCost vec2) internal)
  else internal.

(** 13.26.1 betterorsameInfo *)
Definition betterorsameInfo (ptp : per_tree_port_t) (newInfoIs : port_info_origin_t) : bool :=
  if bool_decide (ioReceived = newInfoIs) && bool_decide (ioReceived = infoIs ptp) then
    betterorsamePriority (msgPriority ptp) (portPriority ptp) 0 0 (0 =? ptp_MSTID ptp)
  else if bool_decide (ioMine = newInfoIs) && bool_decide (ioMine = infoIs ptp) then
    betterorsamePriority (designatedPriority ptp) (portPriority ptp) 0 0 (0 =? ptp_MSTID ptp)
  else false.

(** ** The order that the comparison decides *)

Fixpoint lex_le (l1 l2 : list Z) : Prop :=
  match l1, l2 with
  | a :: l1, b :: l2 => a < b \/ (a = b /\ lex_le l1 l2)
  | [], _ => True
  | _ :: _, [] => False
  end.

Definition better_key (vec : port_priority_vector_t) (pId : Z) (cist : bool) : list Z :=
  (if cist then [RootID vec; ExtRootPathCost vec] else [])
  ++ [RRootID vec; IntRootPathCost vec; DesignatedBridgeID vec; DesignatedPortID vec; pId].

Lemma cmp_then_spec x y rest :
  cmp_then x y rest = true <-> x < y \/ (x = y /\ rest = true).
Proof.
  unfold cmp_then. destruct (Z.compare_spec x y); intuition (lia || congruence).
Qed.

Lemma betterorsamePriority_lex v1 v2 p1 p2 c :
  betterorsamePriority v1 v2 p1 p2 c = true <-> lex_le (better_key v1 p1 c) (better_key v2 p2 c).
Proof.
  unfold betterorsamePriority, better_key.
  destruct c; simpl; rewrite !cmp_then_spec, Z.leb_le; intuition lia.
Qed.

Lemma lex_le_refl l : lex_le l l.
Proof. induction l; simpl; auto. Qed.

Lemma lex_le_trans l1 l2 l3 : lex_le l1 l2 -> lex_le l2 l3 -> lex_le l1 l3.
Proof.
  revert l2 l3. induction l1 as [|a l1 IH]; intros [|b l2] [|c l3]; simpl; try done.
  intros [?|[-> ?]] [?|[-> ?]]; [left; lia|left; lia|left; lia|right; eauto].
Qed.

Lemma lex_le_total l1 l2 : lex_le l1 l2 \/ lex_le l2 l1.
Proof.
  revert l2. induction l1 as [|a l1 IH]; intros [|b l2]; simpl; auto.
  destruct (Z.lt_total a b) as [?|[->|?]]; [auto| |auto].
  destruct (IH l2); auto.
Qed.

Lemma lex_le_antisymm l1 l2 : lex_le l1 l2 -> lex_le l2 l1 -> l1 = l2.
Proof.
  revert l2. induction l1 as [|a l1 IH]; intros [|b l2]; simpl; try done.
  intros [?|[-> ?]] [?|[? ?]]; try lia. f_equal; auto.
Qed.

#[export] Instance lex_le_preorder : PreOrder lex_le.
Proof. split; [exact lex_le_refl | intros ???; apply lex_le_trans]. Qed.

Lemma better_key_length v p c v' p' : length (better_key v p c) = length (better_key v' p' c).
Proof. by destruct c. Qed.

Lemma betterorsamePriority_false v1 v2 p1 p2 c :
  betterorsamePriority v1 v2 p1 p2 c = false ->
  lex_le (better_key v2 p2 c) (better_key v1 p1 c) /\ better_key v1 p1 c <> better_key v2 p2 c.
Proof.
  intros Hb.
  assert (~ lex_le (better_key v1 p1 c) (better_key v2 p2 c)) as Hn.
  { rewrite <- betterorsamePriority_lex. congruence. }
  split.
  - destruct (lex_le_total (better_key v1 p1 c) (better_key v2 p2 c)); [done|auto].
  - intros He. apply Hn. rewrite He. reflexivity.
Qed.
