(* ===== verification/MstpBpdu.v ===== *)
(** * Spanning tree messages

    The packed layout of [bpdu_t] (mstpd/src/mstp.h) with a decoder and an
    encoder, the validation of received messages (clause 14.4, in
    MSTP_IN_rx_bpdu of mstpd/src/mstp.c), the messages that txConfig, txMstp
    and txTcn build, and the Ethernet/LLC frame around a message
    (mstpd/src/bridge_track.c). *)

From S2P Require Import Prelude Bytes MstpTypes MstpPriority.

(** ** Sizes (offsetof in bpdu_t) *)
Definition TCN_BPDU_SIZE : Z := 4.
Definition CONFIG_BPDU_SIZE : Z := 35.
Definition RST_BPDU_SIZE : Z := 36.
Definition MST_BPDU_SIZE_WO_MSTI_MSGS : Z := 102.
Definition MST_BPDU_VER3LEN_WO_MSTI_MSGS : Z := 64.
Definition sizeof_msti_msg : Z := 16.

(** ** The octets of a message *)

Definition enc_pair (p : Z * Z) : list Z := be_bytes 1 p.1 ++ be_bytes 1 p.2.

Definition enc_mcid (c : mst_configuration_identifier_t) : list Z :=
  be_bytes 1 (selector c) ++ configuration_name c
  ++ be_bytes 2 (revision_level c) ++ configuration_digest c.

Definition enc_msti (m : msti_configuration_message_t) : list Z :=
  be_bytes 1 (msti_flags m) ++ be_bytes 8 (mstiRRootID m) ++ be_bytes 4 (mstiIntRootPathCost m)
  ++ be_bytes 1 (bridgeIdentifierPriority m) ++ be_bytes 1 (portIdentifierPriority m)
  ++ be_bytes 1 (msti_remainingHops m).

Definition encode_bpdu (b : bpdu_t) : list Z :=
  be_bytes 2 (protocolIdentifier b) ++ be_bytes 1 (protocolVersion b) ++ be_bytes 1 (bpduType b)
  ++ be_bytes 1 (flags b) ++ be_bytes 8 (cistRootID b) ++ be_bytes 4 (cistExtRootPathCost b)
  ++ be_bytes 8 (cistRRootID b) ++ be_bytes 2 (cistPortID b)
  ++ enc_pair (MessageAge b) ++ enc_pair (MaxAge b) ++ enc_pair (HelloTime b)
  ++ enc_pair (ForwardDelay b)
  ++ be_bytes 1 (version1_len b) ++ be_bytes 2 (version3_len b)
  ++ enc_mcid (mstConfigurationIdentifier b)
  ++ be_bytes 4 (cistIntRootPathCost b) ++ be_bytes 8 (cistBridgeID b)
  ++ be_bytes 1 (cistRemainingHops b)
  ++ flat_map enc_msti (mstConfiguration b).

(** Reading a memory block field by field. *)
Definition Rd (A : Type) : Type := list Z -> A * list Z.
Definition rd (n : nat) : Rd Z := fun l => (be_val (take n l), drop n l).
Definition rd_raw (n : nat) : Rd (list Z) := fun l => (take n l, drop n l).
Definition rd_pair : Rd (Z * Z) := fun l =>
  let '(a, l) := rd 1 l in let '(b, l) := rd 1 l in ((a, b), l).

Definition rd_mcid : Rd mst_configuration_identifier_t := fun l =>
  let '(s, l) := rd 1 l in
  let '(n, l) := rd_raw CONFIGURATION_NAME_LEN l in
  let '(r, l) := rd 2 l in
  let '(d, l) := rd_raw CONFIGURATION_DIGEST_LEN l in
  (mk_mst_configuration_identifier_t s n r d, l).

Definition rd_msti : Rd msti_configuration_message_t := fun l =>
  let '(f, l) := rd 1 l in
  let '(r, l) := rd 8 l in
  let '(c, l) := rd 4 l in
  let '(b, l) := rd 1 l in
  let '(p, l) := rd 1 l in
  let '(h, l) := rd 1 l in
  (mk_msti_configuration_message_t f r c b p h, l).

Fixpoint rd_mstis (n : nat) : Rd (list msti_configuration_message_t) := fun l =>
  match n with
  | O => ([], l)
  | S n => let '(m, l) := rd_msti l in let '(ms, l) := rd_mstis n l in (m :: ms, l)
  end.

(** The cast of a buffer to [bpdu_t *]: [l] is all the memory behind the
    pointer, the octets behind the message included, which are what earlier
    packets have left in the receive buffer. Behind the end of [l] it reads
    zeros. *)
Definition decode_bpdu (l : list Z) : bpdu_t :=
  let '(a1, l) := rd 2 l in
  let '(a2, l) := rd 1 l in
  let '(a3, l) := rd 1 l in
  let '(a4, l) := rd 1 l in
  let '(a5, l) := rd 8 l in
  let '(a6, l) := rd 4 l in
  let '(a7, l) := rd 8 l in
  let '(a8, l) := rd 2 l in
  let '(a9, l) := rd_pair l in
  let '(a10, l) := rd_pair l in
  let '(a11, l) := rd_pair l in
  let '(a12, l) := rd_pair l in
  let '(a13, l) := rd 1 l in
  let '(a14, l) := rd 2 l in
  let '(a15, l) := rd_mcid l in
  let '(a16, l) := rd 4 l in
  let '(a17, l) := rd 8 l in
  let '(a18, l) := rd 1 l in
  let '(a19, l) := rd_mstis (Z.to_nat MAX_STANDARD_MSTIS) l in
  mk_bpdu_t a1 a2 a3 a4 a5 a6 a7 a8 a9 a10 a11 a12 a13 a14 a15 a16 a17 a18 a19.

(** ** Validation of a received message

    [rx_validate bpdu size] is [None] when the message is dropped and
    otherwise the value that is stored in [protocolVersion] and, for a valid
    MST BPDU, the number of its MSTI messages. [size] is converted to the 32
    bit size_t of the target in the comparisons. *)
Definition rx_validate (bpdu : bpdu_t) (size : Z) : option (Z * option Z) :=
  if (u32 size <? TCN_BPDU_SIZE) || negb (protocolIdentifier bpdu =? 0) then None
  else if bpduType bpdu =? bpduTypeTCN then Some (protoSTP, None)
  else if bpduType bpdu =? bpduTypeConfig then
    if u32 size <? CONFIG_BPDU_SIZE then None else Some (protoSTP, None)
  else if bpduType bpdu =? bpduTypeRST then
    if protoRSTP =? protocolVersion bpdu then
      if u32 size <? RST_BPDU_SIZE then None else Some (protoRSTP, None)
    else if protocolVersion bpdu <? protoMSTP then None
    else if u32 size <? CONFIG_BPDU_SIZE then None
    else
      let mstis_size := version3_len bpdu - MST_BPDU_VER3LEN_WO_MSTI_MSGS in
      if (u32 size <? MST_BPDU_SIZE_WO_MSTI_MSGS) || negb (version1_len bpdu =? 0)
         || (mstis_size <? 0) || (MAX_STANDARD_MSTIS * sizeof_msti_msg <? mstis_size)
         || negb (mstis_size mod sizeof_msti_msg =? 0)
      then Some (protoRSTP, None)
      else Some (protoMSTP, Some (mstis_size / sizeof_msti_msg))
  else None.

(** ** Messages to send *)

Definition flag_if (c : bool) (offset : Z) : Z := if c then Z.shiftl 1 offset else 0.

Definition message_role_from_port_role (r : port_role_t) : Z :=
  match r with
  | roleRoot => encodedRoleRoot
  | roleDesignated => encodedRoleDesignated
  | roleAlternate | roleBackup => encodedRoleAlternateBackup
  | roleMaster => encodedRoleMaster
  | roleDisabled => encodedRoleAlternateBackup
  end.

(** The Configuration BPDU of txConfig, built over the uninitialised [b]. *)
Definition config_bpdu (b : bpdu_t) (tcAck : bool) (cist : per_tree_port_t) : bpdu_t :=
  b <| protocolIdentifier := 0 |>
    <| protocolVersion := protoSTP |>
    <| bpduType := bpduTypeConfig |>
    <| flags := Z.lor (flag_if (negb (tcWhile cist =? 0)) offsetTc) (flag_if tcAck offsetTcAck) |>
    <| cistRootID := RootID (designatedPriority cist) |>
    <| cistExtRootPathCost := ExtRootPathCost (designatedPriority cist) |>
    <| cistRRootID := DesignatedBridgeID (designatedPriority cist) |>
    <| cistPortID := DesignatedPortID (designatedPriority cist) |>
    <| MessageAge := (Message_Age (designatedTimes cist), 0) |>
    <| MaxAge := (Max_Age (designatedTimes cist), 0) |>
    <| HelloTime := (Hello_Time (portTimes cist), 0) |>
    <| ForwardDelay := (Forward_Delay (designatedTimes cist), 0) |>.

(** The flags that txMstp computes for a tree, without the Master bit. *)
Definition tree_flags (x : per_tree_port_t) : Z :=
  Z.lor (BPDU_FLAGS_ROLE_SET (message_role_from_port_role (role x)))
  (Z.lor (flag_if (negb (tcWhile x =? 0)) offsetTc)
  (Z.lor (flag_if (proposing x) offsetProposal)
  (Z.lor (flag_if (learning x) offsetLearnig)
  (Z.lor (flag_if (forwarding x) offsetForwarding)
         (flag_if (agree x) offsetAgreement))))).

(** The part of txMstp before the version is decided. *)
Definition rst_bpdu (b : bpdu_t) (cist : per_tree_port_t) : bpdu_t :=
  b <| protocolIdentifier := 0 |>
    <| bpduType := bpduTypeRST |>
    <| flags := tree_flags cist |>
    <| cistRootID := RootID (designatedPriority cist) |>
    <| cistExtRootPathCost := ExtRootPathCost (designatedPriority cist) |>
    <| cistRRootID := RRootID (designatedPriority cist) |>
    <| cistPortID := DesignatedPortID (designatedPriority cist) |>
    <| MessageAge := (Message_Age (designatedTimes cist), 0) |>
    <| MaxAge := (Max_Age (designatedTimes cist), 0) |>
    <| HelloTime := (Hello_Time (portTimes cist), 0) |>
    <| ForwardDelay := (Forward_Delay (designatedTimes cist), 0) |>
    <| version1_len := 0 |>.

(** One MSTI configuration message. *)
Definition msti_message (x : per_tree_port_t) : msti_configuration_message_t :=
  {| msti_flags := Z.lor (tree_flags x) (flag_if (master x) offsetMaster);
     mstiRRootID := RRootID (designatedPriority x);
     mstiIntRootPathCost := IntRootPathCost (designatedPriority x);
     bridgeIdentifierPriority :=
       GET_PRIORITY_FROM_IDENTIFIER 64 (DesignatedBridgeID (designatedPriority x));
     portIdentifierPriority :=
       GET_PRIORITY_FROM_IDENTIFIER 16 (DesignatedPortID (designatedPriority x));
     msti_remainingHops := remainingHops (designatedTimes x) |}.

Definition mst_bpdu (b : bpdu_t) (cfgid : mst_configuration_identifier_t)
    (cist : per_tree_port_t) (mstis : list per_tree_port_t) : bpdu_t :=
  (rst_bpdu b cist)
    <| protocolVersion := protoMSTP |>
    <| mstConfigurationIdentifier := cfgid |>
    <| cistIntRootPathCost := IntRootPathCost (designatedPriority cist) |>
    <| cistBridgeID := DesignatedBridgeID (designatedPriority cist) |>
    <| cistRemainingHops := remainingHops (designatedTimes cist) |>
    <| mstConfiguration := map msti_message mstis ++ drop (length mstis) (mstConfiguration b) |>
    <| version3_len := u16 (MST_BPDU_VER3LEN_WO_MSTI_MSGS
                            + sizeof_msti_msg * Z.of_nat (length mstis)) |>.

(** The TCN BPDU of txTcn. *)
Definition tcn_bpdu (b : bpdu_t) : bpdu_t :=
  b <| protocolIdentifier := 0 |>
    <| protocolVersion := protoSTP |>
    <| bpduType := bpduTypeTCN |>.

(** ** The frame around a message (struct llc_header) *)
Definition LLC_PDU_LEN_U : Z := 3.
Definition LLC_PDU_TYPE_U : Z := 3.
Definition LLC_SAP_BSPAN : Z := 0x42.
Definition bridge_group_address : Z := 0x0180c2000000.
Definition sizeof_llc_header : nat := 17.

Definition llc_header (src_mac size : Z) : list Z :=
  be_bytes 6 bridge_group_address ++ be_bytes 6 src_mac
  ++ be_bytes 2 (u16 (size + LLC_PDU_LEN_U))
  ++ be_bytes 1 LLC_SAP_BSPAN ++ be_bytes 1 LLC_SAP_BSPAN ++ be_bytes 1 LLC_PDU_TYPE_U.

(** What MSTP_OUT_tx_bpdu hands to packet_send. *)
Definition tx_frame (src_mac : Z) (b : bpdu_t) (size : Z) : list Z :=
  llc_header src_mac size ++ take (Z.to_nat size) (encode_bpdu b).

(** ** Round trip of the layout *)

Definition pair_ok (p : Z * Z) : Prop := is_byte p.1 /\ is_byte p.2.
Definition mcid_ok (c : mst_configuration_identifier_t) : Prop :=
  is_byte (selector c) /\ length (configuration_name c) = CONFIGURATION_NAME_LEN
  /\ 0 <= revision_level c < 256 ^ 2
  /\ length (configuration_digest c) = CONFIGURATION_DIGEST_LEN.
Definition msti_ok (m : msti_configuration_message_t) : Prop :=
  is_byte (msti_flags m) /\ 0 <= mstiRRootID m < 256 ^ 8
  /\ 0 <= mstiIntRootPathCost m < 256 ^ 4 /\ is_byte (bridgeIdentifierPriority m)
  /\ is_byte (portIdentifierPriority m) /\ is_byte (msti_remainingHops m).

(** Every field fits its width, and the MSTI array has its 64 entries. *)
Record bpdu_ok (b : bpdu_t) : Prop := {
  ok_protocolIdentifier : 0 <= protocolIdentifier b < 256 ^ 2;
  ok_protocolVersion : is_byte (protocolVersion b);
  ok_bpduType : is_byte (bpduType b);
  ok_flags : is_byte (flags b);
  ok_cistRootID : 0 <= cistRootID b < 256 ^ 8;
  ok_cistExtRootPathCost : 0 <= cistExtRootPathCost b < 256 ^ 4;
  ok_cistRRootID : 0 <= cistRRootID b < 256 ^ 8;
  ok_cistPortID : 0 <= cistPortID b < 256 ^ 2;
  ok_MessageAge : pair_ok (MessageAge b);
  ok_MaxAge : pair_ok (MaxAge b);
  ok_HelloTime : pair_ok (HelloTime b);
  ok_ForwardDelay : pair_ok (ForwardDelay b);
  ok_version1_len : is_byte (version1_len b);
  ok_version3_len : 0 <= version3_len b < 256 ^ 2;
  ok_mcid : mcid_ok (mstConfigurationIdentifier b);
  ok_cistIntRootPathCost : 0 <= cistIntRootPathCost b < 256 ^ 4;
  ok_cistBridgeID : 0 <= cistBridgeID b < 256 ^ 8;
  ok_cistRemainingHops : is_byte (cistRemainingHops b);
  ok_mstis : Forall msti_ok (mstConfiguration b);
  ok_num_mstis : length (mstConfiguration b) = Z.to_nat MAX_STANDARD_MSTIS }.

Lemma rd_be n x l : 0 <= x < 256 ^ Z.of_nat n -> rd n (be_bytes n x ++ l) = (x, l).
Proof.
  intros Hx. unfold rd.
  rewrite take_app_length', drop_app_length' by (by rewrite length_be_bytes).
  by rewrite be_val_be_bytes_small.
Qed.

Lemma rd_raw_app n l l' : length l = n -> rd_raw n (l ++ l') = (l, l').
Proof. intros Hl. unfold rd_raw. by rewrite take_app_length', drop_app_length'. Qed.

Lemma rd_pair_enc p l : pair_ok p -> rd_pair (enc_pair p ++ l) = (p, l).
Proof.
  intros [H1 H2]. unfold rd_pair, enc_pair. rewrite <-app_assoc.
  rewrite rd_be, rd_be by done. by destruct p.
Qed.

Lemma rd_mcid_enc c l : mcid_ok c -> rd_mcid (enc_mcid c ++ l) = (c, l).
Proof.
  intros (H1 & H2 & H3 & H4). unfold rd_mcid, enc_mcid. rewrite <-!app_assoc.
  rewrite rd_be, rd_raw_app, rd_be, rd_raw_app by done. by destruct c.
Qed.

Lemma rd_msti_enc m l : msti_ok m -> rd_msti (enc_msti m ++ l) = (m, l).
Proof.
  intros (H1 & H2 & H3 & H4 & H5 & H6). unfold rd_msti, enc_msti. rewrite <-!app_assoc.
  rewrite !rd_be by done. by destruct m.
Qed.

Lemma rd_mstis_enc ms l :
  Forall msti_ok ms -> rd_mstis (length ms) (flat_map enc_msti ms ++ l) = (ms, l).
Proof.
  induction 1 as [|m ms Hm Hms IH]; [done|].
  cbn [length rd_mstis flat_map]. rewrite <-app_assoc, rd_msti_enc by done. by rewrite IH.
Qed.

Lemma decode_encode_app b l : bpdu_ok b -> decode_bpdu (encode_bpdu b ++ l) = b.
Proof.
  intros []. unfold decode_bpdu, encode_bpdu. rewrite <-!app_assoc.
  repeat first [rewrite rd_be by done | rewrite rd_pair_enc by done | rewrite rd_mcid_enc by done].
  rewrite <-ok_num_mstis0, rd_mstis_enc by done. by destruct b.
Qed.
