(* ===== verification/MstpMonad.v ===== *)
(** * The state of the daemon and the monad of its operations

    A [world] is one bridge together with what the daemon has sent to the
    kernel. An operation is a function from worlds to an [outcome]: it
    returns, it dereferences an invalid pointer ([Fault]), or the bound on
    the depth of recursive calls of a state machine is reached ([Fuel]).
    [wp] is the weakest precondition of an operation, for partial or total
    correctness. *)

From S2P Require Import Prelude MstpTypes.

(** ** Outputs

    The calls by which mstpd/src/bridge_track.c reaches the kernel. *)
Inductive event_t :=
  | Ev_br_set_state (ifindex : Z) (st : br_state_t)
  | Ev_br_flush_port (ifname : string)
  | Ev_br_set_ageing_time (brname : string) (ageing_time : Z)
  | Ev_packet_send (ifindex : Z) (frame : list Z)
  | Ev_if_shutdown (ifname : string).

(** [clock k] is the number of times the loop of the [k]-th call of
    br_state_machines_run may start again before its second is over;
    [stack_bpdu] is what the uninitialised local [bpdu_t b] holds. *)
Record world := mk_world {
  br : bridge_t;
  out : list event_t;
  clock : nat -> nat;
  runs : nat;
  stack_bpdu : bpdu_t }.
#[export] Instance eta_world : Eta world := fun w =>
  mk_world (br w) (out w) (clock w) (runs w) (stack_bpdu w).
#[export] Instance set_br : SetterFor br := ltac:(mk_setter).
#[export] Instance set_out : SetterFor out := ltac:(mk_setter).
#[export] Instance set_clock : SetterFor clock := ltac:(mk_setter).
#[export] Instance set_runs : SetterFor runs := ltac:(mk_setter).
#[export] Instance set_stack_bpdu : SetterFor stack_bpdu := ltac:(mk_setter).

Inductive outcome (A : Type) :=
  | Ret (a : A) (w : world)
  | Fault
  | Fuel.
Arguments Ret {A} a w.
Arguments Fault {A}.
Arguments Fuel {A}.

Definition M (A : Type) : Type := world -> outcome A.

#[export] Instance M_ret : MRet M := fun A a w => Ret a w.
#[export] Instance M_bind : MBind M := fun A B k m w =>
  match m w with
  | Ret a w' => k a w'
  | Fault => Fault
  | Fuel => Fuel
  end.

Definition fault {A} : M A := fun _ => Fault.
Definition out_of_fuel {A} : M A := fun _ => Fuel.

(** ** Access to the objects *)

Definition get_world : M world := fun w => Ret w w.
Definition the_br : M bridge_t := fun w => Ret (br w) w.
Definition emit (e : event_t) : M unit := fun w => Ret tt (w <| out := out w ++ [e] |>).
Definition mod_br (f : bridge_t -> bridge_t) : M unit := fun w => Ret tt (w <| br := f (br w) |>).

Definition deref {A} (o : option A) : M A := fun w =>
  match o with Some a => Ret a w | None => Fault end.

Definition lookup_ptp (b : bridge_t) (p t : nat) : option per_tree_port_t :=
  br_ports b !! p ≫= fun prt => prt_trees prt !! t.

Definition alter_port (p : nat) (f : port_t -> port_t) (b : bridge_t) : bridge_t :=
  b <| br_ports := alter f p (br_ports b) |>.
Definition alter_tree (t : nat) (f : tree_t -> tree_t) (b : bridge_t) : bridge_t :=
  b <| br_trees := alter f t (br_trees b) |>.
Definition alter_ptp (p t : nat) (f : per_tree_port_t -> per_tree_port_t) : bridge_t -> bridge_t :=
  alter_port p (fun prt => prt <| prt_trees := alter f t (prt_trees prt) |>).

Definition the_port (p : nat) : M port_t := fun w => deref (br_ports (br w) !! p) w.
Definition the_tree (t : nat) : M tree_t := fun w => deref (br_trees (br w) !! t) w.
Definition the_ptp (p t : nat) : M per_tree_port_t := fun w => deref (lookup_ptp (br w) p t) w.

Definition mod_port (p : nat) (f : port_t -> port_t) : M unit :=
  the_port p ;; mod_br (alter_port p f).
Definition mod_tree (t : nat) (f : tree_t -> tree_t) : M unit :=
  the_tree t ;; mod_br (alter_tree t f).
Definition mod_ptp (p t : nat) (f : per_tree_port_t -> per_tree_port_t) : M unit :=
  the_ptp p t ;; mod_br (alter_ptp p t f).

(** ** Loops

    FOREACH_PORT_IN_BRIDGE, FOREACH_TREE_IN_BRIDGE, FOREACH_PTP_IN_PORT and
    FOREACH_PTP_IN_TREE; [for_msti_in_port] is list_for_each_entry_continue
    starting after the CIST entry of a port. *)

Fixpoint for_each (l : list nat) (f : nat -> M unit) : M unit :=
  match l with
  | [] => mret tt
  | i :: l => f i ;; for_each l f
  end.

(** A state machine that has found a transition: a dry run reports it, an
    actual run performs it and returns false. *)
Definition transition (dry_run : bool) (action : M unit) : M bool :=
  if dry_run then mret true else action ;; mret false.

(** The same with early exit when the body returns true. *)
Fixpoint any_of (l : list nat) (f : nat -> M bool) : M bool :=
  match l with
  | [] => mret false
  | i :: l => b ← f i; if (b : bool) then mret true else any_of l f
  end.

Definition num_ports : M nat := b ← the_br; mret (length (br_ports b)).
Definition num_trees : M nat := b ← the_br; mret (length (br_trees b)).
Definition num_ptps (p : nat) : M nat := prt ← the_port p; mret (length (prt_trees prt)).

Definition for_port_in_bridge (f : nat -> M unit) : M unit :=
  n ← num_ports; for_each (seq 0 n) f.
Definition for_tree_in_bridge (f : nat -> M unit) : M unit :=
  n ← num_trees; for_each (seq 0 n) f.
Definition for_ptp_in_port (p : nat) (f : nat -> M unit) : M unit :=
  n ← num_ptps p; for_each (seq 0 n) f.
Definition for_ptp_in_tree (f : nat -> M unit) : M unit :=
  for_port_in_bridge f.
Definition for_msti_in_port (p : nat) (f : nat -> M unit) : M unit :=
  n ← num_ptps p; for_each (seq 1 (n - 1)) f.

(** The per-tree ports of a port, and of a tree (in the order of the ports). *)
Definition ptps_of_port (p : nat) : M (list per_tree_port_t) :=
  prt ← the_port p; mret (prt_trees prt).

Definition column (b : bridge_t) (t : nat) : option (list per_tree_port_t) :=
  mapM (fun prt => prt_trees prt !! t) (br_ports b).

Definition ptps_of_tree (t : nat) : M (list per_tree_port_t) := fun w =>
  deref (column (br w) t) w.

Lemma bind_ret {A B} (m : M A) (k : A -> M B) w a w' :
  m w = Ret a w' -> (m ≫= k) w = k a w'.
Proof. intros Hm. unfold mbind, M_bind. by rewrite Hm. Qed.

(** ** Weakest preconditions

    [wp tot m Q w]: from [w] the operation does not fault, and if it returns
    it does so with a value and in a state that satisfy [Q]; with [tot] it
    does return. *)

Definition wp {A} (tot : bool) (m : M A) (Q : A -> world -> Prop) (w : world) : Prop :=
  match m w with
  | Ret a w' => Q a w'
  | Fault => False
  | Fuel => tot = false
  end.

(** [returns m Q w]: the operation returns, in a state that satisfies [Q]. *)
Definition returns {A} (m : M A) (Q : A -> world -> Prop) (w : world) : Prop :=
  exists a w', m w = Ret a w' /\ Q a w'.

Section wp_rules.
Context {A B : Type} (tot : bool).

Lemma wp_ret (a : A) Q w : Q a w -> wp tot (mret a) Q w.
Proof. done. Qed.

Lemma wp_bind (m : M A) (k : A -> M B) Q w :
  wp tot m (fun a w' => wp tot (k a) Q w') w -> wp tot (m ≫= k) Q w.
Proof. unfold wp, mbind, M_bind. destruct (m w); done. Qed.

Lemma wp_mono (m : M A) (Q Q' : A -> world -> Prop) w :
  wp tot m Q w -> (forall a w', Q a w' -> Q' a w') -> wp tot m Q' w.
Proof. unfold wp. destruct (m w); naive_solver. Qed.

Lemma wp_weaken (m : M A) Q w : wp true m Q w -> wp tot m Q w.
Proof. unfold wp. destruct (m w); done. Qed.

Lemma wp_returns (m : M A) Q w : wp true m Q w <-> returns m Q w.
Proof.
  unfold wp, returns. split.
  - destruct (m w) eqn:Hm; naive_solver.
  - intros (a & w' & Hm & HQ). by rewrite Hm.
Qed.

Lemma wp_not_fault (m : M A) Q w : wp tot m Q w -> m w <> Fault.
Proof. unfold wp. by destruct (m w). Qed.

Lemma wp_elim (m : M A) Q w a w' : wp tot m Q w -> m w = Ret a w' -> Q a w'.
Proof. unfold wp. intros H Hm. by rewrite Hm in H. Qed.

Lemma wp_eq (m : M A) (Q : A -> world -> Prop) w a w' : m w = Ret a w' -> Q a w' -> wp tot m Q w.
Proof. unfold wp. by intros ->. Qed.

Lemma wp_at_eq (m m' : M A) Q w w' : m w = m' w' -> wp tot m' Q w' -> wp tot m Q w.
Proof. unfold wp. by intros ->. Qed.

Lemma wp_deref (o : option A) (a : A) Q w : o = Some a -> Q a w -> wp tot (deref o) Q w.
Proof. intros ->. done. Qed.
End wp_rules.

(** Loop rules: an invariant of the body is an invariant of the loop. *)
Lemma wp_for_each tot (I : world -> Prop) l f w :
  I w ->
  (forall i w', i ∈ l -> I w' -> wp tot (f i) (fun _ w'' => I w'') w') ->
  wp tot (for_each l f) (fun _ w' => I w') w.
Proof.
  revert w. induction l as [|i l IH]; intros w Hw Hf; simpl; [done|].
  apply wp_bind. eapply wp_mono; [apply Hf; [apply list_elem_of_here|done]|].
  intros a w' Hw'; cbv beta in Hw'. apply IH; [done|].
  intros j w'' Hj. apply Hf. by apply list_elem_of_further.
Qed.

Lemma wp_any_of tot (I : world -> Prop) l f w :
  I w ->
  (forall i w', i ∈ l -> I w' -> wp tot (f i) (fun _ w'' => I w'') w') ->
  wp tot (any_of l f) (fun _ w' => I w') w.
Proof.
  revert w. induction l as [|i l IH]; intros w Hw Hf; simpl; [done|].
  apply wp_bind. eapply wp_mono; [apply Hf; [apply list_elem_of_here|done]|].
  intros b w' Hw'. destruct b; [done|].
  apply IH; [done|]. intros j w'' Hj. apply Hf. by apply list_elem_of_further.
Qed.

(** A loop whose [k]-th iteration leads from [I k] to [I (S k)]. *)
Lemma wp_for_each_seq tot (I : nat -> world -> Prop) n f a w :
  I a w ->
  (forall i w', (a <= i < a + n)%nat -> I i w' -> wp tot (f i) (fun _ w'' => I (S i) w'') w') ->
  wp tot (for_each (seq a n) f) (fun _ w' => I (a + n)%nat w') w.
Proof.
  revert a w. induction n as [|n IH]; intros a w Hw Hf; simpl.
  - by rewrite Nat.add_0_r.
  - apply wp_bind. eapply wp_mono; [apply Hf; [lia|done]|].
    intros u w' Hw'; cbv beta in Hw'.
    replace (a + S n)%nat with (S a + n)%nat by lia.
    apply IH; [done|]. intros i w'' Hi. apply Hf. lia.
Qed.
