(* ===== verification/MstpOut.v ===== *)
(** * External actions

    The MSTP_OUT_* functions of mstpd/src/bridge_track.c with the driver
    hooks of mstpd/src/driver_deps.c, and the parts of mstpd/src/mstp.c that
    send messages and keep the topology change counters. *)

From S2P Require Import Prelude Bytes MstpTypes MstpPriority MstpBpdu MstpMonad.

(** ** Driver hooks *)
Definition driver_set_new_state (new_state : br_state_t) : br_state_t := new_state.
Definition driver_set_ageing_time (ageingTime : Z) : Z := ageingTime.

(** ** Actions *)

Definition MSTP_OUT_set_state (p t : nat) (new_state : br_state_t) : M unit :=
  x ← the_ptp p t;
  if bool_decide (ptp_state x = new_state) then mret tt
  else
    let st := driver_set_new_state new_state in
    mod_ptp p t (fun x => x <| ptp_state := st |>) ;;
    (match st with
     | BR_STATE_FORWARDING =>
         mod_port p (fun prt => prt <| num_trans_fwd := u32 (num_trans_fwd prt + 1) |>)
     | BR_STATE_BLOCKING =>
         mod_port p (fun prt => prt <| num_trans_blk := u32 (num_trans_blk prt + 1) |>)
     | _ => mret tt
     end) ;;
    (if ptp_MSTID x =? 0 then
       prt ← the_port p;
       emit (Ev_br_set_state (if_index (prt_sysdeps prt)) st)
     else mret tt).

Definition MSTP_OUT_set_ageing_time (p : nat) (ageingTime : Z) : M unit :=
  b ← the_br;
  emit (Ev_br_set_ageing_time (br_name (br_sysdeps b)) (driver_set_ageing_time ageingTime)).

Definition MSTP_OUT_tx_bpdu (p : nat) (bpdu : bpdu_t) (size : Z) : M unit :=
  mod_port p (fun prt => prt <| num_tx_bpdu := u32 (num_tx_bpdu prt + 1) |>) ;;
  (if ((protocolVersion bpdu =? protoSTP) && (bpduType bpdu =? bpduTypeTCN))
      || test_bit (flags bpdu) offsetTc then
     mod_port p (fun prt => prt <| num_tx_tcn := u32 (num_tx_tcn prt + 1) |>)
   else mret tt) ;;
  prt ← the_port p;
  emit (Ev_packet_send (if_index (prt_sysdeps prt))
          (tx_frame (if_macaddr (prt_sysdeps prt)) bpdu size)).

Definition MSTP_OUT_shutdown_port (p : nat) : M unit :=
  prt ← the_port p; emit (Ev_if_shutdown (if_name (prt_sysdeps prt))).

(** ** Transmission *)

Definition the_cist (p : nat) : M per_tree_port_t := the_ptp p 0.
Definition the_stack_bpdu : M bpdu_t := w ← get_world; mret (stack_bpdu w).

(** The guard that txConfig, txMstp and txTcn share. *)
Definition tx_suppressed (prt : port_t) (cist : per_tree_port_t) : bool :=
  deleted prt || bool_decide (roleDisabled = role cist) || dontTxmtBpdu prt.

(** 13.26.19 txConfig *)
Definition txConfig (p : nat) : M unit :=
  prt ← the_port p;
  cist ← the_cist p;
  if tx_suppressed prt cist then mret tt
  else
    b ← the_stack_bpdu;
    MSTP_OUT_tx_bpdu p (config_bpdu b (tcAck prt) cist) CONFIG_BPDU_SIZE.

(** txMstp; writing an MSTI message past the end of the array is a fault. *)
Definition txMstp (p : nat) : M unit :=
  bridge ← the_br;
  prt ← the_port p;
  cist ← the_cist p;
  if tx_suppressed prt cist then mret tt
  else
    b ← the_stack_bpdu;
    if ForceProtocolVersion bridge <? protoMSTP then
      MSTP_OUT_tx_bpdu p ((rst_bpdu b cist) <| protocolVersion := protoRSTP |>) RST_BPDU_SIZE
    else
      let mstis := tail (prt_trees prt) in
      if MAX_STANDARD_MSTIS <? Z.of_nat (length mstis) then fault
      else
        MSTP_OUT_tx_bpdu p (mst_bpdu b (MstConfigId bridge) cist mstis)
          (MST_BPDU_SIZE_WO_MSTI_MSGS + sizeof_msti_msg * Z.of_nat (length mstis)).

(** 13.26.a) txTcn *)
Definition txTcn (p : nat) : M unit :=
  prt ← the_port p;
  cist ← the_cist p;
  if tx_suppressed prt cist then mret tt
  else
    b ← the_stack_bpdu;
    MSTP_OUT_tx_bpdu p (tcn_bpdu b) TCN_BPDU_SIZE.

(** ** Topology change bookkeeping *)

Definition IFNAMSIZ : nat := 16.
Definition strncpy_name (s : string) : string := String.substring 0 IFNAMSIZ s.

Definition set_TopologyChange (t : nat) (hint_SetToYes : bool) (p : nat) : M unit :=
  tree ← the_tree t;
  if hint_SetToYes then
    prt ← the_port p;
    mod_tree t (fun tr => tr
      <| topology_change := true |>
      <| time_since_topology_change := 0 |>
      <| topology_change_count :=
           if topology_change tree then topology_change_count tr
           else u32 (topology_change_count tr + 1) |>
      <| topology_change_port := strncpy_name (last_topology_change_port tr) |>
      <| last_topology_change_port := strncpy_name (if_name (prt_sysdeps prt)) |>)
  else if negb (topology_change tree) then mret tt
  else
    mod_tree t (fun tr => tr <| topology_change := false |>) ;;
    ptps ← ptps_of_tree t;
    if existsb (fun x => negb (tcWhile x =? 0)) ptps then
      mod_tree t (fun tr => tr <| topology_change := true |>
                               <| time_since_topology_change := 0 |>)
    else mret tt.

(** newInfoXst = TRUE *)
Definition set_newInfoXst (p t : nat) : M unit :=
  x ← the_ptp p t;
  if ptp_MSTID x =? 0 then mod_port p (fun prt => prt <| newInfo := true |>)
  else mod_port p (fun prt => prt <| newInfoMsti := true |>).

(** 13.26.5 newTcWhile *)
Definition newTcWhile (p t : nat) : M unit :=
  x ← the_ptp p t;
  if negb (tcWhile x =? 0) then mret tt
  else
    prt ← the_port p;
    if sendRSTP prt then
      cist ← the_cist p;
      mod_ptp p t (fun x => x <| tcWhile := Hello_Time (portTimes cist) + 1 |>) ;;
      set_TopologyChange t true p ;;
      set_newInfoXst p t
    else
      tree ← the_tree t;
      mod_ptp p t (fun x => x <| tcWhile := Max_Age (rootTimes tree)
                                            + Forward_Delay (rootTimes tree) |>) ;;
      set_TopologyChange t true p.

(** 13.26.17 setTcPropTree *)
Definition setTcPropTree (p t : nat) : M unit :=
  prt ← the_port p;
  if restrictedTcn prt then mret tt
  else
    for_ptp_in_tree (fun q =>
      if Nat.eqb q p then mret tt
      else mod_ptp q t (fun x => x <| tcProp := true |>)).
