(* ===== verification/MstpPort.v ===== *)
(** * Per-port state machines of mstpd/src/mstp.c

    Port Timers, Port Receive, Port Protocol Migration, Bridge Detection and
    Port Transmit. A C function X_to_S enters state S; where it ends with a
    recursive call of X_run the definition takes that call as an argument
    [rec], and X_runf closes the loop with a bound on the depth. *)

From S2P Require Import Prelude Bytes MstpTypes MstpPriority MstpBpdu MstpMonad MstpOut.

(** ** Port Timers (13.27) *)

Definition dec (x : Z) : Z := if x =? 0 then 0 else x - 1.

Definition PTSM_tick (p : nat) : M unit :=
  mod_port p (fun prt => prt
    <| helloWhen := dec (helloWhen prt) |>
    <| mdelayWhile := dec (mdelayWhile prt) |>
    <| edgeDelayWhile := dec (edgeDelayWhile prt) |>
    <| txCount := dec (txCount prt) |>
    <| brAssuRcvdInfoWhile := dec (brAssuRcvdInfoWhile prt) |>) ;;
  for_ptp_in_port p (fun t =>
    mod_ptp p t (fun x => x
      <| fdWhile := dec (fdWhile x) |>
      <| rrWhile := dec (rrWhile x) |>
      <| rbWhile := dec (rbWhile x) |>) ;;
    x ← the_ptp p t;
    (if negb (tcWhile x =? 0) then
       mod_ptp p t (fun x => x <| tcWhile := tcWhile x - 1 |>) ;;
       (if tcWhile x - 1 =? 0 then set_TopologyChange t false p else mret tt)
     else mret tt) ;;
    mod_ptp p t (fun x => x <| rcvdInfoWhile := dec (rcvdInfoWhile x) |>)).

(** ** Helpers of the Port Receive machine *)

(** 13.26.2 clearAllRcvdMsgs *)
Definition clearAllRcvdMsgs (p : nat) (dry_run : bool) : M bool :=
  if dry_run then
    xs ← ptps_of_port p;
    mret (existsb rcvdMsg xs)
  else
    for_ptp_in_port p (fun t => mod_ptp p t (fun x => x <| rcvdMsg := false |>)) ;;
    mret false.

(** 13.26.4 fromSameRegion *)
Definition fromSameRegion (b : bridge_t) (prt : port_t) : bool :=
  if protocolVersion (rcvdBpduData prt) <? protoMSTP then false
  else bool_decide (MstConfigId b = mstConfigurationIdentifier (rcvdBpduData prt)).

(** 13.26.21 updtBPDUVersion *)
Definition updtBPDUVersion (p : nat) : M unit :=
  mod_port p (fun prt =>
    if protoRSTP <=? protocolVersion (rcvdBpduData prt) then prt <| rcvdRSTP := true |>
    else prt <| rcvdSTP := true |>).

(** The search of setRcvdMsgs for the message of an MSTI: the index of the
    first of the [n] messages with this MSTID. *)
Fixpoint find_msti (n : nat) (msgs : list msti_configuration_message_t) (mstid : Z) : option nat :=
  match n, msgs with
  | S n, m :: msgs =>
      if Z.land (bid_priority (mstiRRootID m)) 0x0FFF =? mstid then Some 0%nat
      else S <$> find_msti n msgs mstid
  | _, _ => None
  end.

(** 13.26.12 setRcvdMsgs *)
Definition setRcvdMsgs (p : nat) : M unit :=
  mod_ptp p 0 (fun x => x <| rcvdMsg := true |>) ;;
  prt ← the_port p;
  if rcvdInternal prt then
    for_msti_in_port p (fun t =>
      x ← the_ptp p t;
      match find_msti (Z.to_nat (rcvdBpduNumOfMstis prt))
              (mstConfiguration (rcvdBpduData prt)) (ptp_MSTID x) with
      | Some i =>
          mod_ptp p t (fun x => x <| rcvdMsg := true |> <| rcvdMstiConfig := Some i |>)
      | None => mret tt
      end)
  else mret tt.

(** ** Port Receive (13.28) *)

Definition PRSM_to_DISCARD (p : nat) (dry_run : bool) : M bool :=
  b ← the_br;
  prt ← the_port p;
  if dry_run then
    if negb (bool_decide (PRSM_state prt = PRSM_DISCARD))
       || rcvdBpdu prt || rcvdRSTP prt || rcvdSTP prt
       || negb (edgeDelayWhile prt =? Migrate_Time b)
    then mret true
    else clearAllRcvdMsgs p true
  else
    mod_port p (fun prt => prt
      <| PRSM_state := PRSM_DISCARD |>
      <| rcvdBpdu := false |>
      <| rcvdRSTP := false |>
      <| rcvdSTP := false |>) ;;
    clearAllRcvdMsgs p false ;;
    mod_port p (fun prt => prt <| edgeDelayWhile := Migrate_Time b |>) ;;
    mret false.

Definition PRSM_begin (p : nat) : M unit := PRSM_to_DISCARD p false ;; mret tt.

Definition PRSM_to_RECEIVE (p : nat) : M unit :=
  b ← the_br;
  mod_port p (fun prt => prt <| PRSM_state := PRSM_RECEIVE |>) ;;
  updtBPDUVersion p ;;
  mod_port p (fun prt => prt <| rcvdInternal := fromSameRegion b prt |>) ;;
  setRcvdMsgs p ;;
  mod_port p (fun prt => prt
    <| operEdge := false |>
    <| rcvdBpdu := false |>
    <| edgeDelayWhile := Migrate_Time b |>).

Definition PRSM_run (p : nat) (dry_run : bool) : M bool :=
  b ← the_br;
  prt ← the_port p;
  if (rcvdBpdu prt || negb (edgeDelayWhile prt =? Migrate_Time b)) && negb (portEnabled prt) then
    PRSM_to_DISCARD p dry_run
  else
    match PRSM_state prt with
    | PRSM_DISCARD =>
        if rcvdBpdu prt && portEnabled prt then transition dry_run (PRSM_to_RECEIVE p)
        else mret false
    | PRSM_RECEIVE =>
        let rcvdAnyMsg := existsb rcvdMsg (prt_trees prt) in
        if rcvdBpdu prt && portEnabled prt && negb rcvdAnyMsg then
          transition dry_run (PRSM_to_RECEIVE p)
        else mret false
    end.

(** ** Port Protocol Migration (13.29) *)

Definition PPMSM_to_CHECKING_RSTP (p : nat) : M unit :=
  b ← the_br;
  mod_port p (fun prt => prt
    <| PPMSM_state := PPMSM_CHECKING_RSTP |>
    <| mcheck := false |>
    <| sendRSTP := rstpVersion b |>
    <| mdelayWhile := Migrate_Time b |>).

Definition PPMSM_begin : nat -> M unit := PPMSM_to_CHECKING_RSTP.

Definition PPMSM_to_SELECTING_STP (rec : M unit) (p : nat) : M unit :=
  b ← the_br;
  mod_port p (fun prt => prt
    <| PPMSM_state := PPMSM_SELECTING_STP |>
    <| sendRSTP := false |>
    <| mdelayWhile := Migrate_Time b |>) ;;
  rec.

Definition PPMSM_to_SENSING (rec : M unit) (p : nat) : M unit :=
  mod_port p (fun prt => prt
    <| PPMSM_state := PPMSM_SENSING |>
    <| rcvdRSTP := false |>
    <| rcvdSTP := false |>) ;;
  rec.

Fixpoint PPMSM_runf (n : nat) (p : nat) (dry_run : bool) : M bool :=
  match n with
  | O => out_of_fuel
  | S n =>
      let rec := PPMSM_runf n p false ;; mret tt in
      b ← the_br;
      prt ← the_port p;
      match PPMSM_state prt with
      | PPMSM_CHECKING_RSTP =>
          if negb (mdelayWhile prt =? Migrate_Time b) && negb (portEnabled prt) then
            transition dry_run (PPMSM_to_CHECKING_RSTP p)
          else if mdelayWhile prt =? 0 then
            transition dry_run (PPMSM_to_SENSING rec p)
          else mret false
      | PPMSM_SELECTING_STP =>
          if (mdelayWhile prt =? 0) || negb (portEnabled prt) || mcheck prt then
            transition dry_run (PPMSM_to_SENSING rec p)
          else mret false
      | PPMSM_SENSING =>
          if negb (portEnabled prt) || mcheck prt
             || (rstpVersion b && negb (sendRSTP prt) && rcvdRSTP prt) then
            transition dry_run (PPMSM_to_CHECKING_RSTP p)
          else if sendRSTP prt && rcvdSTP prt then
            transition dry_run (PPMSM_to_SELECTING_STP rec p)
          else mret false
      end
  end.

Definition PPMSM_depth : nat := 4.
Definition PPMSM_run (p : nat) (dry_run : bool) : M bool := PPMSM_runf PPMSM_depth p dry_run.

(** ** Bridge Detection (13.30) *)

Definition BDSM_to_EDGE (p : nat) : M unit :=
  mod_port p (fun prt => prt <| BDSM_state := BDSM_EDGE |> <| operEdge := true |>).

Definition BDSM_to_NOT_EDGE (p : nat) : M unit :=
  mod_port p (fun prt => prt <| BDSM_state := BDSM_NOT_EDGE |> <| operEdge := false |>).

Definition BDSM_begin (p : nat) : M unit :=
  prt ← the_port p;
  if AdminEdgePort prt then BDSM_to_EDGE p else BDSM_to_NOT_EDGE p.

Definition BDSM_run (p : nat) (dry_run : bool) : M bool :=
  prt ← the_port p;
  match BDSM_state prt with
  | BDSM_EDGE =>
      if ((negb (portEnabled prt) || negb (AutoEdge prt)) && negb (AdminEdgePort prt))
         || negb (operEdge prt) then
        transition dry_run (BDSM_to_NOT_EDGE p)
      else mret false
  | BDSM_NOT_EDGE =>
      cist ← the_cist p;
      if (negb (portEnabled prt) && AdminEdgePort prt)
         || ((edgeDelayWhile prt =? 0) && AutoEdge prt && sendRSTP prt && proposing cist) then
        transition dry_run (BDSM_to_EDGE p)
      else mret false
  end.

(** ** Port Transmit (13.31) *)

Definition PTSM_to_TRANSMIT_INIT (rec : M unit) (p : nat) (begin dry_run : bool) : M bool :=
  prt ← the_port p;
  if dry_run then
    mret (negb (bool_decide (PTSM_state prt = PTSM_TRANSMIT_INIT))
          || negb (newInfo prt) || negb (newInfoMsti prt) || negb (txCount prt =? 0))
  else
    mod_port p (fun prt => prt
      <| PTSM_state := PTSM_TRANSMIT_INIT |>
      <| newInfo := true |>
      <| newInfoMsti := true |>
      <| txCount := 0 |>) ;;
    (if negb begin && portEnabled prt then rec else mret tt) ;;
    mret false.

Definition PTSM_begin (p : nat) : M unit := PTSM_to_TRANSMIT_INIT (mret tt) p true false ;; mret tt.

Definition PTSM_to_TRANSMIT_CONFIG (rec : M unit) (p : nat) : M unit :=
  mod_port p (fun prt => prt <| PTSM_state := PTSM_TRANSMIT_CONFIG |> <| newInfo := false |>) ;;
  txConfig p ;;
  mod_port p (fun prt => prt <| txCount := u32 (txCount prt + 1) |> <| tcAck := false |>) ;;
  rec.

Definition PTSM_to_TRANSMIT_TCN (rec : M unit) (p : nat) : M unit :=
  mod_port p (fun prt => prt <| PTSM_state := PTSM_TRANSMIT_TCN |> <| newInfo := false |>) ;;
  txTcn p ;;
  mod_port p (fun prt => prt <| txCount := u32 (txCount prt + 1) |>) ;;
  rec.

Definition PTSM_to_TRANSMIT_RSTP (rec : M unit) (p : nat) : M unit :=
  mod_port p (fun prt => prt
    <| PTSM_state := PTSM_TRANSMIT_RSTP |> <| newInfo := false |> <| newInfoMsti := false |>) ;;
  txMstp p ;;
  mod_port p (fun prt => prt <| txCount := u32 (txCount prt + 1) |> <| tcAck := false |>) ;;
  rec.

(** roleDesignated, or roleRoot with a running tcWhile *)
Definition DesignatedOrTCpropagatingRootPort (x : per_tree_port_t) : bool :=
  bool_decide (roleDesignated = role x)
  || (bool_decide (roleRoot = role x) && negb (tcWhile x =? 0)).

Definition PTSM_to_TRANSMIT_PERIODIC (rec : M unit) (p : nat) : M unit :=
  mod_port p (fun prt => prt <| PTSM_state := PTSM_TRANSMIT_PERIODIC |>) ;;
  cist ← the_cist p;
  xs ← ptps_of_port p;
  mod_port p (fun prt => prt
    <| newInfo := newInfo prt || DesignatedOrTCpropagatingRootPort cist |>
    <| newInfoMsti := newInfoMsti prt || existsb DesignatedOrTCpropagatingRootPort (tail xs) |>) ;;
  rec.

Definition PTSM_to_IDLE (rec : M unit) (p : nat) : M unit :=
  mod_port p (fun prt => prt <| PTSM_state := PTSM_IDLE |>) ;;
  cist ← the_cist p;
  mod_port p (fun prt => prt <| helloWhen := Hello_Time (portTimes cist) |>) ;;
  rec.

Fixpoint PTSM_runf (n : nat) (p : nat) (dry_run : bool) : M bool :=
  match n with
  | O => out_of_fuel
  | S n =>
      let rec := PTSM_runf n p false ;; mret tt in
      b ← the_br;
      prt ← the_port p;
      if negb (portEnabled prt) then PTSM_to_TRANSMIT_INIT rec p false dry_run
      else
        match PTSM_state prt with
        | PTSM_IDLE =>
            cist ← the_cist p;
            let allTransmitReady :=
              forallb (fun x => selected x && negb (updtInfo x)) (prt_trees prt) in
            let mstiMasterPort :=
              existsb (fun x => bool_decide (roleMaster = role x)) (tail (prt_trees prt)) in
            if negb allTransmitReady then mret false
            else if helloWhen prt =? 0 then
              transition dry_run (PTSM_to_TRANSMIT_PERIODIC rec p)
            else if negb (txCount prt <? Transmit_Hold_Count b) then mret false
            else if bpduFilterPort prt then mret false
            else if sendRSTP prt then
              if newInfo prt || (newInfoMsti prt && negb mstiMasterPort) || assurancePort prt then
                transition dry_run (PTSM_to_TRANSMIT_RSTP rec p)
              else mret false
            else if newInfo prt && bool_decide (roleDesignated = role cist) then
              transition dry_run (PTSM_to_TRANSMIT_CONFIG rec p)
            else if newInfo prt && bool_decide (roleRoot = role cist) then
              transition dry_run (PTSM_to_TRANSMIT_TCN rec p)
            else mret false
        | _ => transition dry_run (PTSM_to_IDLE rec p)
        end
  end.

(** One message per unit of Transmit_Hold_Count, two calls per message, and
    one round for the periodic message. *)
Definition PTSM_depth : nat := 32.
Definition PTSM_run (p : nat) (dry_run : bool) : M bool := PTSM_runf PTSM_depth p dry_run.
