(* ===== verification/MstpInfo.v ===== *)
(** * Port Information state machine (13.32) of mstpd/src/mstp.c

    Reception of the message of a tree (rcvInfo), the record* functions of
    clause 13.26, and the machine itself. *)

From S2P Require Import Prelude Bytes MstpTypes MstpPriority MstpBpdu MstpMonad MstpOut.

(** The MSTI configuration message that rcvdMstiConfig points to; the array
    it points into is the port's copy of the last message. *)
Definition the_msti_msg (p t : nat) : M msti_configuration_message_t :=
  prt ← the_port p;
  x ← the_ptp p t;
  deref (rcvdMstiConfig x ≫= fun i => mstConfiguration (rcvdBpduData prt) !! i).

(** NEAREST_WHOLE_SECOND, assigned to an octet *)
Definition NEAREST_WHOLE_SECOND (msgTime : Z * Z) : Z :=
  if msgTime.2 <? 128 then msgTime.1 else u8 (msgTime.1 + 1).

(** The classification at the end of rcvInfo, once msgPriority and msgTimes
    hold the values of the message. *)
Definition classify_info (x : per_tree_port_t) (roleIsDesignated cist : bool) : port_info_t :=
  let mPri := msgPriority x in
  let msg_Better_port := negb (betterorsamePriority (portPriority x) mPri 0 0 cist) in
  if roleIsDesignated then
    let msg_SamePriorityAndTimers_port :=
      samePriorityAndTimers mPri (portPriority x) (msgTimes x) (portTimes x) cist in
    if msg_Better_port
       || ((bid_mac_address (DesignatedBridgeID mPri)
            =? bid_mac_address (DesignatedBridgeID (portPriority x)))
           && (Z.land (Z.lxor (DesignatedPortID mPri) (DesignatedPortID (portPriority x))) 0x0FFF
               =? 0))
    then SuperiorDesignatedInfo
    else if negb msg_SamePriorityAndTimers_port
            && betterorsamePriority mPri (portPriority x) 0 0 cist
    then SuperiorDesignatedInfo
    else if msg_SamePriorityAndTimers_port && bool_decide (ioReceived = infoIs x)
    then RepeatedDesignatedInfo
    else InferiorDesignatedInfo
  else if negb msg_Better_port then InferiorRootAlternateInfo
  else OtherInfo.

(** Whether the role bits of CIST flags convey a designated port: [None] when
    the message is other information. *)
Definition cist_role_is_designated (b : bpdu_t) : option bool :=
  if negb (protoSTP =? protocolVersion b) then
    let r := BPDU_FLAGS_ROLE_GET (flags b) in
    if (r =? encodedRoleAlternateBackup) || (r =? encodedRoleRoot) then Some false
    else if r =? encodedRoleDesignated then Some true
    else if protoRSTP =? protocolVersion b then Some true
    else None
  else Some true.

Definition msti_role_is_designated (m : msti_configuration_message_t) : option bool :=
  let r := BPDU_FLAGS_ROLE_GET (msti_flags m) in
  if (r =? encodedRoleAlternateBackup) || (r =? encodedRoleRoot) then Some false
  else if r =? encodedRoleDesignated then Some true
  else None.

(** The assignments to msgPriority and msgTimes for the CIST. *)
Definition cist_msgPriority (b : bpdu_t) (v : port_priority_vector_t) : port_priority_vector_t :=
  let v := v <| RRootID := cistRRootID b |> <| DesignatedPortID := cistPortID b |>
             <| RootID := cistRootID b |> <| ExtRootPathCost := cistExtRootPathCost b |> in
  if protocolVersion b <? protoMSTP then
    v <| IntRootPathCost := 0 |> <| DesignatedBridgeID := cistRRootID b |>
  else
    v <| IntRootPathCost := cistIntRootPathCost b |> <| DesignatedBridgeID := cistBridgeID b |>.

Definition cist_msgTimes (MaxHops : Z) (b : bpdu_t) : times_t :=
  {| remainingHops := if protocolVersion b <? protoMSTP then MaxHops else cistRemainingHops b;
     Forward_Delay := NEAREST_WHOLE_SECOND (ForwardDelay b);
     Max_Age := NEAREST_WHOLE_SECOND (MaxAge b);
     Message_Age := NEAREST_WHOLE_SECOND (MessageAge b);
     Hello_Time := NEAREST_WHOLE_SECOND (HelloTime b) |}.

(** The assignments for an MSTI. *)
Definition msti_msgPriority (MSTID : Z) (b : bpdu_t) (m : msti_configuration_message_t)
    (v : port_priority_vector_t) : port_priority_vector_t :=
  v <| RRootID := mstiRRootID m |>
    <| IntRootPathCost := mstiIntRootPathCost m |>
    <| DesignatedBridgeID :=
         SET_PRIORITY_IN_IDENTIFIER 64 (bridgeIdentifierPriority m)
           (make_bid MSTID (bid_mac_address (cistBridgeID b))) |>
    <| DesignatedPortID :=
         SET_PRIORITY_IN_IDENTIFIER 16 (portIdentifierPriority m) (cistPortID b) |>.

(** 13.26.6 rcvInfo *)
Definition rcvInfo (p t : nat) : M port_info_t :=
  bridge ← the_br;
  prt ← the_port p;
  x ← the_ptp p t;
  let b := rcvdBpduData prt in
  if bpduTypeTCN =? bpduType b then
    mod_port p (fun prt => prt <| rcvdTcn := true |>) ;;
    for_ptp_in_port p (fun s => mod_ptp p s (fun x => x <| rcvdTc := true |>)) ;;
    mret OtherInfo
  else if 0 =? ptp_MSTID x then
    match cist_role_is_designated b with
    | None => mret OtherInfo
    | Some roleIsDesignated =>
        mod_ptp p t (fun x => x <| msgPriority := cist_msgPriority b (msgPriority x) |>
                                <| msgTimes := cist_msgTimes (MaxHops bridge) b |>) ;;
        x ← the_ptp p t;
        mret (classify_info x roleIsDesignated true)
    end
  else if protocolVersion b <? protoMSTP then mret OtherInfo
  else
    m ← the_msti_msg p t;
    match msti_role_is_designated m with
    | None => mret OtherInfo
    | Some roleIsDesignated =>
        mod_ptp p t (fun x => x
          <| msgPriority := msti_msgPriority (ptp_MSTID x) b m (msgPriority x) |>
          <| msgTimes := (msgTimes x) <| remainingHops := msti_remainingHops m |> |>) ;;
        x ← the_ptp p t;
        mret (classify_info x roleIsDesignated false)
    end.

(** 13.26.7 recordAgreement *)
Definition recordAgreement (p t : nat) : M unit :=
  bridge ← the_br;
  prt ← the_port p;
  x ← the_ptp p t;
  let b := rcvdBpduData prt in
  let accept := fun x => x <| agreed := true |> <| proposing := false |> in
  let reject := fun x => x <| agreed := false |> in
  if 0 =? ptp_MSTID x then
    (if rstpVersion bridge && operPointToPointMAC prt && test_bit (flags b) offsetAgreement
     then mod_ptp p t accept else mod_ptp p t reject) ;;
    if negb (rcvdInternal prt) then
      cist ← the_ptp p t;
      for_msti_in_port p (fun s => mod_ptp p s (fun x =>
        x <| agreed := agreed cist |> <| proposing := proposing cist |>))
    else mret tt
  else
    cist ← the_cist p;
    m ← the_msti_msg p t;
    if operPointToPointMAC prt
       && (cistRootID b =? RootID (portPriority cist))
       && (cistExtRootPathCost b =? ExtRootPathCost (portPriority cist))
       && (cistRRootID b =? RRootID (portPriority cist))
       && test_bit (msti_flags m) offsetAgreement
    then mod_ptp p t accept else mod_ptp p t reject.

(** 13.26.8 recordDispute *)
Definition recordDispute (p t : nat) : M unit :=
  prt ← the_port p;
  x ← the_ptp p t;
  let dispute := fun x => x <| disputed := true |> <| agreed := false |> in
  if 0 =? ptp_MSTID x then
    if test_bit (flags (rcvdBpduData prt)) offsetLearnig then
      mod_ptp p t dispute ;;
      if negb (rcvdInternal prt) then for_msti_in_port p (fun s => mod_ptp p s dispute)
      else mret tt
    else mret tt
  else
    m ← the_msti_msg p t;
    if test_bit (msti_flags m) offsetLearnig then mod_ptp p t dispute else mret tt.

(** 13.26.9 recordMastered *)
Definition recordMastered (p t : nat) : M unit :=
  prt ← the_port p;
  x ← the_ptp p t;
  if 0 =? ptp_MSTID x then
    if negb (rcvdInternal prt) then
      for_msti_in_port p (fun s => mod_ptp p s (fun x => x <| mastered := false |>))
    else mret tt
  else if operPointToPointMAC prt then
    m ← the_msti_msg p t;
    mod_ptp p t (fun x => x <| mastered := test_bit (msti_flags m) offsetMaster |>)
  else mod_ptp p t (fun x => x <| mastered := false |>).

(** 13.26.f) recordPriority *)
Definition recordPriority (p t : nat) : M unit :=
  mod_ptp p t (fun x => x <| portPriority := msgPriority x |>).

(** 13.26.10 recordProposal *)
Definition recordProposal (p t : nat) : M unit :=
  prt ← the_port p;
  x ← the_ptp p t;
  if 0 =? ptp_MSTID x then
    (if test_bit (flags (rcvdBpduData prt)) offsetProposal
     then mod_ptp p t (fun x => x <| proposed := true |>) else mret tt) ;;
    if negb (rcvdInternal prt) then
      cist ← the_ptp p t;
      for_msti_in_port p (fun s => mod_ptp p s (fun x => x <| proposed := proposed cist |>))
    else mret tt
  else
    m ← the_msti_msg p t;
    if test_bit (msti_flags m) offsetProposal
    then mod_ptp p t (fun x => x <| proposed := true |>) else mret tt.

(** 13.26.11 recordTimes: the configured Hello_Time is kept *)
Definition recordTimes (p t : nat) : M unit :=
  mod_ptp p t (fun x =>
    x <| portTimes := (msgTimes x) <| Hello_Time := Hello_Time (portTimes x) |> |>).

(** 13.26.16 setTcFlags *)
Definition setTcFlags (p t : nat) : M unit :=
  prt ← the_port p;
  x ← the_ptp p t;
  if 0 =? ptp_MSTID x then
    let cistFlags := flags (rcvdBpduData prt) in
    (if test_bit cistFlags offsetTcAck
     then mod_port p (fun prt => prt <| rcvdTcAck := true |>) else mret tt) ;;
    if test_bit cistFlags offsetTc then
      mod_ptp p t (fun x => x <| rcvdTc := true |>) ;;
      if negb (rcvdInternal prt) then
        for_msti_in_port p (fun s => mod_ptp p s (fun x => x <| proposed := true |>))
      else mret tt
    else mret tt
  else
    m ← the_msti_msg p t;
    if test_bit (msti_flags m) offsetTc
    then mod_ptp p t (fun x => x <| rcvdTc := true |>) else mret tt.

(** 13.26.22 updtRcvdInfoWhile *)
Definition updtRcvdInfoWhile (p t : nat) : M unit :=
  prt ← the_port p;
  cist ← the_cist p;
  let times := portTimes cist in
  mod_ptp p t (fun x =>
    if (negb (rcvdInternal prt) && (Message_Age times + 1 <=? Max_Age times))
       || (rcvdInternal prt && (1 <? remainingHops (portTimes x)))
    then x <| rcvdInfoWhile := 3 * Hello_Time times |>
    else x <| rcvdInfoWhile := 0 |>).

(** ** The machine *)

Definition PISM_to_DISABLED (rec : M unit) (p t : nat) (begin : bool) : M unit :=
  mod_ptp p t (fun x => x
    <| PISM_state := PISM_DISABLED |>
    <| rcvdMsg := false |>
    <| proposing := false |>
    <| proposed := false |>
    <| agree := false |>
    <| agreed := false |>
    <| rcvdInfoWhile := 0 |>
    <| infoIs := ioDisabled |>
    <| reselect := true |>
    <| selected := false |>) ;;
  if negb begin then rec else mret tt.

Definition PISM_begin (p t : nat) : M unit := PISM_to_DISABLED (mret tt) p t true.

Definition PISM_to_AGED (rec : M unit) (p t : nat) : M unit :=
  mod_ptp p t (fun x => x
    <| PISM_state := PISM_AGED |>
    <| infoIs := ioAged |>
    <| reselect := true |>
    <| selected := false |>) ;;
  rec.

(** The assignments of PISM_to_UPDATE to the per-tree port, in their order. *)
Definition update_info (x : per_tree_port_t) : per_tree_port_t :=
  let x := x <| PISM_state := PISM_UPDATE |> <| proposing := false |> <| proposed := false |> in
  let x := x <| agreed := agreed x && betterorsameInfo x ioMine |> in
  let x := x <| synced := synced x && agreed x |> in
  x <| portPriority := designatedPriority x |>
    <| portTimes := designatedTimes x |>
    <| updtInfo := false |>
    <| infoIs := ioMine |>.

Definition PISM_to_UPDATE (rec : M unit) (p t : nat) : M unit :=
  mod_ptp p t update_info ;;
  set_newInfoXst p t ;;
  rec.

Definition PISM_to_SUPERIOR_DESIGNATED (rec : M unit) (p t : nat) : M unit :=
  mod_ptp p t (fun x => x <| PISM_state := PISM_SUPERIOR_DESIGNATED |>) ;;
  mod_port p (fun prt => prt <| infoInternal := rcvdInternal prt |>) ;;
  mod_ptp p t (fun x => x <| agreed := false |> <| proposing := false |>) ;;
  recordProposal p t ;;
  setTcFlags p t ;;
  mod_ptp p t (fun x => x <| agree := agree x && betterorsameInfo x ioReceived |>) ;;
  recordAgreement p t ;;
  mod_ptp p t (fun x => x <| synced := synced x && agreed x |>) ;;
  recordPriority p t ;;
  recordTimes p t ;;
  updtRcvdInfoWhile p t ;;
  mod_ptp p t (fun x => x
    <| infoIs := ioReceived |>
    <| reselect := true |>
    <| selected := false |>
    <| rcvdMsg := false |>) ;;
  rec.

Definition PISM_to_REPEATED_DESIGNATED (rec : M unit) (p t : nat) : M unit :=
  mod_ptp p t (fun x => x <| PISM_state := PISM_REPEATED_DESIGNATED |>) ;;
  mod_port p (fun prt => prt <| infoInternal := rcvdInternal prt |>) ;;
  recordProposal p t ;;
  setTcFlags p t ;;
  recordAgreement p t ;;
  updtRcvdInfoWhile p t ;;
  mod_ptp p t (fun x => x <| rcvdMsg := false |>) ;;
  rec.

Definition PISM_to_INFERIOR_DESIGNATED (rec : M unit) (p t : nat) : M unit :=
  mod_ptp p t (fun x => x <| PISM_state := PISM_INFERIOR_DESIGNATED |>) ;;
  recordDispute p t ;;
  mod_ptp p t (fun x => x <| rcvdMsg := false |>) ;;
  rec.

Definition PISM_to_NOT_DESIGNATED (rec : M unit) (p t : nat) : M unit :=
  mod_ptp p t (fun x => x <| PISM_state := PISM_NOT_DESIGNATED |>) ;;
  recordAgreement p t ;;
  setTcFlags p t ;;
  mod_ptp p t (fun x => x <| rcvdMsg := false |>) ;;
  rec.

Definition PISM_to_OTHER (rec : M unit) (p t : nat) : M unit :=
  mod_ptp p t (fun x => x <| PISM_state := PISM_OTHER |> <| rcvdMsg := false |>) ;;
  rec.

Definition PISM_to_CURRENT (rec : M unit) (p t : nat) : M unit :=
  mod_ptp p t (fun x => x <| PISM_state := PISM_CURRENT |>) ;;
  rec.

Definition PISM_to_RECEIVE (rec : M unit) (p t : nat) : M unit :=
  mod_ptp p t (fun x => x <| PISM_state := PISM_RECEIVE |>) ;;
  info ← rcvInfo p t;
  mod_ptp p t (fun x => x <| rcvdInfo := info |>) ;;
  recordMastered p t ;;
  rec.

Fixpoint PISM_runf (n : nat) (p t : nat) (dry_run : bool) : M bool :=
  match n with
  | O => out_of_fuel
  | S n =>
      let rec := PISM_runf n p t false ;; mret tt in
      prt ← the_port p;
      x ← the_ptp p t;
      if negb (portEnabled prt) && negb (bool_decide (ioDisabled = infoIs x)) then
        transition dry_run (PISM_to_DISABLED rec p t false)
      else
        match PISM_state x with
        | PISM_DISABLED =>
            if portEnabled prt then transition dry_run (PISM_to_AGED rec p t)
            else if rcvdMsg x then transition dry_run (PISM_to_DISABLED rec p t false)
            else mret false
        | PISM_AGED =>
            if selected x && updtInfo x then transition dry_run (PISM_to_UPDATE rec p t)
            else mret false
        | PISM_UPDATE | PISM_SUPERIOR_DESIGNATED | PISM_REPEATED_DESIGNATED
        | PISM_INFERIOR_DESIGNATED | PISM_NOT_DESIGNATED | PISM_OTHER =>
            transition dry_run (PISM_to_CURRENT rec p t)
        | PISM_CURRENT =>
            cist ← the_cist p;
            let rcvdXstMsg :=
              if 0 =? ptp_MSTID x then rcvdMsg x else negb (rcvdMsg cist) && rcvdMsg x in
            let updtXstInfo :=
              if 0 =? ptp_MSTID x then updtInfo x else updtInfo x || updtInfo cist in
            if rcvdXstMsg && negb updtXstInfo then
              transition dry_run (PISM_to_RECEIVE rec p t)
            else if bool_decide (ioReceived = infoIs x) && (rcvdInfoWhile x =? 0)
                    && negb (updtInfo x) && negb rcvdXstMsg then
              transition dry_run (PISM_to_AGED rec p t)
            else if selected x && updtInfo x then
              transition dry_run (PISM_to_UPDATE rec p t)
            else mret false
        | PISM_RECEIVE =>
            match rcvdInfo x with
            | SuperiorDesignatedInfo => transition dry_run (PISM_to_SUPERIOR_DESIGNATED rec p t)
            | RepeatedDesignatedInfo => transition dry_run (PISM_to_REPEATED_DESIGNATED rec p t)
            | InferiorDesignatedInfo => transition dry_run (PISM_to_INFERIOR_DESIGNATED rec p t)
            | InferiorRootAlternateInfo => transition dry_run (PISM_to_NOT_DESIGNATED rec p t)
            | OtherInfo => transition dry_run (PISM_to_OTHER rec p t)
            end
        end
  end.

(** The longest chain is UPDATE, CURRENT, RECEIVE, SUPERIOR_DESIGNATED,
    CURRENT, AGED. *)
Definition PISM_depth : nat := 10.
Definition PISM_run (p t : nat) (dry_run : bool) : M bool := PISM_runf PISM_depth p t dry_run.
