(* ===== verification/MstpRoles.v ===== *)
(** * Port Role Selection (13.26.23, 13.33) of mstpd/src/mstp.c

    updtRolesTree is split at its four loops: the choice of the root path
    priority vector ([select_root]), the designated vectors and times
    ([set_designated]), and the assignment of roles ([choose_role]). *)

From S2P Require Import Prelude Bytes MstpTypes MstpPriority MstpBpdu MstpMonad MstpOut.

(** 13.26.3 clearReselectTree *)
Definition clearReselectTree (t : nat) : M unit :=
  for_ptp_in_tree (fun p => mod_ptp p t (fun x => x <| reselect := false |>)).

(** 13.26.14 setSelectedTree *)
Definition setSelectedTree (t : nat) : M unit :=
  for_ptp_in_tree (fun p => mod_ptp p t (fun x => x <| selected := true |>)).

(** 13.26.18 syncMaster: every MSTI, every port with infoInternal *)
Definition syncMaster : M unit :=
  n ← num_trees;
  for_each (seq 1 (n - 1)) (fun s =>
    for_ptp_in_tree (fun p =>
      prt ← the_port p;
      if infoInternal prt then
        mod_ptp p s (fun x => x <| agree := false |> <| agreed := false |>
                               <| synced := false |> <| sync := true |>)
      else mret tt)).

(** 13.26.24 updtRolesDisabledTree *)
Definition updtRolesDisabledTree (t : nat) : M unit :=
  for_ptp_in_tree (fun p => mod_ptp p t (fun x => x <| selectedRole := roleDisabled |>)).

Definition reselectMSTIs (p : nat) : M unit :=
  for_msti_in_port p (fun s => mod_ptp p s (fun x => x <| reselect := true |>)).

(** ** a), b) The root priority vector *)

Definition root_candidate (tree : tree_t) (prt : port_t) (x : per_tree_port_t) : bool :=
  bool_decide (ioReceived = infoIs x) && negb (restrictedRole prt)
  && negb (DesignatedBridgeID (portPriority x) =? BridgeIdentifier tree).

Definition root_path_priority (cist : bool) (tree : tree_t) (prt : port_t) (x : per_tree_port_t) :
    port_priority_vector_t :=
  let v := portPriority x in
  if rcvdInternal prt then
    v <| IntRootPathCost := u32 (IntRootPathCost v + InternalPortPathCost x) |>
  else if cist then
    v <| ExtRootPathCost := u32 (ExtRootPathCost v + ExternalPortPathCost prt) |>
      <| RRootID := BridgeIdentifier tree |>
      <| IntRootPathCost := 0 |>
  else v.

(** One iteration over the port at position [p]; the accumulator is the best
    vector so far, its port identifier and the position of its port. *)
Definition root_step (cist : bool) (tree : tree_t)
    (acc : port_priority_vector_t * Z * option nat) (p : nat) (row : port_t * per_tree_port_t) :
    port_priority_vector_t * Z * option nat :=
  let '(best, bestId, _) := acc in
  let '(prt, x) := row in
  if root_candidate tree prt x then
    let v := root_path_priority cist tree prt x in
    if betterorsamePriority v best (portId x) bestId cist then (v, portId x, Some p) else acc
  else acc.

Fixpoint select_root_from (cist : bool) (tree : tree_t)
    (acc : port_priority_vector_t * Z * option nat) (p : nat)
    (rows : list (port_t * per_tree_port_t)) : port_priority_vector_t * Z * option nat :=
  match rows with
  | [] => acc
  | row :: rows => select_root_from cist tree (root_step cist tree acc p row) (S p) rows
  end.

Definition select_root (cist : bool) (tree : tree_t) (rows : list (port_t * per_tree_port_t)) :
    port_priority_vector_t * Z * option nat :=
  select_root_from cist tree (BridgePriority tree, 0, None) 0 rows.

(** The ports of the bridge with their per-tree ports of tree [t]. *)
Definition tree_rows (b : bridge_t) (t : nat) : option (list (port_t * per_tree_port_t)) :=
  mapM (fun prt => (fun x => (prt, x)) <$> prt_trees prt !! t) (br_ports b).

(** c) The times of the root port, aged by this bridge. *)
Definition root_times (tree : tree_t) (rows : list (port_t * per_tree_port_t)) (root : option nat) :
    times_t :=
  match root ≫= fun p => rows !! p with
  | Some (prt, x) =>
      let tm := portTimes x in
      if rcvdInternal prt then
        if remainingHops tm =? 0 then tm else tm <| remainingHops := remainingHops tm - 1 |>
      else tm <| Message_Age := u8 (Message_Age tm + 1) |>
  | None => BridgeTimes tree
  end.

(** d), e) designatedPriority and designatedTimes of a port *)
Definition designated_priority (cist : bool) (tree : tree_t) (prt : port_t) (x : per_tree_port_t) :
    port_priority_vector_t :=
  let v := (rootPriority tree) <| DesignatedBridgeID := BridgeIdentifier tree |>
                               <| DesignatedPortID := portId x |> in
  if cist && negb (sendRSTP prt) then v <| RRootID := BridgeIdentifier tree |> else v.

Definition set_designated (cist : bool) (p t : nat) : M unit :=
  tree ← the_tree t;
  prt ← the_port p;
  mod_ptp p t (fun x =>
    x <| designatedPriority := designated_priority cist tree prt x |>
      <| designatedTimes := (rootTimes tree) <| Hello_Time := Hello_Time (portTimes x) |> |>).

(** ** f) to m) The role of a port *)

(** updtInfo becomes true when the port information differs from the
    designated information, and otherwise keeps its value. *)
Definition update_if_changed (cist : bool) (x : per_tree_port_t) : per_tree_port_t :=
  if samePriorityAndTimers (portPriority x) (designatedPriority x)
       (portTimes x) (designatedTimes x) cist
  then x else x <| updtInfo := true |>.

Definition choose_role (cist : bool) (tree : tree_t) (prt : port_t) (cist_tree : per_tree_port_t)
    (is_root : bool) (x : per_tree_port_t) : per_tree_port_t :=
  match infoIs x with
  | ioDisabled => x <| selectedRole := roleDisabled |>
  | _ =>
      if negb cist && bool_decide (ioReceived = infoIs cist_tree) && negb (infoInternal prt) then
        if bool_decide (roleRoot = selectedRole cist_tree) then
          update_if_changed false (x <| selectedRole := roleMaster |>)
        else
          update_if_changed false (x <| selectedRole := selectedRole cist_tree |>)
      else
        match infoIs x with
        | ioAged => x <| selectedRole := roleDesignated |> <| updtInfo := true |>
        | ioMine => update_if_changed cist (x <| selectedRole := roleDesignated |>)
        | _ =>
            if is_root then x <| selectedRole := roleRoot |> <| updtInfo := false |>
            else if betterorsamePriority (portPriority x) (designatedPriority x) 0 0 cist then
              (if negb (DesignatedBridgeID (portPriority x) =? BridgeIdentifier tree)
               then x <| selectedRole := roleAlternate |>
               else x <| selectedRole := roleBackup |>) <| updtInfo := false |>
            else x <| selectedRole := roleDesignated |> <| updtInfo := true |>
        end
  end.

(** Only the branch for received information of the CIST ends with the call
    of reselectMSTIs. *)
Definition role_change_reselects (cist : bool) (x x' : per_tree_port_t) : bool :=
  bool_decide (ioReceived = infoIs x) && cist && negb (bool_decide (selectedRole x' = role x)).

Definition set_role_of (cist : bool) (root : option nat) (p t : nat) : M unit :=
  tree ← the_tree t;
  prt ← the_port p;
  cist_tree ← the_cist p;
  x ← the_ptp p t;
  let x' := choose_role cist tree prt cist_tree (bool_decide (root = Some p)) x in
  mod_ptp p t (fun _ => x') ;;
  if role_change_reselects cist x x' then reselectMSTIs p else mret tt.

(** 13.26.23 updtRolesTree *)
Definition updtRolesTree (t : nat) : M unit :=
  b ← the_br;
  tree ← the_tree t;
  rows ← (fun w => deref (tree_rows b t) w) : M (list (port_t * per_tree_port_t));
  let cist := 0 =? tree_MSTID tree in
  let '(best, bestId, root) := select_root cist tree rows in
  mod_tree t (fun tr => tr
    <| rootPriority := best |>
    <| rootPortId := bestId |>
    <| rootTimes := root_times tree rows root |>) ;;
  for_ptp_in_tree (fun p => set_designated cist p t) ;;
  (if cist && negb (RRootID best =? RRootID (rootPriority tree))
      && (negb (ExtRootPathCost best =? 0) || negb (ExtRootPathCost (rootPriority tree) =? 0))
   then syncMaster else mret tt) ;;
  for_ptp_in_tree (fun p => set_role_of cist root p t).

(** ** The machine *)

Definition PRSSM_to_INIT_TREE (t : nat) : M unit :=
  mod_tree t (fun tr => tr <| PRSSM_state := PRSSM_INIT_TREE |>) ;;
  updtRolesDisabledTree t.

Definition PRSSM_begin : nat -> M unit := PRSSM_to_INIT_TREE.

Definition PRSSM_to_ROLE_SELECTION (t : nat) : M unit :=
  mod_tree t (fun tr => tr <| PRSSM_state := PRSSM_ROLE_SELECTION |>) ;;
  clearReselectTree t ;;
  updtRolesTree t ;;
  setSelectedTree t.

Definition PRSSM_run (t : nat) (dry_run : bool) : M bool :=
  tree ← the_tree t;
  match PRSSM_state tree with
  | PRSSM_INIT_TREE => transition dry_run (PRSSM_to_ROLE_SELECTION t)
  | PRSSM_ROLE_SELECTION =>
      xs ← ptps_of_tree t;
      if existsb reselect xs then transition dry_run (PRSSM_to_ROLE_SELECTION t)
      else mret false
  end.
