(* ===== verification/MstpTransitions.v ===== *)
(** * Port Role Transitions state machine (13.34) of mstpd/src/mstp.c *)

From S2P Require Import Prelude Bytes MstpTypes MstpPriority MstpBpdu MstpMonad MstpOut.

(** 13.26.13 setReRootTree *)
Definition setReRootTree (t : nat) : M unit :=
  for_ptp_in_tree (fun p => mod_ptp p t (fun x => x <| reRoot := true |>)).

(** 13.26.15 setSyncTree *)
Definition setSyncTree (t : nat) : M unit :=
  for_ptp_in_tree (fun p => mod_ptp p t (fun x => x <| sync := true |>)).

(** The static variables of PRTSM_runr that a recursive call does not
    compute again. *)
Record prtsm_vars := mk_prtsm_vars {
  v_MaxAge : Z; v_FwdDelay : Z; v_forwardDelay : Z; v_HelloTime : Z }.

(** ** Disabled port *)

Definition PRTSM_to_INIT_PORT (p t : nat) : M unit :=
  cist ← the_cist p;
  mod_ptp p t (fun x => x
    <| PRTSM_state := PRTSM_INIT_PORT |>
    <| role := roleDisabled |>
    <| learn := false |>
    <| forward := false |>
    <| synced := false |>
    <| sync := true |>
    <| reRoot := true |>
    <| rrWhile := Forward_Delay (designatedTimes cist) |>
    <| fdWhile := Max_Age (designatedTimes cist) |>
    <| rbWhile := 0 |>).

Definition PRTSM_begin : nat -> nat -> M unit := PRTSM_to_INIT_PORT.

Section states.
(** the recursive call PRTSM_runr(ptp, true, false) *)
Context (rec : M unit) (p t : nat).

Definition PRTSM_to_DISABLE_PORT : M unit :=
  mod_ptp p t (fun x => x
    <| PRTSM_state := PRTSM_DISABLE_PORT |>
    <| role := roleDisabled |>
    <| learn := false |>
    <| forward := false |>) ;;
  rec.

Definition PRTSM_to_DISABLED_PORT (MaxAge : Z) : M unit :=
  mod_ptp p t (fun x => x
    <| PRTSM_state := PRTSM_DISABLED_PORT |>
    <| fdWhile := MaxAge |>
    <| synced := true |>
    <| rrWhile := 0 |>
    <| sync := false |>
    <| reRoot := false |>) ;;
  rec.

(** ** Master port *)

Definition PRTSM_to_MASTER_PROPOSED : M unit :=
  mod_ptp p t (fun x => x <| PRTSM_state := PRTSM_MASTER_PROPOSED |>) ;;
  setSyncTree t ;;
  mod_ptp p t (fun x => x <| proposed := false |>) ;;
  rec.

Definition PRTSM_to_MASTER_AGREED : M unit :=
  mod_ptp p t (fun x => x
    <| PRTSM_state := PRTSM_MASTER_AGREED |>
    <| proposed := false |> <| sync := false |> <| agree := true |>) ;;
  rec.

Definition PRTSM_to_MASTER_SYNCED : M unit :=
  mod_ptp p t (fun x => x
    <| PRTSM_state := PRTSM_MASTER_SYNCED |>
    <| rrWhile := 0 |> <| synced := true |> <| sync := false |>) ;;
  rec.

Definition PRTSM_to_MASTER_RETIRED : M unit :=
  mod_ptp p t (fun x => x <| PRTSM_state := PRTSM_MASTER_RETIRED |> <| reRoot := false |>) ;;
  rec.

Definition PRTSM_to_MASTER_FORWARD : M unit :=
  prt ← the_port p;
  mod_ptp p t (fun x => x
    <| PRTSM_state := PRTSM_MASTER_FORWARD |>
    <| forward := true |> <| fdWhile := 0 |> <| agreed := sendRSTP prt |>) ;;
  rec.

Definition PRTSM_to_MASTER_LEARN (forwardDelay : Z) : M unit :=
  mod_ptp p t (fun x => x
    <| PRTSM_state := PRTSM_MASTER_LEARN |>
    <| learn := true |> <| fdWhile := forwardDelay |>) ;;
  rec.

Definition PRTSM_to_MASTER_DISCARD (forwardDelay : Z) : M unit :=
  mod_ptp p t (fun x => x
    <| PRTSM_state := PRTSM_MASTER_DISCARD |>
    <| learn := false |> <| forward := false |> <| disputed := false |>
    <| fdWhile := forwardDelay |>) ;;
  rec.

Definition PRTSM_to_MASTER_PORT : M unit :=
  mod_ptp p t (fun x => x <| PRTSM_state := PRTSM_MASTER_PORT |> <| role := roleMaster |>) ;;
  rec.

(** ** Root port *)

Definition PRTSM_to_ROOT_PROPOSED : M unit :=
  mod_ptp p t (fun x => x <| PRTSM_state := PRTSM_ROOT_PROPOSED |>) ;;
  setSyncTree t ;;
  mod_ptp p t (fun x => x <| proposed := false |>) ;;
  rec.

Definition PRTSM_to_ROOT_AGREED : M unit :=
  mod_ptp p t (fun x => x
    <| PRTSM_state := PRTSM_ROOT_AGREED |>
    <| proposed := false |> <| sync := false |> <| agree := true |>) ;;
  set_newInfoXst p t ;;
  rec.

Definition PRTSM_to_ROOT_SYNCED : M unit :=
  mod_ptp p t (fun x => x
    <| PRTSM_state := PRTSM_ROOT_SYNCED |> <| synced := true |> <| sync := false |>) ;;
  rec.

Definition PRTSM_to_REROOT : M unit :=
  mod_ptp p t (fun x => x <| PRTSM_state := PRTSM_REROOT |>) ;;
  setReRootTree t ;;
  rec.

Definition PRTSM_to_ROOT_FORWARD : M unit :=
  mod_ptp p t (fun x => x
    <| PRTSM_state := PRTSM_ROOT_FORWARD |> <| fdWhile := 0 |> <| forward := true |>) ;;
  rec.

Definition PRTSM_to_ROOT_LEARN (forwardDelay : Z) : M unit :=
  mod_ptp p t (fun x => x
    <| PRTSM_state := PRTSM_ROOT_LEARN |> <| fdWhile := forwardDelay |> <| learn := true |>) ;;
  rec.

Definition PRTSM_to_REROOTED : M unit :=
  mod_ptp p t (fun x => x <| PRTSM_state := PRTSM_REROOTED |> <| reRoot := false |>) ;;
  rec.

Definition PRTSM_to_ROOT_PORT (FwdDelay : Z) : M unit :=
  mod_ptp p t (fun x => x
    <| PRTSM_state := PRTSM_ROOT_PORT |> <| role := roleRoot |> <| rrWhile := FwdDelay |>) ;;
  rec.

(** ** Designated port *)

Definition PRTSM_to_DESIGNATED_PROPOSE : M unit :=
  b ← the_br;
  mod_ptp p t (fun x => x
    <| PRTSM_state := PRTSM_DESIGNATED_PROPOSE |> <| proposing := true |>) ;;
  x ← the_ptp p t;
  (if 0 =? ptp_MSTID x then
     mod_port p (fun prt => prt
       <| edgeDelayWhile := if operPointToPointMAC prt then Migrate_Time b
                            else Max_Age (designatedTimes x) |>
       <| newInfo := true |>)
   else mod_port p (fun prt => prt <| newInfoMsti := true |>)) ;;
  rec.

Definition PRTSM_to_DESIGNATED_AGREED : M unit :=
  mod_ptp p t (fun x => x
    <| PRTSM_state := PRTSM_DESIGNATED_AGREED |>
    <| proposed := false |> <| sync := false |> <| agree := true |>) ;;
  set_newInfoXst p t ;;
  rec.

Definition PRTSM_to_DESIGNATED_SYNCED : M unit :=
  mod_ptp p t (fun x => x
    <| PRTSM_state := PRTSM_DESIGNATED_SYNCED |>
    <| rrWhile := 0 |> <| synced := true |> <| sync := false |>) ;;
  rec.

Definition PRTSM_to_DESIGNATED_RETIRED : M unit :=
  mod_ptp p t (fun x => x <| PRTSM_state := PRTSM_DESIGNATED_RETIRED |> <| reRoot := false |>) ;;
  rec.

Definition PRTSM_to_DESIGNATED_FORWARD : M unit :=
  prt ← the_port p;
  mod_ptp p t (fun x => x
    <| PRTSM_state := PRTSM_DESIGNATED_FORWARD |>
    <| forward := true |> <| fdWhile := 0 |> <| agreed := sendRSTP prt |>) ;;
  rec.

Definition PRTSM_to_DESIGNATED_LEARN (forwardDelay : Z) : M unit :=
  mod_ptp p t (fun x => x
    <| PRTSM_state := PRTSM_DESIGNATED_LEARN |>
    <| learn := true |> <| fdWhile := forwardDelay |>) ;;
  rec.

Definition PRTSM_to_DESIGNATED_DISCARD (forwardDelay : Z) : M unit :=
  mod_ptp p t (fun x => x
    <| PRTSM_state := PRTSM_DESIGNATED_DISCARD |>
    <| learn := false |> <| forward := false |> <| disputed := false |>
    <| fdWhile := forwardDelay |>) ;;
  rec.

Definition PRTSM_to_DESIGNATED_PORT : M unit :=
  mod_ptp p t (fun x => x
    <| PRTSM_state := PRTSM_DESIGNATED_PORT |> <| role := roleDesignated |>) ;;
  rec.

(** ** Alternate and backup port *)

Definition PRTSM_to_BLOCK_PORT : M unit :=
  mod_ptp p t (fun x => x
    <| PRTSM_state := PRTSM_BLOCK_PORT |>
    <| role := selectedRole x |> <| learn := false |> <| forward := false |>) ;;
  rec.

Definition PRTSM_to_BACKUP_PORT (HelloTime : Z) : M unit :=
  mod_ptp p t (fun x => x
    <| PRTSM_state := PRTSM_BACKUP_PORT |> <| rbWhile := 2 * HelloTime |>) ;;
  rec.

Definition PRTSM_to_ALTERNATE_PROPOSED : M unit :=
  mod_ptp p t (fun x => x <| PRTSM_state := PRTSM_ALTERNATE_PROPOSED |>) ;;
  setSyncTree t ;;
  mod_ptp p t (fun x => x <| proposed := false |>) ;;
  rec.

Definition PRTSM_to_ALTERNATE_AGREED : M unit :=
  mod_ptp p t (fun x => x
    <| PRTSM_state := PRTSM_ALTERNATE_AGREED |>
    <| proposed := false |> <| agree := true |>) ;;
  set_newInfoXst p t ;;
  rec.

Definition PRTSM_to_ALTERNATE_PORT (forwardDelay : Z) : M unit :=
  mod_ptp p t (fun x => x
    <| PRTSM_state := PRTSM_ALTERNATE_PORT |>
    <| fdWhile := forwardDelay |>
    <| synced := true |>
    <| rrWhile := 0 |>
    <| sync := false |>
    <| reRoot := false |>) ;;
  rec.
End states.

(** ** The machine *)

(** 13.25.1: [col] lists the per-tree ports of the tree, [x] is entry [p]. *)
Definition synced_with (x : per_tree_port_t) (is_self : bool) (y : per_tree_port_t) : bool :=
  selected y && bool_decide (role y = selectedRole y) && negb (updtInfo y)
  && match role x with
     | roleRoot | roleAlternate => bool_decide (roleRoot = role y) || synced y
     | roleDesignated | roleMaster => is_self || synced y
     | _ => false
     end.

Fixpoint all_others (f : bool -> per_tree_port_t -> bool) (p : nat) (col : list per_tree_port_t) :
    bool :=
  match col with
  | [] => true
  | y :: col =>
      match p with
      | O => f true y && forallb (f false) col
      | S p => f false y && all_others f p col
      end
  end.

Definition allSynced (p : nat) (x : per_tree_port_t) (col : list per_tree_port_t) : bool :=
  all_others (synced_with x) p col.

(** 17.20.10 of 802.1D: reRooted *)
Definition reRooted (p : nat) (col : list per_tree_port_t) : bool :=
  all_others (fun is_self y => is_self || (rrWhile y =? 0)) p col.

(** The cases PRTSM_MASTER_PORT, PRTSM_ROOT_PORT, PRTSM_DESIGNATED_PORT and
    PRTSM_ALTERNATE_PORT of the switch. *)
Definition master_port_case (rec : M unit) (v : prtsm_vars) (p t : nat) (dry_run : bool)
    (prt : port_t) (x : per_tree_port_t) (allSynced : bool) : M bool :=
  if negb (selected x && negb (updtInfo x)) then mret false
  else if reRoot x && (rrWhile x =? 0) then
    transition dry_run (PRTSM_to_MASTER_RETIRED rec p t)
  else if (negb (learning x) && negb (forwarding x) && negb (synced x))
          || (agreed x && negb (synced x)) || (operEdge prt && negb (synced x))
          || (sync x && synced x) then
    transition dry_run (PRTSM_to_MASTER_SYNCED rec p t)
  else if (allSynced && negb (agree x)) || (proposed x && agree x) then
    transition dry_run (PRTSM_to_MASTER_AGREED rec p t)
  else if proposed x && negb (agree x) then
    transition dry_run (PRTSM_to_MASTER_PROPOSED rec p t)
  else if ((fdWhile x =? 0) || allSynced) && learn x && negb (forward x) then
    transition dry_run (PRTSM_to_MASTER_FORWARD rec p t)
  else if ((fdWhile x =? 0) || allSynced) && negb (learn x) then
    transition dry_run (PRTSM_to_MASTER_LEARN rec p t (v_forwardDelay v))
  else if ((sync x && negb (synced x)) || (reRoot x && negb (rrWhile x =? 0)) || disputed x)
          && negb (operEdge prt) && (learn x || forward x) then
    transition dry_run (PRTSM_to_MASTER_DISCARD rec p t (v_forwardDelay v))
  else mret false.

Definition root_port_case (rec : M unit) (v : prtsm_vars) (p t : nat) (dry_run : bool)
    (b : bridge_t) (x : per_tree_port_t) (allSynced reRooted : bool) : M bool :=
  if negb (selected x && negb (updtInfo x)) then mret false
  else if negb (forward x) && negb (reRoot x) then
    transition dry_run (PRTSM_to_REROOT rec p t)
  else if (agreed x && negb (synced x)) || (sync x && synced x) then
    transition dry_run (PRTSM_to_ROOT_SYNCED rec p t)
  else if (allSynced && negb (agree x)) || (proposed x && agree x) then
    transition dry_run (PRTSM_to_ROOT_AGREED rec p t)
  else if proposed x && negb (agree x) then
    transition dry_run (PRTSM_to_ROOT_PROPOSED rec p t)
  else
    let may_advance :=
      (fdWhile x =? 0) || (reRooted && (rbWhile x =? 0) && rstpVersion b) in
    if may_advance && negb (learn x) then
      transition dry_run (PRTSM_to_ROOT_LEARN rec p t (v_forwardDelay v))
    else if may_advance && negb (forward x) then
      transition dry_run (PRTSM_to_ROOT_FORWARD rec p t)
    else if reRoot x && forward x then
      transition dry_run (PRTSM_to_REROOTED rec p t)
    else if negb (rrWhile x =? v_FwdDelay v) then
      transition dry_run (PRTSM_to_ROOT_PORT rec p t (v_FwdDelay v))
    else mret false.

Definition designated_port_case (rec : M unit) (v : prtsm_vars) (p t : nat) (dry_run : bool)
    (prt : port_t) (x : per_tree_port_t) (allSynced : bool) : M bool :=
  if negb (selected x && negb (updtInfo x)) then mret false
  else if reRoot x && (rrWhile x =? 0) then
    transition dry_run (PRTSM_to_DESIGNATED_RETIRED rec p t)
  else if (negb (learning x) && negb (forwarding x) && negb (synced x))
          || (agreed x && negb (synced x)) || (operEdge prt && negb (synced x))
          || (sync x && synced x) then
    transition dry_run (PRTSM_to_DESIGNATED_SYNCED rec p t)
  else if allSynced && (proposed x || negb (agree x)) then
    transition dry_run (PRTSM_to_DESIGNATED_AGREED rec p t)
  else if negb (forward x) && negb (agreed x) && negb (proposing x) && negb (operEdge prt) then
    transition dry_run (PRTSM_to_DESIGNATED_PROPOSE rec p t)
  else
    let may_advance :=
      ((fdWhile x =? 0) || agreed x || operEdge prt)
      && ((rrWhile x =? 0) || negb (reRoot x)) && negb (sync x) && negb (BaInconsistent prt) in
    if may_advance && negb (learn x) then
      transition dry_run (PRTSM_to_DESIGNATED_LEARN rec p t (v_forwardDelay v))
    else if may_advance && negb (forward x) then
      transition dry_run (PRTSM_to_DESIGNATED_FORWARD rec p t)
    else if ((sync x && negb (synced x)) || (reRoot x && negb (rrWhile x =? 0))
             || disputed x || BaInconsistent prt)
            && negb (operEdge prt) && (learn x || forward x) then
      transition dry_run (PRTSM_to_DESIGNATED_DISCARD rec p t (v_forwardDelay v))
    else mret false.

Definition alternate_port_case (rec : M unit) (v : prtsm_vars) (p t : nat) (dry_run : bool)
    (x : per_tree_port_t) (allSynced : bool) : M bool :=
  if negb (selected x && negb (updtInfo x)) then mret false
  else if (allSynced && negb (agree x)) || (proposed x && agree x) then
    transition dry_run (PRTSM_to_ALTERNATE_AGREED rec p t)
  else if proposed x && negb (agree x) then
    transition dry_run (PRTSM_to_ALTERNATE_PROPOSED rec p t)
  else if negb (rbWhile x =? 2 * v_HelloTime v) && bool_decide (roleBackup = role x) then
    transition dry_run (PRTSM_to_BACKUP_PORT rec p t (v_HelloTime v))
  else if negb (fdWhile x =? v_forwardDelay v) || sync x || reRoot x || negb (synced x) then
    transition dry_run (PRTSM_to_ALTERNATE_PORT rec p t (v_forwardDelay v))
  else mret false.

(** The switch on selectedRole at the start of PRTSM_runr. *)
Definition role_change_case (rec : M unit) (v : prtsm_vars) (p t : nat) (dry_run : bool)
    (r : port_role_t) : M bool :=
  match r with
  | roleDisabled => transition dry_run (PRTSM_to_DISABLE_PORT rec p t)
  | roleMaster => transition dry_run (PRTSM_to_MASTER_PORT rec p t)
  | roleRoot => transition dry_run (PRTSM_to_ROOT_PORT rec p t (v_FwdDelay v))
  | roleDesignated => transition dry_run (PRTSM_to_DESIGNATED_PORT rec p t)
  | roleAlternate | roleBackup => transition dry_run (PRTSM_to_BLOCK_PORT rec p t)
  end.

Fixpoint PRTSM_runr (n : nat) (v : prtsm_vars) (p t : nat) (dry_run : bool) : M bool :=
  match n with
  | O => out_of_fuel
  | S n =>
      let rec := PRTSM_runr n v p t false ;; mret tt in
      b ← the_br;
      prt ← the_port p;
      x ← the_ptp p t;
      if negb (bool_decide (role x = selectedRole x)) && selected x && negb (updtInfo x) then
        role_change_case rec v p t dry_run (selectedRole x)
      else
        col ← ptps_of_tree t;
        match PRTSM_state x with
        | PRTSM_INIT_PORT => transition dry_run (PRTSM_to_DISABLE_PORT rec p t)
        | PRTSM_DISABLE_PORT =>
            if selected x && negb (updtInfo x) && negb (learning x) && negb (forwarding x) then
              transition dry_run (PRTSM_to_DISABLED_PORT rec p t (v_MaxAge v))
            else mret false
        | PRTSM_DISABLED_PORT =>
            if selected x && negb (updtInfo x)
               && (sync x || reRoot x || negb (synced x) || negb (fdWhile x =? v_MaxAge v)) then
              transition dry_run (PRTSM_to_DISABLED_PORT rec p t (v_MaxAge v))
            else mret false
        | PRTSM_MASTER_PROPOSED | PRTSM_MASTER_AGREED | PRTSM_MASTER_SYNCED
        | PRTSM_MASTER_RETIRED | PRTSM_MASTER_FORWARD | PRTSM_MASTER_LEARN
        | PRTSM_MASTER_DISCARD => transition dry_run (PRTSM_to_MASTER_PORT rec p t)
        | PRTSM_MASTER_PORT => master_port_case rec v p t dry_run prt x (allSynced p x col)
        | PRTSM_ROOT_PROPOSED | PRTSM_ROOT_AGREED | PRTSM_ROOT_SYNCED | PRTSM_REROOT
        | PRTSM_ROOT_FORWARD | PRTSM_ROOT_LEARN | PRTSM_REROOTED =>
            transition dry_run (PRTSM_to_ROOT_PORT rec p t (v_FwdDelay v))
        | PRTSM_ROOT_PORT =>
            root_port_case rec v p t dry_run b x (allSynced p x col) (reRooted p col)
        | PRTSM_DESIGNATED_PROPOSE | PRTSM_DESIGNATED_AGREED | PRTSM_DESIGNATED_SYNCED
        | PRTSM_DESIGNATED_RETIRED | PRTSM_DESIGNATED_FORWARD | PRTSM_DESIGNATED_LEARN
        | PRTSM_DESIGNATED_DISCARD => transition dry_run (PRTSM_to_DESIGNATED_PORT rec p t)
        | PRTSM_DESIGNATED_PORT =>
            designated_port_case rec v p t dry_run prt x (allSynced p x col)
        | PRTSM_BLOCK_PORT =>
            if selected x && negb (updtInfo x) && negb (learning x) && negb (forwarding x) then
              transition dry_run (PRTSM_to_ALTERNATE_PORT rec p t (v_forwardDelay v))
            else mret false
        | PRTSM_BACKUP_PORT | PRTSM_ALTERNATE_PROPOSED | PRTSM_ALTERNATE_AGREED =>
            transition dry_run (PRTSM_to_ALTERNATE_PORT rec p t (v_forwardDelay v))
        | PRTSM_ALTERNATE_PORT => alternate_port_case rec v p t dry_run x (allSynced p x col)
        end
  end.

Definition PRTSM_vars (prt : port_t) (cist : per_tree_port_t) : prtsm_vars :=
  {| v_MaxAge := Max_Age (designatedTimes cist);
     v_FwdDelay := Forward_Delay (designatedTimes cist);
     v_forwardDelay := if sendRSTP prt then Hello_Time (portTimes cist)
                       else Forward_Delay (designatedTimes cist);
     v_HelloTime := Hello_Time (portTimes cist) |}.

Definition PRTSM_depth : nat := 64.
Definition PRTSM_run (p t : nat) (dry_run : bool) : M bool :=
  prt ← the_port p;
  cist ← the_cist p;
  PRTSM_runr PRTSM_depth (PRTSM_vars prt cist) p t dry_run.
