(* ===== verification/MstpForwarding.v ===== *)
(** * Port State Transition (13.35) and Topology Change (13.36) machines of
    mstpd/src/mstp.c, with the flushing of learnt addresses *)

From S2P Require Import Prelude Bytes MstpTypes MstpPriority MstpBpdu MstpMonad MstpOut.

(** ** Port State Transition *)

(** enableLearning() and the like: the state is sent unless the port is
    being deleted. *)
Definition set_state_unless_deleted (p t : nat) (st : br_state_t) : M unit :=
  x ← the_ptp p t;
  if negb (bool_decide (st = ptp_state x)) then
    prt ← the_port p;
    if negb (deleted prt) then MSTP_OUT_set_state p t st else mret tt
  else mret tt.

Definition PSTSM_to_DISCARDING (rec : M unit) (p t : nat) (begin : bool) : M unit :=
  mod_ptp p t (fun x => x <| PSTSM_state := PSTSM_DISCARDING |>) ;;
  set_state_unless_deleted p t BR_STATE_BLOCKING ;;
  mod_ptp p t (fun x => x <| learning := false |> <| forwarding := false |>) ;;
  if negb begin then rec else mret tt.

Definition PSTSM_begin (p t : nat) : M unit := PSTSM_to_DISCARDING (mret tt) p t true.

Definition PSTSM_to_LEARNING (rec : M unit) (p t : nat) : M unit :=
  mod_ptp p t (fun x => x <| PSTSM_state := PSTSM_LEARNING |>) ;;
  set_state_unless_deleted p t BR_STATE_LEARNING ;;
  mod_ptp p t (fun x => x <| learning := true |>) ;;
  rec.

Definition PSTSM_to_FORWARDING (p t : nat) : M unit :=
  mod_ptp p t (fun x => x <| PSTSM_state := PSTSM_FORWARDING |>) ;;
  set_state_unless_deleted p t BR_STATE_FORWARDING ;;
  mod_ptp p t (fun x => x <| forwarding := true |>).

Fixpoint PSTSM_runf (n : nat) (p t : nat) (dry_run : bool) : M bool :=
  match n with
  | O => out_of_fuel
  | S n =>
      let rec := PSTSM_runf n p t false ;; mret tt in
      x ← the_ptp p t;
      match PSTSM_state x with
      | PSTSM_DISCARDING =>
          if learn x then transition dry_run (PSTSM_to_LEARNING rec p t) else mret false
      | PSTSM_LEARNING =>
          if negb (learn x) then transition dry_run (PSTSM_to_DISCARDING rec p t false)
          else if forward x then transition dry_run (PSTSM_to_FORWARDING p t)
          else mret false
      | PSTSM_FORWARDING =>
          if negb (forward x) then transition dry_run (PSTSM_to_DISCARDING rec p t false)
          else mret false
      end
  end.

Definition PSTSM_depth : nat := 4.
Definition PSTSM_run (p t : nat) (dry_run : bool) : M bool := PSTSM_runf PSTSM_depth p t dry_run.

(** ** Flushing

    The driver hook driver_flush_all_fids calls MSTP_IN_all_fids_flushed,
    which runs the machines again unless it is called from set_fdbFlush.
    [rerun] stands for that run; from set_fdbFlush it is not reached, so
    there it is an operation that faults. *)

Definition all_fids_flushed (rerun : M unit) (p t : nat) : M unit :=
  mod_ptp p t (fun x => x <| fdbFlush := false |>) ;;
  b ← the_br;
  if negb (bridgeEnabled b) then mret tt
  else
    x ← the_ptp p t;
    if negb (calledFromFlushRoutine x) then rerun else mret tt.

Definition driver_flush_all_fids (rerun : M unit) (p t : nat) : M unit :=
  all_fids_flushed rerun p t.

Definition MSTP_OUT_flush_all_fids (rerun : M unit) (p t : nat) : M unit :=
  prt ← the_port p;
  x ← the_ptp p t;
  (if 0 =? ptp_MSTID x then emit (Ev_br_flush_port (if_name (prt_sysdeps prt))) else mret tt) ;;
  driver_flush_all_fids rerun p t.

(** 13.24.s) + 17.19.7 of 802.1D : fdbFlush *)
Definition set_fdbFlush (p t : nat) : M unit :=
  prt ← the_port p;
  if operEdge prt || deleted prt then mod_ptp p t (fun x => x <| fdbFlush := false |>)
  else
    b ← the_br;
    if rstpVersion b then
      mod_ptp p t (fun x => x <| fdbFlush := true |> <| calledFromFlushRoutine := true |>) ;;
      MSTP_OUT_flush_all_fids fault p t ;;
      mod_ptp p t (fun x => x <| calledFromFlushRoutine := false |>)
    else
      cist ← the_cist p;
      let FwdDelay := Forward_Delay (designatedTimes cist) in
      MSTP_OUT_set_ageing_time p FwdDelay ;;
      mod_port p (fun prt => prt <| rapidAgeingWhile := FwdDelay |>) ;;
      mod_ptp p t (fun x => x <| fdbFlush := false |>).

(** ** Topology Change *)

Definition TCSM_to_INACTIVE (rec : M unit) (p t : nat) (begin : bool) : M unit :=
  mod_ptp p t (fun x => x <| TCSM_state := TCSM_INACTIVE |>) ;;
  set_fdbFlush p t ;;
  mod_ptp p t (fun x => x <| tcWhile := 0 |>) ;;
  set_TopologyChange t false p ;;
  x ← the_ptp p t;
  (if 0 =? ptp_MSTID x then mod_port p (fun prt => prt <| tcAck := false |>) else mret tt) ;;
  if negb begin then rec else mret tt.

Definition TCSM_begin (p t : nat) : M unit := TCSM_to_INACTIVE (mret tt) p t true.

Definition TCSM_to_LEARNING (rec : M unit) (p t : nat) (dry_run : bool) : M bool :=
  x ← the_ptp p t;
  prt ← the_port p;
  if dry_run then
    if negb (bool_decide (TCSM_state x = TCSM_LEARNING)) || rcvdTc x || tcProp x then mret true
    else if 0 =? ptp_MSTID x then mret (rcvdTcn prt || rcvdTcAck prt)
    else mret false
  else
    mod_ptp p t (fun x => x <| TCSM_state := TCSM_LEARNING |>) ;;
    (if 0 =? ptp_MSTID x then
       mod_port p (fun prt => prt <| rcvdTcn := false |> <| rcvdTcAck := false |>)
     else mret tt) ;;
    mod_ptp p t (fun x => x <| rcvdTc := false |> <| tcProp := false |>) ;;
    rec ;;
    mret false.

Definition TCSM_to_DETECTED (rec : M unit) (p t : nat) : M unit :=
  mod_ptp p t (fun x => x <| TCSM_state := TCSM_DETECTED |>) ;;
  newTcWhile p t ;;
  setTcPropTree p t ;;
  set_newInfoXst p t ;;
  rec.

Definition TCSM_to_NOTIFIED_TCN (rec : M unit) (p t : nat) : M unit :=
  mod_ptp p t (fun x => x <| TCSM_state := TCSM_NOTIFIED_TCN |>) ;;
  newTcWhile p t ;;
  rec.

Definition TCSM_to_NOTIFIED_TC (rec : M unit) (p t : nat) : M unit :=
  mod_ptp p t (fun x => x <| TCSM_state := TCSM_NOTIFIED_TC |> <| rcvdTc := false |>) ;;
  x ← the_ptp p t;
  (if 0 =? ptp_MSTID x then
     mod_port p (fun prt => prt
       <| rcvdTcn := false |>
       <| tcAck := if bool_decide (roleDesignated = role x) then true else tcAck prt |>)
   else mret tt) ;;
  setTcPropTree p t ;;
  rec.

Definition TCSM_to_PROPAGATING (rec : M unit) (p t : nat) : M unit :=
  mod_ptp p t (fun x => x <| TCSM_state := TCSM_PROPAGATING |>) ;;
  newTcWhile p t ;;
  set_fdbFlush p t ;;
  mod_ptp p t (fun x => x <| tcProp := false |>) ;;
  rec.

Definition TCSM_to_ACKNOWLEDGED (rec : M unit) (p t : nat) : M unit :=
  mod_ptp p t (fun x => x <| TCSM_state := TCSM_ACKNOWLEDGED |> <| tcWhile := 0 |>) ;;
  set_TopologyChange t false p ;;
  mod_port p (fun prt => prt <| rcvdTcAck := false |>) ;;
  rec.

Definition TCSM_to_ACTIVE (rec : M unit) (p t : nat) : M unit :=
  mod_ptp p t (fun x => x <| TCSM_state := TCSM_ACTIVE |>) ;;
  rec.

(** active_port in TCSM_run *)
Definition active_port (x : per_tree_port_t) : bool :=
  match role x with
  | roleRoot | roleDesignated | roleMaster => true
  | _ => false
  end.

Fixpoint TCSM_runf (n : nat) (p t : nat) (dry_run : bool) : M bool :=
  match n with
  | O => out_of_fuel
  | S n =>
      let rec := TCSM_runf n p t false ;; mret tt in
      prt ← the_port p;
      x ← the_ptp p t;
      match TCSM_state x with
      | TCSM_INACTIVE =>
          if learn x && negb (fdbFlush x) then
            transition dry_run (TCSM_to_LEARNING rec p t false ;; mret tt)
          else mret false
      | TCSM_LEARNING =>
          if active_port x && forward x && negb (operEdge prt) then
            transition dry_run (TCSM_to_DETECTED rec p t)
          else if rcvdTc x || rcvdTcn prt || rcvdTcAck prt || tcProp x then
            TCSM_to_LEARNING rec p t dry_run
          else if negb (active_port x) && negb (learn x || learning x) then
            transition dry_run (TCSM_to_INACTIVE rec p t false)
          else mret false
      | TCSM_NOTIFIED_TCN => transition dry_run (TCSM_to_NOTIFIED_TC rec p t)
      | TCSM_DETECTED | TCSM_NOTIFIED_TC | TCSM_PROPAGATING | TCSM_ACKNOWLEDGED =>
          transition dry_run (TCSM_to_ACTIVE rec p t)
      | TCSM_ACTIVE =>
          if negb (active_port x) || operEdge prt then
            transition dry_run (TCSM_to_LEARNING rec p t false ;; mret tt)
          else if rcvdTcn prt then transition dry_run (TCSM_to_NOTIFIED_TCN rec p t)
          else if rcvdTc x then transition dry_run (TCSM_to_NOTIFIED_TC rec p t)
          else if tcProp x then transition dry_run (TCSM_to_PROPAGATING rec p t)
          else if rcvdTcAck prt then transition dry_run (TCSM_to_ACKNOWLEDGED rec p t)
          else mret false
      end
  end.

Definition TCSM_depth : nat := 16.
Definition TCSM_run (p t : nat) (dry_run : bool) : M bool := TCSM_runf TCSM_depth p t dry_run.
