(* ===== verification/MstpRun.v ===== *)
(** * Running the state machines (end of mstpd/src/mstp.c) *)

From S2P Require Import Prelude Bytes MstpTypes MstpPriority MstpBpdu MstpMonad MstpOut.
From S2P Require Import MstpPort MstpInfo MstpRoles MstpTransitions MstpForwarding.

(** The nested loop over all ports and their per-tree ports. *)
Definition for_all_ptps (f : nat -> nat -> M unit) : M unit :=
  for_port_in_bridge (fun p => for_ptp_in_port p (fun t => f p t)).

(** One check of a machine in __br_state_machines_run: leave the function
    when it is a dry run and the machine reports a change. *)
Definition any_port (dry_run : bool) (f : nat -> M bool) : M bool :=
  n ← num_ports; any_of (seq 0 n) (fun p => r ← f p; mret (r && dry_run)).
Definition any_tree (dry_run : bool) (f : nat -> M bool) : M bool :=
  n ← num_trees; any_of (seq 0 n) (fun t => r ← f t; mret (r && dry_run)).
Definition any_ptp (dry_run : bool) (f : nat -> nat -> M bool) : M bool :=
  n ← num_ports; any_of (seq 0 n) (fun p =>
    m ← num_ptps p; any_of (seq 0 m) (fun t => r ← f p t; mret (r && dry_run))).

(** The bridge assurance check of one port. *)
Definition bridge_assurance_run (p : nat) (dry_run : bool) : M bool :=
  prt ← the_port p;
  if portEnabled prt && assurancePort prt && (brAssuRcvdInfoWhile prt =? 0)
     && negb (BaInconsistent prt) then
    transition dry_run (mod_port p (fun prt => prt <| BaInconsistent := true |>))
  else mret false.

(** [phases dry l]: the checks in their order, leaving at the first true. *)
Fixpoint phases (l : list (M bool)) : M bool :=
  match l with
  | [] => mret false
  | m :: l => r ← m; if (r : bool) then mret true else phases l
  end.

Definition br_state_machines_phases (dry_run : bool) : list (M bool) :=
  [ any_port dry_run (fun p => bridge_assurance_run p dry_run);
    any_port dry_run (fun p => PRSM_run p dry_run);
    any_port dry_run (fun p => PPMSM_run p dry_run);
    any_port dry_run (fun p => BDSM_run p dry_run);
    any_port dry_run (fun p => PTSM_run p dry_run);
    any_ptp dry_run (fun p t => PISM_run p t dry_run);
    any_tree dry_run (fun t => PRSSM_run t dry_run);
    any_ptp dry_run (fun p t => PRTSM_run p t dry_run);
    any_ptp dry_run (fun p t => PSTSM_run p t dry_run);
    any_ptp dry_run (fun p t => TCSM_run p t dry_run) ].

(** __br_state_machines_run *)
Definition br_state_machines_run_once (dry_run : bool) : M bool :=
  phases (br_state_machines_phases dry_run).

(** The do-while loop of br_state_machines_run; [n] more iterations begin
    before the clock ends it. *)
Fixpoint run_loop (n : nat) : M unit :=
  changed ← br_state_machines_run_once true;
  if negb changed then mret tt
  else
    br_state_machines_run_once false ;;
    match n with
    | O => mret tt
    | S n => run_loop n
    end.

Definition br_state_machines_run : M unit :=
  b ← the_br;
  if negb (bridgeEnabled b) then mret tt
  else
    w ← get_world;
    (fun w' => Ret tt (w' <| runs := S (runs w') |>)) ;;
    run_loop (clock w (runs w)).

(** ** BEGIN *)

Definition set_start_time (p t : nat) : M unit :=
  b ← the_br; mod_ptp p t (fun x => x <| start_time := uptime b |>).

Definition tree_state_machines_begin (t : nat) : M unit :=
  b ← the_br;
  if negb (bridgeEnabled b) then mret tt
  else
    for_ptp_in_tree (fun p => set_start_time p t ;; PISM_begin p t) ;;
    PRSSM_begin t ;;
    for_ptp_in_tree (fun p => PRTSM_begin p t) ;;
    for_ptp_in_tree (fun p => PSTSM_begin p t) ;;
    for_ptp_in_tree (fun p => TCSM_begin p t) ;;
    br_state_machines_run.

Definition prt_state_machines_begin (p : nat) : M unit :=
  b ← the_br;
  if negb (bridgeEnabled b) then mret tt
  else
    PRSM_begin p ;;
    PPMSM_begin p ;;
    BDSM_begin p ;;
    PTSM_begin p ;;
    for_ptp_in_port p (fun t => set_start_time p t ;; PISM_begin p t) ;;
    for_tree_in_bridge (fun t => PRSSM_run t false ;; mret tt) ;;
    for_ptp_in_port p (fun t => PRTSM_begin p t) ;;
    for_ptp_in_port p (fun t => PSTSM_begin p t) ;;
    for_ptp_in_port p (fun t => TCSM_begin p t) ;;
    br_state_machines_run.

Definition br_state_machines_begin : M unit :=
  b ← the_br;
  if negb (bridgeEnabled b) then mret tt
  else
    for_port_in_bridge PRSM_begin ;;
    for_port_in_bridge PPMSM_begin ;;
    for_port_in_bridge BDSM_begin ;;
    for_port_in_bridge PTSM_begin ;;
    for_all_ptps (fun p t => set_start_time p t ;; PISM_begin p t) ;;
    for_tree_in_bridge PRSSM_begin ;;
    for_all_ptps PRTSM_begin ;;
    for_all_ptps PSTSM_begin ;;
    for_all_ptps TCSM_begin ;;
    br_state_machines_run.
