(* ===== verification/MstpConfig.v ===== *)
(** * Creation of the objects and the VLAN mapping of mstpd/src/mstp.c

    The contents of freshly allocated objects, the *_default_internal_vars
    functions, create_tree and create_ptp, and the digest of the mapping from
    VLANs to spanning trees (clause 13.7). Allocation is taken to succeed. *)

From S2P Require Import Prelude Bytes MstpTypes MstpPriority MstpBpdu MstpMonad HmacMd5.

(** ** Zeroed memory *)
Definition zero_times : times_t := mk_times_t 0 0 0 0 0.
Definition zero_vector : port_priority_vector_t := mk_port_priority_vector_t 0 0 0 0 0 0.
Definition zero_mcid : mst_configuration_identifier_t :=
  mk_mst_configuration_identifier_t 0 (replicate CONFIGURATION_NAME_LEN 0) 0
    (replicate CONFIGURATION_DIGEST_LEN 0).
Definition zero_msti : msti_configuration_message_t := mk_msti_configuration_message_t 0 0 0 0 0 0.
Definition zero_bpdu : bpdu_t :=
  mk_bpdu_t 0 0 0 0 0 0 0 0 (0, 0) (0, 0) (0, 0) (0, 0) 0 0 zero_mcid 0 0 0
    (replicate (Z.to_nat MAX_STANDARD_MSTIS) zero_msti).

Definition calloc_tree : tree_t :=
  mk_tree_t 0 0 0 zero_vector zero_vector zero_times zero_times 0 0 false "" "" PRSSM_INIT_TREE.

Definition calloc_ptp : per_tree_port_t :=
  {| ptp_MSTID := 0; ptp_state := BR_STATE_DISABLED; fdWhile := 0; rrWhile := 0; rbWhile := 0;
     tcWhile := 0; rcvdInfoWhile := 0; agree := false; agreed := false; disputed := false;
     forward := false; forwarding := false; learn := false; learning := false;
     rcvdInfo := OtherInfo; infoIs := ioDisabled; proposed := false; proposing := false;
     rcvdMsg := false; rcvdTc := false; reRoot := false; reselect := false; selected := false;
     fdbFlush := false; tcProp := false; updtInfo := false; sync := false; synced := false;
     portId := 0; role := roleDisabled; selectedRole := roleDisabled;
     designatedPriority := zero_vector; msgPriority := zero_vector; portPriority := zero_vector;
     designatedTimes := zero_times; msgTimes := zero_times; portTimes := zero_times;
     master := false; mastered := false; InternalPortPathCost := 0;
     AdminInternalPortPathCost := 0; start_time := 0; PISM_state := PISM_DISABLED;
     PRTSM_state := PRTSM_INIT_PORT; PSTSM_state := PSTSM_DISCARDING;
     TCSM_state := TCSM_INACTIVE; calledFromFlushRoutine := false; rcvdMstiConfig := None |}.

Definition calloc_port (sysdeps : sysdep_if_data_t) : port_t :=
  {| port_number := 0; prt_trees := []; mdelayWhile := 0; helloWhen := 0; edgeDelayWhile := 0;
     txCount := 0; operEdge := false; portEnabled := false; infoInternal := false;
     rcvdInternal := false; mcheck := false; rcvdBpdu := false; rcvdRSTP := false;
     rcvdSTP := false; rcvdTcAck := false; rcvdTcn := false; sendRSTP := false; tcAck := false;
     newInfo := false; newInfoMsti := false; operPointToPointMAC := false;
     restrictedRole := false; restrictedTcn := false; ExternalPortPathCost := 0;
     AdminExternalPortPathCost := 0; AdminP2P := 0; AdminEdgePort := false; AutoEdge := false;
     BpduGuardPort := false; BpduGuardError := false; NetworkPort := false;
     BaInconsistent := false; dontTxmtBpdu := false; bpduFilterPort := false;
     rapidAgeingWhile := 0; brAssuRcvdInfoWhile := 0; PRSM_state := PRSM_DISCARD;
     PPMSM_state := PPMSM_CHECKING_RSTP; BDSM_state := BDSM_EDGE;
     PTSM_state := PTSM_TRANSMIT_INIT; rcvdBpduData := zero_bpdu; rcvdBpduNumOfMstis := 0;
     deleted := false; prt_sysdeps := sysdeps; num_rx_bpdu_filtered := 0; num_rx_bpdu := 0;
     num_rx_tcn := 0; num_tx_bpdu := 0; num_tx_tcn := 0; num_trans_fwd := 0;
     num_trans_blk := 0 |}.

Definition calloc_bridge (sysdeps : sysdep_br_data_t) : bridge_t :=
  {| br_ports := []; br_trees := []; bridgeEnabled := false; MstConfigId := zero_mcid;
     ForceProtocolVersion := 0; MaxHops := 0; br_Forward_Delay := 0; br_Max_Age := 0;
     br_Hello_Time := 0; Transmit_Hold_Count := 0; Migrate_Time := 0; Ageing_Time := 0;
     vid2fid := replicate (Z.to_nat (MAX_VID + 1)) 0;
     fid2mstid := replicate (Z.to_nat (MAX_FID + 1)) 0;
     uptime := 0; br_sysdeps := sysdeps |}.

(** ** Digest of the VLAN mapping (13.7) *)

Definition HMAC_KEY : list Z :=
  [0x13; 0xAC; 0x06; 0xA6; 0x2E; 0x47; 0xFD; 0x51; 0xF9; 0x5D; 0x2B; 0xA2; 0x43; 0xCD; 0x03; 0x46].

(** br->fid2mstid[br->vid2fid[vid]]: [None] when an index is out of range. *)
Definition vid2mstid (b : bridge_t) (vid : nat) : option Z :=
  vid2fid b !! vid ≫= fun fid => fid2mstid b !! Z.to_nat fid.

(** The VIDs 1 to MAX_VID, the range of every loop over VLANs. *)
Definition all_vids : list nat := seq 1 (Z.to_nat MAX_VID).

Definition vid2mstid_table (b : bridge_t) : option (list Z) :=
  (fun l => 0 :: l ++ [0]) <$> mapM (vid2mstid b) all_vids.

(** The uninitialised buffer of the MD5 context on the stack. *)
Definition stack_md5_buffer : list Z := replicate 64 0.

Definition config_digest (table : list Z) : list Z :=
  hmac_md5 stack_md5_buffer (flat_map (be_bytes 2) table) HMAC_KEY.

Definition RecalcConfigDigest : M unit :=
  b ← the_br;
  table ← deref (vid2mstid_table b);
  mod_br (fun b => b <| MstConfigId :=
    (MstConfigId b) <| configuration_digest := config_digest table |> |>).

(** ** Default internal variables *)

Definition bridge_default_internal_vars (b : bridge_t) : bridge_t := b <| uptime := 0 |>.

Definition tree_default_internal_vars (tr : tree_t) : tree_t :=
  tr <| time_since_topology_change := 0 |>
     <| topology_change_count := 0 |>
     <| topology_change := false |>
     <| topology_change_port := "None"%string |>
     <| last_topology_change_port := "None"%string |>.

Definition port_default_internal_vars (prt : port_t) : port_t :=
  prt <| infoInternal := false |>
      <| rcvdInternal := false |>
      <| rcvdTcAck := false |>
      <| rcvdTcn := false |>
      <| rapidAgeingWhile := 0 |>
      <| brAssuRcvdInfoWhile := 0 |>
      <| BaInconsistent := false |>
      <| num_rx_bpdu_filtered := 0 |>
      <| num_rx_bpdu := 0 |>
      <| num_rx_tcn := 0 |>
      <| num_tx_bpdu := 0 |>
      <| num_tx_tcn := 0 |>
      <| num_trans_fwd := 0 |>
      <| num_trans_blk := 0 |>.

Definition ptp_default_internal_vars (x : per_tree_port_t) : per_tree_port_t :=
  x <| rcvdTc := false |>
    <| tcProp := false |>
    <| updtInfo := false |>
    <| master := false |>
    <| disputed := false |>
    <| rcvdInfo := OtherInfo |>
    <| mastered := false |>
    <| msgPriority := zero_vector |>
    <| msgTimes := zero_times |>.

(** ** create_tree and create_ptp *)

(** The identifier of this bridge in all three places of BridgePriority. *)
Definition set_BridgePriority_from (id : Z) (tr : tree_t) : tree_t :=
  tr <| BridgeIdentifier := id |>
     <| BridgePriority := (BridgePriority tr) <| RootID := id |> <| RRootID := id |>
                                              <| DesignatedBridgeID := id |> |>.

Definition bridge_times (b : bridge_t) (tm : times_t) : times_t :=
  tm <| remainingHops := MaxHops b |>
     <| Forward_Delay := br_Forward_Delay b |>
     <| Max_Age := br_Max_Age b |>
     <| Hello_Time := br_Hello_Time b |>.

Definition create_tree (b : bridge_t) (macaddr MSTID : Z) : tree_t :=
  let tree := calloc_tree <| tree_MSTID := MSTID |> in
  let tree := set_BridgePriority_from (make_bid (Z.lor 0x8000 MSTID) macaddr) tree in
  let tree := tree <| BridgeTimes := (bridge_times b (BridgeTimes tree)) <| Message_Age := 0 |> |> in
  tree_default_internal_vars tree.

Definition create_ptp (tree : tree_t) (prt : port_t) : per_tree_port_t :=
  ptp_default_internal_vars
    (calloc_ptp
       <| ptp_MSTID := tree_MSTID tree |>
       <| ptp_state := BR_STATE_DISABLED |>
       <| portId := Z.lor 0x8000 (port_number prt) |>
       <| AdminInternalPortPathCost := 0 |>
       <| InternalPortPathCost := compute_pcost (if_speed (prt_sysdeps prt)) |>
       <| portPriority := BridgePriority tree |>
       <| portTimes := BridgeTimes tree |>
       <| calledFromFlushRoutine := false |>).
