(* ===== verification/MstpEvents.v ===== *)
(** * External events of mstpd/src/mstp.c

    The MSTP_IN_* functions by which bridge_track.c drives the protocol:
    creation and deletion of bridges, ports and trees, link and bridge state
    changes, the one second tick, and received messages. *)

From S2P Require Import Prelude Bytes MstpTypes MstpPriority MstpBpdu MstpMonad MstpOut.
From S2P Require Import MstpPort MstpInfo MstpRoles MstpTransitions MstpForwarding MstpRun.
From S2P Require Import HmacMd5 MstpConfig.

(** ** Bridges and ports *)

(** "%02hhX" for the six octets of a MAC address. *)
Definition hex_digit (d : Z) : Z := if d <? 10 then 48 + d else 55 + d.
Definition hex_octet (o : Z) : list Z := [hex_digit (o / 16); hex_digit (o mod 16)].
Definition mac_name (macaddr : Z) : list Z := flat_map hex_octet (be_bytes 6 macaddr).

(** sprintf into an array: the characters and the NUL replace its start. *)
Definition sprintf_into (dst s : list Z) : list Z := s ++ [0] ++ drop (length s + 1) dst.

Definition MSTP_IN_bridge_create (macaddr : Z) : M bool :=
  mod_br (fun b => b
    <| br_ports := [] |>
    <| br_trees := [] |>
    <| bridgeEnabled := false |>
    <| vid2fid := replicate (length (vid2fid b)) 0 |>
    <| fid2mstid := replicate (length (fid2mstid b)) 0 |>
    <| MstConfigId := (MstConfigId b)
         <| selector := 0 |>
         <| configuration_name := sprintf_into (configuration_name (MstConfigId b)) (mac_name macaddr) |>
         <| revision_level := 0 |> |>) ;;
  RecalcConfigDigest ;;
  mod_br (fun b => b
    <| ForceProtocolVersion := protoRSTP |>
    <| MaxHops := 20 |>
    <| br_Forward_Delay := 15 |>
    <| br_Max_Age := 20 |>
    <| Transmit_Hold_Count := 6 |>
    <| Migrate_Time := 3 |>
    <| Ageing_Time := 300 |>
    <| br_Hello_Time := 2 |>) ;;
  mod_br bridge_default_internal_vars ;;
  mod_br (fun b => b <| br_trees := br_trees b ++ [create_tree b macaddr 0] |>) ;;
  mret true.

(** The new port before it is linked into the bridge. *)
Definition new_port (sysdeps : sysdep_if_data_t) (portno : Z) : port_t :=
  port_default_internal_vars
    ((calloc_port sysdeps)
       <| port_number := portno |>
       <| AdminExternalPortPathCost := 0 |>
       <| AdminP2P := p2pAuto |>
       <| operPointToPointMAC := false |>
       <| portEnabled := false |>
       <| restrictedRole := false |>
       <| restrictedTcn := false |>
       <| ExternalPortPathCost := MAX_PATH_COST |>
       <| AdminEdgePort := false |>
       <| AutoEdge := true |>
       <| BpduGuardPort := false |>
       <| BpduGuardError := false |>
       <| NetworkPort := false |>
       <| dontTxmtBpdu := false |>
       <| bpduFilterPort := false |>
       <| deleted := false |>).

Definition MSTP_IN_port_create_and_add_tail (sysdeps : sysdep_if_data_t) (portno : Z) : M bool :=
  b ← the_br;
  let prt := new_port sysdeps portno in
  let prt := prt <| prt_trees := map (fun tree => create_ptp tree prt) (br_trees b) |> in
  mod_br (fun b => b <| br_ports := br_ports b ++ [prt] |>) ;;
  prt_state_machines_begin (length (br_ports b)) ;;
  mret true.

Definition MSTP_IN_delete_port (p : nat) : M unit :=
  mod_port p (fun prt => prt <| deleted := true |>) ;;
  prt ← the_port p;
  (if portEnabled prt then
     mod_port p (fun prt => prt <| portEnabled := false |>) ;;
     br_state_machines_run
   else mret tt) ;;
  mod_br (fun b => b <| br_ports := delete p (br_ports b) |>) ;;
  br_state_machines_run.

Definition MSTP_IN_delete_bridge : M unit :=
  mod_br (fun b => b <| bridgeEnabled := false |>) ;;
  for_port_in_bridge (fun _ => MSTP_IN_delete_port 0) ;;
  mod_br (fun b => b <| br_trees := [] |>).

(** ** Changes of the environment *)

Definition MSTP_IN_set_bridge_address (macaddr : Z) : M unit :=
  b ← the_br;
  let same := fun tr => bid_mac_address (BridgeIdentifier tr) =? macaddr in
  for_tree_in_bridge (fun t => mod_tree t (fun tr =>
    if same tr then tr
    else set_BridgePriority_from (make_bid (bid_priority (BridgeIdentifier tr)) macaddr) tr)) ;;
  if forallb same (br_trees b) then mret tt else br_state_machines_begin.

Definition MSTP_IN_set_bridge_enable (up : bool) : M unit :=
  b ← the_br;
  if Bool.eqb (bridgeEnabled b) up then mret tt
  else
    mod_br (fun b => b <| bridgeEnabled := up |>) ;;
    mod_br bridge_default_internal_vars ;;
    for_tree_in_bridge (fun t => mod_tree t tree_default_internal_vars) ;;
    for_port_in_bridge (fun p =>
      prt ← the_port p;
      (if negb (rapidAgeingWhile prt =? 0) then MSTP_OUT_set_ageing_time p (Ageing_Time b)
       else mret tt) ;;
      mod_port p port_default_internal_vars ;;
      for_ptp_in_port p (fun t =>
        x ← the_ptp p t;
        (if negb (bool_decide (BR_STATE_DISABLED = ptp_state x)) then
           MSTP_OUT_set_state p t BR_STATE_DISABLED
         else mret tt) ;;
        mod_ptp p t ptp_default_internal_vars)) ;;
    br_state_machines_begin.

Definition updtbrAssuRcvdInfoWhile (p : nat) : M unit :=
  cist ← the_cist p;
  mod_port p (fun prt => prt <| brAssuRcvdInfoWhile := 3 * Hello_Time (portTimes cist) |>).

(** operPointToPointMAC from AdminP2P and the duplex of the link *)
Definition new_p2p (AdminP2P duplex : Z) : bool :=
  if AdminP2P =? p2pForceTrue then true
  else if AdminP2P =? p2pForceFalse then false
  else negb (duplex =? 0).

(** 0 == Admin ? computed : Admin *)
Definition path_cost (admin computed : Z) : Z := if admin =? 0 then computed else admin.

Definition enable_port (prt : port_t) : port_t :=
  prt <| portEnabled := true |>
      <| BpduGuardError := false |>
      <| BaInconsistent := false |>
      <| num_rx_bpdu_filtered := 0 |>
      <| num_rx_bpdu := 0 |>
      <| num_rx_tcn := 0 |>
      <| num_tx_bpdu := 0 |>
      <| num_tx_tcn := 0 |>.

Definition MSTP_IN_set_port_enable (p : nat) (up : bool) (speed duplex : Z) : M unit :=
  prt ← the_port p;
  changed ←
    (if up then
       let computed_pcost := compute_pcost speed in
       let new_ext := path_cost (AdminExternalPortPathCost prt) computed_pcost in
       let new_int := fun x => path_cost (AdminInternalPortPathCost x) computed_pcost in
       let p2p := new_p2p (AdminP2P prt) duplex in
       mod_port p (fun prt => prt <| ExternalPortPathCost := new_ext |>) ;;
       for_ptp_in_port p (fun t => mod_ptp p t (fun x => x <| InternalPortPathCost := new_int x |>)) ;;
       mod_port p (fun prt => prt <| operPointToPointMAC := p2p |>) ;;
       (if negb (portEnabled prt) then
          mod_port p enable_port ;; updtbrAssuRcvdInfoWhile p
        else mret tt) ;;
       mret (negb (ExternalPortPathCost prt =? new_ext)
             || existsb (fun x => negb (InternalPortPathCost x =? new_int x)) (prt_trees prt)
             || negb (Bool.eqb (operPointToPointMAC prt) p2p)
             || negb (portEnabled prt))
     else
       mod_port p (fun prt => prt <| portEnabled := false |>) ;;
       mret (portEnabled prt)) : M bool;
  if (changed : bool) then br_state_machines_run else mret tt.

(** ** Time *)

Definition MSTP_IN_one_second : M unit :=
  mod_br (fun b => b <| uptime := u32 (uptime b + 1) |>) ;;
  b ← the_br;
  if negb (bridgeEnabled b) then mret tt
  else
    for_tree_in_bridge (fun t => mod_tree t (fun tr =>
      if topology_change tr then tr
      else tr <| time_since_topology_change := u32 (time_since_topology_change tr + 1) |>)) ;;
    for_port_in_bridge (fun p =>
      PTSM_tick p ;;
      prt ← the_port p;
      if negb (rapidAgeingWhile prt =? 0) then
        mod_port p (fun prt => prt <| rapidAgeingWhile := rapidAgeingWhile prt - 1 |>) ;;
        if (rapidAgeingWhile prt - 1 =? 0) && negb (deleted prt) then
          MSTP_OUT_set_ageing_time p (Ageing_Time b)
        else mret tt
      else mret tt) ;;
    br_state_machines_run.

(** The asynchronous completion of a flush. *)
Definition MSTP_IN_all_fids_flushed (p t : nat) : M unit :=
  all_fids_flushed (TCSM_run p t false ;; br_state_machines_run) p t.

(** ** Received messages

    [buf] is the memory that the message pointer points to, [size] the
    length of the message. *)
Definition MSTP_IN_rx_bpdu (p : nat) (buf : list Z) (size : Z) : M unit :=
  let bpdu := decode_bpdu buf in
  b ← the_br;
  mod_port p (fun prt => prt <| num_rx_bpdu := u32 (num_rx_bpdu prt + 1) |>) ;;
  prt ← the_port p;
  if BpduGuardPort prt then
    mod_port p (fun prt => prt <| BpduGuardError := true |>) ;;
    MSTP_OUT_shutdown_port p
  else if bpduFilterPort prt then
    mod_port p (fun prt => prt <| num_rx_bpdu_filtered := u32 (num_rx_bpdu_filtered prt + 1) |>)
  else if negb (bridgeEnabled b) then mret tt
  else if rcvdBpdu prt then mret tt
  else
    match rx_validate bpdu size with
    | None => mret tt
    | Some (version, num_mstis) =>
        let bpdu := bpdu <| protocolVersion := version |> in
        mod_port p (fun prt => prt
          <| rcvdBpduNumOfMstis := default (rcvdBpduNumOfMstis prt) num_mstis |>
          <| num_rx_tcn :=
               if ((protoSTP =? protocolVersion bpdu) && (bpduTypeTCN =? bpduType bpdu))
                  || test_bit (flags bpdu) offsetTc
               then u32 (num_rx_tcn prt + 1) else num_rx_tcn prt |>
          <| rcvdBpduData := bpdu |>
          <| rcvdBpdu := true |>
          <| BaInconsistent := false |>) ;;
        updtbrAssuRcvdInfoWhile p ;;
        br_state_machines_run
    end.
