(* ===== verification/MstpAdmin.v ===== *)
(** * Administration of the spanning tree (mstpd/src/mstp.c, clause 12)

    Reading and setting the parameters of bridges, ports and trees, the
    allocation of VLANs to trees, and the creation and deletion of trees.
    A member of a configuration structure of the source that has a [set_]
    flag is an option here. *)

From S2P Require Import Prelude Bytes MstpTypes MstpPriority MstpBpdu MstpMonad MstpOut.
From S2P Require Import MstpPort MstpInfo MstpRoles MstpTransitions MstpForwarding MstpRun.
From S2P Require Import MstpConfig MstpEvents.

(** ** Status *)

Record CIST_BridgeStatus := {
  cbs_bridge_id : Z; cbs_time_since_topology_change : Z; cbs_topology_change_count : Z;
  cbs_topology_change : bool; cbs_topology_change_port : string;
  cbs_last_topology_change_port : string; cbs_designated_root : Z; cbs_root_path_cost : Z;
  cbs_root_port_id : Z; cbs_root_max_age : Z; cbs_root_forward_delay : Z;
  cbs_bridge_max_age : Z; cbs_bridge_forward_delay : Z; cbs_tx_hold_count : Z;
  cbs_protocol_version : Z; cbs_regional_root : Z; cbs_internal_path_cost : Z;
  cbs_enabled : bool; cbs_Ageing_Time : Z; cbs_max_hops : Z; cbs_bridge_hello_time : Z }.

Definition MSTP_IN_get_cist_bridge_status : M CIST_BridgeStatus :=
  br ← the_br;
  cist ← the_tree 0;
  mret {| cbs_bridge_id := BridgeIdentifier cist;
          cbs_time_since_topology_change := time_since_topology_change cist;
          cbs_topology_change_count := topology_change_count cist;
          cbs_topology_change := topology_change cist;
          cbs_topology_change_port := strncpy_name (topology_change_port cist);
          cbs_last_topology_change_port := strncpy_name (last_topology_change_port cist);
          cbs_designated_root := RootID (rootPriority cist);
          cbs_root_path_cost := ExtRootPathCost (rootPriority cist);
          cbs_regional_root := RRootID (rootPriority cist);
          cbs_internal_path_cost := IntRootPathCost (rootPriority cist);
          cbs_root_port_id := rootPortId cist;
          cbs_root_max_age := Max_Age (rootTimes cist);
          cbs_root_forward_delay := Forward_Delay (rootTimes cist);
          cbs_bridge_max_age := br_Max_Age br;
          cbs_bridge_forward_delay := br_Forward_Delay br;
          cbs_max_hops := MaxHops br;
          cbs_tx_hold_count := Transmit_Hold_Count br;
          cbs_protocol_version := ForceProtocolVersion br;
          cbs_enabled := bridgeEnabled br;
          cbs_bridge_hello_time := br_Hello_Time br;
          cbs_Ageing_Time := Ageing_Time br |}.

Record MSTI_BridgeStatus := {
  mbs_bridge_id : Z; mbs_time_since_topology_change : Z; mbs_topology_change_count : Z;
  mbs_topology_change : bool; mbs_topology_change_port : string;
  mbs_last_topology_change_port : string; mbs_regional_root : Z; mbs_internal_path_cost : Z;
  mbs_root_port_id : Z }.

Definition MSTP_IN_get_msti_bridge_status (t : nat) : M MSTI_BridgeStatus :=
  tree ← the_tree t;
  mret {| mbs_bridge_id := BridgeIdentifier tree;
          mbs_time_since_topology_change := time_since_topology_change tree;
          mbs_topology_change_count := topology_change_count tree;
          mbs_topology_change := topology_change tree;
          mbs_topology_change_port := strncpy_name (topology_change_port tree);
          mbs_last_topology_change_port := strncpy_name (last_topology_change_port tree);
          mbs_regional_root := RRootID (rootPriority tree);
          mbs_internal_path_cost := IntRootPathCost (rootPriority tree);
          mbs_root_port_id := rootPortId tree |}.

Record MSTI_PortStatus := {
  mps_uptime : Z; mps_state : br_state_t; mps_port_id : Z;
  mps_admin_internal_port_path_cost : Z; mps_internal_port_path_cost : Z;
  mps_designated_regional_root : Z; mps_designated_internal_cost : Z;
  mps_designated_bridge : Z; mps_designated_port : Z; mps_role : port_role_t;
  mps_disputed : bool }.

Definition port_uptime (b : bridge_t) (x : per_tree_port_t) : Z := u32 (uptime b - start_time x).

Definition MSTP_IN_get_msti_port_status (p t : nat) : M MSTI_PortStatus :=
  b ← the_br;
  x ← the_ptp p t;
  mret {| mps_uptime := port_uptime b x;
          mps_state := ptp_state x;
          mps_port_id := portId x;
          mps_admin_internal_port_path_cost := AdminInternalPortPathCost x;
          mps_internal_port_path_cost := InternalPortPathCost x;
          mps_designated_regional_root := RRootID (portPriority x);
          mps_designated_internal_cost := IntRootPathCost (portPriority x);
          mps_designated_bridge := DesignatedBridgeID (portPriority x);
          mps_designated_port := DesignatedPortID (portPriority x);
          mps_role := role x;
          mps_disputed := disputed x |}.

(** The members that CIST_PortStatus has in common with MSTI_PortStatus are
    [cps_msti]; the others follow in the order of the source. *)
Record CIST_PortStatus := {
  cps_msti : MSTI_PortStatus; cps_admin_external_port_path_cost : Z;
  cps_external_port_path_cost : Z; cps_designated_root : Z; cps_designated_external_cost : Z;
  cps_tc_ack : bool; cps_port_hello_time : Z; cps_admin_edge_port : bool;
  cps_auto_edge_port : bool; cps_oper_edge_port : bool; cps_enabled : bool;
  cps_admin_p2p : Z; cps_oper_p2p : bool; cps_restricted_role : bool;
  cps_restricted_tcn : bool; cps_bpdu_guard_port : bool; cps_bpdu_guard_error : bool;
  cps_network_port : bool; cps_ba_inconsistent : bool; cps_bpdu_filter_port : bool;
  cps_num_rx_bpdu_filtered : Z; cps_num_rx_bpdu : Z; cps_num_rx_tcn : Z;
  cps_num_tx_bpdu : Z; cps_num_tx_tcn : Z; cps_num_trans_fwd : Z; cps_num_trans_blk : Z;
  cps_rcvdBpdu : bool; cps_rcvdRSTP : bool; cps_rcvdSTP : bool; cps_rcvdTcAck : bool;
  cps_rcvdTcn : bool; cps_sendRSTP : bool }.

Definition MSTP_IN_get_cist_port_status (p : nat) : M CIST_PortStatus :=
  common ← MSTP_IN_get_msti_port_status p 0;
  prt ← the_port p;
  cist ← the_cist p;
  mret {| cps_msti := common;
          cps_admin_external_port_path_cost := AdminExternalPortPathCost prt;
          cps_external_port_path_cost := ExternalPortPathCost prt;
          cps_designated_root := RootID (portPriority cist);
          cps_designated_external_cost := ExtRootPathCost (portPriority cist);
          cps_tc_ack := tcAck prt;
          cps_port_hello_time := Hello_Time (portTimes cist);
          cps_admin_edge_port := AdminEdgePort prt;
          cps_auto_edge_port := AutoEdge prt;
          cps_oper_edge_port := operEdge prt;
          cps_enabled := portEnabled prt;
          cps_admin_p2p := AdminP2P prt;
          cps_oper_p2p := operPointToPointMAC prt;
          cps_restricted_role := restrictedRole prt;
          cps_restricted_tcn := restrictedTcn prt;
          cps_bpdu_guard_port := BpduGuardPort prt;
          cps_bpdu_guard_error := BpduGuardError prt;
          cps_network_port := NetworkPort prt;
          cps_ba_inconsistent := BaInconsistent prt;
          cps_bpdu_filter_port := bpduFilterPort prt;
          cps_num_rx_bpdu_filtered := num_rx_bpdu_filtered prt;
          cps_num_rx_bpdu := num_rx_bpdu prt;
          cps_num_rx_tcn := num_rx_tcn prt;
          cps_num_tx_bpdu := num_tx_bpdu prt;
          cps_num_tx_tcn := num_tx_tcn prt;
          cps_num_trans_fwd := num_trans_fwd prt;
          cps_num_trans_blk := num_trans_blk prt;
          cps_rcvdBpdu := rcvdBpdu prt;
          cps_rcvdRSTP := rcvdRSTP prt;
          cps_rcvdSTP := rcvdSTP prt;
          cps_rcvdTcAck := rcvdTcAck prt;
          cps_rcvdTcn := rcvdTcn prt;
          cps_sendRSTP := sendRSTP prt |}.

(** ** Parameters of the bridge *)

Record CIST_BridgeConfig := {
  cfg_bridge_max_age : option Z;
  cfg_bridge_forward_delay : option Z;
  cfg_protocol_version : option Z;
  cfg_tx_hold_count : option Z;
  cfg_max_hops : option Z;
  cfg_bridge_hello_time : option Z;
  cfg_bridge_ageing_time : option Z }.

(** A member that is set lies between [lo] and [hi]. *)
Definition in_range (lo hi : Z) (o : option Z) : bool :=
  match o with Some v => (lo <=? v) && (v <=? hi) | None => true end.

Definition is_set {A} (o : option A) : bool := match o with Some _ => true | None => false end.

Definition bridge_config_valid (b : bridge_t) (cfg : CIST_BridgeConfig) : bool :=
  let new_max_age := default (br_Max_Age b) (cfg_bridge_max_age cfg) in
  let new_forward_delay := default (br_Forward_Delay b) (cfg_bridge_forward_delay cfg) in
  in_range 6 40 (cfg_bridge_max_age cfg)
  && in_range 4 30 (cfg_bridge_forward_delay cfg)
  && (negb (is_set (cfg_bridge_max_age cfg) || is_set (cfg_bridge_forward_delay cfg))
      || (new_max_age <=? 2 * (new_forward_delay - 1)))
  && match cfg_protocol_version cfg with
     | Some v => (v =? protoSTP) || (v =? protoRSTP) || (v =? protoMSTP)
     | None => true
     end
  && in_range 1 10 (cfg_tx_hold_count cfg)
  && in_range 6 40 (cfg_max_hops cfg)
  && in_range 1 10 (cfg_bridge_hello_time cfg)
  && in_range 10 1000000 (cfg_bridge_ageing_time cfg).

(** A member that is set differs from the value in use. *)
Definition differs (o : option Z) (old : Z) : bool :=
  match o with Some v => negb (v =? old) | None => false end.

Definition MSTP_IN_set_cist_bridge_config (cfg : CIST_BridgeConfig) : M Z :=
  b ← the_br;
  if negb (bridge_config_valid b cfg) then mret (-1)
  else
    let times_set := is_set (cfg_bridge_max_age cfg) || is_set (cfg_bridge_forward_delay cfg) in
    let ages := times_set && (differs (cfg_bridge_max_age cfg) (br_Max_Age b)
                              || differs (cfg_bridge_forward_delay cfg) (br_Forward_Delay b)) in
    let init := differs (cfg_protocol_version cfg) (ForceProtocolVersion b) in
    let hold := differs (cfg_tx_hold_count cfg) (Transmit_Hold_Count b) in
    let hops := differs (cfg_max_hops cfg) (MaxHops b) in
    let hello := differs (cfg_bridge_hello_time cfg) (br_Hello_Time b) in
    let changedBridgeTimes := ages || hops || hello in
    let changed := changedBridgeTimes || init || hold in
    mod_br (fun b => b
      <| br_Max_Age := default (br_Max_Age b) (cfg_bridge_max_age cfg) |>
      <| br_Forward_Delay := default (br_Forward_Delay b) (cfg_bridge_forward_delay cfg) |>
      <| ForceProtocolVersion := default (ForceProtocolVersion b) (cfg_protocol_version cfg) |>
      <| Transmit_Hold_Count := default (Transmit_Hold_Count b) (cfg_tx_hold_count cfg) |>) ;;
    (if hold then for_port_in_bridge (fun p => mod_port p (fun prt => prt <| txCount := 0 |>))
     else mret tt) ;;
    mod_br (fun b => b
      <| MaxHops := default (MaxHops b) (cfg_max_hops cfg) |>
      <| br_Hello_Time := default (br_Hello_Time b) (cfg_bridge_hello_time cfg) |>
      <| Ageing_Time := default (Ageing_Time b) (cfg_bridge_ageing_time cfg) |>) ;;
    (if changedBridgeTimes then
       b ← the_br;
       for_tree_in_bridge (fun t =>
         mod_tree t (fun tr => tr <| BridgeTimes := bridge_times b (BridgeTimes tr) |>) ;;
         for_ptp_in_tree (fun p => mod_ptp p t (fun x => x
           <| selected := false |>
           <| reselect := true |>
           <| portTimes := (portTimes x) <| Hello_Time := br_Hello_Time b |> |>)))
     else mret tt) ;;
    (if changed && bridgeEnabled b then
       if init then br_state_machines_begin else br_state_machines_run
     else mret tt) ;;
    mret 0.

Definition reselect_ptp (x : per_tree_port_t) : per_tree_port_t :=
  x <| selected := false |> <| reselect := true |>.

Definition MSTP_IN_set_msti_bridge_config (t : nat) (bridge_priority : Z) : M Z :=
  if 15 <? bridge_priority then mret (-1)
  else
    let valuePri := u8 (Z.shiftl bridge_priority 4) in
    tree ← the_tree t;
    if GET_PRIORITY_FROM_IDENTIFIER 64 (BridgeIdentifier tree) =? valuePri then mret 0
    else
      mod_tree t (fun tr => set_BridgePriority_from
        (SET_PRIORITY_IN_IDENTIFIER 64 valuePri (BridgeIdentifier tr)) tr) ;;
      for_ptp_in_tree (fun p => mod_ptp p t reselect_ptp) ;;
      mret 0.

(** ** Parameters of a port *)

Record CIST_PortConfig := {
  cfg_admin_external_port_path_cost : option Z;
  cfg_admin_edge_port : option bool;
  cfg_auto_edge_port : option bool;
  cfg_admin_p2p : option Z;
  cfg_restricted_role : option bool;
  cfg_restricted_tcn : option bool;
  cfg_bpdu_guard_port : option bool;
  cfg_network_port : option bool;
  cfg_dont_txmt : option bool;
  cfg_bpdu_filter_port : option bool }.

(** if(cfg->set_x) if(prt->X != cfg->x) { prt->X = cfg->x; ... }: the
    statement that updates one boolean member, with the body after it. *)
Definition set_flag (o : option bool) (old : bool) (body : bool -> M bool) : M bool :=
  match o with
  | Some v => if Bool.eqb old v then mret false else body v
  | None => mret false
  end.

Definition or_changed (m1 m2 : M bool) : M bool := c1 ← m1; c2 ← m2; mret (c1 || c2).

(** An AdminP2P value that is not one of the three is replaced by p2pAuto. *)
Definition valid_p2p (v : Z) : Z :=
  if (v =? p2pAuto) || (v =? p2pForceTrue) || (v =? p2pForceFalse) then v else p2pAuto.

Section port_config.
Context (p : nat) (cfg : CIST_PortConfig).

Definition config_external_cost : M bool :=
  match cfg_admin_external_port_path_cost cfg with
  | None => mret false
  | Some cost =>
      prt ← the_port p;
      let new := path_cost cost (compute_pcost (if_speed (prt_sysdeps prt))) in
      mod_port p (fun prt => prt <| AdminExternalPortPathCost := cost |>) ;;
      if ExternalPortPathCost prt =? new then mret false
      else
        mod_port p (fun prt => prt <| ExternalPortPathCost := new |>) ;;
        mod_ptp p 0 reselect_ptp ;;
        mret true
  end.

Definition config_p2p : M bool :=
  match cfg_admin_p2p cfg with
  | None => mret false
  | Some v =>
      prt ← the_port p;
      let v := valid_p2p v in
      let p2p := new_p2p v (if_duplex (prt_sysdeps prt)) in
      mod_port p (fun prt => prt <| AdminP2P := v |> <| operPointToPointMAC := p2p |>) ;;
      mret (negb (Bool.eqb (operPointToPointMAC prt) p2p))
  end.

Definition config_admin_edge : M bool :=
  prt ← the_port p;
  set_flag (cfg_admin_edge_port cfg) (AdminEdgePort prt) (fun v =>
    mod_port p (fun prt => prt <| AdminEdgePort := v |>) ;; BDSM_begin p ;; mret true).

Definition config_auto_edge : M bool :=
  prt ← the_port p;
  set_flag (cfg_auto_edge_port cfg) (AutoEdge prt) (fun v =>
    mod_port p (fun prt => prt <| AutoEdge := v |>) ;; mret true).

Definition config_restricted_role : M bool :=
  prt ← the_port p;
  set_flag (cfg_restricted_role cfg) (restrictedRole prt) (fun v =>
    mod_port p (fun prt => prt <| restrictedRole := v |>) ;; mret true).

Definition config_restricted_tcn : M bool :=
  prt ← the_port p;
  set_flag (cfg_restricted_tcn cfg) (restrictedTcn prt) (fun v =>
    mod_port p (fun prt => prt <| restrictedTcn := v |>) ;; mret true).

Definition config_bpdu_guard : M bool :=
  prt ← the_port p;
  set_flag (cfg_bpdu_guard_port cfg) (BpduGuardPort prt) (fun v =>
    mod_port p (fun prt => prt <| BpduGuardPort := v |>) ;; mret false).

Definition config_network_port : M bool :=
  prt ← the_port p;
  set_flag (cfg_network_port cfg) (NetworkPort prt) (fun v =>
    mod_port p (fun prt => prt <| NetworkPort := v |>
                               <| BaInconsistent := v && BaInconsistent prt |>) ;;
    mret true).

Definition config_dont_txmt : M bool :=
  prt ← the_port p;
  set_flag (cfg_dont_txmt cfg) (dontTxmtBpdu prt) (fun v =>
    mod_port p (fun prt => prt <| dontTxmtBpdu := v |>) ;; mret false).

Definition config_bpdu_filter : M bool :=
  prt ← the_port p;
  set_flag (cfg_bpdu_filter_port cfg) (bpduFilterPort prt) (fun v =>
    mod_port p (fun prt => prt <| bpduFilterPort := v |> <| num_rx_bpdu_filtered := 0 |>) ;;
    mret false).

Definition MSTP_IN_set_cist_port_config : M Z :=
  changed ← foldr or_changed (mret false)
    [ config_external_cost; config_p2p; config_admin_edge; config_auto_edge;
      config_restricted_role; config_restricted_tcn; config_bpdu_guard; config_network_port;
      config_dont_txmt; config_bpdu_filter ];
  prt ← the_port p;
  (if (changed : bool) && portEnabled prt then br_state_machines_run else mret tt) ;;
  mret 0.
End port_config.

Record MSTI_PortConfig := {
  cfg_admin_internal_port_path_cost : option Z;
  cfg_port_priority : option Z }.

Definition config_port_priority (p t : nat) (pri : Z) : M bool :=
  let valuePri := u8 (Z.shiftl pri 4) in
  x ← the_ptp p t;
  if GET_PRIORITY_FROM_IDENTIFIER 16 (portId x) =? valuePri then mret false
  else
    mod_ptp p t (fun x => x <| portId := SET_PRIORITY_IN_IDENTIFIER 16 valuePri (portId x) |>) ;;
    mret true.

Definition config_internal_cost (p t : nat) (cost : Z) : M bool :=
  prt ← the_port p;
  x ← the_ptp p t;
  let new := path_cost cost (compute_pcost (if_speed (prt_sysdeps prt))) in
  mod_ptp p t (fun x => x <| AdminInternalPortPathCost := cost |>
                          <| InternalPortPathCost := new |>) ;;
  mret (negb (InternalPortPathCost x =? new)).

Definition MSTP_IN_set_msti_port_config (p t : nat) (cfg : MSTI_PortConfig) : M Z :=
  if match cfg_port_priority cfg with Some pri => 15 <? pri | None => false end then mret (-1)
  else
    changed ← or_changed
      match cfg_port_priority cfg with
      | Some pri => config_port_priority p t pri
      | None => mret false
      end
      match cfg_admin_internal_port_path_cost cfg with
      | Some cost => config_internal_cost p t cost
      | None => mret false
      end;
    prt ← the_port p;
    (if (changed : bool) && portEnabled prt then
       mod_ptp p t reselect_ptp ;; br_state_machines_run
     else mret tt) ;;
    mret 0.

Definition MSTP_IN_port_mcheck (p : nat) : M Z :=
  b ← the_br;
  prt ← the_port p;
  (if rstpVersion b && portEnabled prt && bridgeEnabled b then
     mod_port p (fun prt => prt <| mcheck := true |>) ;;
     mod_ptp p 0 (fun x => x <| proposing := true |>) ;;
     br_state_machines_run
   else mret tt) ;;
  mret 0.
