(* ===== verification/MstpVlan.v ===== *)
(** * VLANs and spanning tree instances (mstpd/src/mstp.c, clause 12.10, 12.12)

    The allocation of VIDs to FIDs and of FIDs to trees, the MST
    configuration identifier, and the creation and deletion of trees. *)

From S2P Require Import Prelude Bytes MstpTypes MstpPriority MstpBpdu MstpMonad MstpOut.
From S2P Require Import MstpRun HmacMd5 MstpConfig.

(** An assignment to an element of an array: outside its bounds a fault. *)
Definition store (i : nat) (v : Z) (l : list Z) : option (list Z) :=
  if (i <? length l)%nat then Some (<[i:=v]> l) else None.

Definition recalc_and_begin : M unit := RecalcConfigDigest ;; br_state_machines_begin.

(** ** VID to FID *)

Definition MSTP_IN_set_vid2fid (vid fid : Z) : M bool :=
  if (vid <? 1) || (MAX_VID <? vid) || (MAX_FID <? fid) then mret false
  else
    b ← the_br;
    new ← deref (fid2mstid b !! Z.to_nat fid);
    old ← deref (vid2mstid b (Z.to_nat vid));
    vids ← deref (store (Z.to_nat vid) fid (vid2fid b));
    mod_br (fun b => b <| vid2fid := vids |>) ;;
    (if negb (new =? old) then recalc_and_begin else mret tt) ;;
    mret true.

(** The caller's array with the incorrect values of the VIDs 1 to MAX_VID
    replaced by the values in use. *)
Definition checked_vids2fids (b : bridge_t) (vids2fids : list Z) : list Z :=
  imap (fun vid fid =>
    if (1 <=? Z.of_nat vid) && (MAX_FID <? fid) then nth vid (vid2fid b) 0 else fid) vids2fids.

Definition MSTP_IN_set_all_vids2fids (vids2fids : list Z) : M bool :=
  b ← the_br;
  let vids := checked_vids2fids b (take (Z.to_nat (MAX_VID + 1)) vids2fids) in
  old ← deref (mapM (vid2mstid b) all_vids);
  mod_br (fun b => b <| vid2fid := vids |>) ;;
  b ← the_br;
  new ← deref (mapM (vid2mstid b) all_vids);
  (if negb (bool_decide (new = old)) then recalc_and_begin else mret tt) ;;
  mret true.

(** ** FID to MSTID *)

Definition tree_exists (b : bridge_t) (mstid : Z) : bool :=
  existsb (fun tr => tree_MSTID tr =? mstid) (br_trees b).

(** Whether some VLAN uses this FID. *)
Definition fid_in_use (b : bridge_t) (fid : Z) : bool :=
  existsb (fun vid => nth vid (vid2fid b) 0 =? fid) all_vids.

Definition MSTP_IN_set_fid2mstid (fid mstid : Z) : M bool :=
  if MAX_FID <? fid then mret false
  else
    b ← the_br;
    if negb (tree_exists b mstid) then mret false
    else
      old ← deref (fid2mstid b !! Z.to_nat fid);
      (if negb (old =? mstid) then
         fids ← deref (store (Z.to_nat fid) mstid (fid2mstid b));
         mod_br (fun b => b <| fid2mstid := fids |>) ;;
         if fid_in_use b fid then recalc_and_begin else mret tt
       else mret tt) ;;
      mret true.

Definition checked_fids2mstids (b : bridge_t) (fids2mstids : list Z) : list Z :=
  imap (fun fid mstid => if MAX_MSTID <? mstid then nth fid (fid2mstid b) 0 else mstid) fids2mstids.

Definition MSTP_IN_set_all_fids2mstids (fids2mstids : list Z) : M bool :=
  b ← the_br;
  let fids := checked_fids2mstids b (take (Z.to_nat (MAX_FID + 1)) fids2mstids) in
  if negb (forallb (tree_exists b) fids) then mret false
  else
    old ← deref (mapM (vid2mstid b) all_vids);
    mod_br (fun b => b <| fid2mstid := fids |>) ;;
    b ← the_br;
    new ← deref (mapM (vid2mstid b) all_vids);
    (if negb (bool_decide (new = old)) then recalc_and_begin else mret tt) ;;
    mret true.

(** ** MST configuration identifier *)

(** C strings are lists without their terminating NUL; an array holds a
    string up to its first NUL or its end. *)
Fixpoint strncmp_differ (n : nat) (s1 s2 : list Z) : bool :=
  match n with
  | O => false
  | S n =>
      let c1 := hd 0 s1 in
      let c2 := hd 0 s2 in
      if negb (c1 =? c2) then true
      else if c1 =? 0 then false
      else strncmp_differ n (tail s1) (tail s2)
  end.

Fixpoint strncpy (n : nat) (s : list Z) : list Z :=
  match n with
  | O => []
  | S n =>
      if hd 0 s =? 0 then replicate (S n) 0 else hd 0 s :: strncpy n (tail s)
  end.

Definition MSTP_IN_set_mst_config_id (revision : Z) (name : list Z) : M unit :=
  b ← the_br;
  let id := MstConfigId b in
  if strncmp_differ CONFIGURATION_NAME_LEN name (configuration_name id)
     || negb (revision =? revision_level id)
  then
    mod_br (fun b => b <| MstConfigId := id
      <| revision_level := revision |>
      <| configuration_name := strncpy (CONFIGURATION_NAME_LEN - 1) name ++ [0] |> |>) ;;
    br_state_machines_begin
  else mret tt.

(** ** Trees *)

Definition MSTP_IN_get_mstilist : M (list Z) :=
  b ← the_br;
  mret (take (Z.to_nat MAX_IMPLEMENTATION_MSTIS + 1) (map tree_MSTID (br_trees b))).

(** The position of the last tree with a smaller identifier. *)
Fixpoint tree_after_from (i : nat) (after : option nat) (mstid : Z) (trees : list tree_t) :
    option nat :=
  match trees with
  | [] => after
  | tr :: trees =>
      tree_after_from (S i) (if tree_MSTID tr <? mstid then Some i else after) mstid trees
  end.
Definition tree_after (mstid : Z) (trees : list tree_t) : option nat :=
  tree_after_from 0 None mstid trees.

Definition insert_at {A} (i : nat) (x : A) (l : list A) : list A := take i l ++ x :: drop i l.

Definition MSTP_IN_create_msti (mstid : Z) : M bool :=
  if (mstid <? 1) || (MAX_MSTID <? mstid) then mret false
  else
    b ← the_br;
    if tree_exists b mstid then mret true
    else
      match tree_after mstid (br_trees b) with
      | None => mret false
      | Some after =>
          if MAX_IMPLEMENTATION_MSTIS <? Z.of_nat (length (br_trees b)) then mret false
          else
            cist ← the_tree 0;
            let new_tree := create_tree b (bid_mac_address (BridgeIdentifier cist)) mstid in
            for_port_in_bridge (fun p => mod_port p (fun prt =>
              prt <| prt_trees := insert_at (S after) (create_ptp new_tree prt) (prt_trees prt) |>)) ;;
            mod_br (fun b => b <| br_trees := insert_at (S after) new_tree (br_trees b) |>) ;;
            tree_state_machines_begin (S after) ;;
            mret true
      end.

Fixpoint find_tree (mstid : Z) (trees : list tree_t) : option nat :=
  match trees with
  | [] => None
  | tr :: trees => if tree_MSTID tr =? mstid then Some 0%nat else S <$> find_tree mstid trees
  end.

Definition MSTP_IN_delete_msti (mstid : Z) : M bool :=
  if (mstid <? 1) || (MAX_MSTID <? mstid) then mret false
  else
    b ← the_br;
    if existsb (Z.eqb mstid) (fid2mstid b) then mret false
    else
      match find_tree mstid (br_trees b) with
      | None => mret true
      | Some t =>
          mod_br (fun b => b <| br_trees := delete t (br_trees b) |>) ;;
          for_port_in_bridge (fun p => mod_port p (fun prt =>
            prt <| prt_trees := delete t (prt_trees prt) |>)) ;;
          br_state_machines_run ;;
          mret true
      end.
