(* ===== verification/Bridges.v ===== *)
(** * Bridges and interfaces (mstpd/src/bridge_track.c)

    The list of bridges that the daemon manages, the notifications of the
    kernel, received packets, the one second tick and the commands of the
    control socket. Each of them finds the objects it is about and calls the
    protocol engine on one bridge.

    The answers of the kernel (ioctl, sysfs and ethtool calls of
    netif_utils.c) are not determined by the program: [d_kernel k] is what
    the kernel answers at the [k]-th question. *)

From S2P Require Import Prelude Bytes MstpTypes MstpPriority MstpBpdu MstpMonad MstpOut.
From S2P Require Import MstpRun MstpConfig MstpEvents MstpAdmin MstpVlan.

(** ** State *)

(** [None] is a failed call. *)
Record kernel_t := mk_kernel {
  index_to_name : Z -> option string;
  get_hwaddr : string -> option Z;
  get_bridge_portno : string -> Z;
  get_flags : string -> Z;
  ethtool_get_speed_duplex : string -> option (Z * Z) }.

Record daemon := mk_daemon {
  bridges : list bridge_t;
  d_out : list event_t;
  d_clock : nat -> nat;
  d_runs : nat;
  d_stack : bpdu_t;
  d_kernel : nat -> kernel_t;
  d_asked : nat;
  log_level : Z }.
#[export] Instance eta_daemon : Eta daemon := fun d =>
  mk_daemon (bridges d) (d_out d) (d_clock d) (d_runs d) (d_stack d) (d_kernel d) (d_asked d)
    (log_level d).
#[export] Instance set_bridges : SetterFor bridges := ltac:(mk_setter).
#[export] Instance set_d_asked : SetterFor d_asked := ltac:(mk_setter).
#[export] Instance set_log_level : SetterFor log_level := ltac:(mk_setter).

(** A handler returns, uses an invalid pointer, or does not return. *)
Inductive result (A : Type) :=
  | Done (a : A) (d : daemon)
  | Crash
  | Endless.
Arguments Done {A} a d.
Arguments Crash {A}.
Arguments Endless {A}.

Definition D (A : Type) : Type := daemon -> result A.
#[export] Instance D_ret : MRet D := fun A a d => Done a d.
#[export] Instance D_bind : MBind D := fun A B k m d =>
  match m d with
  | Done a d' => k a d'
  | Crash => Crash
  | Endless => Endless
  end.

#[export] Instance D_fmap : FMap D := fun A B f m => m ≫= fun a => mret (f a).

Definition the_bridges : D (list bridge_t) := fun d => Done (bridges d) d.
Definition mod_bridges (f : list bridge_t -> list bridge_t) : D unit := fun d =>
  Done tt (d <| bridges := f (bridges d) |>).
Definition the_bridge (i : nat) : D bridge_t := fun d =>
  match bridges d !! i with Some b => Done b d | None => Crash end.
Definition mod_bridge (i : nat) (f : bridge_t -> bridge_t) : D unit :=
  the_bridge i ;; mod_bridges (alter f i).
Definition the_if (i p : nat) : D port_t := fun d =>
  match bridges d !! i ≫= fun b => br_ports b !! p with Some prt => Done prt d | None => Crash end.

(** A question to the kernel. *)
Definition ask {A} (q : kernel_t -> A) : D A := fun d =>
  Done (q (d_kernel d (d_asked d))) (d <| d_asked := S (d_asked d) |>).

(** The engine works on one bridge and on what all bridges share. *)
Definition world_of (b : bridge_t) (d : daemon) : world :=
  mk_world b (d_out d) (d_clock d) (d_runs d) (d_stack d).
Definition with_world (bs : list bridge_t) (w : world) (d : daemon) : daemon :=
  mk_daemon bs (out w) (clock w) (runs w) (stack_bpdu w) (d_kernel d) (d_asked d) (log_level d).

Definition on_bridge {A} (i : nat) (m : M A) : D A := fun d =>
  match bridges d !! i with
  | None => Crash
  | Some b =>
      match m (world_of b d) with
      | Ret a w => Done a (with_world (<[i := br w]> (bridges d)) w d)
      | Fault => Crash
      | Fuel => Endless
      end
  end.

(** The same on a bridge that is not in the list (any more, or yet). *)
Definition on_unlisted {A} (b : bridge_t) (m : M A) : D (A * bridge_t) := fun d =>
  match m (world_of b d) with
  | Ret a w => Done (a, br w) (with_world (bridges d) w d)
  | Fault => Crash
  | Fuel => Endless
  end.

Fixpoint for_each_d (l : list nat) (f : nat -> D unit) : D unit :=
  match l with
  | [] => mret tt
  | i :: l => f i ;; for_each_d l f
  end.
(** A loop that ends at the first body that returns true. *)
Fixpoint until_d (l : list nat) (f : nat -> D bool) : D bool :=
  match l with
  | [] => mret false
  | i :: l => b ← f i; if (b : bool) then mret true else until_d l f
  end.

(** ** Finding objects *)

Fixpoint find_index {A} (f : A -> bool) (l : list A) : option nat :=
  match l with
  | [] => None
  | x :: l => if f x then Some 0%nat else S <$> find_index f l
  end.

Definition has_index (if_idx : Z) (prt : port_t) : bool := if_index (prt_sysdeps prt) =? if_idx.

Definition find_br (if_idx : Z) : D (option nat) :=
  bs ← the_bridges; mret (find_index (fun b => br_if_index (br_sysdeps b) =? if_idx) bs).

Definition find_if (i : nat) (if_idx : Z) : D (option nat) :=
  b ← the_bridge i; mret (find_index (has_index if_idx) (br_ports b)).

(** ** Creation and deletion *)

Definition create_br (if_idx : Z) : D (option nat) :=
  name ← ask (fun k => index_to_name k if_idx);
  match name with
  | None => mret None
  | Some name =>
      mac ← ask (fun k => get_hwaddr k name);
      match mac with
      | None => mret None
      | Some mac =>
          '(created, b) ← on_unlisted (calloc_bridge (mk_sysdep_br_data_t if_idx mac name false))
                            (MSTP_IN_bridge_create mac);
          if negb created then mret None
          else
            bs ← the_bridges;
            mod_bridges (fun bs => bs ++ [b]) ;;
            mret (Some (length bs))
      end
  end.

Definition create_if (i : nat) (if_idx : Z) : D (option nat) :=
  name ← ask (fun k => index_to_name k if_idx);
  match name with
  | None => mret None
  | Some name =>
      mac ← ask (fun k => get_hwaddr k name);
      match mac with
      | None => mret None
      | Some mac =>
          portno ← ask (fun k => get_bridge_portno k name);
          if portno <? 0 then mret None
          else if (portno =? 0) || (MAX_PORT_NUMBER <? portno) then mret None
          else
            b ← the_bridge i;
            created ← on_bridge i (MSTP_IN_port_create_and_add_tail
                        (mk_sysdep_if_data_t if_idx mac name false 0 0) portno);
            if negb created then mret None else mret (Some (length (br_ports b)))
      end
  end.

Definition delete_if (i p : nat) : D unit := on_bridge i (MSTP_IN_delete_port p).

Definition delete_if_byindex (i : nat) (if_idx : Z) : D bool :=
  p ← find_if i if_idx;
  match p with
  | None => mret false
  | Some p => delete_if i p ;; mret true
  end.

Definition delete_br_byindex (if_idx : Z) : D bool :=
  i ← find_br if_idx;
  match i with
  | None => mret false
  | Some i =>
      b ← the_bridge i;
      mod_bridges (delete i) ;;
      on_unlisted b MSTP_IN_delete_bridge ;;
      mret true
  end.

(** The loop "check if this interface is slave of another bridge". *)
Definition delete_from_others (i : nat) (if_idx : Z) : D bool :=
  bs ← the_bridges;
  until_d (seq 0 (length bs)) (fun j =>
    if Nat.eqb j i then mret false else delete_if_byindex j if_idx).

(** ** Time *)

Definition bridge_one_second : D unit :=
  bs ← the_bridges;
  for_each_d (seq 0 (length bs)) (fun i => on_bridge i MSTP_IN_one_second).

(** ** Link state *)

(** The new address when it differs from the old one. *)
Definition check_mac_address (name : string) (addr : Z) : D (option Z) :=
  mac ← ask (fun k => get_hwaddr k name);
  mret (match mac with
        | None => None
        | Some mac => if addr =? mac then None else Some mac
        end).

Definition set_br_macaddr_of (mac : Z) (b : bridge_t) : bridge_t :=
  b <| br_sysdeps := (br_sysdeps b) <| br_macaddr := mac |> |>.

Definition set_br_up (i : nat) (up : bool) : D unit :=
  b ← the_bridge i;
  let changed := negb (Bool.eqb up (br_up (br_sysdeps b))) in
  mod_bridge i (fun b => b <| br_sysdeps := (br_sysdeps b) <| br_up := up |> |>) ;;
  mac ← check_mac_address (br_name (br_sysdeps b)) (br_macaddr (br_sysdeps b));
  (match mac with
   | Some mac => mod_bridge i (set_br_macaddr_of mac) ;; on_bridge i (MSTP_IN_set_bridge_address mac)
   | None => mret tt
   end) ;;
  if changed then on_bridge i (MSTP_IN_set_bridge_enable up) else mret tt.

Definition mod_if (i p : nat) (f : sysdep_if_data_t -> sysdep_if_data_t) : D unit :=
  the_if i p ;;
  mod_bridge i (alter_port p (fun prt => prt <| prt_sysdeps := f (prt_sysdeps prt) |>)).

Definition set_if_up (i p : nat) (up : bool) : D unit :=
  prt ← the_if i p;
  let sd := prt_sysdeps prt in
  mac ← check_mac_address (if_name sd) (if_macaddr sd);
  (match mac with
   | None => mret tt
   | Some mac =>
       mod_if i p (fun sd => sd <| if_macaddr := mac |>) ;;
       b ← the_bridge i;
       br_mac ← check_mac_address (br_name (br_sysdeps b)) (br_macaddr (br_sysdeps b));
       match br_mac with
       | None => mret tt
       | Some br_mac =>
           mod_bridge i (set_br_macaddr_of br_mac) ;; on_bridge i (MSTP_IN_set_bridge_address br_mac)
       end
   end) ;;
  changed ←
    (if negb up then
       mod_if i p (fun sd => sd <| if_up := false |>) ;; mret (if_up sd)
     else
       r ← ask (fun k => ethtool_get_speed_duplex k (if_name sd));
       let '(speed, duplex) := match r with
         | None => (10, 0)
         | Some (speed, duplex) =>
             ((if speed <? 0 then 10 else speed), (if duplex <? 0 then 0 else duplex))
         end in
       mod_if i p (fun sd => sd <| if_speed := speed |> <| if_duplex := duplex |> <| if_up := true |>) ;;
       mret (negb (speed =? if_speed sd) || negb (duplex =? if_duplex sd) || negb (if_up sd)));
  if (changed : bool) then
    prt ← the_if i p;
    let sd := prt_sysdeps prt in
    on_bridge i (MSTP_IN_set_port_enable p (if_up sd) (if_speed sd) (if_duplex sd))
  else mret tt.

(** ** Notifications of the kernel *)

Definition IFF_UP (flags : Z) : bool := Z.testbit flags 0.
Definition IFF_RUNNING (flags : Z) : bool := Z.testbit flags 6.

(** A notification about interface [if_idx] as a slave of bridge [i]. *)
Definition notify_slave (i : nat) (if_idx : Z) (newlink running : bool) : D Z :=
  prt ← find_if i if_idx;
  match prt, newlink with
  | None, false => mret (-1)
  | Some p, false => delete_if i p ;; mret 0
  | Some p, true => set_if_up i p running ;; mret 0
  | None, true =>
      delete_from_others i if_idx ;;
      prt ← create_if i if_idx;
      match prt with
      | None => mret (-1)
      | Some p => set_if_up i p running ;; mret 0
      end
  end.

Definition bridge_notify (br_index if_idx : Z) (newlink : bool) (flags : Z) : D Z :=
  let up := IFF_UP flags in
  let running := up && IFF_RUNNING flags in
  if (0 <=? br_index) && negb (br_index =? if_idx) then
    i ← find_br br_index;
    match i with
    | None => mret (-2)
    | Some i =>
        b ← the_bridge i;
        br_flags ← ask (fun k => get_flags k (br_name (br_sysdeps b)));
        (if 0 <=? br_flags then set_br_up i (IFF_UP br_flags) else mret tt) ;;
        notify_slave i if_idx newlink running
    end
  else if negb newlink then
    deleted ← delete_br_byindex if_idx;
    (if negb deleted then
       bs ← the_bridges;
       until_d (seq 0 (length bs)) (fun j => delete_if_byindex j if_idx) ;; mret tt
     else mret tt) ;;
    mret 0
  else if br_index =? if_idx then
    i ← find_br br_index;
    match i with
    | None => mret (-2)
    | Some i => set_br_up i up ;; mret 0
    end
  else mret 0.

(** ** Received packets *)

Definition ETH_HLEN : Z := 14.
Definition ETH_DATA_LEN : Z := 1500.

(** The members of struct llc_header in the packet. *)
Definition octet (data : list Z) (i : nat) : Z := nth i data 0.
Definition len8023 (data : list Z) : Z := be_val [octet data 12; octet data 13].

(** The checks of the Ethernet and LLC headers, and the length of the message. *)
Definition llc_payload_length (data : list Z) (len : Z) : option Z :=
  let l := len8023 data in
  if negb (Z.of_nat sizeof_llc_header <? u32 len) then None
  else if negb (bool_decide (take 6 data = be_bytes 6 bridge_group_address)) then None
  else if negb ((l <=? ETH_DATA_LEN) && (l <=? u32 (len - ETH_HLEN)) && (LLC_PDU_LEN_U <=? l)) then None
  else if negb ((octet data 14 =? LLC_SAP_BSPAN) && (octet data 15 =? LLC_SAP_BSPAN)
                && (Z.land (octet data 16) 0x3 =? LLC_PDU_TYPE_U)) then None
  else Some (l - LLC_PDU_LEN_U).

(** The first bridge with a port on the interface, and the port. *)
Fixpoint find_port_from (i : nat) (if_idx : Z) (bs : list bridge_t) : option (nat * nat) :=
  match bs with
  | [] => None
  | b :: bs =>
      match find_index (has_index if_idx) (br_ports b) with
      | Some p => Some (i, p)
      | None => find_port_from (S i) if_idx bs
      end
  end.

Definition bridge_bpdu_rcv (if_idx : Z) (data : list Z) (len : Z) : D unit :=
  bs ← the_bridges;
  match find_port_from 0 if_idx bs with
  | None => mret tt
  | Some (i, p) =>
      prt ← the_if i p;
      if negb (if_up (prt_sysdeps prt)) then mret tt
      else
        match llc_payload_length data len with
        | None => mret tt
        | Some size => on_bridge i (MSTP_IN_rx_bpdu p (drop sizeof_llc_header data) size)
        end
  end.

(** ** Commands of the control socket

    The macros CTL_CHECK_BRIDGE, CTL_CHECK_BRIDGE_PORT, CTL_CHECK_BRIDGE_TREE
    and CTL_CHECK_BRIDGE_PERTREEPORT find the object or return [err]. *)

Definition ctl_bridge {A} (br_index : Z) (err : A) (k : nat -> D A) : D A :=
  i ← find_br br_index;
  match i with None => mret err | Some i => k i end.

Definition ctl_port {A} (br_index port_index : Z) (err : A) (k : nat -> nat -> D A) : D A :=
  ctl_bridge br_index err (fun i =>
    p ← find_if i port_index;
    match p with None => mret err | Some p => k i p end).

Definition ctl_tree {A} (br_index mstid : Z) (err : A) (k : nat -> nat -> D A) : D A :=
  ctl_bridge br_index err (fun i =>
    b ← the_bridge i;
    match find_index (fun tr => tree_MSTID tr =? mstid) (br_trees b) with
    | None => mret err
    | Some t => k i t
    end).

Definition ctl_ptp {A} (br_index port_index mstid : Z) (err : A) (k : nat -> nat -> nat -> D A) : D A :=
  ctl_port br_index port_index err (fun i p =>
    prt ← the_if i p;
    match find_index (fun x => ptp_MSTID x =? mstid) (prt_trees prt) with
    | None => mret err
    | Some t => k i p t
    end).

(** The name of the port of tree [t] with identifier [port_id], or "". *)
Definition root_port_name (b : bridge_t) (t : nat) (port_id : Z) : string :=
  match find (fun prt => match prt_trees prt !! t with
                         | Some x => portId x =? port_id
                         | None => false
                         end) (br_ports b) with
  | Some prt => if_name (prt_sysdeps prt)
  | None => ""
  end.

Definition CTL_get_cist_bridge_status (br_index : Z) : D (option (CIST_BridgeStatus * string)) :=
  ctl_bridge br_index None (fun i =>
    s ← on_bridge i MSTP_IN_get_cist_bridge_status;
    b ← the_bridge i;
    mret (Some (s, root_port_name b 0 (cbs_root_port_id s)))).

Definition CTL_get_msti_bridge_status (br_index mstid : Z) : D (option (MSTI_BridgeStatus * string)) :=
  ctl_tree br_index mstid None (fun i t =>
    s ← on_bridge i (MSTP_IN_get_msti_bridge_status t);
    b ← the_bridge i;
    mret (Some (s, root_port_name b t (mbs_root_port_id s)))).

Definition CTL_set_cist_bridge_config (br_index : Z) (cfg : CIST_BridgeConfig) : D Z :=
  ctl_bridge br_index (-1) (fun i => on_bridge i (MSTP_IN_set_cist_bridge_config cfg)).

Definition CTL_set_msti_bridge_config (br_index mstid bridge_priority : Z) : D Z :=
  ctl_tree br_index mstid (-1) (fun i t => on_bridge i (MSTP_IN_set_msti_bridge_config t bridge_priority)).

Definition CTL_get_cist_port_status (br_index port_index : Z) : D (option CIST_PortStatus) :=
  ctl_port br_index port_index None (fun i p => Some <$> on_bridge i (MSTP_IN_get_cist_port_status p)).

Definition CTL_get_msti_port_status (br_index port_index mstid : Z) : D (option MSTI_PortStatus) :=
  ctl_ptp br_index port_index mstid None (fun i p t =>
    Some <$> on_bridge i (MSTP_IN_get_msti_port_status p t)).

Definition CTL_set_cist_port_config (br_index port_index : Z) (cfg : CIST_PortConfig) : D Z :=
  ctl_port br_index port_index (-1) (fun i p => on_bridge i (MSTP_IN_set_cist_port_config p cfg)).

Definition CTL_set_msti_port_config (br_index port_index mstid : Z) (cfg : MSTI_PortConfig) : D Z :=
  ctl_ptp br_index port_index mstid (-1) (fun i p t =>
    on_bridge i (MSTP_IN_set_msti_port_config p t cfg)).

Definition CTL_port_mcheck (br_index port_index : Z) : D Z :=
  ctl_port br_index port_index (-1) (fun i p => on_bridge i (MSTP_IN_port_mcheck p)).

Definition CTL_set_debug_level (level : Z) : D Z := fun d => Done 0 (d <| log_level := level |>).

Definition CTL_get_mstilist (br_index : Z) : D (option (list Z)) :=
  ctl_bridge br_index None (fun i => Some <$> on_bridge i MSTP_IN_get_mstilist).

(** true -> 0, false -> -1 *)
Definition zero_if (b : bool) : Z := if b then 0 else -1.

Definition driver_create_msti (b : bridge_t) (mstid : Z) : bool := true.
Definition driver_delete_msti (b : bridge_t) (mstid : Z) : bool := true.

Definition CTL_create_msti (br_index mstid : Z) : D Z :=
  ctl_bridge br_index (-1) (fun i =>
    b ← the_bridge i;
    if negb (driver_create_msti b mstid) then mret (-1)
    else zero_if <$> on_bridge i (MSTP_IN_create_msti mstid)).

Definition CTL_delete_msti (br_index mstid : Z) : D Z :=
  ctl_bridge br_index (-1) (fun i =>
    b ← the_bridge i;
    if negb (driver_delete_msti b mstid) then mret (-1)
    else zero_if <$> on_bridge i (MSTP_IN_delete_msti mstid)).

Definition CTL_get_mstconfid (br_index : Z) : D (option mst_configuration_identifier_t) :=
  ctl_bridge br_index None (fun i => b ← the_bridge i; mret (Some (MstConfigId b))).

Definition CTL_set_mstconfid (br_index revision : Z) (name : list Z) : D Z :=
  ctl_bridge br_index (-1) (fun i => on_bridge i (MSTP_IN_set_mst_config_id revision name) ;; mret 0).

Definition CTL_get_vids2fids (br_index : Z) : D (option (list Z)) :=
  ctl_bridge br_index None (fun i => b ← the_bridge i; mret (Some (vid2fid b))).

Definition CTL_get_fids2mstids (br_index : Z) : D (option (list Z)) :=
  ctl_bridge br_index None (fun i => b ← the_bridge i; mret (Some (fid2mstid b))).

Definition CTL_set_vid2fid (br_index vid fid : Z) : D Z :=
  ctl_bridge br_index (-1) (fun i => zero_if <$> on_bridge i (MSTP_IN_set_vid2fid vid fid)).

Definition CTL_set_fid2mstid (br_index fid mstid : Z) : D Z :=
  ctl_bridge br_index (-1) (fun i => zero_if <$> on_bridge i (MSTP_IN_set_fid2mstid fid mstid)).

Definition CTL_set_vids2fids (br_index : Z) (vids2fids : list Z) : D Z :=
  ctl_bridge br_index (-1) (fun i => zero_if <$> on_bridge i (MSTP_IN_set_all_vids2fids vids2fids)).

Definition CTL_set_fids2mstids (br_index : Z) (fids2mstids : list Z) : D Z :=
  ctl_bridge br_index (-1) (fun i => zero_if <$> on_bridge i (MSTP_IN_set_all_fids2mstids fids2mstids)).

(** ** Adding and removing bridges *)

(** Deletes the ports of bridge [i] whose interface is not in the list. The
    second argument bounds the number of ports that are visited, the third is
    the position of the next one. *)
Fixpoint delete_unlisted (i n p : nat) (ifaces : list Z) : D unit :=
  match n with
  | O => mret tt
  | S n =>
      prt ← the_if i p;
      if existsb (Z.eqb (if_index (prt_sysdeps prt))) ifaces then delete_unlisted i n (S p) ifaces
      else delete_if i p ;; delete_unlisted i n p ifaces
  end.

Definition add_iface (i : nat) (if_idx : Z) : D unit :=
  p ← find_if i if_idx;
  match p with
  | Some _ => mret tt
  | None =>
      delete_from_others i if_idx ;;
      p ← create_if i if_idx;
      match p with
      | None => mret tt
      | Some p =>
          prt ← the_if i p;
          flags ← ask (fun k => get_flags k (if_name (prt_sysdeps prt)));
          if 0 <=? flags then set_if_up i p (IFF_UP flags && IFF_RUNNING flags) else mret tt
      end
  end.

Fixpoint add_ifaces (i : nat) (ifaces : list Z) : D unit :=
  match ifaces with
  | [] => mret tt
  | if_idx :: ifaces => add_iface i if_idx ;; add_ifaces i ifaces
  end.

(** The bridge with the given index, created when it is new. *)
Definition find_or_create_br (br_index : Z) : D (option nat) :=
  i ← find_br br_index;
  match i with
  | Some i => mret (Some i)
  | None =>
      i ← create_br br_index;
      match i with
      | None => mret None
      | Some i =>
          b ← the_bridge i;
          flags ← ask (fun k => get_flags k (br_name (br_sysdeps b)));
          (if 0 <=? flags then set_br_up i (IFF_UP flags) else mret tt) ;;
          mret (Some i)
      end
  end.

(** Each bridge comes with the list of its interfaces. *)
Fixpoint CTL_add_bridges (brs : list (Z * list Z)) : D Z :=
  match brs with
  | [] => mret 0
  | (br_index, ifaces) :: brs =>
      i ← find_or_create_br br_index;
      match i with
      | None => mret (-1)
      | Some i =>
          b ← the_bridge i;
          delete_unlisted i (length (br_ports b)) 0 ifaces ;;
          add_ifaces i ifaces ;;
          CTL_add_bridges brs
      end
  end.

Fixpoint CTL_del_bridges (brs : list Z) : D Z :=
  match brs with
  | [] => mret 0
  | br_index :: brs => delete_br_byindex br_index ;; CTL_del_bridges brs
  end.

Definition CTL_bridge_is_added (br_index : Z) : D bool :=
  i ← find_br br_index; mret (bool_decide (is_Some i)).

Definition CTL_bridge_port_is_added (br_index port_index : Z) : D bool :=
  i ← find_br br_index;
  match i with
  | None => mret false
  | Some i => p ← find_if i port_index; mret (bool_decide (is_Some p))
  end.

Definition bridge_track_fini : D Z :=
  bs ← the_bridges;
  for_each_d (seq 0 (length bs)) (fun i => set_br_up i false) ;;
  mret 0.
