(* ===== verification/MstpInv.v ===== *)
(** * The invariant of a bridge and the rules to prove that it is kept

    [inv g w]: every port of [w] has one per-tree port for every tree, in the
    same order, and the per-tree ports, ports and trees satisfy the local
    invariants [ptp_ok], [port_ok] and [tree_ok]. The ghost [g] fixes what the
    state machines do not change (the configuration, the identifiers of the
    trees, the number of ports) and names facts that hold at some positions
    only while an operation runs.

    [keeps tot g m]: the operation [m] keeps [inv g] and does not fault; with
    [tot] it also returns. *)

From S2P Require Import Prelude Bytes MstpTypes MstpPriority MstpBpdu MstpMonad MstpOut.

(** ** Local invariants *)

(** What the state machines leave alone in a bridge. *)
Definition strip (b : bridge_t) : bridge_t := b <| br_ports := [] |> <| br_trees := [] |>.
Arguments strip : simpl never.

(** The configuration ranges that MSTP_IN_set_cist_bridge_config checks. *)
Record config_ok (b : bridge_t) : Prop := {
  cfg_hello_ok : 1 <= br_Hello_Time b <= 10;
  cfg_hold_ok : 1 <= Transmit_Hold_Count b <= 10;
  cfg_hops_ok : 6 <= MaxHops b <= 40;
  cfg_age_ok : 6 <= br_Max_Age b <= 40;
  cfg_delay_ok : 4 <= br_Forward_Delay b <= 30;
  cfg_age_delay_ok : br_Max_Age b <= 2 * (br_Forward_Delay b - 1);
  cfg_ageing_ok : 10 <= Ageing_Time b <= 1000000;
  cfg_migrate_ok : Migrate_Time b = 3;
  cfg_version_ok : ForceProtocolVersion b = protoSTP \/ ForceProtocolVersion b = protoRSTP
                   \/ ForceProtocolVersion b = protoMSTP }.

(** A tree other than the CIST whose message is being or will be read has a
    pointer to it, and the pointer is within the array. *)
Definition msg_state (st : PISM_states_t) : bool :=
  match st with
  | PISM_SUPERIOR_DESIGNATED | PISM_REPEATED_DESIGNATED | PISM_INFERIOR_DESIGNATED
  | PISM_NOT_DESIGNATED | PISM_OTHER | PISM_RECEIVE => true
  | _ => false
  end.

Definition msg_ok (mstid : Z) (st : PISM_states_t) (rcvd : bool) (cfgmsg : option nat) : Prop :=
  (mstid <> 0 -> rcvd || msg_state st = true -> is_Some cfgmsg)
  /\ (forall i, cfgmsg = Some i -> (i < Z.to_nat MAX_STANDARD_MSTIS)%nat).

(** Port State Transition: learning and forwarding follow the state. *)
Definition pst_ok (st : PSTSM_states_t) (learning forwarding : bool) : Prop :=
  match st with
  | PSTSM_DISCARDING => learning = false /\ forwarding = false
  | PSTSM_LEARNING => learning = true /\ forwarding = false
  | PSTSM_FORWARDING => learning = true /\ forwarding = true
  end.

Definition kernel_state (st : PSTSM_states_t) : br_state_t :=
  match st with
  | PSTSM_DISCARDING => BR_STATE_BLOCKING
  | PSTSM_LEARNING => BR_STATE_LEARNING
  | PSTSM_FORWARDING => BR_STATE_FORWARDING
  end.

(** Port Role Transitions: the state of the machine belongs to the role, a
    forwarding port learns, and disabled, alternate and backup ports do
    neither. *)
Definition prt_ok (st : PRTSM_states_t) (role : port_role_t) (learn forward : bool) : Prop :=
  (forward = true -> learn = true) /\
  match st with
  | PRTSM_INIT_PORT | PRTSM_DISABLE_PORT | PRTSM_DISABLED_PORT =>
      role = roleDisabled /\ learn = false
  | PRTSM_MASTER_PROPOSED | PRTSM_MASTER_AGREED | PRTSM_MASTER_SYNCED | PRTSM_MASTER_RETIRED
  | PRTSM_MASTER_FORWARD | PRTSM_MASTER_LEARN | PRTSM_MASTER_DISCARD | PRTSM_MASTER_PORT =>
      role = roleMaster
  | PRTSM_ROOT_PROPOSED | PRTSM_ROOT_AGREED | PRTSM_ROOT_SYNCED | PRTSM_REROOT
  | PRTSM_ROOT_FORWARD | PRTSM_ROOT_LEARN | PRTSM_REROOTED | PRTSM_ROOT_PORT =>
      role = roleRoot
  | PRTSM_DESIGNATED_PROPOSE | PRTSM_DESIGNATED_AGREED | PRTSM_DESIGNATED_SYNCED
  | PRTSM_DESIGNATED_RETIRED | PRTSM_DESIGNATED_FORWARD | PRTSM_DESIGNATED_LEARN
  | PRTSM_DESIGNATED_DISCARD | PRTSM_DESIGNATED_PORT =>
      role = roleDesignated
  | PRTSM_BLOCK_PORT | PRTSM_BACKUP_PORT | PRTSM_ALTERNATE_PROPOSED | PRTSM_ALTERNATE_AGREED
  | PRTSM_ALTERNATE_PORT =>
      (role = roleAlternate \/ role = roleBackup) /\ learn = false
  end.

(** The members of a per-tree port and of a port that a fact of the ghost
    may speak about. *)
Definition ptp_key (x : per_tree_port_t) :=
  (PISM_state x, infoIs x, (selected x, updtInfo x, rcvdMsg x), rcvdMstiConfig x).
Definition port_key (prt : port_t) := (PTSM_state prt, txCount prt, helloWhen prt, portEnabled prt).

Record ghost := mk_ghost {
  g_cfg : bridge_t;
  g_ids : list Z;
  g_np : nat;
  (** positions where the kernel knows the state of the port *)
  g_coh : nat -> nat -> Prop;
  (** positions where designatedTimes has the Hello_Time of the port *)
  g_desig : nat -> nat -> Prop;
  g_ptp : nat -> nat -> (PISM_states_t * port_info_origin_t * (bool * bool * bool) * option nat) -> Prop;
  g_port : nat -> (PTSM_states_t * Z * Z * bool) -> Prop }.

Record ptp_ok (g : ghost) (p t : nat) (del : bool) (x : per_tree_port_t) : Prop := {
  ok_msg : msg_ok (ptp_MSTID x) (PISM_state x) (rcvdMsg x) (rcvdMstiConfig x);
  ok_pst : g_coh g p t -> pst_ok (PSTSM_state x) (learning x) (forwarding x);
  ok_kernel : g_coh g p t -> del = false -> ptp_state x = kernel_state (PSTSM_state x);
  ok_prt : prt_ok (PRTSM_state x) (role x) (learn x) (forward x);
  ok_hello : Hello_Time (portTimes x) = br_Hello_Time (g_cfg g);
  ok_desig : selected x = true \/ g_desig g p t ->
             Hello_Time (designatedTimes x) = br_Hello_Time (g_cfg g);
  ok_ptp_key : g_ptp g p t (ptp_key x) }.

Record port_ok (g : ghost) (p : nat) (prt : port_t) : Prop := {
  ok_hold : 0 <= txCount prt <= Transmit_Hold_Count (g_cfg g);
  ok_helloWhen : 0 <= helloWhen prt;
  ok_array : length (mstConfiguration (rcvdBpduData prt)) = Z.to_nat MAX_STANDARD_MSTIS;
  ok_edge : BDSM_state prt = BDSM_NOT_EDGE -> operEdge prt = false;
  ok_port_key : g_port g p (port_key prt) }.

Definition tree_ok (g : ghost) (tr : tree_t) : Prop :=
  Hello_Time (BridgeTimes tr) = br_Hello_Time (g_cfg g).

(** The CIST is the first of at most 64 trees. *)
Definition ids_ok (ids : list Z) : Prop :=
  head ids = Some 0 /\ Forall (fun id => id <> 0) (tail ids)
  /\ (length ids <= Z.to_nat MAX_STANDARD_MSTIS)%nat.

Definition row_ok (g : ghost) (p : nat) (prt : port_t) : Prop :=
  map ptp_MSTID (prt_trees prt) = g_ids g
  /\ port_ok g p prt
  /\ forall t x, prt_trees prt !! t = Some x -> ptp_ok g p t (deleted prt) x.

Record inv (g : ghost) (w : world) : Prop := {
  inv_cfg : strip (br w) = g_cfg g;
  inv_np : length (br_ports (br w)) = g_np g;
  inv_ids : map tree_MSTID (br_trees (br w)) = g_ids g;
  inv_tree : forall t tr, br_trees (br w) !! t = Some tr -> tree_ok g tr;
  inv_row : forall p prt, br_ports (br w) !! p = Some prt -> row_ok g p prt }.

Definition keeps {A} (tot : bool) (g : ghost) (m : M A) : Prop :=
  forall w, inv g w -> wp tot m (fun _ w' => inv g w') w.

Section rules.
Context (tot : bool) (g : ghost).

Abbreviation np := (g_np g).
Abbreviation nt := (length (g_ids g)).

(** ** Looking up *)

Lemma inv_port w p : inv g w -> (p < np)%nat ->
  exists prt, br_ports (br w) !! p = Some prt /\ row_ok g p prt.
Proof.
  intros Hw Hp. rewrite <-(inv_np _ _ Hw) in Hp. apply lookup_lt_is_Some in Hp as [prt Hprt].
  exists prt. split; [done|]. by eapply inv_row.
Qed.

Lemma row_length p prt : row_ok g p prt -> length (prt_trees prt) = nt.
Proof. intros (Hids & _). by rewrite <-Hids, length_map. Qed.

Lemma inv_ptp w p t : inv g w -> (p < np)%nat -> (t < nt)%nat ->
  exists prt x, br_ports (br w) !! p = Some prt /\ prt_trees prt !! t = Some x
    /\ lookup_ptp (br w) p t = Some x /\ row_ok g p prt /\ ptp_ok g p t (deleted prt) x.
Proof.
  intros Hw Hp Ht. destruct (inv_port w p Hw Hp) as (prt & Hprt & Hrow).
  rewrite <-(row_length _ _ Hrow) in Ht. apply lookup_lt_is_Some in Ht as [x Hx].
  exists prt, x. do 2 (split; [done|]). split; [|split; [done|by apply Hrow]].
  unfold lookup_ptp. by rewrite Hprt.
Qed.

Lemma row_mstid p prt t x :
  row_ok g p prt -> prt_trees prt !! t = Some x -> g_ids g !! t = Some (ptp_MSTID x).
Proof. intros (<- & _) Hx. by rewrite list_lookup_fmap, Hx. Qed.

Lemma inv_tree_lookup w t : inv g w -> (t < nt)%nat ->
  exists tr, br_trees (br w) !! t = Some tr /\ tree_ok g tr /\ g_ids g !! t = Some (tree_MSTID tr).
Proof.
  intros Hw Ht. rewrite <-(inv_ids _ _ Hw), length_map in Ht.
  apply lookup_lt_is_Some in Ht as [tr Htr]. exists tr.
  split; [done|]. split; [by eapply inv_tree|].
  by rewrite <-(inv_ids _ _ Hw), list_lookup_fmap, Htr.
Qed.

(** ** Updates *)

Lemma inv_alter_port w p f :
  inv g w ->
  (forall prt, br_ports (br w) !! p = Some prt -> row_ok g p prt -> row_ok g p (f prt)) ->
  inv g (w <| br := alter_port p f (br w) |>).
Proof.
  intros [] Hf. constructor; upd_simpl; unfold alter_port in *; upd_simpl; try done.
  - by rewrite length_alter.
  - intros q prt Hq. destruct (decide (p = q)) as [->|Hne].
    + rewrite list_lookup_alter_eq in Hq. destruct (br_ports (br w) !! q) eqn:Ep; [|done].
      injection Hq as <-. eauto.
    + rewrite list_lookup_alter_ne in Hq by done. eauto.
Qed.

Lemma row_alter_ptp p prt t f :
  row_ok g p prt ->
  (forall x, prt_trees prt !! t = Some x -> ptp_ok g p t (deleted prt) x ->
     ptp_MSTID (f x) = ptp_MSTID x /\ ptp_ok g p t (deleted prt) (f x)) ->
  row_ok g p (prt <| prt_trees := alter f t (prt_trees prt) |>).
Proof.
  intros (Hids & Hport & Hptp) Hf. split; [|split]; upd_simpl.
  - rewrite <-Hids. apply list_eq. intros s. rewrite !list_lookup_fmap.
    destruct (decide (t = s)) as [->|Hne].
    + rewrite list_lookup_alter_eq. destruct (prt_trees prt !! s) eqn:Es; [|done].
      simpl. f_equal. by apply Hf; [|apply Hptp].
    + by rewrite list_lookup_alter_ne.
  - destruct Hport. by constructor.
  - intros s x Hs. destruct (decide (t = s)) as [->|Hne].
    + rewrite list_lookup_alter_eq in Hs. destruct (prt_trees prt !! s) eqn:Es; [|done].
      injection Hs as <-. apply Hf; [done|]. by apply Hptp.
    + rewrite list_lookup_alter_ne in Hs by done. by apply Hptp.
Qed.

Lemma inv_alter_tree w t f :
  inv g w ->
  (forall tr, br_trees (br w) !! t = Some tr -> tree_ok g tr ->
     tree_MSTID (f tr) = tree_MSTID tr /\ tree_ok g (f tr)) ->
  inv g (w <| br := alter_tree t f (br w) |>).
Proof.
  intros [] Hf. constructor; upd_simpl; unfold alter_tree in *; upd_simpl; try done.
  - rewrite <-inv_ids0. apply list_eq. intros s. rewrite !list_lookup_fmap.
    destruct (decide (t = s)) as [->|Hne].
    + rewrite list_lookup_alter_eq. destruct (br_trees (br w) !! s) eqn:Es; [|done].
      simpl. f_equal. by apply Hf; [|eapply inv_tree0].
    + by rewrite list_lookup_alter_ne.
  - intros s tr Hs. destruct (decide (t = s)) as [->|Hne].
    + rewrite list_lookup_alter_eq in Hs. destruct (br_trees (br w) !! s) eqn:Es; [|done].
      injection Hs as <-. apply Hf; [done|]. by eapply inv_tree0.
    + rewrite list_lookup_alter_ne in Hs by done. by eapply inv_tree0.
Qed.

Lemma row_update_port p prt prt' :
  prt_trees prt' = prt_trees prt -> deleted prt' = deleted prt ->
  row_ok g p prt -> port_ok g p prt' -> row_ok g p prt'.
Proof. intros Ht Hd (Hids & _ & Hptp) Hok. split; [|split]; by rewrite ?Ht, ?Hd. Qed.

Lemma lookup_ptp_alter_ptp b p t f :
  lookup_ptp (alter_ptp p t f b) p t = f <$> lookup_ptp b p t.
Proof.
  unfold lookup_ptp, alter_ptp, alter_port. upd_simpl. rewrite list_lookup_alter_eq.
  destruct (br_ports b !! p) as [prt|]; simpl; [|done]. upd_simpl.
  by rewrite list_lookup_alter_eq.
Qed.

Lemma lookup_port_alter_ptp b p t f :
  br_ports (alter_ptp p t f b) !! p
  = (fun prt => prt <| prt_trees := alter f t (prt_trees prt) |>) <$> br_ports b !! p.
Proof. unfold alter_ptp, alter_port. upd_simpl. by rewrite list_lookup_alter_eq. Qed.

(** ** Rules for the primitive operations, with the state they reach *)

Lemma wp_the_ptp w p t Q :
  inv g w -> (p < np)%nat -> (t < nt)%nat ->
  (forall prt x, br_ports (br w) !! p = Some prt -> lookup_ptp (br w) p t = Some x ->
     row_ok g p prt -> ptp_ok g p t (deleted prt) x -> g_ids g !! t = Some (ptp_MSTID x) ->
     Q x w) ->
  wp tot (the_ptp p t) Q w.
Proof.
  intros Hw Hp Ht HQ. destruct (inv_ptp w p t Hw Hp Ht) as (prt & x & Hprt & Hx & Hl & Hrow & Hok).
  apply (wp_deref tot _ x); [done|]. apply (HQ prt); eauto using row_mstid.
Qed.

Lemma wp_the_port w p Q :
  inv g w -> (p < np)%nat ->
  (forall prt, br_ports (br w) !! p = Some prt -> row_ok g p prt -> Q prt w) ->
  wp tot (the_port p) Q w.
Proof.
  intros Hw Hp HQ. destruct (inv_port w p Hw Hp) as (prt & Hprt & Hrow).
  apply (wp_deref tot _ prt); eauto.
Qed.

Lemma wp_the_tree w t Q :
  inv g w -> (t < nt)%nat ->
  (forall tr, br_trees (br w) !! t = Some tr -> tree_ok g tr -> Q tr w) ->
  wp tot (the_tree t) Q w.
Proof.
  intros Hw Ht HQ. destruct (inv_tree_lookup w t Hw Ht) as (tr & Htr & Hok & _).
  apply (wp_deref tot _ tr); eauto.
Qed.

(** A pointer computed from the state. *)
Lemma wp_deref_state {A} (f : bridge_t -> option A) (a : A) Q w :
  f (br w) = Some a -> Q a w -> wp tot (fun w => deref (f (br w)) w) Q w.
Proof. intros Hf HQ. by apply (wp_deref tot _ a). Qed.

Lemma wp_mod_ptp w p t f Q :
  inv g w -> (p < np)%nat -> (t < nt)%nat ->
  (forall prt x, br_ports (br w) !! p = Some prt -> lookup_ptp (br w) p t = Some x ->
     ptp_ok g p t (deleted prt) x -> g_ids g !! t = Some (ptp_MSTID x) ->
     ptp_MSTID (f x) = ptp_MSTID x /\ ptp_ok g p t (deleted prt) (f x)) ->
  (forall w', inv g w' -> lookup_ptp (br w') p t = f <$> lookup_ptp (br w) p t ->
     br_ports (br w') !! p
       = (fun prt => prt <| prt_trees := alter f t (prt_trees prt) |>) <$> br_ports (br w) !! p ->
     Q tt w') ->
  wp tot (mod_ptp p t f) Q w.
Proof.
  intros Hw Hp Ht Hf HQ.
  destruct (inv_ptp w p t Hw Hp Ht) as (prt & x & Hprt & Hx & Hl & Hrow & Hok).
  apply wp_bind, (wp_deref tot _ x); [done|]. apply HQ.
  - apply inv_alter_port; [done|]. intros prt' Hp'. simplify_eq. intros _.
    apply row_alter_ptp; [done|]. intros x' Hx'. simplify_eq. eauto using row_mstid.
  - upd_simpl. apply lookup_ptp_alter_ptp.
  - upd_simpl. apply lookup_port_alter_ptp.
Qed.

Lemma wp_mod_port w p f Q :
  inv g w -> (p < np)%nat ->
  (forall prt, br_ports (br w) !! p = Some prt -> row_ok g p prt ->
     prt_trees (f prt) = prt_trees prt /\ deleted (f prt) = deleted prt /\ port_ok g p (f prt)) ->
  (forall w', inv g w' -> br_ports (br w') !! p = f <$> br_ports (br w) !! p ->
     (forall t, lookup_ptp (br w') p t = lookup_ptp (br w) p t) -> Q tt w') ->
  wp tot (mod_port p f) Q w.
Proof.
  intros Hw Hp Hf HQ. destruct (inv_port w p Hw Hp) as (prt & Hprt & Hrow).
  destruct (Hf prt Hprt Hrow) as (Ht & Hd & Hok).
  apply wp_bind, (wp_deref tot _ prt); [done|]. apply HQ; upd_simpl.
  - apply inv_alter_port; [done|]. intros prt' Hp' _. simplify_eq.
    by eapply row_update_port.
  - unfold alter_port. upd_simpl. by rewrite list_lookup_alter_eq.
  - intros t. unfold lookup_ptp, alter_port. upd_simpl. rewrite list_lookup_alter_eq, Hprt.
    simpl. by rewrite Ht.
Qed.

Lemma wp_mod_port_at w p f prt Q :
  inv g w -> (p < np)%nat -> br_ports (br w) !! p = Some prt ->
  (forall prt, row_ok g p prt ->
     prt_trees (f prt) = prt_trees prt /\ deleted (f prt) = deleted prt /\ port_ok g p (f prt)) ->
  (forall w', inv g w' -> br_ports (br w') !! p = Some (f prt) -> Q tt w') ->
  wp tot (mod_port p f) Q w.
Proof.
  intros Hw Hp Hprt Hf HQ. apply wp_mod_port; [done..|eauto|].
  intros w' Hw' Hp' _. rewrite Hprt in Hp'. eauto.
Qed.

Lemma wp_mod_ptp_at w p t f x Q :
  inv g w -> (p < np)%nat -> (t < nt)%nat -> lookup_ptp (br w) p t = Some x ->
  (forall d, ptp_ok g p t d x -> g_ids g !! t = Some (ptp_MSTID x) ->
     ptp_MSTID (f x) = ptp_MSTID x /\ ptp_ok g p t d (f x)) ->
  (forall w', inv g w' -> lookup_ptp (br w') p t = Some (f x) ->
     br_ports (br w') !! p
       = (fun prt => prt <| prt_trees := alter f t (prt_trees prt) |>) <$> br_ports (br w) !! p ->
     Q tt w') ->
  wp tot (mod_ptp p t f) Q w.
Proof.
  intros Hw Hp Ht Hx Hf HQ. apply wp_mod_ptp; [done..| |].
  - intros prt x' _ Hx'. simplify_eq. apply Hf.
  - intros w' Hw' Hx' Hp'. rewrite Hx in Hx'. eauto.
Qed.

Lemma wp_the_br w Q : Q (br w) w -> wp tot the_br Q w.
Proof. done. Qed.

Lemma wp_emit w e (Q : unit -> world -> Prop) :
  inv g w -> (forall w', inv g w' -> br w' = br w -> Q tt w') -> wp tot (emit e) Q w.
Proof. intros [] HQ. apply HQ; [by constructor|done]. Qed.

Lemma wp_out_of_fuel {A} (Q : A -> world -> Prop) w : wp false out_of_fuel Q w.
Proof. done. Qed.

Lemma wp_mod_br w f (Q : unit -> world -> Prop) :
  Q tt (w <| br := f (br w) |>) -> wp tot (mod_br f) Q w.
Proof. done. Qed.

Lemma wp_get_world w (Q : world -> world -> Prop) : Q w w -> wp tot get_world Q w.
Proof. done. Qed.

Lemma wp_transition w dry m Q :
  inv g w -> Q true w -> wp tot m (fun _ w' => Q false w') w -> wp tot (transition dry m) Q w.
Proof. intros Hw Ht Hm. destruct dry; [done|]. apply wp_bind. eapply wp_mono; [done|]. done. Qed.

(** ** Rules for [keeps] *)

Lemma wp_keeps {A} (m : M A) w :
  keeps tot g m -> inv g w -> wp tot m (fun _ w' => inv g w') w.
Proof. intros Hm. apply Hm. Qed.

Lemma keeps_ret {A} (a : A) : keeps tot g (mret a).
Proof. intros w Hw. by apply wp_ret. Qed.

Lemma keeps_bind {A B} (m : M A) (k : A -> M B) :
  keeps tot g m -> (forall a, keeps tot g (k a)) -> keeps tot g (m ≫= k).
Proof.
  intros Hm Hk w Hw. apply wp_bind. eapply wp_mono; [by apply Hm|].
  intros a w' Hw'. by apply Hk.
Qed.

Lemma keeps_bind_br {A} (k : bridge_t -> M A) :
  (forall b, strip b = g_cfg g -> length (br_ports b) = np -> keeps tot g (k b)) ->
  keeps tot g (the_br ≫= k).
Proof. intros Hk w Hw. apply wp_bind. apply (Hk (br w)); [apply Hw|apply Hw|done]. Qed.

Lemma keeps_bind_world {A} (k : world -> M A) :
  (forall w, keeps tot g (k w)) -> keeps tot g (get_world ≫= k).
Proof. intros Hk w Hw. by apply (Hk w). Qed.

Lemma keeps_bind_ptp {A} p t (k : per_tree_port_t -> M A) :
  (p < np)%nat -> (t < nt)%nat ->
  (forall d x, ptp_ok g p t d x -> g_ids g !! t = Some (ptp_MSTID x) -> keeps tot g (k x)) ->
  keeps tot g (the_ptp p t ≫= k).
Proof.
  intros Hp Ht Hk w Hw. apply wp_bind, wp_the_ptp; [done..|].
  intros prt x Hprt Hl Hrow Hok Hid. by apply (Hk (deleted prt) x).
Qed.

Lemma keeps_bind_port {A} p (k : port_t -> M A) :
  (p < np)%nat -> (forall prt, row_ok g p prt -> keeps tot g (k prt)) ->
  keeps tot g (the_port p ≫= k).
Proof.
  intros Hp Hk w Hw. apply wp_bind, wp_the_port; [done..|].
  intros prt Hprt Hrow. by apply Hk.
Qed.

Lemma keeps_bind_tree {A} t (k : tree_t -> M A) :
  (t < nt)%nat -> (forall tr, tree_ok g tr -> g_ids g !! t = Some (tree_MSTID tr) -> keeps tot g (k tr)) ->
  keeps tot g (the_tree t ≫= k).
Proof.
  intros Ht Hk w Hw. destruct (inv_tree_lookup w t Hw Ht) as (tr & Htr & Hok & Hid).
  apply wp_bind, (wp_deref tot _ tr); [done|]. by apply Hk.
Qed.

Lemma keeps_bind_column {A} t (k : list per_tree_port_t -> M A) :
  (t < nt)%nat -> (forall xs, keeps tot g (k xs)) -> keeps tot g (ptps_of_tree t ≫= k).
Proof.
  intros Ht Hk w Hw.
  assert (is_Some (column (br w) t)) as [xs Hxs].
  { apply mapM_is_Some, Forall_lookup. intros p prt Hp.
    apply lookup_lt_is_Some. by rewrite (row_length p prt (inv_row _ _ Hw p prt Hp)). }
  apply wp_bind, (wp_deref tot _ xs); [done|]. by apply Hk.
Qed.

Lemma keeps_emit e : keeps tot g (emit e).
Proof. intros w []. by constructor. Qed.

Lemma keeps_mod_ptp p t f :
  (p < np)%nat -> (t < nt)%nat ->
  (forall d x, ptp_ok g p t d x -> g_ids g !! t = Some (ptp_MSTID x) ->
     ptp_MSTID (f x) = ptp_MSTID x /\ ptp_ok g p t d (f x)) ->
  keeps tot g (mod_ptp p t f).
Proof. intros Hp Ht Hf w Hw. apply wp_mod_ptp; eauto. Qed.

Lemma keeps_mod_port p f :
  (p < np)%nat ->
  (forall prt, row_ok g p prt -> prt_trees (f prt) = prt_trees prt /\ deleted (f prt) = deleted prt
     /\ port_ok g p (f prt)) ->
  keeps tot g (mod_port p f).
Proof. intros Hp Hf w Hw. apply wp_mod_port; eauto. Qed.

Lemma keeps_mod_tree t f :
  (t < nt)%nat ->
  (forall tr, tree_ok g tr -> tree_MSTID (f tr) = tree_MSTID tr /\ tree_ok g (f tr)) ->
  keeps tot g (mod_tree t f).
Proof.
  intros Ht Hf w Hw. destruct (inv_tree_lookup w t Hw Ht) as (tr & Htr & Hok & Hid).
  apply wp_bind, (wp_deref tot _ tr); [done|]. apply inv_alter_tree; eauto.
Qed.

Lemma keeps_for_each l f :
  (forall i, i ∈ l -> keeps tot g (f i)) -> keeps tot g (for_each l f).
Proof. intros Hf w Hw. apply (wp_for_each tot (inv g)); [done|]. intros i w' Hi. by apply Hf. Qed.

Lemma keeps_any_of l f :
  (forall i, i ∈ l -> keeps tot g (f i)) -> keeps tot g (any_of l f).
Proof. intros Hf w Hw. apply (wp_any_of tot (inv g)); [done|]. intros i w' Hi. by apply Hf. Qed.

Lemma keeps_num_ports {A} (k : nat -> M A) : keeps tot g (k np) -> keeps tot g (num_ports ≫= k).
Proof.
  intros Hk w Hw. apply wp_bind, wp_bind. unfold the_br. apply wp_ret.
  rewrite (inv_np _ _ Hw). by apply Hk.
Qed.

Lemma keeps_num_trees {A} (k : nat -> M A) : keeps tot g (k nt) -> keeps tot g (num_trees ≫= k).
Proof.
  intros Hk w Hw. apply wp_bind, wp_bind. unfold the_br. apply wp_ret.
  rewrite <-(inv_ids _ _ Hw), length_map in Hk. by apply Hk.
Qed.

Lemma keeps_num_ptps {A} p (k : nat -> M A) :
  (p < np)%nat -> keeps tot g (k nt) -> keeps tot g (num_ptps p ≫= k).
Proof.
  intros Hp Hk w Hw. apply wp_bind, wp_bind, wp_the_port; [done..|].
  intros prt Hprt Hrow. apply wp_ret. rewrite (row_length _ _ Hrow). by apply Hk.
Qed.

Lemma keeps_for_port f :
  (forall p, (p < np)%nat -> keeps tot g (f p)) -> keeps tot g (for_port_in_bridge f).
Proof.
  intros Hf. apply keeps_num_ports, keeps_for_each. intros p Hp. apply Hf.
  apply list_elem_of_In, in_seq in Hp. lia.
Qed.

Lemma keeps_for_tree f :
  (forall t, (t < nt)%nat -> keeps tot g (f t)) -> keeps tot g (for_tree_in_bridge f).
Proof.
  intros Hf. apply keeps_num_trees, keeps_for_each. intros p Hp. apply Hf.
  apply list_elem_of_In, in_seq in Hp. lia.
Qed.

Lemma keeps_for_ptp p f :
  (p < np)%nat -> (forall t, (t < nt)%nat -> keeps tot g (f t)) -> keeps tot g (for_ptp_in_port p f).
Proof.
  intros Hp Hf. apply keeps_num_ptps, keeps_for_each; [done|]. intros t Ht. apply Hf.
  apply list_elem_of_In, in_seq in Ht. lia.
Qed.

Lemma keeps_for_msti p f :
  (p < np)%nat -> (forall t, (0 < t < nt)%nat -> keeps tot g (f t)) -> keeps tot g (for_msti_in_port p f).
Proof.
  intros Hp Hf. apply keeps_num_ptps, keeps_for_each; [done|]. intros t Ht. apply Hf.
  apply list_elem_of_In, in_seq in Ht. lia.
Qed.

Lemma keeps_ptps_of_port {A} p (k : list per_tree_port_t -> M A) :
  (p < np)%nat -> (forall xs, keeps tot g (k xs)) -> keeps tot g (ptps_of_port p ≫= k).
Proof.
  intros Hp Hk w Hw. apply wp_bind, wp_bind, wp_the_port; [done..|].
  intros prt Hprt Hrow. apply wp_ret. by apply Hk.
Qed.

Lemma keeps_transition dry m : keeps tot g m -> keeps tot g (transition dry m).
Proof.
  intros Hm. destruct dry; [apply keeps_ret|].
  apply keeps_bind; [done|]. intros ?. apply keeps_ret.
Qed.
End rules.

(** ** Facts about one position *)

Definition plain (g : ghost) : Prop :=
  (forall p t k, g_ptp g p t k) /\ (forall p k, g_port g p k).

Definition with_port (g : ghost) (p : nat) K : ghost :=
  mk_ghost (g_cfg g) (g_ids g) (g_np g) (g_coh g) (g_desig g) (g_ptp g) (fun q k => q = p -> k = K).
Definition with_ptp (g : ghost) (p t : nat) K : ghost :=
  mk_ghost (g_cfg g) (g_ids g) (g_np g) (g_coh g) (g_desig g)
    (fun q s k => q = p -> s = t -> k = K) (g_port g).

Section facts.
Context (tot : bool) (g : ghost) (Hplain : plain g).

Lemma inv_with_port w p prt :
  inv g w -> br_ports (br w) !! p = Some prt -> inv (with_port g p (port_key prt)) w.
Proof.
  intros [] Hp. constructor; try done. intros q prt' Hq.
  destruct (inv_row0 q prt' Hq) as (? & [] & ?). split; [done|].
  split; [constructor; try done; intros ->; congruence|].
  intros t x Hx. destruct (H0 t x Hx). by constructor.
Qed.

Lemma inv_without_port w p K :
  (p < g_np g)%nat -> inv (with_port g p K) w ->
  inv g w /\ exists prt, br_ports (br w) !! p = Some prt /\ port_key prt = K.
Proof.
  intros Hp Hw. split.
  - destruct Hw. constructor; try done. intros q prt' Hq.
    destruct (inv_row0 q prt' Hq) as (? & [] & Hx). split; [done|].
    split; [constructor; try done; apply Hplain|].
    intros t x Ht. destruct (Hx t x Ht). by constructor.
  - destruct (inv_port (with_port g p K) w p Hw Hp) as (prt & Hprt & (_ & [] & _)).
    exists prt. split; [done|]. by apply ok_port_key0.
Qed.

Lemma inv_with_ptp w p t x :
  inv g w -> lookup_ptp (br w) p t = Some x -> inv (with_ptp g p t (ptp_key x)) w.
Proof.
  intros [] Hp. constructor; try done. intros q prt' Hq.
  destruct (inv_row0 q prt' Hq) as (? & [] & Hs). split; [done|].
  split; [by constructor|]. intros s y Hy. destruct (Hs s y Hy). constructor; try done.
  intros -> ->. unfold lookup_ptp in Hp. rewrite Hq in Hp. simpl in Hp. congruence.
Qed.

Lemma inv_without_ptp w p t K :
  (p < g_np g)%nat -> (t < length (g_ids g))%nat -> inv (with_ptp g p t K) w ->
  inv g w /\ exists x, lookup_ptp (br w) p t = Some x /\ ptp_key x = K.
Proof.
  intros Hp Ht Hw. split.
  - destruct Hw. constructor; try done. intros q prt' Hq.
    destruct (inv_row0 q prt' Hq) as (? & [] & Hx). split; [done|].
    split; [by constructor|].
    intros s x Hs. destruct (Hx s x Hs). constructor; try done. apply Hplain.
  - destruct (inv_ptp (with_ptp g p t K) w p t Hw Hp Ht) as (prt & x & _ & _ & Hl & _ & []).
    exists x. split; [done|]. by apply ok_ptp_key0.
Qed.

(** An operation that keeps the fact leaves the key of the position alone. *)
Lemma wp_frame_port {A} (m : M A) w p prt (Q : A -> world -> Prop) :
  inv g w -> (p < g_np g)%nat -> br_ports (br w) !! p = Some prt ->
  keeps tot (with_port g p (port_key prt)) m ->
  (forall a w' prt', inv g w' -> br_ports (br w') !! p = Some prt' ->
     port_key prt' = port_key prt -> Q a w') ->
  wp tot m Q w.
Proof.
  intros Hw Hp Hprt Hm HQ. eapply wp_mono; [by apply Hm, inv_with_port|].
  intros a w' Hw'. apply inv_without_port in Hw' as (? & prt' & ? & ?); eauto.
Qed.

Lemma wp_frame_ptp {A} (m : M A) w p t x (Q : A -> world -> Prop) :
  inv g w -> (p < g_np g)%nat -> (t < length (g_ids g))%nat -> lookup_ptp (br w) p t = Some x ->
  keeps tot (with_ptp g p t (ptp_key x)) m ->
  (forall a w' x', inv g w' -> lookup_ptp (br w') p t = Some x' -> ptp_key x' = ptp_key x ->
     Q a w') ->
  wp tot m Q w.
Proof.
  intros Hw Hp Ht Hx Hm HQ. eapply wp_mono; [by apply Hm, inv_with_ptp|].
  intros a w' Hw'. apply inv_without_ptp in Hw' as (? & x' & ? & ?); eauto.
Qed.
End facts.

(** ** Local lemmas *)

Lemma msg_ok_norcvd id st r c : msg_ok id st r c -> msg_ok id st false c.
Proof. intros [H1 H2]. split; [|done]. intros Hid Hs. apply H1; [done|].
  simpl in Hs. rewrite Hs. apply orb_true_r.
Qed.

Lemma msg_ok_state id st st' r c : msg_ok id st r c -> msg_state st' = false -> msg_ok id st' r c.
Proof.
  intros [H1 H2] Hs. split; [|done]. intros Hid Hr. apply H1; [done|].
  rewrite Hs, orb_false_r in Hr. by rewrite Hr.
Qed.

Lemma msg_ok_some id st r i c st' r' :
  msg_ok id st r c -> (i < Z.to_nat MAX_STANDARD_MSTIS)%nat -> msg_ok id st' r' (Some i).
Proof. intros _ Hi. split; [by eauto|]. intros j [= <-]. done. Qed.

Lemma msg_ok_state_false id st st' r c :
  msg_ok id st r c -> msg_state st' = false -> msg_ok id st' false c.
Proof. eauto using msg_ok_norcvd, msg_ok_state. Qed.

Lemma msg_ok_step id st st' r r' c :
  msg_ok id st r c -> r || msg_state st = true -> msg_ok id st' r' c.
Proof. intros [H1 H2] Hs. split; [|done]. intros Hid _. by apply H1. Qed.

(** ** Automation *)

(** [wp] is used through its rules only. *)
#[global] Opaque wp.

Create HintDb keeps.
#[export] Hint Resolve msg_ok_norcvd msg_ok_state msg_ok_state_false : keeps.

(** Discharges the obligations of an update that leaves the members that
    the invariants speak about alone, or sets them to values that satisfy
    them. *)
Ltac ok_tac :=
  upd_simpl in *;
  try done;
  first
    [ assumption
    | tauto
    | by eauto 4 with keeps
    | lia
    | solve [intuition (try done; try congruence; try lia)]
    | idtac ].

Ltac ptp_tac :=
  lazymatch goal with
  | |- forall d x, ptp_ok _ _ _ d x -> _ =>
      let d := fresh "d" in let x := fresh "x" in let H := fresh "Hok" in
      let Hid := fresh "Hid" in
      intros d x H Hid; cbv beta; repeat case_match;
      (split; [upd_simpl; try reflexivity | destruct H; constructor; ok_tac])
  | |- forall d, ptp_ok _ _ _ d ?x -> _ =>
      let d := fresh "d" in let H := fresh "Hok" in let Hid := fresh "Hid" in
      intros d H Hid; cbv beta; repeat case_match;
      (split; [upd_simpl; try reflexivity | destruct H; constructor; ok_tac])
  end.

Ltac port_tac :=
  lazymatch goal with
  | |- forall prt, row_ok _ _ prt -> _ =>
      let prt := fresh "prt" in let H := fresh "Hok" in
      intros prt (_ & H & _); cbv beta; repeat case_match;
      (split; [upd_simpl; try reflexivity|split; [upd_simpl; try reflexivity|]]; destruct H; constructor; ok_tac)
  end.

Ltac tree_tac :=
  lazymatch goal with
  | |- forall tr, tree_ok _ tr -> _ =>
      let tr := fresh "tr" in let H := fresh "Hok" in
      intros tr H; cbv beta; repeat case_match; (split; [upd_simpl; try reflexivity | try exact H])
  end.

#[export] Hint Resolve keeps_ret keeps_emit : keeps.
#[export] Hint Extern 1 (_ < _)%nat => lia : keeps.

(** Steps that later files add. *)
Ltac keep_hook := fail.

Ltac keep_step :=
  lazymatch goal with
  | |- forall _, _ => intros ?
  | |- (_ < _)%nat => first [assumption | lia]
  | |- keeps _ _ (mret _) => apply keeps_ret
  | |- keeps _ _ (emit _) => apply keeps_emit
  | |- keeps _ _ (the_br ≫= _) => apply keeps_bind_br; intros ? ? ?
  | |- keeps _ _ (get_world ≫= _) => apply keeps_bind_world; intros ?
  | |- keeps _ _ (the_ptp _ _ ≫= _) => apply keeps_bind_ptp; [| |intros ? ? ? ?]
  | |- keeps _ _ (the_port _ ≫= _) => apply keeps_bind_port; [|intros ? ?]
  | |- keeps _ _ (the_tree _ ≫= _) => apply keeps_bind_tree; [|intros ? ? ?]
  | |- keeps _ _ (ptps_of_tree _ ≫= _) => apply keeps_bind_column; [|intros ?]
  | |- keeps _ _ (ptps_of_port _ ≫= _) => apply keeps_ptps_of_port; [|intros ?]
  | |- keeps _ _ (num_ports ≫= _) => apply keeps_num_ports
  | |- keeps _ _ (num_trees ≫= _) => apply keeps_num_trees
  | |- keeps _ _ (num_ptps _ ≫= _) => apply keeps_num_ptps
  | |- keeps _ _ (mod_ptp _ _ _) => apply keeps_mod_ptp; [| |try ptp_tac]
  | |- keeps _ _ (mod_port _ _) => apply keeps_mod_port; [|try port_tac]
  | |- keeps _ _ (mod_tree _ _) => apply keeps_mod_tree; [|try tree_tac]
  | |- keeps _ _ (for_port_in_bridge _) => apply keeps_for_port; intros ? ?
  | |- keeps _ _ (for_ptp_in_tree _) => apply keeps_for_port; intros ? ?
  | |- keeps _ _ (for_tree_in_bridge _) => apply keeps_for_tree; intros ? ?
  | |- keeps _ _ (for_ptp_in_port _ _) => apply keeps_for_ptp; [|intros ? ?]
  | |- keeps _ _ (for_msti_in_port _ _) => apply keeps_for_msti; [|intros ? ?]
  | |- keeps _ _ (transition _ _) => apply keeps_transition
  | |- keeps _ _ (if ?b then _ else _) => destruct b eqn:?
  | |- keeps _ _ (match ?x with _ => _ end) => destruct x eqn:?
  | |- keeps _ _ (let _ := _ in _) => cbv zeta
  | |- keeps _ _ (_ ≫= _) => apply keeps_bind; [|intros ?]
  end.

(** [keep]: the structure of the operation, with the lemmas of the hint
    database for the operations it calls. *)
Ltac keep := repeat first [ solve [eauto 3 with keeps] | keep_hook | keep_step ].

(** ** The external actions keep the invariant *)

Section out.
Context (tot : bool) (g : ghost) (Hids : ids_ok (g_ids g)).

Abbreviation np := (g_np g).
Abbreviation nt := (length (g_ids g)).

Lemma ids_ok_pos : (0 < nt)%nat.
Proof. destruct Hids as [H _]. by destruct (g_ids g); simpl in *; [|lia]. Qed.

Lemma keeps_the_cist {A} p (k : per_tree_port_t -> M A) :
  (p < np)%nat -> (forall d x, ptp_ok g p 0 d x -> g_ids g !! 0%nat = Some (ptp_MSTID x) -> keeps tot g (k x)) ->
  keeps tot g (the_cist p ≫= k).
Proof. intros Hp Hk. apply keeps_bind_ptp; [done|apply ids_ok_pos|done]. Qed.

Lemma keeps_the_stack_bpdu {A} (k : bpdu_t -> M A) :
  (forall b, keeps tot g (k b)) -> keeps tot g (the_stack_bpdu ≫= k).
Proof.
  intros Hk w Hw. unfold the_stack_bpdu. do 2 apply wp_bind. apply wp_get_world, wp_ret.
  by apply Hk.
Qed.

End out.

Ltac cist_step :=
  lazymatch goal with
  | |- keeps _ _ (the_cist _ ≫= _) => apply keeps_the_cist; [assumption|lia|intros ? ? ? ?]
  | |- keeps _ _ (the_stack_bpdu ≫= _) => apply keeps_the_stack_bpdu; intros ?
  end.
Ltac keep_hook ::= cist_step.

Section actions.
Context (tot : bool) (g : ghost) (Hids : ids_ok (g_ids g)).

Abbreviation np := (g_np g).
Abbreviation nt := (length (g_ids g)).

Lemma keeps_set_ageing_time p n : keeps tot g (MSTP_OUT_set_ageing_time p n).
Proof. unfold MSTP_OUT_set_ageing_time. keep. Qed.

Lemma keeps_shutdown_port p : (p < np)%nat -> keeps tot g (MSTP_OUT_shutdown_port p).
Proof. intros Hp. unfold MSTP_OUT_shutdown_port. keep. Qed.

Lemma keeps_tx_bpdu p b size : (p < np)%nat -> keeps tot g (MSTP_OUT_tx_bpdu p b size).
Proof. intros Hp. unfold MSTP_OUT_tx_bpdu. keep. Qed.
#[local] Hint Resolve keeps_tx_bpdu : keeps.

Lemma keeps_txConfig p : (p < np)%nat -> keeps tot g (txConfig p).
Proof. intros Hp. unfold txConfig. keep. Qed.

Lemma keeps_txTcn p : (p < np)%nat -> keeps tot g (txTcn p).
Proof. intros Hp. unfold txTcn. keep. Qed.

(** The array of MSTI messages is large enough for the trees. *)
Lemma keeps_txMstp p : (p < np)%nat -> keeps tot g (txMstp p).
Proof.
  intros Hp. unfold txMstp. keep.
  exfalso. destruct Hids as (_ & _ & Hlen). bool_hyps.
  rewrite length_tl, (row_length g p) in * by done.
  unfold MAX_STANDARD_MSTIS in *. lia.
Qed.

Lemma keeps_set_TopologyChange t hint p :
  (p < np)%nat -> (t < nt)%nat -> keeps tot g (set_TopologyChange t hint p).
Proof. intros Hp Ht. unfold set_TopologyChange. keep. Qed.
#[local] Hint Resolve keeps_set_TopologyChange : keeps.

Lemma keeps_set_newInfoXst p t : (p < np)%nat -> (t < nt)%nat -> keeps tot g (set_newInfoXst p t).
Proof. intros Hp Ht. unfold set_newInfoXst. keep. Qed.
#[local] Hint Resolve keeps_set_newInfoXst : keeps.

Lemma keeps_newTcWhile p t : (p < np)%nat -> (t < nt)%nat -> keeps tot g (newTcWhile p t).
Proof. intros Hp Ht. unfold newTcWhile. keep. Qed.

Lemma keeps_setTcPropTree p t : (p < np)%nat -> (t < nt)%nat -> keeps tot g (setTcPropTree p t).
Proof. intros Hp Ht. unfold setTcPropTree. keep. Qed.
End actions.

#[export] Hint Resolve keeps_set_ageing_time keeps_shutdown_port keeps_txConfig keeps_txTcn
  keeps_txMstp keeps_set_TopologyChange keeps_set_newInfoXst keeps_newTcWhile
  keeps_setTcPropTree : keeps.
