(* ===== verification/MstpPortOk.v ===== *)
(** * The per-port state machines keep the invariant, and return *)

From S2P Require Import Prelude Bytes MstpTypes MstpPriority MstpBpdu MstpMonad MstpOut.
From S2P Require Import MstpPort MstpInv.

Lemma dec_range x n : 0 <= x <= n -> 0 <= dec x <= n.
Proof. unfold dec. case_match; bool_hyps; lia. Qed.

Lemma dec_nonneg x : 0 <= x -> 0 <= dec x.
Proof. unfold dec. case_match; bool_hyps; lia. Qed.
#[export] Hint Resolve dec_range dec_nonneg : keeps.

Section port.
Context (tot : bool) (g : ghost) (Hids : ids_ok (g_ids g)).

Abbreviation np := (g_np g).
Abbreviation nt := (length (g_ids g)).
#[local] Hint Resolve ids_ok_pos : keeps.

(** ** Bridge Detection and Port Protocol Migration *)

Lemma keeps_BDSM_begin p : (p < np)%nat -> keeps tot g (BDSM_begin p).
Proof. intros Hp. unfold BDSM_begin, BDSM_to_EDGE, BDSM_to_NOT_EDGE. keep. Qed.

Lemma keeps_BDSM_run p dry : (p < np)%nat -> keeps tot g (BDSM_run p dry).
Proof. intros Hp. unfold BDSM_run, BDSM_to_EDGE, BDSM_to_NOT_EDGE. keep. Qed.

Lemma keeps_PPMSM_begin p : (p < np)%nat -> keeps tot g (PPMSM_begin p).
Proof. intros Hp. unfold PPMSM_begin, PPMSM_to_CHECKING_RSTP. keep. Qed.

Lemma keeps_updtBPDUVersion p : (p < np)%nat -> keeps tot g (updtBPDUVersion p).
Proof. intros Hp. unfold updtBPDUVersion. keep. Qed.

Lemma find_msti_lt n msgs id i : find_msti n msgs id = Some i -> (i < length msgs)%nat.
Proof.
  revert n i. induction msgs as [|m msgs IH]; intros [|n] i Hf; try discriminate Hf.
  cbn [find_msti] in Hf. destruct (_ =? id); [injection Hf as <-; cbn [length]; lia|].
  apply fmap_Some in Hf as (j & Hj & ->). apply IH in Hj. cbn [length]. lia.
Qed.

Section plain.
Context (Hplain : plain g).

Lemma keeps_clearAllRcvdMsgs p dry : (p < np)%nat -> keeps tot g (clearAllRcvdMsgs p dry).
Proof. destruct Hplain as [Hp1 Hp2]. intros Hp. unfold clearAllRcvdMsgs. keep. Qed.
#[local] Hint Resolve keeps_clearAllRcvdMsgs keeps_updtBPDUVersion : keeps.

Lemma keeps_setRcvdMsgs p : (p < np)%nat -> keeps tot g (setRcvdMsgs p).
Proof.
  destruct Hplain as [Hp1 Hp2]. intros Hp. unfold setRcvdMsgs.
  apply keeps_bind; [|intros _].
  - apply keeps_mod_ptp; [done|eauto with keeps|].
    intros d x Hok Hid. destruct Hids as [Hhd _].
    destruct (g_ids g) as [|id ids]; [done|]. simpl in Hhd, Hid. simplify_eq.
    split; [done|]. destruct Hok; constructor; ok_tac.
    destruct ok_msg. split; [|done]. congruence.
  - keep. eapply msg_ok_some; [done|].
    destruct H as (_ & Hport & _).
    rewrite <-(ok_array _ _ _ Hport). by eapply find_msti_lt.
Qed.
#[local] Hint Resolve keeps_setRcvdMsgs : keeps.

Lemma keeps_PTSM_tick p : (p < np)%nat -> keeps tot g (PTSM_tick p).
Proof. destruct Hplain as [Hp1 Hp2]. intros Hp. unfold PTSM_tick. keep. Qed.

Lemma keeps_PRSM_to_DISCARD p dry : (p < np)%nat -> keeps tot g (PRSM_to_DISCARD p dry).
Proof. destruct Hplain as [Hp1 Hp2]. intros Hp. unfold PRSM_to_DISCARD. keep. Qed.
#[local] Hint Resolve keeps_PRSM_to_DISCARD : keeps.

Lemma keeps_PRSM_begin p : (p < np)%nat -> keeps tot g (PRSM_begin p).
Proof. intros Hp. unfold PRSM_begin. keep. Qed.

Lemma keeps_PRSM_run p dry : (p < np)%nat -> keeps tot g (PRSM_run p dry).
Proof. destruct Hplain as [Hp1 Hp2]. intros Hp. unfold PRSM_run, PRSM_to_RECEIVE. keep. Qed.
End plain.

(** ** Termination of Port Protocol Migration *)

Context (Hcfg : config_ok (g_cfg g)).

(** The number of further calls. *)
Definition PPMSM_rank (prt : port_t) : nat :=
  match PPMSM_state prt with
  | PPMSM_CHECKING_RSTP => 1%nat
  | PPMSM_SELECTING_STP =>
      if (mdelayWhile prt =? 0) || negb (portEnabled prt) || mcheck prt then 1%nat else 0%nat
  | PPMSM_SENSING => if rcvdSTP prt then 1%nat else 0%nat
  end.

Lemma PPMSM_runf_ok n w p prt dry :
  inv g w -> (p < np)%nat -> br_ports (br w) !! p = Some prt -> (PPMSM_rank prt < n)%nat ->
  wp tot (PPMSM_runf n p dry) (fun _ w' => inv g w') w.
Proof.
  revert w prt dry. induction n as [|n IH]; intros w prt dry Hw Hp Hprt Hn; [lia|].
  cbn [PPMSM_runf]. apply wp_bind, wp_the_br. apply wp_bind.
  eapply wp_the_port; [done..|]. intros prt' Hprt' _. simplify_eq.
  assert (Hrec : forall w' prt', inv g w' -> br_ports (br w') !! p = Some prt' ->
      (PPMSM_rank prt' < n)%nat ->
      wp tot (PPMSM_runf n p false ;; mret tt) (fun _ w' => inv g w') w').
  { intros w' prt' Hw' Hprt'' Hn'. apply wp_bind. eapply wp_mono; [by eapply IH|]. done. }
  assert (Migrate_Time (br w) = 3) as Hmig.
  { rewrite <-(cfg_migrate_ok _ Hcfg), <-(inv_cfg _ _ Hw). done. }
  unfold PPMSM_rank in Hn.
  destruct (PPMSM_state prt) eqn:Hst; repeat case_match; try (by apply wp_ret);
    apply (wp_transition tot g); try done;
    unfold PPMSM_to_CHECKING_RSTP, PPMSM_to_SENSING, PPMSM_to_SELECTING_STP;
    apply wp_bind; try (apply wp_the_br; apply (keeps_mod_port tot g); [done|port_tac|done]).
  all: try (apply wp_the_br, wp_bind); eapply (wp_mod_port_at tot g); [done..|port_tac|];
    intros w' Hw' Hp'; eapply Hrec; [done..|]; unfold PPMSM_rank; upd_simpl; rewrite ?Hmig; guard_simpl; lia.
Qed.

Lemma keeps_PPMSM_run p dry : (p < np)%nat -> keeps tot g (PPMSM_run p dry).
Proof.
  intros Hp w Hw. destruct (inv_port g w p Hw Hp) as (prt & Hprt & _).
  eapply PPMSM_runf_ok; [done..|]. unfold PPMSM_rank, PPMSM_depth. repeat case_match; lia.
Qed.

(** ** Termination of Port Transmit *)

Context (Hplain : plain g).

Abbreviation hold := (Transmit_Hold_Count (g_cfg g)).

(** Two calls for every message that may still be sent, and two for the
    periodic message. *)
Definition PTSM_rank (k : PTSM_states_t * Z * Z * bool) : nat :=
  let '(st, count, hello, _) := k in
  (2 * Z.to_nat (hold - count)%Z
   + match st with PTSM_IDLE => if (hello =? 0)%Z then 2 else 0 | _ => 1 end)%nat.

Section call.
Context (n p : nat) (Hp : (p < np)%nat).
Context (IH : forall w prt dry, inv g w -> br_ports (br w) !! p = Some prt ->
  (PTSM_rank (port_key prt) < n)%nat ->
  wp tot (PTSM_runf n p dry) (fun _ w' => inv g w') w).

Lemma PTSM_rec w prt :
  inv g w -> br_ports (br w) !! p = Some prt -> (PTSM_rank (port_key prt) < n)%nat ->
  wp tot (PTSM_runf n p false ;; mret tt) (fun _ w' => inv g w') w.
Proof. intros Hw Hprt Hn. apply wp_bind. eapply wp_mono; [by eapply IH|]. done. Qed.

(** The common shape of TRANSMIT_CONFIG, TRANSMIT_TCN and TRANSMIT_RSTP. *)
Lemma PTSM_transmit w prt (f h : port_t -> port_t) (tx : M unit) st :
  inv g w -> br_ports (br w) !! p = Some prt ->
  st <> PTSM_IDLE -> PTSM_state prt = PTSM_IDLE -> txCount prt < hold ->
  (forall g', ids_ok (g_ids g') -> g_np g' = np -> keeps tot g' tx) ->
  (forall prt, row_ok g p prt ->
     prt_trees (f prt) = prt_trees prt /\ deleted (f prt) = deleted prt /\ port_ok g p (f prt)) ->
  port_key (f prt) = (st, txCount prt, helloWhen prt, portEnabled prt) ->
  (forall prt, h prt = (prt <| txCount := u32 (txCount prt + 1) |> <| tcAck := tcAck (h prt) |>)) ->
  (2 * Z.to_nat (hold - txCount prt) <= n)%nat ->
  wp tot (mod_port p f ;; tx ;; mod_port p h ;; (PTSM_runf n p false ;; mret tt))
    (fun _ w' => inv g w') w.
Proof.
  intros Hw Hprt Hst Hidle Hc Htx Hf Hkey Hh Hn.
  assert (0 <= txCount prt) as H0.
  { destruct (inv_row _ _ Hw _ _ Hprt) as (_ & [] & _). lia. }
  apply wp_bind. eapply wp_mod_port_at; [done..|]. intros w1 Hw1 Hp1.
  apply wp_bind. eapply (wp_frame_port tot g); [done..| |].
  { apply Htx; done. }
  intros a w2 prt2 Hw2 Hp2 Hk2. rewrite Hkey in Hk2. injection Hk2 as Hs2 Hc2 Hh2 He2.
  assert (hold <= 10) as Hhold by apply Hcfg.
  assert (u32 (txCount prt2 + 1) = txCount prt + 1) as Hu by (rewrite u32_small; lia).
  apply wp_bind. eapply wp_mod_port; [done..| |].
  { intros prt' Hp' (_ & Hok & _). simplify_eq. rewrite Hh, Hu.
    destruct Hok; repeat split; ok_tac; apply Hplain. }
  intros w3 Hw3 Hp3 _. rewrite Hp2 in Hp3. simpl in Hp3.
  eapply PTSM_rec; [done..|]. rewrite Hh. unfold PTSM_rank, port_key. upd_simpl.
  rewrite Hu, Hs2. destruct st; try done; lia.
Qed.

Lemma PTSM_idle w prt :
  inv g w -> br_ports (br w) !! p = Some prt -> (2 * Z.to_nat (hold - txCount prt) < n)%nat ->
  wp tot (PTSM_to_IDLE (PTSM_runf n p false ;; mret tt) p) (fun _ w' => inv g w') w.
Proof.
  destruct Hplain as [_ Hport]. intros Hw Hprt Hn. unfold PTSM_to_IDLE.
  assert (1 <= br_Hello_Time (g_cfg g)) as Hhello by apply Hcfg.
  apply wp_bind. eapply wp_mod_port_at; [done..|port_tac|]. intros w1 Hw1 Hp1.
  apply wp_bind, (wp_the_ptp tot g); [done..|by apply ids_ok_pos|].
  intros prt1 x Hprt1 Hx Hrow Hok Hid. simplify_eq.
  apply wp_bind. eapply wp_mod_port_at; [done..| |].
  { intros prt' (_ & Hport' & _). destruct Hport', Hok. repeat split; ok_tac; apply Hplain. }
  intros w2 Hw2 Hp2. eapply PTSM_rec; [done..|].
  unfold PTSM_rank, port_key. upd_simpl. destruct Hok. rewrite ok_hello.
  destruct (Z.eqb_spec (br_Hello_Time (g_cfg g)) 0); lia.
Qed.

Lemma PTSM_periodic w prt :
  inv g w -> br_ports (br w) !! p = Some prt ->
  (2 * Z.to_nat (hold - txCount prt) + 1 < n)%nat ->
  wp tot (PTSM_to_TRANSMIT_PERIODIC (PTSM_runf n p false ;; mret tt) p)
    (fun _ w' => inv g w') w.
Proof.
  destruct Hplain as [_ Hport]. intros Hw Hprt Hn. unfold PTSM_to_TRANSMIT_PERIODIC.
  apply wp_bind. eapply wp_mod_port_at; [done..|port_tac|]. intros w1 Hw1 Hp1.
  apply wp_bind, (wp_the_ptp tot g); [done..|by apply ids_ok_pos|].
  intros prt1 x Hprt1 Hx Hrow Hok Hid. unfold ptps_of_port.
  apply wp_bind, wp_bind. eapply wp_the_port; [done..|]. intros prt2 Hprt2 _. simplify_eq.
  apply wp_ret, wp_bind. eapply wp_mod_port_at; [done..|port_tac|].
  intros w2 Hw2 Hp2. eapply PTSM_rec; [done..|].
  unfold PTSM_rank, port_key. upd_simpl. cbv beta iota. lia.
Qed.
End call.

Lemma PTSM_runf_ok n w p prt dry :
  inv g w -> (p < np)%nat -> br_ports (br w) !! p = Some prt ->
  (PTSM_rank (port_key prt) < n)%nat ->
  wp tot (PTSM_runf n p dry) (fun _ w' => inv g w') w.
Proof.
  intros Hw Hp. revert w prt dry Hw. induction n as [|n IH]; intros w prt dry Hw Hprt Hn; [lia|].
  cbn [PTSM_runf]. apply wp_bind, wp_the_br, wp_bind.
  eapply wp_the_port; [done..|]. intros prt' Hprt' Hrow. simplify_eq.
  pose proof Hrow as (_ & [[Hc0 Hc1] Hh0 _ _ _] & _).
  assert (Transmit_Hold_Count (br w) = hold) as Hhold by (by rewrite <-(inv_cfg _ _ Hw)).
  assert (1 <= br_Hello_Time (g_cfg g)) as Hhello by apply Hcfg.
  rewrite Hhold.
  destruct (portEnabled prt) eqn:Hen; simpl negb; cbv iota.
  2:{ unfold PTSM_to_TRANSMIT_INIT. apply wp_bind. eapply wp_the_port; [done..|].
      intros prt' Hprt' _. simplify_eq. destruct dry; [by apply wp_ret|].
      rewrite Hen. simpl.
      apply wp_bind. eapply wp_mod_port_at; [done..| |].
      { destruct Hplain as [_ Hport]. port_tac. }
      intros w1 Hw1 _. by apply wp_bind, wp_ret, wp_ret. }
  unfold PTSM_rank, port_key in Hn. cbv beta iota in Hn.
  destruct (PTSM_state prt) eqn:Hst;
    try (apply (wp_transition tot g); [done..|]; eapply PTSM_idle; eauto; lia).
  apply wp_bind, (wp_the_ptp tot g); [done..|by apply ids_ok_pos|].
  intros prt1 cist Hprt1 Hcist _ Hok Hid. cbv zeta. simplify_eq.
  repeat case_match; try (by apply wp_ret); apply (wp_transition tot g); try done; bool_hyps.
  1: eapply PTSM_periodic; eauto; lia.
  all: eapply (PTSM_transmit n p Hp); eauto; try done; try lia; try port_tac;
    try (intros prt' ?; by destruct prt');
    try (intros g' Hids' Hnp; rewrite <-Hnp in Hp; eauto with keeps).
  all: apply Hplain.
Qed.

Lemma keeps_PTSM_run p dry : (p < np)%nat -> keeps tot g (PTSM_run p dry).
Proof.
  intros Hp w Hw. destruct (inv_port g w p Hw Hp) as (prt & Hprt & _ & [Hc _ _ _ _] & _).
  eapply PTSM_runf_ok; [done..|]. unfold PTSM_rank, port_key, PTSM_depth.
  assert (hold <= 10) by apply Hcfg. repeat case_match; lia.
Qed.

Lemma keeps_PTSM_begin p : (p < np)%nat -> keeps tot g (PTSM_begin p).
Proof.
  destruct Hplain as [_ Hport]. assert (1 <= hold) by apply Hcfg.
  intros Hp. unfold PTSM_begin, PTSM_to_TRANSMIT_INIT. keep.
Qed.
End port.

#[export] Hint Resolve ids_ok_pos keeps_BDSM_begin keeps_BDSM_run keeps_PPMSM_begin
  keeps_PPMSM_run keeps_PTSM_tick keeps_PRSM_begin keeps_PRSM_run keeps_PTSM_run
  keeps_PTSM_begin : keeps.
