(* ===== verification/MstpInfoOk.v ===== *)
(** * The Port Information machine keeps the invariant, and returns *)

From S2P Require Import Prelude Bytes MstpTypes MstpPriority MstpBpdu MstpMonad MstpOut.
From S2P Require Import MstpInfo MstpInv MstpPortOk.

(** ** The record functions *)

Section record.
Context (tot : bool) (g : ghost) (Hids : ids_ok (g_ids g)).
Context (p t : nat) (Hp : (p < g_np g)%nat) (Ht : (t < length (g_ids g))%nat).

(** Where a message is read, the pointer to it is known to be valid. *)
Definition has_msg : Prop :=
  forall id k, g_ids g !! t = Some id -> id <> 0 -> g_ptp g p t k -> is_Some k.2.
Context (Hmsg : has_msg).

Lemma keeps_the_msti_msg {A} id (k : msti_configuration_message_t -> M A) :
  g_ids g !! t = Some id -> (0 =? id) = false ->
  (forall m, keeps tot g (k m)) -> keeps tot g (the_msti_msg p t ≫= k).
Proof.
  intros Hid Hnz Hk w Hw. unfold the_msti_msg.
  apply wp_bind, wp_bind. eapply wp_the_port; [done..|]. intros prt Hprt (_ & Hpok & _).
  apply wp_bind. eapply wp_the_ptp; [done..|]. intros prt' x Hprt' Hx _ Hok Hid'. simplify_eq.
  destruct (Hmsg (ptp_MSTID x) (ptp_key x)) as [i Hi]; [done|bool_hyps; lia|apply Hok|].
  simpl in Hi. rewrite Hi. simpl.
  assert (i < length (mstConfiguration (rcvdBpduData prt)))%nat as Hlt.
  { rewrite (ok_array _ _ _ Hpok). by eapply (ok_msg _ _ _ _ _ Hok). }
  apply lookup_lt_is_Some in Hlt as [m Hm]. rewrite Hm.
  eapply wp_deref; [done|]. by apply Hk.
Qed.
End record.

Ltac msti_step :=
  lazymatch goal with
  | |- keeps _ _ (the_msti_msg _ _ ≫= _) =>
      eapply keeps_the_msti_msg; [eassumption|eassumption|eassumption|eassumption|eassumption|intros ?]
  | _ => cist_step
  end.
Ltac keep_hook ::= msti_step.

Section record2.
Context (tot : bool) (g : ghost) (Hids : ids_ok (g_ids g)).
Context (p t : nat) (Hp : (p < g_np g)%nat) (Ht : (t < length (g_ids g))%nat).
Context (Hmsg : has_msg g p t).

Lemma keeps_recordAgreement : keeps tot g (recordAgreement p t).
Proof. unfold recordAgreement. keep. Qed.

Lemma keeps_recordDispute : keeps tot g (recordDispute p t).
Proof. unfold recordDispute. keep. Qed.

Lemma keeps_recordMastered : keeps tot g (recordMastered p t).
Proof. unfold recordMastered. keep. Qed.

Lemma keeps_recordPriority : keeps tot g (recordPriority p t).
Proof. unfold recordPriority. keep. Qed.

Lemma keeps_recordProposal : keeps tot g (recordProposal p t).
Proof. unfold recordProposal. keep. Qed.

Lemma keeps_recordTimes : keeps tot g (recordTimes p t).
Proof. unfold recordTimes. keep. Qed.

Lemma keeps_setTcFlags : keeps tot g (setTcFlags p t).
Proof. unfold setTcFlags. keep. Qed.

Lemma keeps_updtRcvdInfoWhile : keeps tot g (updtRcvdInfoWhile p t).
Proof. unfold updtRcvdInfoWhile. keep. Qed.

Lemma keeps_rcvInfo : keeps tot g (rcvInfo p t).
Proof. unfold rcvInfo. keep. Qed.
End record2.

#[export] Hint Resolve keeps_recordAgreement keeps_recordDispute keeps_recordMastered
  keeps_recordPriority keeps_recordProposal keeps_recordTimes keeps_setTcFlags
  keeps_updtRcvdInfoWhile keeps_rcvInfo : keeps.

(** ** The machine *)

(** The number of further calls, plus one, when the port stays enabled. *)
Definition PISM_rank (k : PISM_states_t * port_info_origin_t * (bool * bool * bool) * option nat) :
    nat :=
  let '(st, info, (sel, updt, rcvd), _) := k in
  let w (b : bool) (n : nat) := if b then n else O in
  match st with
  | PISM_DISABLED => w rcvd 1 + 1
  | PISM_AGED => w (sel && updt) (w rcvd 3 + 3)
  | PISM_CURRENT => w rcvd 3 + w updt 2 + 1
  | PISM_RECEIVE => w updt 2 + 3
  | _ => w rcvd 3 + w updt 2 + 2
  end%nat.

Lemma betterorsame_update_hello g p t d x :
  ptp_ok g p t d x -> selected x = true ->
  plain g -> ptp_MSTID (update_info x) = ptp_MSTID x /\ ptp_ok g p t d (update_info x).
Proof.
  intros Hok Hsel [Hpl _]. split; [done|]. pose proof (ok_desig _ _ _ _ _ Hok (or_introl Hsel)).
  destruct Hok; constructor; try assumption; try (by intros _).
  - exact (msg_ok_state _ _ PISM_UPDATE _ _ ok_msg eq_refl).
  - apply Hpl.
Qed.

Section machine.
Context (tot : bool) (g : ghost) (Hids : ids_ok (g_ids g)) (Hplain : plain g).
Context (p t : nat) (Hp : (p < g_np g)%nat) (Ht : (t < length (g_ids g))%nat).

(** The key of the per-tree port at the position is [K]. *)
Definition at_key K (w : world) : Prop :=
  inv g w /\ exists x, lookup_ptp (br w) p t = Some x /\ ptp_key x = K.

(** One step of an action that leaves the key of the position alone. *)
Lemma wp_frame_bind {A B} K (m : M A) (k : A -> M B) w Q :
  at_key K w -> keeps tot (with_ptp g p t K) m ->
  (forall a w', at_key K w' -> wp tot (k a) Q w') ->
  wp tot (m ≫= k) Q w.
Proof.
  intros (Hw & x & Hx & <-) Hm Hk. apply wp_bind. eapply wp_frame_ptp; [done..|].
  intros a w' x' Hw' Hx' HK. apply Hk. by split; [|exists x'].
Qed.

Lemma has_msg_with K w :
  at_key K w -> K.1.2.2 || msg_state K.1.1.1 = true -> has_msg (with_ptp g p t K) p t.
Proof.
  intros (Hw & x & Hx & <-) Hm id k Hid Hnz Hk. specialize (Hk eq_refl eq_refl). subst k.
  destruct (inv_ptp g w p t Hw Hp Ht) as (prt & x' & Hprt & Hx' & Hl & Hrow & Hok). simplify_eq.
  pose proof (row_mstid _ _ _ _ _ Hrow Hx') as Hid'. simpl in Hid. simplify_eq.
  by apply (ok_msg _ _ _ _ _ Hok).
Qed.

Section call.
Context (n : nat).
Context (IH : forall w x dry, inv g w -> lookup_ptp (br w) p t = Some x ->
  (PISM_rank (ptp_key x) + 1 < n)%nat ->
  wp tot (PISM_runf n p t dry) (fun _ w' => inv g w') w).

Lemma PISM_rec w x :
  inv g w -> lookup_ptp (br w) p t = Some x -> (PISM_rank (ptp_key x) + 1 < n)%nat ->
  wp tot (PISM_runf n p t false ;; mret tt) (fun _ w' => inv g w') w.
Proof. intros Hw Hx Hn. apply wp_bind. eapply wp_mono; [by eapply IH|]. done. Qed.

(** The states whose first action leaves a message to be read. *)
Lemma wp_enter (st : PISM_states_t) w x Q :
  inv g w -> lookup_ptp (br w) p t = Some x -> PISM_state x = PISM_RECEIVE \/ rcvdMsg x = true ->
  (forall w', inv g w' -> lookup_ptp (br w') p t = Some (x <| PISM_state := st |>) -> Q tt w') ->
  wp tot (mod_ptp p t (fun x => x <| PISM_state := st |>)) Q w.
Proof.
  destruct Hplain as [Hpl _]. intros Hw Hx Hst HQ.
  eapply wp_mod_ptp_at; [done..| |by eauto]. ptp_tac.
  eapply msg_ok_step; [done|]. destruct Hst as [-> | ->]; [apply orb_true_r|done].
Qed.

(** The last update of an action, before the recursive call. *)
Lemma PISM_finish K f w :
  at_key K w ->
  (forall d x, ptp_ok g p t d x -> ptp_key x = K ->
     ptp_MSTID (f x) = ptp_MSTID x /\ ptp_ok g p t d (f x)
     /\ (PISM_rank (ptp_key (f x)) + 1 < n)%nat) ->
  wp tot (mod_ptp p t f ;; (PISM_runf n p t false ;; mret tt)) (fun _ w' => inv g w') w.
Proof.
  intros (Hw & x & Hx & Hk) Hf. apply wp_bind.
  destruct (inv_ptp g w p t Hw Hp Ht) as (prt & x' & _ & _ & Hl & _ & Hok). simplify_eq.
  eapply wp_mod_ptp_at; [done..| |].
  - intros d Hok' _. by destruct (Hf d x Hok') as (? & ? & ?).
  - intros w' Hw' Hx' _. eapply PISM_rec; [done..|]. by eapply Hf.
Qed.

Lemma PISM_call K w :
  at_key K w -> (PISM_rank K + 1 < n)%nat ->
  wp tot (PISM_runf n p t false ;; mret tt) (fun _ w' => inv g w') w.
Proof. intros (Hw & x & Hx & <-) Hn. by eapply PISM_rec. Qed.

Ltac frame_step :=
  eapply wp_frame_bind; [eassumption|solve [keep]|intros ? ? ?].

Ltac finish_tac :=
  eapply PISM_finish; [eassumption|];
  intros d y Hok Hkey; unfold ptp_key in *; simplify_eq;
  split; [done|split; [destruct Hok; constructor; ok_tac; apply Hplain|]];
  unfold PISM_rank in *; upd_simpl in *; repeat case_match; simplify_eq; lia.

Ltac action_tac st :=
  intros Hw Hx Hst Hn; apply wp_bind; eapply (wp_enter st); [by eauto..|];
  let w1 := fresh "w1" in let Hw1 := fresh "Hw1" in let Hx1 := fresh "Hx1" in
  let HK := fresh "HK" in let Hmsg := fresh "Hmsg" in
  intros w1 Hw1 Hx1;
  match type of Hx1 with
  | lookup_ptp _ _ _ = Some ?y =>
      assert (at_key (ptp_key y) w1) as HK by (split; eauto)
  end;
  pose proof (has_msg_with _ _ HK (orb_true_r _)) as Hmsg;
  unfold ptp_key in *; upd_simpl in *; repeat frame_step.

Context (w : world) (x : per_tree_port_t).

Lemma PISM_superior :
  inv g w -> lookup_ptp (br w) p t = Some x -> PISM_state x = PISM_RECEIVE ->
  (PISM_rank (ptp_key x) < n)%nat ->
  wp tot (PISM_to_SUPERIOR_DESIGNATED (PISM_runf n p t false ;; mret tt) p t)
    (fun _ w' => inv g w') w.
Proof. unfold PISM_to_SUPERIOR_DESIGNATED. action_tac PISM_SUPERIOR_DESIGNATED. finish_tac. Qed.

Lemma PISM_repeated :
  inv g w -> lookup_ptp (br w) p t = Some x -> PISM_state x = PISM_RECEIVE ->
  (PISM_rank (ptp_key x) < n)%nat ->
  wp tot (PISM_to_REPEATED_DESIGNATED (PISM_runf n p t false ;; mret tt) p t)
    (fun _ w' => inv g w') w.
Proof. unfold PISM_to_REPEATED_DESIGNATED. action_tac PISM_REPEATED_DESIGNATED. finish_tac. Qed.

Lemma PISM_inferior :
  inv g w -> lookup_ptp (br w) p t = Some x -> PISM_state x = PISM_RECEIVE ->
  (PISM_rank (ptp_key x) < n)%nat ->
  wp tot (PISM_to_INFERIOR_DESIGNATED (PISM_runf n p t false ;; mret tt) p t)
    (fun _ w' => inv g w') w.
Proof. unfold PISM_to_INFERIOR_DESIGNATED. action_tac PISM_INFERIOR_DESIGNATED. finish_tac. Qed.

Lemma PISM_not_designated :
  inv g w -> lookup_ptp (br w) p t = Some x -> PISM_state x = PISM_RECEIVE ->
  (PISM_rank (ptp_key x) < n)%nat ->
  wp tot (PISM_to_NOT_DESIGNATED (PISM_runf n p t false ;; mret tt) p t)
    (fun _ w' => inv g w') w.
Proof. unfold PISM_to_NOT_DESIGNATED. action_tac PISM_NOT_DESIGNATED. finish_tac. Qed.

Lemma PISM_receive :
  inv g w -> lookup_ptp (br w) p t = Some x -> rcvdMsg x = true /\ PISM_state x = PISM_CURRENT ->
  (PISM_rank (ptp_key x) < n)%nat ->
  wp tot (PISM_to_RECEIVE (PISM_runf n p t false ;; mret tt) p t)
    (fun _ w' => inv g w') w.
Proof.
  unfold PISM_to_RECEIVE. intros Hw Hx [Hst Hcur]. revert Hw Hx Hst. action_tac PISM_RECEIVE.
  eapply PISM_call; [eassumption|]. rewrite Hst, Hcur in Hn. unfold PISM_rank in *. simpl in *. lia.
Qed.

Lemma PISM_simple f :
  inv g w -> lookup_ptp (br w) p t = Some x ->
  (forall d, ptp_ok g p t d x -> g_ids g !! t = Some (ptp_MSTID x) ->
     ptp_MSTID (f x) = ptp_MSTID x /\ ptp_ok g p t d (f x)) ->
  (PISM_rank (ptp_key (f x)) + 1 < n)%nat ->
  wp tot (mod_ptp p t f ;; (PISM_runf n p t false ;; mret tt)) (fun _ w' => inv g w') w.
Proof.
  intros Hw Hx Hf Hn. apply wp_bind. eapply wp_mod_ptp_at; [done..|].
  intros w' Hw' Hx' _. by eapply PISM_rec.
Qed.

Lemma PISM_update :
  inv g w -> lookup_ptp (br w) p t = Some x -> selected x = true ->
  (PISM_rank (ptp_key (update_info x)) + 1 < n)%nat ->
  wp tot (PISM_to_UPDATE (PISM_runf n p t false ;; mret tt) p t) (fun _ w' => inv g w') w.
Proof.
  intros Hw Hx Hsel Hn. unfold PISM_to_UPDATE. apply wp_bind.
  eapply (wp_mod_ptp_at tot g _ _ _ _ x); [assumption..| |].
  { intros d Hok _. exact (betterorsame_update_hello g p t d x Hok Hsel Hplain). }
  intros w1 Hw1 Hx1 _.
  assert (at_key (ptp_key (update_info x)) w1) as HK by (split; eauto).
  frame_step. by eapply PISM_call.
Qed.
End call.

Lemma PISM_disabled n w x prt :
  inv g w -> lookup_ptp (br w) p t = Some x -> br_ports (br w) !! p = Some prt ->
  portEnabled prt = false ->
  wp tot (PISM_to_DISABLED (PISM_runf (S n) p t false ;; mret tt) p t false)
    (fun _ w' => inv g w') w.
Proof.
  destruct Hplain as [Hpl _]. intros Hw Hx Hprt Hen. unfold PISM_to_DISABLED. simpl negb. cbv iota.
  apply wp_bind. eapply wp_mod_ptp_at; [done..|ptp_tac|].
  intros w1 Hw1 Hx1 Hp1. apply wp_bind. cbn [PISM_runf].
  apply wp_bind. eapply wp_the_port; [done..|]. intros prt1 Hprt1 _.
  rewrite Hprt in Hp1. simpl in Hp1. simplify_eq.
  apply wp_bind. eapply wp_the_ptp; [done..|]. intros prt2 x2 _ Hx2 _ _ _.
  rewrite Hx1 in Hx2. injection Hx2 as Hx2.
  assert (infoIs x2 = ioDisabled /\ PISM_state x2 = PISM_DISABLED /\ rcvdMsg x2 = false)
    as (E1 & E2 & E3) by (rewrite <-Hx2; upd_simpl; done).
  clear Hx1 Hx2. upd_simpl. rewrite Hen, E1, E2, E3. simpl. by apply wp_ret, wp_ret.
Qed.

Lemma PISM_runf_ok n w x dry :
  inv g w -> lookup_ptp (br w) p t = Some x -> (PISM_rank (ptp_key x) + 1 < n)%nat ->
  wp tot (PISM_runf n p t dry) (fun _ w' => inv g w') w.
Proof.
  revert w x dry. induction n as [|n IH]; intros w x dry Hw Hx Hn; [lia|].
  cbn [PISM_runf]. apply wp_bind. eapply wp_the_port; [done..|]. intros prt Hprt _.
  apply wp_bind. eapply wp_the_ptp; [done..|]. intros prt' x' Hprt' Hx' _ Hok Hid.
  rewrite Hx in Hx'. rewrite Hprt in Hprt'. injection Hx' as <-. injection Hprt' as <-.
  destruct (negb (portEnabled prt) && negb (bool_decide (ioDisabled = infoIs x))) eqn:Hdis.
  { apply (wp_transition tot g); [done..|]. bool_hyps. destruct n as [|n]; [lia|].
    by eapply PISM_disabled. }
  unfold ptp_key in Hn. destruct Hplain as [Hpl _].
  assert (1 < n -> wp tot (PISM_to_AGED (PISM_runf n p t false ;; mret tt) p t)
                     (fun _ w' => inv g w') w)%nat as Haged.
  { intros Hn'. eapply (PISM_simple n); [done..|ptp_tac|].
    unfold ptp_key. upd_simpl. simpl. lia. }
  destruct (PISM_state x) eqn:Hst;
    (* the states that go to CURRENT *)
    try (apply (wp_transition tot g); [done..|]; eapply (PISM_simple n); [done..|ptp_tac|];
         unfold ptp_key; upd_simpl; simpl in Hn |- *; lia).
  - repeat case_match; try (by apply wp_ret); apply (wp_transition tot g); try done.
    + apply Haged. simpl in Hn. lia.
    + destruct n as [|n']; [simpl in Hn; lia|]. by eapply PISM_disabled.
  - case_match; [|by apply wp_ret]. apply (wp_transition tot g); [done..|]. bool_hyps.
    eapply PISM_update; [done..|]. unfold ptp_key, update_info. upd_simpl.
    guard_simpl. simpl in *. rewrite H, H0 in Hn. simpl in Hn. lia.
  - apply wp_bind. eapply wp_the_ptp; [done|done|by apply ids_ok_pos|].
    intros prt0 cist _ _ _ _ _. cbv zeta.
    repeat case_match; try (by apply wp_ret); apply (wp_transition tot g); try done; bool_hyps.
    all: try (apply Haged; simpl in Hn; lia).
    + eapply (PISM_receive n); [done..|]. unfold ptp_key. rewrite Hst. lia.
    + eapply (PISM_receive n); [done..|]. unfold ptp_key. rewrite Hst. lia.
    + eapply PISM_update; [done..|]. unfold ptp_key, update_info. upd_simpl. guard_simpl.
      simpl in *. rewrite ?H0, ?H1, ?H2, ?H3 in Hn. simpl in Hn. lia.
    + eapply PISM_update; [done..|]. unfold ptp_key, update_info. upd_simpl. guard_simpl.
      simpl in *. rewrite ?H0, ?H1, ?H2, ?H3 in Hn. simpl in Hn. lia.
  - case_match; apply (wp_transition tot g); try done.
    + eapply (PISM_simple n); [done..| |].
      * ptp_tac. eapply msg_ok_step; [done|]. rewrite Hst. apply orb_true_r.
      * unfold ptp_key; upd_simpl; simpl in Hn |- *; lia.
    + eapply (PISM_superior n); [done..|]. unfold ptp_key. rewrite Hst. lia.
    + eapply (PISM_repeated n); [done..|]. unfold ptp_key. rewrite Hst. lia.
    + eapply (PISM_inferior n); [done..|]. unfold ptp_key. rewrite Hst. lia.
    + eapply (PISM_not_designated n); [done..|]. unfold ptp_key. rewrite Hst. lia.
Qed.

Lemma keeps_PISM_run dry : keeps tot g (PISM_run p t dry).
Proof.
  intros w Hw. destruct (inv_ptp g w p t Hw Hp Ht) as (prt & x & _ & _ & Hx & _).
  eapply PISM_runf_ok; [done..|].
  unfold PISM_rank, ptp_key, PISM_depth. repeat case_match; simpl; lia.
Qed.

Lemma keeps_PISM_begin : keeps tot g (PISM_begin p t).
Proof. destruct Hplain as [Hpl _]. unfold PISM_begin, PISM_to_DISABLED. keep. Qed.
End machine.

#[export] Hint Resolve keeps_PISM_run keeps_PISM_begin : keeps.
