(* ===== verification/MstpRolesOk.v ===== *)
(** * Port Role Selection keeps the invariant *)

From S2P Require Import Prelude Bytes MstpTypes MstpPriority MstpBpdu MstpMonad MstpOut.
From S2P Require Import MstpRoles MstpInv.

(** ** The effect of the choice of a role on a per-tree port *)

Lemma set_role_eta (x : per_tree_port_t) r :
  x <| selectedRole := r |> = x <| selectedRole := r |> <| updtInfo := updtInfo x |>.
Proof. by destruct x. Qed.

Lemma update_if_changed_spec cist x :
  update_if_changed cist x = x <| updtInfo := negb (samePriorityAndTimers (portPriority x)
    (designatedPriority x) (portTimes x) (designatedTimes x) cist) || updtInfo x |>.
Proof. unfold update_if_changed. case_match; [by destruct x|done]. Qed.

(** Only the selected role and updtInfo change. *)
Lemma choose_role_frame cist tree prt cist_tree is_root x :
  exists r u, choose_role cist tree prt cist_tree is_root x
              = x <| selectedRole := r |> <| updtInfo := u |>.
Proof.
  unfold choose_role. rewrite !update_if_changed_spec.
  repeat case_match; eauto using set_role_eta; by eexists _, _.
Qed.

(** ** More facts about positions *)

Definition with_desig (g : ghost) (D : nat -> nat -> Prop) : ghost :=
  mk_ghost (g_cfg g) (g_ids g) (g_np g) (g_coh g) D (g_ptp g) (g_port g).

Lemma inv_desig_mono g (D D' : nat -> nat -> Prop) w :
  (forall q s, D' q s -> D q s \/ exists x, lookup_ptp (br w) q s = Some x
                          /\ Hello_Time (designatedTimes x) = br_Hello_Time (g_cfg g)) ->
  inv (with_desig g D) w -> inv (with_desig g D') w.
Proof.
  intros HD [Hc Hn Hi Htr Hr]. constructor; try done. intros p prt Hp.
  destruct (Hr p prt Hp) as (? & [] & Hx). split; [done|]. split; [by constructor|].
  intros t x Ht. destruct (Hx t x Ht) as [??? ?? Hdes ?]. constructor; try done.
  intros [Hs|Hd]; [by apply Hdes; left|].
  destruct (HD p t Hd) as [Hd'|(x' & Hl & ?)]; [by apply Hdes; right|].
  unfold lookup_ptp in Hl. rewrite Hp in Hl. simpl in Hl. by simplify_eq.
Qed.

Section roles.
Context (tot : bool) (g : ghost) (Hids : ids_ok (g_ids g)) (Hplain : plain g).
Context (t : nat) (Ht : (t < length (g_ids g))%nat).

Lemma keeps_for_each_mstis (f : nat -> M unit) :
  (forall s, (0 < s < length (g_ids g))%nat -> keeps tot g (f s)) ->
  keeps tot g (n ← num_trees; for_each (seq 1 (n - 1)) f).
Proof.
  intros Hf. apply keeps_num_trees, keeps_for_each. intros s Hs.
  apply Hf. apply list_elem_of_In, in_seq in Hs. lia.
Qed.

Lemma keeps_clearReselectTree : keeps tot g (clearReselectTree t).
Proof. unfold clearReselectTree. keep. Qed.

Lemma keeps_updtRolesDisabledTree : keeps tot g (updtRolesDisabledTree t).
Proof. unfold updtRolesDisabledTree. keep. Qed.

Lemma keeps_syncMaster : keeps tot g syncMaster.
Proof. unfold syncMaster. apply keeps_for_each_mstis. intros s Hs. keep. Qed.

Lemma keeps_setSelectedTree :
  (forall p, (p < g_np g)%nat -> g_desig g p t) -> keeps tot g (setSelectedTree t).
Proof.
  destruct Hplain as [Hpl _]. intros HD. unfold setSelectedTree. keep.
Qed.

Lemma keeps_reselectMSTIs p : (p < g_np g)%nat -> keeps tot g (reselectMSTIs p).
Proof. intros Hp. unfold reselectMSTIs. keep. Qed.

Lemma keeps_set_role_of cist root p : (p < g_np g)%nat -> keeps tot g (set_role_of cist root p t).
Proof.
  destruct Hplain as [Hpl _]. intros Hp. unfold set_role_of.
  apply keeps_bind_tree; [done|]. intros tree _ _.
  apply keeps_bind_port; [done|]. intros prt _.
  apply keeps_the_cist; [done..|]. intros _ cist_tree _ _ w Hw.
  apply wp_bind. eapply wp_the_ptp; [done..|]. intros prt' x Hprt Hx _ Hok Hid. cbv zeta.
  match goal with |- context [choose_role ?a ?b ?c ?d ?e x] => set (x' := choose_role a b c d e x) end.
  assert (exists r u, x' = x <| selectedRole := r |> <| updtInfo := u |>) as (r & u & Hx')
    by apply choose_role_frame.
  apply wp_bind. eapply (wp_mod_ptp_at tot g); [done..| |].
  - intros d Hok' _. rewrite Hx'. split; [by upd_simpl|]. destruct Hok'; constructor; ok_tac.
  - intros w' Hw' _ _. case_match; [by apply keeps_reselectMSTIs|by apply wp_ret].
Qed.
End roles.

Lemma wp_set_designated tot g cist p t w :
  ids_ok (g_ids g) -> (p < g_np g)%nat -> (t < length (g_ids g))%nat -> inv g w ->
  wp tot (set_designated cist p t)
    (fun _ w' => inv g w' /\ exists x, lookup_ptp (br w') p t = Some x
       /\ Hello_Time (designatedTimes x) = br_Hello_Time (g_cfg g)) w.
Proof.
  intros Hids Hp Ht Hw. unfold set_designated.
  apply wp_bind. eapply wp_the_tree; [done..|]. intros tree _ _.
  apply wp_bind. eapply wp_the_port; [done..|]. intros prt Hprt _.
  destruct (inv_ptp g w p t Hw Hp Ht) as (prt' & x & _ & _ & Hx & _ & Hok0).
  eapply (wp_mod_ptp_at tot g); [done..| |].
  - intros d Hok _. split; [by upd_simpl|]. destruct Hok; constructor; ok_tac.
  - intros w' Hw' Hx' _. split; [done|]. eexists. split; [done|]. upd_simpl. apply Hok0.
Qed.

Section selection.
Context (tot : bool) (g : ghost) (Hids : ids_ok (g_ids g)) (Hplain : plain g).
Context (t : nat) (Ht : (t < length (g_ids g))%nat).

Lemma tree_rows_some w : inv g w -> is_Some (tree_rows (br w) t).
Proof.
  intros Hw. apply mapM_is_Some, Forall_lookup. intros p prt Hp.
  assert (t < length (prt_trees prt))%nat as Hlt by (rewrite (row_length g p); [done|by eapply inv_row]).
  apply lookup_lt_is_Some in Hlt as [x Hx]. exists (prt, x). apply fmap_Some. eauto.
Qed.

(** The positions of tree [t] below [k] have their designated times. *)
Definition desig_upto (k : nat) : ghost :=
  with_desig g (fun q s => g_desig g q s \/ (s = t /\ (q < k)%nat)).

Lemma desig_upto_0 w : inv g w <-> inv (desig_upto 0) w.
Proof.
  split; intros Hw.
  - apply (inv_desig_mono g (g_desig g)); [|by destruct g].
    intros q s [?|[_ ?]]; [by left|lia].
  - enough (inv (with_desig g (g_desig g)) w) by (by destruct g).
    revert Hw. apply inv_desig_mono. intros q s ?. by left; left.
Qed.

Lemma desig_drop k w : inv (desig_upto k) w -> inv g w.
Proof.
  intros Hw. enough (inv (with_desig g (g_desig g)) w) by (by destruct g).
  revert Hw. apply inv_desig_mono. intros q s ?. by left; left.
Qed.

Lemma set_designated_all cist w :
  inv g w ->
  wp tot (for_ptp_in_tree (fun p => set_designated cist p t))
    (fun _ w' => inv (desig_upto (g_np g)) w') w.
Proof.
  intros Hw. unfold for_ptp_in_tree, for_port_in_bridge, num_ports.
  apply wp_bind, wp_bind, wp_the_br, wp_ret. rewrite (inv_np _ _ Hw).
  apply (wp_for_each_seq tot (fun k w => inv (desig_upto k) w)); [by apply desig_upto_0|].
  intros p w' Hp Hw'. eapply wp_mono; [apply (wp_set_designated tot (desig_upto p)); [done|simpl; lia|done..]|].
  intros _ w'' [Hw'' Hx]. revert Hw''. apply inv_desig_mono.
  intros q s [?|[-> Hq]]; [by left; left|].
  destruct (decide (q = p)) as [->|Hne]; [by right|]. left; right. split; [done|lia].
Qed.

(** updtRolesTree leaves every per-tree port of the tree with designated
    times. *)
Lemma wp_updtRolesTree w :
  inv g w -> wp tot (updtRolesTree t) (fun _ w' => inv (desig_upto (g_np g)) w') w.
Proof.
  intros Hw. unfold updtRolesTree.
  apply wp_bind, wp_the_br, wp_bind. eapply wp_the_tree; [done..|]. intros tree _ _.
  destruct (tree_rows_some w Hw) as [rows Hrows].
  apply wp_bind. refine (wp_deref_state tot (fun b => tree_rows b t) rows _ w Hrows _).
  cbv zeta. destruct (select_root _ tree rows) as [[best bestId] root].
  apply wp_bind. eapply wp_mono; [apply (keeps_mod_tree tot g t); [done|tree_tac|done]|].
  intros u1 w1 Hw1. apply wp_bind. eapply wp_mono; [by apply set_designated_all|].
  intros u2 w2 Hw2. apply wp_bind.
  apply (wp_mono tot _ (fun _ w' => inv (desig_upto (g_np g)) w')).
  - apply wp_keeps; [|exact Hw2]. case_match; [by eapply keeps_syncMaster|apply keeps_ret].
  - intros u3 w3 Hw3. apply (keeps_for_port tot (desig_upto (g_np g))); [|done].
    intros p Hp. by apply (keeps_set_role_of tot (desig_upto (g_np g))).
Qed.

Lemma keeps_PRSSM_to_ROLE_SELECTION : keeps tot g (PRSSM_to_ROLE_SELECTION t).
Proof.
  intros w Hw. unfold PRSSM_to_ROLE_SELECTION.
  apply wp_bind. eapply wp_mono; [apply (keeps_mod_tree tot g t); [done|tree_tac|done]|].
  intros u1 w1 Hw1. apply wp_bind. eapply wp_mono; [by apply (keeps_clearReselectTree tot g)|].
  intros u2 w2 Hw2. apply wp_bind. eapply wp_mono; [by apply wp_updtRolesTree|].
  intros u3 w3 Hw3. eapply wp_mono;
    [apply (keeps_setSelectedTree tot (desig_upto (g_np g))); [done|done| |done]|].
  - intros p Hp. by right.
  - intros u4 w4. apply desig_drop.
Qed.

Lemma keeps_PRSSM_run dry : keeps tot g (PRSSM_run t dry).
Proof.
  pose proof keeps_PRSSM_to_ROLE_SELECTION. unfold PRSSM_run. keep.
Qed.

Lemma keeps_PRSSM_begin : keeps tot g (PRSSM_begin t).
Proof.
  pose proof (keeps_updtRolesDisabledTree tot g t). unfold PRSSM_begin, PRSSM_to_INIT_TREE. keep.
Qed.
End selection.

#[export] Hint Resolve keeps_PRSSM_run keeps_PRSSM_begin : keeps.
