(* ===== verification/MstpTransitionsOk.v ===== *)
(** * The Port Role Transitions machine keeps the invariant

    Partial correctness: the machine does not return for every state (a
    master port can cycle), so the bound on the calls may be reached. *)

From S2P Require Import Prelude Bytes MstpTypes MstpPriority MstpBpdu MstpMonad MstpOut.
From S2P Require Import MstpTransitions MstpInv.

(** A guard that held in one condition of a switch holds in the next one. *)
Lemma andb_guard a b c : a && negb b = false -> a && c = true -> b = true.
Proof. by destruct a, b, c. Qed.

(** Discharges the obligation that an update fits the state of the machine. *)
Ltac prt_solve :=
  lazymatch goal with
  | H : prt_ok ?st _ _ _ |- prt_ok _ _ _ _ =>
      unfold prt_ok in *;
      try match goal with
      | H1 : ?a && negb ?b = false, H2 : ?a && _ = true |- _ => pose proof (andb_guard _ _ _ H1 H2)
      end;
      bool_hyps;
      try match goal with Hs : PRTSM_state _ = _ |- _ => rewrite Hs in H end;
      destruct H as [? H];
      split; [intros ?; first [done | congruence | by auto]
             | first [done | congruence | auto | by destruct H | by split; auto; destruct H ]]
  end.

Ltac prt_tac := ptp_tac; try prt_solve.

Section transitions.
Context (g : ghost) (Hids : ids_ok (g_ids g)).
Context (p t : nat) (Hp : (p < g_np g)%nat) (Ht : (t < length (g_ids g))%nat).

Abbreviation keeps_ := (keeps false g).

Lemma keeps_setSyncTree : keeps_ (setSyncTree t).
Proof. unfold setSyncTree. keep. Qed.

Lemma keeps_setReRootTree : keeps_ (setReRootTree t).
Proof. unfold setReRootTree. keep. Qed.
#[local] Hint Resolve keeps_setSyncTree keeps_setReRootTree : keeps.

Lemma keeps_PRTSM_begin : keeps_ (PRTSM_begin p t).
Proof.
  unfold PRTSM_begin, PRTSM_to_INIT_PORT. keep.
Qed.

(** An action: the first update is made in a known state. *)
Lemma wp_action w x f (k : M unit) :
  inv g w -> lookup_ptp (br w) p t = Some x ->
  (forall d, ptp_ok g p t d x -> g_ids g !! t = Some (ptp_MSTID x) ->
     ptp_MSTID (f x) = ptp_MSTID x /\ ptp_ok g p t d (f x)) ->
  keeps_ k ->
  wp false (mod_ptp p t f ;; k) (fun _ w' => inv g w') w.
Proof.
  intros Hw Hx Hf Hk. apply wp_bind. eapply (wp_mod_ptp_at false g); [done..|].
  intros w' Hw' _ _. by apply wp_keeps.
Qed.

Context (rec : M unit) (Hrec : keeps_ rec) (v : prtsm_vars).
#[local] Hint Resolve Hrec : keeps.

Section cases.
Context (w : world) (prt : port_t) (x : per_tree_port_t) (dry : bool).
Context (Hw : inv g w) (Hprt : br_ports (br w) !! p = Some prt).
Context (Hx : lookup_ptp (br w) p t = Some x).

(** Every branch of a case of the switch ends with a transition. *)
Ltac branch :=
  first
    [ by apply wp_ret
    | apply (wp_transition false g); [done|done|];
      try (apply wp_bind; apply wp_the_br);
      try (apply wp_bind; eapply (wp_the_port false g); [done|done|intros ? ? ?]);
      apply wp_action with (x := x); [done|done|try prt_tac|keep] ].

Lemma master_port_ok s :
  PRTSM_state x = PRTSM_MASTER_PORT ->
  wp false (master_port_case rec v p t dry prt x s) (fun _ w' => inv g w') w.
Proof.
  intros Hst. unfold master_port_case, PRTSM_to_MASTER_RETIRED, PRTSM_to_MASTER_SYNCED,
    PRTSM_to_MASTER_AGREED, PRTSM_to_MASTER_PROPOSED, PRTSM_to_MASTER_FORWARD,
    PRTSM_to_MASTER_LEARN, PRTSM_to_MASTER_DISCARD.
  repeat case_match; branch.
Qed.

Lemma root_port_ok b s r :
  PRTSM_state x = PRTSM_ROOT_PORT ->
  wp false (root_port_case rec v p t dry b x s r) (fun _ w' => inv g w') w.
Proof.
  intros Hst. unfold root_port_case, PRTSM_to_REROOT, PRTSM_to_ROOT_SYNCED,
    PRTSM_to_ROOT_AGREED, PRTSM_to_ROOT_PROPOSED, PRTSM_to_ROOT_LEARN, PRTSM_to_ROOT_FORWARD,
    PRTSM_to_REROOTED, PRTSM_to_ROOT_PORT.
  repeat case_match; branch.
Qed.

Lemma designated_port_ok s :
  PRTSM_state x = PRTSM_DESIGNATED_PORT ->
  wp false (designated_port_case rec v p t dry prt x s) (fun _ w' => inv g w') w.
Proof.
  intros Hst. unfold designated_port_case, PRTSM_to_DESIGNATED_RETIRED,
    PRTSM_to_DESIGNATED_SYNCED, PRTSM_to_DESIGNATED_AGREED, PRTSM_to_DESIGNATED_PROPOSE,
    PRTSM_to_DESIGNATED_LEARN, PRTSM_to_DESIGNATED_FORWARD, PRTSM_to_DESIGNATED_DISCARD.
  repeat case_match; branch.
Qed.

Lemma alternate_port_ok s :
  PRTSM_state x = PRTSM_ALTERNATE_PORT ->
  wp false (alternate_port_case rec v p t dry x s) (fun _ w' => inv g w') w.
Proof.
  intros Hst. unfold alternate_port_case, PRTSM_to_ALTERNATE_AGREED,
    PRTSM_to_ALTERNATE_PROPOSED, PRTSM_to_BACKUP_PORT, PRTSM_to_ALTERNATE_PORT.
  repeat case_match; branch.
Qed.

Lemma role_change_ok :
  wp false (role_change_case rec v p t dry (selectedRole x)) (fun _ w' => inv g w') w.
Proof.
  unfold role_change_case, PRTSM_to_DISABLE_PORT, PRTSM_to_MASTER_PORT, PRTSM_to_ROOT_PORT,
    PRTSM_to_DESIGNATED_PORT, PRTSM_to_BLOCK_PORT.
  case_match; branch.
Qed.
End cases.
End transitions.

Section machine.
Context (g : ghost) (Hids : ids_ok (g_ids g)).
Context (p t : nat) (Hp : (p < g_np g)%nat) (Ht : (t < length (g_ids g))%nat).

Lemma wp_the_column tot w Q :
  inv g w -> (forall xs, column (br w) t = Some xs -> Q xs w) -> wp tot (ptps_of_tree t) Q w.
Proof.
  intros Hw HQ. assert (is_Some (column (br w) t)) as [xs Hxs].
  { apply mapM_is_Some, Forall_lookup. intros q prt Hq.
    apply lookup_lt_is_Some. by rewrite (row_length g q prt (inv_row _ _ Hw q prt Hq)). }
  eapply (wp_deref_state tot (fun b => column b t)); eauto.
Qed.

Lemma keeps_PRTSM_runr n v dry : keeps false g (PRTSM_runr n v p t dry).
Proof.
  revert dry. induction n as [|n IH]; intros dry w Hw; cbn [PRTSM_runr].
  { by apply wp_out_of_fuel. }
  assert (keeps false g (PRTSM_runr n v p t false ;; mret tt)) as Hrec by keep.
  apply wp_bind, wp_the_br, wp_bind. eapply wp_the_port; [done..|]. intros prt Hprt _.
  apply wp_bind. eapply wp_the_ptp; [done..|]. intros prt' x Hprt' Hx _ Hok Hid.
  case_match; [by eapply role_change_ok|].
  apply wp_bind. apply wp_the_column; [done|]. intros col Hcol.
  destruct (PRTSM_state x) eqn:Hst;
    try (by eapply master_port_ok); try (by eapply root_port_ok);
    try (by eapply designated_port_ok); try (by eapply alternate_port_ok);
    unfold PRTSM_to_DISABLE_PORT, PRTSM_to_DISABLED_PORT, PRTSM_to_MASTER_PORT, PRTSM_to_ROOT_PORT,
      PRTSM_to_DESIGNATED_PORT, PRTSM_to_ALTERNATE_PORT;
    repeat case_match;
    first
      [ by apply wp_ret
      | apply (wp_transition false g); [done|done|];
        eapply (wp_action g p t Hp Ht); [done|done|try prt_tac|keep] ].
Qed.

Lemma keeps_PRTSM_run dry : keeps false g (PRTSM_run p t dry).
Proof. pose proof keeps_PRTSM_runr. unfold PRTSM_run. keep. Qed.
End machine.

#[export] Hint Resolve keeps_PRTSM_run keeps_PRTSM_begin : keeps.
