(* ===== verification/MstpForwardingOk.v ===== *)
(** * Port State Transition and Topology Change keep the invariant

    Port State Transition also returns, and it leaves the state that the
    kernel was told in agreement with learning and forwarding. *)

From S2P Require Import Prelude Bytes MstpTypes MstpPriority MstpBpdu MstpMonad MstpOut.
From S2P Require Import MstpForwarding MstpInv.

(** ** Positions where the kernel agrees *)

Definition with_coh (g : ghost) (C : nat -> nat -> Prop) : ghost :=
  mk_ghost (g_cfg g) (g_ids g) (g_np g) C (g_desig g) (g_ptp g) (g_port g).

Definition coherent (prt : port_t) (x : per_tree_port_t) : Prop :=
  pst_ok (PSTSM_state x) (learning x) (forwarding x)
  /\ (deleted prt = false -> ptp_state x = kernel_state (PSTSM_state x)).

Lemma inv_coh_mono g (C C' : nat -> nat -> Prop) w :
  (forall q s, (q < g_np g)%nat -> (s < length (g_ids g))%nat -> C' q s ->
     C q s \/ exists prt x, br_ports (br w) !! q = Some prt
     /\ lookup_ptp (br w) q s = Some x /\ coherent prt x) ->
  inv (with_coh g C) w -> inv (with_coh g C') w.
Proof.
  intros HC [Hc Hn Hi Htr Hr]. constructor; try done. intros p prt Hp.
  pose proof (row_length _ _ _ (Hr p prt Hp)) as Hlen.
  destruct (Hr p prt Hp) as (? & [] & Hx). split; [done|]. split; [by constructor|].
  intros t x Ht. destruct (Hx t x Ht) as [? Hpst Hker ? ? ? ?].
  assert (C' p t -> C p t \/ coherent prt x) as Hcase.
  { intros Hc'. assert (p < g_np g)%nat as Hlt.
    { simpl in Hn. rewrite <-Hn. by eapply lookup_lt_Some. }
    assert (t < length (g_ids g))%nat as Hlt'.
    { simpl in Hlen. rewrite <-Hlen. by eapply lookup_lt_Some. }
    destruct (HC p t Hlt Hlt' Hc') as [?|(prt' & x' & Hp' & Hl & ?)]; [by left|].
    unfold lookup_ptp in Hl. rewrite Hp in Hl. simpl in Hl. simplify_eq. by right. }
  constructor; try done; intros Hc'; destruct (Hcase Hc') as [?|[? ?]]; auto.
Qed.

Lemma with_coh_id g : with_coh g (g_coh g) = g.
Proof. by destruct g. Qed.

Section pstsm.
Context (tot : bool) (g : ghost) (Hids : ids_ok (g_ids g)).
Context (p t : nat) (Hp : (p < g_np g)%nat) (Ht : (t < length (g_ids g))%nat).

Lemma keeps_set_state st :
  ~ g_coh g p t -> keeps tot g (MSTP_OUT_set_state p t st).
Proof. intros Hno. unfold MSTP_OUT_set_state. keep. Qed.

(** The state is set on a position that is not in agreement yet. *)
Lemma wp_set_state_unless_deleted w prt x st Q :
  ~ g_coh g p t -> inv g w -> br_ports (br w) !! p = Some prt -> lookup_ptp (br w) p t = Some x ->
  (forall w' prt' s, inv g w' -> br_ports (br w') !! p = Some prt' -> deleted prt' = deleted prt ->
     lookup_ptp (br w') p t = Some (x <| ptp_state := s |>) -> (deleted prt = false -> s = st) ->
     Q tt w') ->
  wp tot (set_state_unless_deleted p t st) Q w.
Proof.
  intros Hno Hw Hprt Hx HQ. unfold set_state_unless_deleted.
  apply wp_bind. eapply wp_the_ptp; [done..|]. intros prt' x' Hprt' Hx' _ _ _. simplify_eq.
  assert (x = x <| ptp_state := ptp_state x |>) as Heta by by destruct x.
  case_match; bool_hyps.
  2:{ apply wp_ret. eapply HQ; [done..| |]; [by rewrite <-Heta|done]. }
  apply wp_bind. eapply wp_the_port; [done..|]. intros prt' Hprt' _. simplify_eq.
  case_match; bool_hyps.
  2:{ apply wp_ret. eapply HQ; [done..| |]; [by rewrite <-Heta|congruence]. }
  unfold MSTP_OUT_set_state, driver_set_new_state.
  apply wp_bind. eapply wp_the_ptp; [done..|]. intros prt' x' Hprt'' Hx' _ _ _. simplify_eq.
  rewrite bool_decide_false by congruence.
  apply wp_bind. eapply (wp_mod_ptp_at tot g _ _ _ _ x); [done..|ptp_tac|].
  intros w1 Hw1 Hx1 Hp1. rewrite Hprt in Hp1. simpl in Hp1.
  set (Q1 := fun (_ : unit) w' => inv g w' /\ lookup_ptp (br w') p t = Some (x <| ptp_state := st |>)
    /\ exists prt', br_ports (br w') !! p = Some prt' /\ deleted prt' = deleted prt).
  apply wp_bind. apply (wp_mono tot _ Q1).
  - assert (Q1 tt w1) as HQ1.
    { split; [done|]. split; [done|]. eexists. split; [done|by upd_simpl]. }
    destruct st; try (by apply wp_ret).
    all: eapply (wp_mod_port tot g); [done..|intros prt0 _; revert prt0; port_tac|];
      intros w2 Hw2 Hp2 Hl2; rewrite Hp1 in Hp2; split; [done|]; split;
      [by rewrite Hl2|eexists; split; [done|by upd_simpl]].
  - intros u w2 (Hw2 & Hx2 & prt2 & Hp2 & Hd2). case_match.
    + apply wp_bind. eapply (wp_the_port tot g); [done..|]. intros prt3 Hp3 _.
      eapply wp_emit; [done|]. intros w3 Hw3 Heq. eapply (HQ w3 prt2); rewrite ?Heq; try done.
    + apply wp_ret. by eapply HQ.
Qed.
End pstsm.

Section actions.
Context (tot : bool) (g : ghost) (Hids : ids_ok (g_ids g)).
Context (p t : nat) (Hp : (p < g_np g)%nat) (Ht : (t < length (g_ids g))%nat).

Definition without_here : ghost := with_coh g (fun q s => g_coh g q s /\ ~ (q = p /\ s = t)).
Definition with_here : ghost := with_coh g (fun q s => g_coh g q s \/ (q = p /\ s = t)).

Lemma inv_without_here w : inv g w -> inv without_here w.
Proof.
  intros Hw. rewrite <-(with_coh_id g) in Hw. revert Hw. apply inv_coh_mono.
  intros q s _ _ [? _]. by left.
Qed.

Lemma inv_with_here w prt x :
  inv without_here w -> br_ports (br w) !! p = Some prt -> lookup_ptp (br w) p t = Some x ->
  coherent prt x -> inv with_here w.
Proof.
  intros Hw Hprt Hx Hc. revert Hw. apply inv_coh_mono. intros q s _ _ Hqs.
  destruct (decide (q = p /\ s = t)) as [[-> ->]|Hne]; [right; eauto|].
  destruct Hqs as [?|?]; [left; auto|done].
Qed.

Lemma inv_with_here_inv w : inv with_here w -> inv g w.
Proof.
  intros Hw. rewrite <-(with_coh_id g). revert Hw. apply inv_coh_mono. intros q s _ _ ?. by left; left.
Qed.

(** Between the two updates of an action: the kernel was told state [S] of
    the per-tree port that was [x] before. *)
Definition told (S : PSTSM_states_t) (x : per_tree_port_t) (w : world) : Prop :=
  inv without_here w /\ exists prt s, br_ports (br w) !! p = Some prt
    /\ lookup_ptp (br w) p t = Some (x <| PSTSM_state := S |> <| ptp_state := s |>)
    /\ (deleted prt = false -> s = kernel_state S).

Lemma wp_enter_state {A} S (k : M A) w x Q :
  inv g w -> lookup_ptp (br w) p t = Some x ->
  (forall w', told S x w' -> wp tot k Q w') ->
  wp tot (mod_ptp p t (fun x => x <| PSTSM_state := S |>) ;;
          (set_state_unless_deleted p t (kernel_state S) ;; k)) Q w.
Proof.
  intros Hw Hx Hk. apply inv_without_here in Hw.
  assert (~ g_coh without_here p t) as Hno by (simpl; tauto).
  destruct (inv_ptp without_here w p t Hw Hp Ht) as (prt & x0 & Hprt & _ & Hx0 & _).
  rewrite Hx in Hx0. injection Hx0 as <-.
  apply wp_bind. eapply (wp_mod_ptp_at tot without_here _ _ _ _ x); [done..| |].
  { intros d Hok _. split; [by upd_simpl|]. destruct Hok; constructor; ok_tac. }
  intros w1 Hw1 Hx1 Hp1. rewrite Hprt in Hp1. simpl in Hp1.
  apply wp_bind. eapply (wp_set_state_unless_deleted tot without_here); [done..|].
  intros w2 prt2 s Hw2 Hp2 Hd2 Hx2 Hs. apply Hk. split; [done|].
  upd_simpl in *. exists prt2, s. rewrite Hd2. eauto.
Qed.

Lemma wp_leave_state S (h : per_tree_port_t -> per_tree_port_t) w x Q :
  told S x w ->
  (forall g' d y, ptp_ok g' p t d y -> ~ g_coh g' p t ->
     ptp_MSTID (h y) = ptp_MSTID y /\ ptp_ok g' p t d (h y)) ->
  (forall y, PSTSM_state (h y) = PSTSM_state y /\ ptp_state (h y) = ptp_state y
     /\ learn (h y) = learn y /\ forward (h y) = forward y) ->
  (forall s, pst_ok S (learning (h (x <| PSTSM_state := S |> <| ptp_state := s |>)))
                (forwarding (h (x <| PSTSM_state := S |> <| ptp_state := s |>)))) ->
  (forall w' x', inv with_here w' -> lookup_ptp (br w') p t = Some x' -> PSTSM_state x' = S ->
     learn x' = learn x -> forward x' = forward x -> Q tt w') ->
  wp tot (mod_ptp p t h) Q w.
Proof.
  intros (Hw & prt & s & Hprt & Hx & Hs) Hh1 Hh2 Hpst HQ.
  assert (~ g_coh without_here p t) as Hno by (simpl; tauto).
  eapply (wp_mod_ptp_at tot without_here); [done..| |].
  { intros d Hok _. by apply Hh1. }
  intros w3 Hw3 Hx3 Hp3. rewrite Hprt in Hp3. simpl in Hp3.
  destruct (Hh2 (x <| PSTSM_state := S |> <| ptp_state := s |>)) as (E1 & E2 & E3 & E4).
  upd_simpl in *.
  eapply HQ; [|exact Hx3|congruence..]. eapply inv_with_here; [done..|].
  split.
  - rewrite E1. apply Hpst.
  - upd_simpl. rewrite E1, E2. auto.
Qed.
End actions.

Section pstsm_run.
Context (tot : bool) (g : ghost) (Hids : ids_ok (g_ids g)).
Context (p t : nat) (Hp : (p < g_np g)%nat) (Ht : (t < length (g_ids g))%nat).

Definition PSTSM_rank (x : per_tree_port_t) : nat :=
  match PSTSM_state x with
  | PSTSM_DISCARDING => if learn x then 1 else 0
  | PSTSM_LEARNING => if learn x then 0 else 1
  | PSTSM_FORWARDING => if forward x then 0 else 2
  end.

Ltac leave_tac :=
  eapply wp_leave_state; [eassumption..| | | |];
  [ intros g' d y Hyok Hno; split; [by upd_simpl|]; destruct Hyok; constructor; ok_tac
  | intros y; by upd_simpl
  | intros s; upd_simpl; try done | ].

(** BEGIN brings the position into agreement. *)
Lemma PSTSM_begin_here w :
  inv g w -> wp tot (PSTSM_begin p t) (fun _ w' => inv (with_here g p t) w') w.
Proof.
  intros Hw. destruct (inv_ptp g w p t Hw Hp Ht) as (prt & x & _ & _ & Hx & _).
  unfold PSTSM_begin, PSTSM_to_DISCARDING.
  eapply (wp_enter_state tot g p t Hp Ht PSTSM_DISCARDING); [done..|].
  intros w1 Hw1. apply wp_bind. leave_tac. intros w' x' Hw' _ _ _ _. by apply wp_ret.
Qed.

Context (Hcoh : g_coh g p t).

Lemma PSTSM_runf_ok n w x dry :
  inv g w -> lookup_ptp (br w) p t = Some x -> (PSTSM_rank x < n)%nat ->
  wp tot (PSTSM_runf n p t dry) (fun _ w' => inv g w') w.
Proof.
  revert w x dry. induction n as [|n IH]; intros w x dry Hw Hx Hn; [lia|].
  cbn [PSTSM_runf]. apply wp_bind. eapply wp_the_ptp; [done..|].
  intros prt x' Hprt Hx' _ Hok _. rewrite Hx in Hx'. injection Hx' as <-.
  assert (forall w' x', inv (with_here g p t) w' -> lookup_ptp (br w') p t = Some x' ->
      (PSTSM_rank x' < n)%nat ->
      wp tot (PSTSM_runf n p t false ;; mret tt) (fun _ w' => inv g w') w') as Hrec.
  { intros w' x' Hw' Hx' Hn'. apply wp_bind. eapply wp_mono; [eapply IH; [|done..]|done].
    by eapply inv_with_here_inv. }
  pose proof (ok_pst _ _ _ _ _ Hok Hcoh) as Hpst.
  unfold PSTSM_rank in Hn.
  destruct (PSTSM_state x) eqn:Hst; repeat case_match; try (by apply wp_ret); try discriminate;
    apply (wp_transition tot g); try done.
  - eapply (wp_enter_state tot g p t Hp Ht PSTSM_LEARNING); [done..|].
    intros w1 Hw1. apply wp_bind. leave_tac; [by destruct Hpst|].
    intros w2 x2 Hw2 Hx2 Hs2 Hl2 Hf2. eapply Hrec; [done..|].
    unfold PSTSM_rank. rewrite Hs2, Hl2, H. lia.
  - eapply (wp_enter_state tot g p t Hp Ht PSTSM_FORWARDING); [done..|].
    intros w1 Hw1. leave_tac; [by destruct Hpst|].
    intros w2 x2 Hw2 Hx2 Hs2 Hl2 Hf2. by eapply inv_with_here_inv.
  - eapply (wp_enter_state tot g p t Hp Ht PSTSM_DISCARDING); [done..|].
    intros w1 Hw1. apply wp_bind. leave_tac.
    intros w2 x2 Hw2 Hx2 Hs2 Hl2 Hf2. eapply Hrec; [done..|].
    unfold PSTSM_rank. rewrite Hs2, Hl2, H. lia.
  - eapply (wp_enter_state tot g p t Hp Ht PSTSM_DISCARDING); [done..|].
    intros w1 Hw1. apply wp_bind. leave_tac.
    intros w2 x2 Hw2 Hx2 Hs2 Hl2 Hf2. eapply Hrec; [done..|].
    unfold PSTSM_rank. rewrite Hs2. case_match; lia.
Qed.

Lemma keeps_PSTSM_run dry : keeps tot g (PSTSM_run p t dry).
Proof.
  intros w Hw. destruct (inv_ptp g w p t Hw Hp Ht) as (prt & x & _ & _ & Hx & _).
  eapply PSTSM_runf_ok; [done..|]. unfold PSTSM_rank, PSTSM_depth. repeat case_match; lia.
Qed.
End pstsm_run.

Lemma keeps_PSTSM_begin tot g p t :
  (p < g_np g)%nat -> (t < length (g_ids g))%nat -> keeps tot g (PSTSM_begin p t).
Proof.
  intros Hp Ht w Hw. eapply wp_mono; [by eapply PSTSM_begin_here|].
  intros u w' Hw'. exact (inv_with_here_inv g p t w' Hw').
Qed.

(** ** Flushing and Topology Change *)

Section tcsm.
Context (g : ghost) (Hids : ids_ok (g_ids g)).
Context (p t : nat) (Hp : (p < g_np g)%nat) (Ht : (t < length (g_ids g))%nat).

(** The completion of a flush finds that it was called from the flush
    routine, so the state machines are not run again. *)
Lemma keeps_set_fdbFlush tot : keeps tot g (set_fdbFlush p t).
Proof.
  unfold set_fdbFlush. apply keeps_bind_port; [done|]. intros prt0 _.
  case_match; [keep|]. apply keeps_bind_br. intros b _ _. case_match; [|keep].
  intros w Hw. destruct (inv_ptp g w p t Hw Hp Ht) as (prt & x & _ & _ & Hx & _).
  unfold MSTP_OUT_flush_all_fids, driver_flush_all_fids, all_fids_flushed.
  apply wp_bind. eapply (wp_mod_ptp_at tot g _ _ _ _ x); [done..|ptp_tac|].
  intros w1 Hw1 Hx1 _. apply wp_bind, wp_bind. eapply wp_the_port; [done..|]. intros prt1 _ _.
  apply wp_bind. eapply wp_the_ptp; [done..|]. intros prt2 x1 _ Hx1' _ _ _.
  rewrite Hx1 in Hx1'. injection Hx1' as Hx1'.
  apply wp_bind.
  apply (wp_mono tot _ (fun _ w' => inv g w' /\ br w' = br w1)).
  { case_match; [by eapply wp_emit|by apply wp_ret]. }
  intros u w2 [Hw2 Heq]. rewrite <-Heq in Hx1.
  apply wp_bind. eapply (wp_mod_ptp_at tot g); [done..|ptp_tac|].
  intros w3 Hw3 Hx3 _. apply wp_bind, wp_the_br.
  case_match; [by apply wp_ret, wp_keeps; [keep|]|].
  apply wp_bind. eapply wp_the_ptp; [done..|]. intros prt4 x4 _ Hx4 _ _ _.
  rewrite Hx3 in Hx4. injection Hx4 as <-. upd_simpl. simpl.
  apply wp_ret, wp_keeps; [keep|done].
Qed.
#[local] Hint Resolve keeps_set_fdbFlush : keeps.

Lemma keeps_TCSM_begin tot : keeps tot g (TCSM_begin p t).
Proof. unfold TCSM_begin, TCSM_to_INACTIVE. keep. Qed.

(** Partial correctness: for a tree other than the CIST the machine does
    not return when a TCN is pending in LEARNING or ACTIVE. *)
Lemma keeps_TCSM_runf n dry : keeps false g (TCSM_runf n p t dry).
Proof.
  revert dry. induction n as [|n IH]; intros dry; cbn [TCSM_runf].
  { intros w Hw. by apply wp_out_of_fuel. }
  unfold TCSM_to_INACTIVE, TCSM_to_LEARNING, TCSM_to_DETECTED, TCSM_to_NOTIFIED_TCN,
    TCSM_to_NOTIFIED_TC, TCSM_to_PROPAGATING, TCSM_to_ACKNOWLEDGED, TCSM_to_ACTIVE.
  keep.
Qed.

Lemma keeps_TCSM_run dry : keeps false g (TCSM_run p t dry).
Proof. apply keeps_TCSM_runf. Qed.
End tcsm.

#[export] Hint Resolve keeps_PSTSM_run keeps_PSTSM_begin keeps_TCSM_run keeps_TCSM_begin : keeps.
