(* ===== verification/MstpRunOk.v ===== *)
(** * Running the state machines keeps the invariant

    A run of the machines keeps [inv]; the BEGIN functions also bring the
    positions they start into agreement with the kernel. *)

From S2P Require Import Prelude Bytes MstpTypes MstpPriority MstpBpdu MstpMonad MstpOut.
From S2P Require Import MstpPort MstpInfo MstpRoles MstpTransitions MstpForwarding MstpRun.
From S2P Require Import MstpInv MstpPortOk MstpInfoOk MstpRolesOk MstpTransitionsOk.
From S2P Require Import MstpForwardingOk.

(** What a run needs to know about the ghost. *)
Record runnable (g : ghost) : Prop := {
  run_ids : ids_ok (g_ids g);
  run_cfg : config_ok (g_cfg g);
  run_plain : plain g;
  run_coh : bridgeEnabled (g_cfg g) = true ->
            forall p t, (p < g_np g)%nat -> (t < length (g_ids g))%nat -> g_coh g p t }.

Section run.
Context (g : ghost) (Hg : runnable g).

Lemma keeps_any_port dry f :
  (forall p, (p < g_np g)%nat -> keeps false g (f p)) -> keeps false g (any_port dry f).
Proof.
  intros Hf. unfold any_port. apply keeps_num_ports, keeps_any_of. intros p Hp.
  apply list_elem_of_In, in_seq in Hp. apply keeps_bind; [apply Hf; lia|]. keep.
Qed.

Lemma keeps_any_tree dry f :
  (forall t, (t < length (g_ids g))%nat -> keeps false g (f t)) -> keeps false g (any_tree dry f).
Proof.
  intros Hf. unfold any_tree. apply keeps_num_trees, keeps_any_of. intros p Hp.
  apply list_elem_of_In, in_seq in Hp. apply keeps_bind; [apply Hf; lia|]. keep.
Qed.

Lemma keeps_any_ptp dry f :
  (forall p t, (p < g_np g)%nat -> (t < length (g_ids g))%nat -> keeps false g (f p t)) ->
  keeps false g (any_ptp dry f).
Proof.
  intros Hf. unfold any_ptp. apply keeps_num_ports, keeps_any_of. intros p Hp.
  apply list_elem_of_In, in_seq in Hp. apply keeps_num_ptps; [lia|]. apply keeps_any_of. intros t Ht.
  apply list_elem_of_In, in_seq in Ht. apply keeps_bind; [apply Hf; lia|]. keep.
Qed.

Lemma keeps_bridge_assurance_run p dry : (p < g_np g)%nat -> keeps false g (bridge_assurance_run p dry).
Proof. intros Hp. unfold bridge_assurance_run. keep. Qed.

Lemma keeps_run_once dry :
  bridgeEnabled (g_cfg g) = true -> keeps false g (br_state_machines_run_once dry).
Proof.
  destruct Hg as [Hids Hcfg Hplain Hcoh]. intros Hen. specialize (Hcoh Hen).
  unfold br_state_machines_run_once, br_state_machines_phases.
  assert (forall l, Forall (keeps false g) l -> keeps false g (phases l)) as Hph.
  { induction 1 as [|m l Hm Hl IH]; simpl; [apply keeps_ret|]. keep. }
  apply Hph. pose proof keeps_bridge_assurance_run.
  repeat constructor; first [apply keeps_any_port | apply keeps_any_tree | apply keeps_any_ptp];
    intros; eauto with keeps.
Qed.

Lemma keeps_run_loop n : bridgeEnabled (g_cfg g) = true -> keeps false g (run_loop n).
Proof.
  intros Hen. pose proof (fun dry => keeps_run_once dry Hen).
  induction n as [|n IH]; cbn [run_loop]; keep.
Qed.

Lemma keeps_br_state_machines_run : keeps false g br_state_machines_run.
Proof.
  unfold br_state_machines_run. apply keeps_bind_br. intros b Hb _.
  destruct (bridgeEnabled b) eqn:Hen; simpl; [|apply keeps_ret].
  apply keeps_bind_world. intros w0. apply keeps_bind.
  - intros w []. by constructor.
  - intros ?. apply keeps_run_loop. by rewrite <-Hb.
Qed.
End run.

Lemma keeps_for_all_ptps tot g f :
  (forall p t, (p < g_np g)%nat -> (t < length (g_ids g))%nat -> keeps tot g (f p t)) ->
  keeps tot g (for_all_ptps f).
Proof. intros Hf. unfold for_all_ptps. keep. Qed.

Ltac all_ptps_step :=
  lazymatch goal with
  | |- keeps _ _ (for_all_ptps _) => apply keeps_for_all_ptps; intros ? ? ? ?
  | _ => msti_step
  end.
Ltac keep_hook ::= all_ptps_step.

(** ** BEGIN *)

Section begin.
Context (g : ghost) (Hids : ids_ok (g_ids g)) (Hcfg : config_ok (g_cfg g)) (Hplain : plain g).

Abbreviation np := (g_np g).
Abbreviation nt := (length (g_ids g)).

(** The same ghost, with agreement at the positions [C]. *)
Abbreviation at_ C := (inv (with_coh g C)).

Lemma begin_here (C : nat -> nat -> Prop) p t w :
  (p < np)%nat -> (t < nt)%nat -> at_ C w ->
  wp false (PSTSM_begin p t) (fun _ w' => at_ (fun q s => C q s \/ (q = p /\ s = t)) w') w.
Proof. intros Hp Ht Hw. by apply (PSTSM_begin_here false (with_coh g C)). Qed.

Lemma coh_weaken (C C' : nat -> nat -> Prop) w :
  at_ C w -> (forall q s, (q < np)%nat -> (s < nt)%nat -> C' q s -> C q s) -> at_ C' w.
Proof. intros Hw HC. revert Hw. apply inv_coh_mono. intros q s Hq Hs Hc. left. auto. Qed.

Lemma wp_coh_weaken {A} (m : M A) (C C' : nat -> nat -> Prop) w :
  wp false m (fun _ w' => at_ C w') w ->
  (forall q s, (q < np)%nat -> (s < nt)%nat -> C' q s -> C q s) ->
  wp false m (fun _ w' => at_ C' w') w.
Proof. intros Hm HC. eapply wp_mono; [done|]. intros a w' Hw'. cbv beta in Hw'. by eapply coh_weaken. Qed.

(** A loop over the ports, with progress recorded per port. *)
Lemma begin_ports (C : nat -> nat -> Prop) (D : nat -> nat -> nat -> Prop) f w :
  at_ C w ->
  (forall C p w, (p < np)%nat -> at_ C w ->
     wp false (f p) (fun _ w' => at_ (fun q s => C q s \/ D p q s) w') w) ->
  wp false (for_port_in_bridge f)
    (fun _ w' => at_ (fun q s => C q s \/ exists p, (p < np)%nat /\ D p q s) w') w.
Proof.
  intros Hw Hf. unfold for_port_in_bridge, num_ports.
  apply wp_bind, wp_bind, wp_the_br, wp_ret. rewrite (inv_np _ _ Hw).
  pose (I := fun k w => at_ (fun q s => C q s \/ exists p, (p < k)%nat /\ D p q s) w).
  apply (wp_for_each_seq false I); unfold I.
  - eapply coh_weaken; [done|]. intros q s _ _ [?|(p & ? & _)]; [done|lia].
  - intros p w' Hp Hw'. eapply wp_coh_weaken; [apply Hf; [simpl in Hp; lia|done]|].
    intros q s _ _ [?|(p' & Hp' & ?)]; [by left; left|].
    destruct (decide (p' = p)) as [->|]; [by right|]. left; right. exists p'. split; [lia|done].
Qed.

Lemma begin_port (C : nat -> nat -> Prop) p w :
  (p < np)%nat -> at_ C w ->
  wp false (for_ptp_in_port p (PSTSM_begin p)) (fun _ w' => at_ (fun q s => C q s \/ q = p) w') w.
Proof.
  intros Hp Hw. unfold for_ptp_in_port, num_ptps.
  apply wp_bind, wp_bind. eapply wp_the_port; [done..|]. intros prt _ Hrow.
  apply wp_ret. rewrite (row_length _ _ _ Hrow).
  pose (I := fun k w => at_ (fun q s => C q s \/ (q = p /\ (s < k)%nat)) w).
  eapply wp_mono; [apply (wp_for_each_seq false I); unfold I|].
  - eapply coh_weaken; [done|]. intros q s _ _ [?|[_ ?]]; [done|lia].
  - intros t w' Ht Hw'. eapply wp_coh_weaken; [apply begin_here; [done|simpl in Ht; lia|done]|].
    intros q s _ _ [?|[-> ?]]; [by left; left|].
    destruct (decide (s = t)) as [->|]; [by right|]. left; right. split; [done|lia].
  - intros u w' Hw'. eapply coh_weaken; [exact Hw'|].
    intros q s _ Hs [?| ->]; [by left|]. right. split; [done|]. simpl. lia.
Qed.

Lemma begin_all (C : nat -> nat -> Prop) w :
  at_ C w -> wp false (for_all_ptps PSTSM_begin) (fun _ w' => at_ (fun q s => True) w') w.
Proof.
  intros Hw. unfold for_all_ptps. eapply wp_coh_weaken.
  - apply (begin_ports C (fun p q s => q = p)); [done|]. intros C' p w' Hp Hw'. by apply begin_port.
  - intros q s Hq _ _. right. eauto.
Qed.

Lemma begin_tree (C : nat -> nat -> Prop) t w :
  (t < nt)%nat -> at_ C w ->
  wp false (for_ptp_in_tree (fun p => PSTSM_begin p t))
    (fun _ w' => at_ (fun q s => C q s \/ s = t) w') w.
Proof.
  intros Ht Hw. unfold for_ptp_in_tree. eapply wp_coh_weaken.
  - apply (begin_ports C (fun p q s => q = p /\ s = t)); [done|].
    intros C' p w' Hp Hw'. by apply begin_here.
  - intros q s Hq _ [?| ->]; [by left|right]. eauto.
Qed.
End begin.

(** Agreement everywhere while the bridge is enabled. *)
Definition std_ghost (cfg : bridge_t) (ids : list Z) (np : nat) : ghost :=
  mk_ghost cfg ids np (fun _ _ => bridgeEnabled cfg = true) (fun _ _ => False)
    (fun _ _ _ => True) (fun _ _ => True).

Section begin_functions.
Context (cfg : bridge_t) (ids : list Z) (n : nat).
Context (Hids : ids_ok ids) (Hcfg : config_ok cfg).

Abbreviation g := (std_ghost cfg ids n).

Lemma std_plain : plain g.
Proof. done. Qed.

Lemma std_runnable : runnable g.
Proof. by constructor. Qed.

Lemma coh_runnable C :
  (bridgeEnabled cfg = true ->
   forall p t, (p < n)%nat -> (t < length ids)%nat -> C p t) ->
  runnable (with_coh g C).
Proof. by constructor. Qed.

(** A step of a BEGIN function at any stage of agreement. *)
Lemma wp_stage {A B} (C : nat -> nat -> Prop) (m : M A) (k : A -> M B) w Q :
  inv (with_coh g C) w -> keeps false (with_coh g C) m ->
  (forall a w', inv (with_coh g C) w' -> wp false (k a) Q w') ->
  wp false (m ≫= k) Q w.
Proof.
  intros Hw Hm Hk. apply wp_bind. eapply wp_mono; [by apply Hm|]. intros a w' Hw'. by apply Hk.
Qed.

Lemma keeps_set_start_time C p t :
  (p < n)%nat -> (t < length ids)%nat -> keeps false (with_coh g C) (set_start_time p t).
Proof. intros Hp Ht. unfold set_start_time. keep. Qed.
#[local] Hint Resolve keeps_set_start_time std_plain : keeps.

Lemma coh_plain C : plain (with_coh g C).
Proof. done. Qed.
#[local] Hint Resolve coh_plain : keeps.

Lemma to_std (C : nat -> nat -> Prop) w :
  inv (with_coh g C) w ->
  (bridgeEnabled cfg = true -> forall q s, (q < n)%nat -> (s < length ids)%nat -> C q s) ->
  inv g w.
Proof.
  intros Hw HC. apply (coh_weaken g C (fun _ _ => bridgeEnabled cfg = true)); [done|].
  intros q s Hq Hs Hen. by apply HC.
Qed.

Lemma final_run (C : nat -> nat -> Prop) w :
  inv (with_coh g C) w ->
  (bridgeEnabled cfg = true -> forall q s, (q < n)%nat -> (s < length ids)%nat -> C q s) ->
  wp false br_state_machines_run (fun _ w' => inv g w') w.
Proof.
  intros Hw HC. apply wp_keeps; [apply keeps_br_state_machines_run, std_runnable|].
  by eapply to_std.
Qed.

Ltac stage :=
  eapply wp_stage; [eassumption|solve [keep]|intros ? ? ?].

Lemma br_begin_ok C w :
  inv (with_coh g C) w -> (bridgeEnabled cfg = true \/ inv g w) ->
  wp false br_state_machines_begin (fun _ w' => inv g w') w.
Proof.
  intros Hw Hen. unfold br_state_machines_begin. apply wp_bind, wp_the_br.
  destruct (bridgeEnabled (br w)) eqn:Hb; simpl negb; cbv iota.
  2:{ apply wp_ret. destruct Hen as [Hen|]; [|done].
      pose proof (inv_cfg _ _ Hw) as Hc. simpl in Hc. subst cfg. simpl in Hen. congruence. }
  do 7 stage. apply wp_bind. eapply wp_mono; [by apply (begin_all g C)|]. intros u w1 Hw1.
  cbv beta in Hw1. stage. by eapply final_run.
Qed.

Lemma prt_begin_ok p w :
  (p < n)%nat -> inv (with_coh g (fun q _ => bridgeEnabled cfg = true /\ q <> p)) w ->
  wp false (prt_state_machines_begin p) (fun _ w' => inv g w') w.
Proof.
  intros Hp Hw. unfold prt_state_machines_begin. apply wp_bind, wp_the_br.
  destruct (bridgeEnabled (br w)) eqn:Hb; simpl negb; cbv iota.
  2:{ apply wp_ret. eapply to_std; [done|]. intros Hen.
      pose proof (inv_cfg _ _ Hw) as Hc. simpl in Hc. subst cfg. simpl in Hen. congruence. }
  do 7 stage. apply wp_bind.
  eapply wp_mono; [by eapply (begin_port g (fun q _ => bridgeEnabled cfg = true /\ q <> p))|].
  intros u w1 Hw1. cbv beta in Hw1. stage. eapply final_run; [done|].
  intros Hen q s _ _. destruct (decide (q = p)); auto.
Qed.

Lemma tree_begin_ok t w :
  (t < length ids)%nat -> inv (with_coh g (fun _ s => bridgeEnabled cfg = true /\ s <> t)) w ->
  wp false (tree_state_machines_begin t) (fun _ w' => inv g w') w.
Proof.
  intros Ht Hw. unfold tree_state_machines_begin. apply wp_bind, wp_the_br.
  destruct (bridgeEnabled (br w)) eqn:Hb; simpl negb; cbv iota.
  2:{ apply wp_ret. eapply to_std; [done|]. intros Hen.
      pose proof (inv_cfg _ _ Hw) as Hc. simpl in Hc. subst cfg. simpl in Hen. congruence. }
  do 3 stage. apply wp_bind.
  eapply wp_mono; [by eapply (begin_tree g (fun _ s => bridgeEnabled cfg = true /\ s <> t))|].
  intros u w1 Hw1. cbv beta in Hw1. stage. eapply final_run; [done|].
  intros Hen q s _ _. destruct (decide (s = t)); auto.
Qed.
End begin_functions.
