(* ===== verification/MstpInvariant.v ===== *)
(** * The invariant of the daemon and the events that keep it

    [Inv w]: the configuration of the bridge is valid, its trees are ordered,
    the VLAN maps refer to existing trees, the digest is that of the maps,
    and [inv] holds with agreement with the kernel while the bridge is
    enabled. *)

From S2P Require Import Prelude Bytes MstpTypes MstpPriority MstpBpdu MstpMonad MstpOut.
From S2P Require Import MstpPort MstpInfo MstpRoles MstpTransitions MstpForwarding MstpRun.
From S2P Require Import HmacMd5 MstpConfig MstpEvents MstpAdmin MstpVlan MstpInv.
From S2P Require Import MstpPortOk MstpInfoOk MstpRolesOk MstpTransitionsOk MstpForwardingOk.
From S2P Require Import MstpRunOk.
From Stdlib Require Import Sorting.Sorted.

(** The trees are ordered, and the VLAN maps are arrays of their size that
    refer to existing trees. *)
Record maps_ok (b : bridge_t) (ids : list Z) : Prop := {
  bo_cfg : config_ok b;
  bo_ids : ids_ok ids;
  bo_sorted : StronglySorted Z.lt ids;
  bo_range : Forall (fun id => 0 <= id <= MAX_MSTID) ids;
  bo_vids : length (vid2fid b) = Z.to_nat (MAX_VID + 1);
  bo_fid_range : forall vid fid, (1 <= vid)%nat -> vid2fid b !! vid = Some fid -> 0 <= fid <= MAX_FID;
  bo_fids : length (fid2mstid b) = Z.to_nat (MAX_FID + 1);
  bo_mstids : Forall (fun id => id ∈ ids) (fid2mstid b) }.

(** The digest of the identifier is the digest of the maps (13.7). *)
Definition digest_ok (b : bridge_t) : Prop :=
  forall table, vid2mstid_table b = Some table ->
    configuration_digest (MstConfigId b) = config_digest table.

Definition bridge_ok (b : bridge_t) (ids : list Z) : Prop := maps_ok b ids /\ digest_ok b.

Definition ids_of (w : world) : list Z := map tree_MSTID (br_trees (br w)).
Definition std_of (w : world) : ghost :=
  std_ghost (strip (br w)) (ids_of w) (length (br_ports (br w))).

Definition Inv (w : world) : Prop :=
  bridge_ok (strip (br w)) (ids_of w) /\ inv (std_of w) w.

Lemma Inv_intro cfg ids n w : bridge_ok cfg ids -> inv (std_ghost cfg ids n) w -> Inv w.
Proof.
  intros Hb Hw. unfold Inv, std_of, ids_of.
  pose proof (inv_cfg _ _ Hw) as Hc. pose proof (inv_ids _ _ Hw) as Hi.
  pose proof (inv_np _ _ Hw) as Hn. simpl in *. by rewrite Hc, Hi, Hn.
Qed.

Lemma wp_Inv_intro {A} cfg ids n (m : M A) w :
  bridge_ok cfg ids -> wp false m (fun _ w' => inv (std_ghost cfg ids n) w') w ->
  wp false m (fun _ w' => Inv w') w.
Proof. intros Hb Hm. eapply wp_mono; [done|]. intros a w' Hw'. exact (Inv_intro _ _ _ _ Hb Hw'). Qed.

(** An operation that only runs state machines and keeps the configuration. *)
Lemma Inv_keeps {A} (m : M A) w :
  (forall g, runnable g -> keeps false g m) -> Inv w -> wp false m (fun _ w' => Inv w') w.
Proof.
  intros Hm [Hb Hw]. eapply wp_Inv_intro; [done|]. apply wp_keeps; [|done].
  destruct Hb as [[] _]. by apply Hm, std_runnable.
Qed.

(** A change of the configuration alone. *)
Definition with_cfg (g : ghost) (cfg : bridge_t) : ghost :=
  mk_ghost cfg (g_ids g) (g_np g) (g_coh g) (g_desig g) (g_ptp g) (g_port g).

Lemma inv_change_cfg g f w :
  inv g w ->
  br_ports (f (br w)) = br_ports (br w) -> br_trees (f (br w)) = br_trees (br w) ->
  br_Hello_Time (f (br w)) = br_Hello_Time (br w) ->
  Transmit_Hold_Count (f (br w)) = Transmit_Hold_Count (br w) ->
  inv (with_cfg g (strip (f (br w)))) (w <| br := f (br w) |>).
Proof.
  intros [Hc Hn Hi Htr Hr] Hp Ht Hh Hth.
  assert (br_Hello_Time (strip (f (br w))) = br_Hello_Time (g_cfg g)) as Hhello
    by (rewrite <-Hc; exact Hh).
  assert (Transmit_Hold_Count (strip (f (br w))) = Transmit_Hold_Count (g_cfg g)) as Hthc
    by (rewrite <-Hc; exact Hth).
  constructor; upd_simpl; simpl; rewrite ?Hp, ?Ht; try done.
  - intros t tr Hl. unfold tree_ok. cbn [g_cfg with_cfg]. rewrite Hhello. by eapply Htr.
  - intros p prt Hl. destruct (Hr p prt Hl) as (? & [] & Hx). split; [done|].
    split; [constructor; cbn [g_cfg with_cfg]; rewrite ?Hthc; done|].
    intros t x Hs. destruct (Hx t x Hs). constructor; cbn [g_cfg with_cfg]; rewrite ?Hhello; done.
Qed.

(** A change that leaves the enabled bridge enabled, or disabled. *)
Lemma std_change_cfg cfg ids n f w :
  inv (std_ghost cfg ids n) w ->
  br_ports (f (br w)) = br_ports (br w) -> br_trees (f (br w)) = br_trees (br w) ->
  br_Hello_Time (f (br w)) = br_Hello_Time (br w) ->
  Transmit_Hold_Count (f (br w)) = Transmit_Hold_Count (br w) ->
  bridgeEnabled (f (br w)) = bridgeEnabled (br w) ->
  inv (std_ghost (strip (f (br w))) ids n) (w <| br := f (br w) |>).
Proof.
  intros Hw Hp Ht Hh Hth Hen. pose proof (inv_change_cfg _ f w Hw Hp Ht Hh Hth) as Hw'.
  assert (bridgeEnabled (strip (f (br w))) = bridgeEnabled cfg) as Hen'.
  { pose proof (inv_cfg _ _ Hw) as Hc. simpl in Hc. rewrite <-Hc. exact Hen. }
  unfold std_ghost. unfold with_cfg in Hw'. simpl in Hw'. by rewrite Hen'.
Qed.

(** ** Links, time and messages *)

Lemma length_rd_mstis n l : length (rd_mstis n l).1 = n.
Proof.
  revert l. induction n as [|n IH]; intros l; [done|]. cbn [rd_mstis].
  destruct (rd_msti l) as [m l']. specialize (IH l').
  destruct (rd_mstis n l') as [ms l'']. cbn [fst length] in *. by rewrite IH.
Qed.

Lemma length_decode_bpdu l :
  length (mstConfiguration (decode_bpdu l)) = Z.to_nat MAX_STANDARD_MSTIS.
Proof.
  unfold decode_bpdu.
  repeat match goal with
  | |- context [let '(_, _) := rd ?n ?l in _] => destruct (rd n l)
  | |- context [let '(_, _) := rd_pair ?l in _] => destruct (rd_pair l)
  | |- context [let '(_, _) := rd_mcid ?l in _] => destruct (rd_mcid l)
  end.
  match goal with |- context [rd_mstis ?n ?l] => pose proof (length_rd_mstis n l) as H;
    destruct (rd_mstis n l) end.
  exact H.
Qed.

Section events.
Context (g : ghost) (Hg : runnable g).

Lemma keeps_run : keeps false g br_state_machines_run.
Proof. by apply keeps_br_state_machines_run. Qed.
#[local] Hint Resolve keeps_run : keeps.

Lemma keeps_updtbrAssu p : (p < g_np g)%nat -> keeps false g (updtbrAssuRcvdInfoWhile p).
Proof. destruct Hg. intros Hp. unfold updtbrAssuRcvdInfoWhile. keep. Qed.
#[local] Hint Resolve keeps_updtbrAssu : keeps.

Lemma keeps_set_port_enable p up speed duplex :
  (p < g_np g)%nat -> keeps false g (MSTP_IN_set_port_enable p up speed duplex).
Proof.
  destruct Hg as [Hids Hcfg [Hpl1 Hpl2] _]. intros Hp. unfold MSTP_IN_set_port_enable, enable_port.
  keep.
Qed.

Lemma keeps_rx_bpdu p buf size : (p < g_np g)%nat -> keeps false g (MSTP_IN_rx_bpdu p buf size).
Proof.
  destruct Hg as [Hids Hcfg [Hpl1 Hpl2] _]. intros Hp. unfold MSTP_IN_rx_bpdu. keep.
Qed.

Lemma keeps_all_fids_flushed p t :
  (p < g_np g)%nat -> (t < length (g_ids g))%nat -> keeps false g (MSTP_IN_all_fids_flushed p t).
Proof.
  destruct Hg. intros Hp Ht. unfold MSTP_IN_all_fids_flushed, all_fids_flushed. keep.
Qed.

Lemma keeps_reselect_ptp p t :
  (p < g_np g)%nat -> (t < length (g_ids g))%nat -> keeps false g (mod_ptp p t reselect_ptp).
Proof. destruct Hg as [? ? [Hpl1 Hpl2] ?]. intros Hp Ht. unfold reselect_ptp. keep. Qed.
#[local] Hint Resolve keeps_reselect_ptp : keeps.

Lemma keeps_set_msti_bridge_config t pri :
  (t < length (g_ids g))%nat -> keeps false g (MSTP_IN_set_msti_bridge_config t pri).
Proof. destruct Hg. intros Ht. unfold MSTP_IN_set_msti_bridge_config, set_BridgePriority_from. keep. Qed.

Lemma keeps_set_cist_port_config p cfg :
  (p < g_np g)%nat -> keeps false g (MSTP_IN_set_cist_port_config p cfg).
Proof.
  destruct Hg. intros Hp. unfold MSTP_IN_set_cist_port_config. apply keeps_bind; [|intros ?; keep].
  unfold foldr, or_changed, config_external_cost, config_p2p, config_admin_edge, config_auto_edge,
    config_restricted_role, config_restricted_tcn, config_bpdu_guard, config_network_port,
    config_dont_txmt, config_bpdu_filter, set_flag.
  keep.
Qed.

Lemma keeps_set_msti_port_config p t cfg :
  (p < g_np g)%nat -> (t < length (g_ids g))%nat ->
  keeps false g (MSTP_IN_set_msti_port_config p t cfg).
Proof.
  destruct Hg. intros Hp Ht. unfold MSTP_IN_set_msti_port_config, or_changed, config_port_priority,
    config_internal_cost.
  keep.
Qed.

Lemma keeps_port_mcheck p : (p < g_np g)%nat -> keeps false g (MSTP_IN_port_mcheck p).
Proof. destruct Hg. intros Hp. unfold MSTP_IN_port_mcheck. keep. Qed.
End events.

#[export] Hint Resolve keeps_run : keeps.

(** ** The clock *)

(** After a change of the configuration [f], the rest of the operation. *)
Lemma Inv_mod_br {A} f (k : unit -> M A) w :
  Inv w ->
  br_ports (f (br w)) = br_ports (br w) -> br_trees (f (br w)) = br_trees (br w) ->
  br_Hello_Time (f (br w)) = br_Hello_Time (br w) ->
  Transmit_Hold_Count (f (br w)) = Transmit_Hold_Count (br w) ->
  bridgeEnabled (f (br w)) = bridgeEnabled (br w) ->
  (bridge_ok (strip (br w)) (ids_of w) -> bridge_ok (strip (f (br w))) (ids_of w)) ->
  (forall u w', Inv w' -> br w' = f (br w) -> wp false (k u) (fun _ w' => Inv w') w') ->
  wp false (mod_br f ≫= k) (fun _ w' => Inv w') w.
Proof.
  intros [Hb Hw] Hp Ht Hh Hth Hen Hok Hk. apply wp_bind, wp_mod_br. apply Hk; [|done].
  eapply Inv_intro; [by apply Hok|]. by apply (std_change_cfg (strip (br w))).
Qed.

Lemma Inv_one_second w : Inv w -> wp false MSTP_IN_one_second (fun _ w' => Inv w') w.
Proof.
  intros Hw. unfold MSTP_IN_one_second. apply Inv_mod_br; [done|by upd_simpl..| |].
  { intros [[[] ?] ?]. split; [|done]. by constructor. }
  intros u w1 Hw1 _. apply Inv_keeps; [|done]. intros g Hg. pose proof Hg as []. keep.
Qed.
