(* ===== verification/MstpVlanOk.v ===== *)
(** * The VLAN maps and the digest

    The operations of MstpVlan.v keep the invariant of the daemon: after each
    of them the digest of the MST configuration identifier is the digest of
    the VLAN maps, and the maps refer to existing trees. *)

From stdpp Require Import sets.
From S2P Require Import Prelude Bytes MstpTypes MstpPriority MstpBpdu MstpMonad MstpOut.
From S2P Require Import MstpRun HmacMd5 MstpConfig MstpVlan MstpInv MstpForwardingOk.
From S2P Require Import MstpRunOk MstpInvariant.

(** ** The table *)

Lemma elem_of_all_vids vid : vid ∈ all_vids <-> (1 <= vid < Z.to_nat (MAX_VID + 1))%nat.
Proof.
  unfold all_vids. rewrite list_elem_of_In, in_seq. unfold MAX_VID. lia.
Qed.

Lemma vid2mstid_some b ids vid :
  maps_ok b ids -> vid ∈ all_vids -> exists id, vid2mstid b vid = Some id /\ id ∈ ids.
Proof.
  intros [] Hv. apply elem_of_all_vids in Hv. unfold vid2mstid.
  destruct (lookup_lt_is_Some_2 (vid2fid b) vid) as [fid Hfid]; [lia|].
  rewrite Hfid. simpl. destruct (bo_fid_range vid fid) as [H1 H2]; [lia|done|].
  destruct (lookup_lt_is_Some_2 (fid2mstid b) (Z.to_nat fid)) as [id Hid].
  { unfold MAX_FID in *. lia. }
  exists id. split; [done|]. exact (Forall_lookup_1 _ _ _ _ bo_mstids Hid).
Qed.

Lemma mapM_vid2mstid_some b ids : maps_ok b ids -> is_Some (mapM (vid2mstid b) all_vids).
Proof.
  intros Hb. apply mapM_is_Some, Forall_forall. intros vid Hv%list_elem_of_In.
  destruct (vid2mstid_some b ids vid Hb Hv) as (id & Hid & _). by exists id.
Qed.

(** The digest stays valid when no VLAN changes its tree. *)
Lemma digest_ok_same b b' :
  mapM (vid2mstid b') all_vids = mapM (vid2mstid b) all_vids ->
  MstConfigId b' = MstConfigId b -> digest_ok b -> digest_ok b'.
Proof. unfold digest_ok, vid2mstid_table. intros -> -> H. exact H. Qed.

Lemma mapM_vid2mstid_ext b b' :
  (forall vid, vid ∈ all_vids -> vid2mstid b' vid = vid2mstid b vid) ->
  mapM (vid2mstid b') all_vids = mapM (vid2mstid b) all_vids.
Proof. intros H. induction all_vids as [|vid l IH]; [done|]. simpl.
  rewrite (H vid), IH by set_solver. done. Qed.

(** ** Recalculation *)

Definition same_maps (b b' : bridge_t) : Prop := vid2fid b' = vid2fid b /\ fid2mstid b' = fid2mstid b.

(** The outcome of an operation on the maps that answers [r] and leaves the
    maps of [b] in the bridge. *)
Definition maps_set (b : bridge_t) (w' : world) : Prop := Inv w' /\ same_maps b (br w').

Lemma maps_set_strip b w' : maps_set (strip b) w' <-> maps_set b w'.
Proof. done. Qed.

Lemma wp_recalc cfg ids n w (Q : unit -> world -> Prop) :
  maps_ok cfg ids -> inv (std_ghost cfg ids n) w ->
  (forall cfg' w', bridge_ok cfg' ids -> same_maps cfg cfg' -> inv (std_ghost cfg' ids n) w' ->
     Q tt w') ->
  wp false RecalcConfigDigest Q w.
Proof.
  intros Hb Hw HQ. unfold RecalcConfigDigest. apply wp_bind, wp_the_br.
  assert (strip (br w) = cfg) as Hc by apply Hw.
  destruct (mapM_vid2mstid_some cfg ids Hb) as [l Hl].
  assert (vid2mstid_table (br w) = Some (0 :: l ++ [0])) as Ht.
  { unfold vid2mstid_table. change (vid2mstid (br w)) with (vid2mstid (strip (br w))).
    by rewrite Hc, Hl. }
  apply wp_bind. eapply wp_deref; [done|]. apply wp_mod_br.
  match goal with |- Q tt (w <| br := ?b |>) => pose (b' := b) end.
  apply (HQ (strip b')).
  - split.
    + destruct Hb as [[]]. rewrite <-Hc in *. by constructor.
    + intros table Htable. change (vid2mstid_table (strip b')) with (vid2mstid_table (br w)) in Htable.
      rewrite Ht in Htable. by injection Htable as <-.
  - by rewrite <-Hc.
  - by apply (std_change_cfg cfg ids n (fun b => b <| MstConfigId :=
      (MstConfigId b) <| configuration_digest := config_digest (0 :: l ++ [0]) |> |>)).
Qed.

Lemma recalc_and_begin_ok cfg ids n w :
  maps_ok cfg ids -> inv (std_ghost cfg ids n) w ->
  wp false recalc_and_begin (fun _ w' => maps_set cfg w') w.
Proof.
  intros Hb Hw. unfold recalc_and_begin. apply wp_bind. eapply wp_recalc; [done..|].
  intros cfg' w' Hb' Hsame Hw'. pose proof Hb' as [[] ?].
  eapply wp_mono; [apply (br_begin_ok cfg' ids n bo_ids bo_cfg (g_coh (std_ghost cfg' ids n)));
    [by rewrite with_coh_id|by right]|].
  intros u w2 Hw2. cbv beta in Hw2. split; [by eapply Inv_intro|].
  pose proof (inv_cfg _ _ Hw2) as Hc. simpl in Hc. destruct Hsame as [H1 H2].
  split; [rewrite <-H1|rewrite <-H2]; by rewrite <-Hc.
Qed.

(** The end of every operation on the maps. *)
Lemma maps_changed_ok (same : bool) cfg ids n w :
  maps_ok cfg ids -> inv (std_ghost cfg ids n) w -> (same = true -> digest_ok cfg) ->
  wp false ((if negb same then recalc_and_begin else mret tt) ;; mret true)
    (fun r w' => r = true /\ maps_set cfg w') w.
Proof.
  intros Hb Hw Hs. apply wp_bind. apply (wp_mono _ _ (fun _ w' => maps_set cfg w')); [|done].
  destruct same; simpl.
  - apply wp_ret. split; [eapply Inv_intro; [|done]; split; auto|].
    pose proof (inv_cfg _ _ Hw) as Hc. simpl in Hc. by rewrite <-Hc.
  - by eapply recalc_and_begin_ok.
Qed.

Lemma maps_changed_Inv (same : bool) cfg ids n w :
  maps_ok cfg ids -> inv (std_ghost cfg ids n) w -> (same = true -> digest_ok cfg) ->
  wp false ((if negb same then recalc_and_begin else mret tt) ;; mret true) (fun _ w' => Inv w') w.
Proof. intros. eapply wp_mono; [by eapply maps_changed_ok|]. by intros r w' (_ & Hw' & _). Qed.

(** A change of the maps, in a state where the invariant holds. *)
Lemma Inv_mod_maps {A} f (k : unit -> M A) Q w :
  Inv w ->
  br_ports (f (br w)) = br_ports (br w) -> br_trees (f (br w)) = br_trees (br w) ->
  br_Hello_Time (f (br w)) = br_Hello_Time (br w) ->
  Transmit_Hold_Count (f (br w)) = Transmit_Hold_Count (br w) ->
  bridgeEnabled (f (br w)) = bridgeEnabled (br w) ->
  (forall u w', inv (std_ghost (strip (f (br w))) (ids_of w) (length (br_ports (br w)))) w' ->
     br w' = f (br w) -> wp false (k u) Q w') ->
  wp false (mod_br f ≫= k) Q w.
Proof.
  intros [Hb Hw] Hp Ht Hh Hth Hen Hk. apply wp_bind, wp_mod_br. apply Hk; [|done].
  by apply (std_change_cfg (strip (br w))).
Qed.

Lemma store_some i v l : (i < length l)%nat -> store i v l = Some (<[i:=v]> l).
Proof. intros Hi. unfold store. apply Nat.ltb_lt in Hi. by rewrite Hi. Qed.

(** ** The operations *)

Section vlan.
Context (w : world) (Hw : Inv w).

Lemma Inv_maps : maps_ok (strip (br w)) (ids_of w).
Proof. apply Hw. Qed.

Definition vid_valid (vid fid : Z) : bool :=
  negb ((vid <? 1) || (MAX_VID <? vid) || (MAX_FID <? fid)).

Lemma set_vid2fid_ok vid fid :
  0 <= fid -> vid_valid vid fid = true ->
  wp false (MSTP_IN_set_vid2fid vid fid) (fun r w' => r = true /\ maps_set
    ((br w) <| vid2fid := <[Z.to_nat vid := fid]> (vid2fid (br w)) |>) w') w.
Proof.
  intros Hfid Hv. unfold MSTP_IN_set_vid2fid. unfold vid_valid in Hv.
  case_match; [done|]. clear Hv.
  bool_hyps. pose proof Inv_maps as [Hcfg Hids Hsort Hrange Hvids Hfr Hfids Hmst].
  change (vid2fid (strip (br w))) with (vid2fid (br w)) in *.
  change (fid2mstid (strip (br w))) with (fid2mstid (br w)) in *.
  apply wp_bind, wp_the_br. unfold MAX_VID, MAX_FID in *.
  destruct (lookup_lt_is_Some_2 (fid2mstid (br w)) (Z.to_nat fid)) as [new Hnew]; [lia|].
  apply wp_bind. eapply wp_deref; [done|].
  assert (Z.to_nat vid ∈ all_vids) as Hvid by (apply elem_of_all_vids; unfold MAX_VID; lia).
  destruct (vid2mstid_some _ _ _ Inv_maps Hvid) as (old & Hold & _).
  apply wp_bind. eapply wp_deref; [exact Hold|].
  rewrite store_some by (rewrite Hvids; lia). apply wp_bind. eapply wp_deref; [done|].
  apply Inv_mod_maps; [done|by upd_simpl..|].
  intros u w1 Hw1 Hbr. eapply (wp_mono _ _ (fun r w' => r = true /\ maps_set (strip
    ((br w) <| vid2fid := <[Z.to_nat vid := fid]> (vid2fid (br w)) |>)) w'));
    [eapply maps_changed_ok; [|exact Hw1|]|done].
  - constructor; try done; [by destruct Hcfg; constructor| |].
    + cbv beta. unfold strip. upd_simpl. by rewrite length_insert.
    + intros vid' fid' Hge. cbv beta. unfold strip. upd_simpl. intros Hl.
      apply list_lookup_insert_Some in Hl as [(? & ? & ?)|(? & Hl)]; [subst; unfold MAX_FID; lia|].
      by eapply Hfr.
  - intros Heq. bool_hyps. subst new. destruct Hw as [[_ Hd] _]. revert Hd.
    apply digest_ok_same; [|done]. apply mapM_vid2mstid_ext. intros vid' Hv'.
    change (vid2mstid (strip (br w)) vid') with (vid2mstid (br w) vid').
    cbv beta. unfold vid2mstid, strip. upd_simpl.
    destruct (decide (vid' = Z.to_nat vid)) as [->|Hne].
    + rewrite list_lookup_insert_eq by (rewrite Hvids; lia). simpl. by rewrite Hnew, <-Hold.
    + by rewrite list_lookup_insert_ne.
Qed.

Lemma Inv_set_vid2fid vid fid :
  0 <= fid -> wp false (MSTP_IN_set_vid2fid vid fid) (fun _ w' => Inv w') w.
Proof.
  intros Hfid. destruct (vid_valid vid fid) eqn:Hv.
  - eapply wp_mono; [by apply set_vid2fid_ok|]. by intros r w' (_ & Hw' & _).
  - unfold MSTP_IN_set_vid2fid, vid_valid in *. apply negb_false_iff in Hv. rewrite Hv. by apply wp_ret.
Qed.

Lemma Inv_set_all_vids2fids vids2fids :
  (Z.to_nat (MAX_VID + 1) <= length vids2fids)%nat -> Forall (fun fid => 0 <= fid) vids2fids ->
  wp false (MSTP_IN_set_all_vids2fids vids2fids) (fun _ w' => Inv w') w.
Proof.
  intros Hlen Hpos. unfold MSTP_IN_set_all_vids2fids.
  pose proof Inv_maps as Hm. pose proof Hm as [Hcfg Hids Hsort Hrange Hvids Hfr Hfids Hmst].
  change (vid2fid (strip (br w))) with (vid2fid (br w)) in *.
  apply wp_bind, wp_the_br. destruct (mapM_vid2mstid_some _ _ Hm) as [old Hold].
  change (mapM (vid2mstid (br w)) all_vids = Some old) in Hold.
  apply wp_bind. eapply wp_deref; [done|].
  set (vids := checked_vids2fids _ _).
  assert (maps_ok (strip ((br w) <| vid2fid := vids |>)) (ids_of w)) as Hm'.
  { constructor; try done; [by destruct Hcfg; constructor| |]; unfold strip, vids, checked_vids2fids; upd_simpl.
    - rewrite length_imap, length_take. lia.
    - intros vid fid Hge Hl. rewrite list_lookup_imap in Hl.
      apply fmap_Some in Hl as (fid0 & Hl & ->).
      assert (fid0 ∈ vids2fids) as Hin by (eapply list_elem_of_lookup_2, lookup_take_Some; eauto).
      apply lookup_take_Some in Hl as [Hl Hlt].
      rewrite Forall_forall in Hpos. apply list_elem_of_In, Hpos in Hin.
      destruct (1 <=? Z.of_nat vid) eqn:E1; bool_hyps; [|lia]. simpl.
      destruct (MAX_FID <? fid0) eqn:E2; bool_hyps; [|lia].
      destruct (lookup_lt_is_Some_2 (vid2fid (br w)) vid) as [f Hf]; [by rewrite Hvids|].
      rewrite (nth_lookup_Some _ _ _ _ Hf). by eapply Hfr. }
  apply Inv_mod_maps; [done|by upd_simpl..|]. intros u w1 Hw1 Hbr.
  apply wp_bind, wp_the_br. destruct (mapM_vid2mstid_some _ _ Hm') as [new Hnew].
  rewrite Hbr. change (mapM (vid2mstid ((br w) <| vid2fid := vids |>)) all_vids = Some new) in Hnew.
  apply wp_bind. eapply wp_deref; [done|].
  eapply maps_changed_Inv; [exact Hm'|exact Hw1|]. intros Heq. bool_hyps. subst new.
  destruct Hw as [[_ Hd] _]. revert Hd. apply digest_ok_same; [|done].
  exact (eq_trans Hnew (eq_sym Hold)).
Qed.

Lemma tree_exists_elem id : tree_exists (br w) id = true -> id ∈ ids_of w.
Proof.
  unfold tree_exists, ids_of. intros H. apply existsb_exists in H as (tr & Hin & Heq).
  bool_hyps. subst id. apply list_elem_of_fmap. exists tr. split; [done|].
  by apply list_elem_of_In.
Qed.

Definition fid_valid (fid mstid : Z) : bool := (fid <=? MAX_FID) && tree_exists (br w) mstid.

Lemma set_fid2mstid_ok fid mstid :
  0 <= fid -> fid_valid fid mstid = true ->
  wp false (MSTP_IN_set_fid2mstid fid mstid) (fun r w' => r = true /\ maps_set
    ((br w) <| fid2mstid := <[Z.to_nat fid := mstid]> (fid2mstid (br w)) |>) w') w.
Proof.
  intros Hfid Hv. unfold fid_valid in Hv. apply andb_true_iff in Hv as [Hv1 Hv2].
  unfold MSTP_IN_set_fid2mstid. case_match; [bool_hyps; lia|].
  pose proof Inv_maps as Hm. pose proof Hm as [Hcfg Hids Hsort Hrange Hvids Hfr Hfids Hmst].
  change (fid2mstid (strip (br w))) with (fid2mstid (br w)) in *.
  change (vid2fid (strip (br w))) with (vid2fid (br w)) in *.
  apply wp_bind, wp_the_br. rewrite Hv2. cbn [negb]. bool_hyps.
  pose proof (tree_exists_elem _ Hv2) as Hex. unfold MAX_FID in *.
  destruct (lookup_lt_is_Some_2 (fid2mstid (br w)) (Z.to_nat fid)) as [old Hold]; [lia|].
  apply wp_bind. eapply wp_deref; [done|].
  destruct (old =? mstid) eqn:Heq; simpl negb; cbv iota.
  { apply wp_bind, wp_ret, wp_ret. split; [done|]. split; [done|]. bool_hyps. subst old.
    unfold same_maps. upd_simpl. by rewrite list_insert_id. }
  bool_hyps. rewrite store_some by (rewrite Hfids; lia).
  apply wp_bind. apply (wp_mono _ _ (fun _ w' => maps_set (strip
    ((br w) <| fid2mstid := <[Z.to_nat fid := mstid]> (fid2mstid (br w)) |>)) w')); [|done].
  apply wp_bind. eapply wp_deref; [done|].
  apply Inv_mod_maps; [done|by upd_simpl..|]. intros u w1 Hw1 Hbr.
  set (fids := <[Z.to_nat fid:=mstid]> (fid2mstid (br w))) in *.
  assert (maps_ok (strip ((br w) <| fid2mstid := fids |>)) (ids_of w)) as Hm'.
  { constructor; try done; [by destruct Hcfg; constructor| |]; unfold strip, fids; upd_simpl.
    - by rewrite length_insert.
    - by apply Forall_insert. }
  destruct (fid_in_use (br w) fid) eqn:Huse; [by eapply recalc_and_begin_ok|].
  apply wp_ret. split; [|by rewrite Hbr]. eapply Inv_intro; [|exact Hw1]. split; [done|].
  destruct Hw as [[_ Hd] _]. revert Hd. apply digest_ok_same; [|done].
  apply mapM_vid2mstid_ext. intros vid Hv.
  change (vid2mstid (strip (br w)) vid) with (vid2mstid (br w) vid).
  cbv beta. unfold vid2mstid, strip. upd_simpl.
  destruct (vid2fid (br w) !! vid) as [f|] eqn:Hf; [|done]. simpl.
  apply list_lookup_insert_ne. intros Heqf.
  assert (0 <= f) by (apply elem_of_all_vids in Hv; eapply Hfr; [|done]; lia).
  assert (fid = f) as <- by lia.
  enough (fid_in_use (br w) fid = true) by congruence.
  unfold fid_in_use. apply existsb_exists. exists vid. split; [by apply list_elem_of_In|].
  rewrite (nth_lookup_Some _ _ _ _ Hf). apply Z.eqb_refl.
Qed.

Lemma Inv_set_fid2mstid fid mstid :
  0 <= fid -> wp false (MSTP_IN_set_fid2mstid fid mstid) (fun _ w' => Inv w') w.
Proof.
  intros Hfid. destruct (fid_valid fid mstid) eqn:Hv.
  - eapply wp_mono; [by apply set_fid2mstid_ok|]. by intros r w' (_ & Hw' & _).
  - unfold MSTP_IN_set_fid2mstid, fid_valid in *. destruct (MAX_FID <? fid) eqn:Hf; [by apply wp_ret|].
    apply wp_bind, wp_the_br. bool_hyps. destruct (fid <=? MAX_FID) eqn:Hf'; bool_hyps; [|lia].
    simpl in Hv. rewrite Hv. by apply wp_ret.
Qed.

Lemma Inv_set_all_fids2mstids fids2mstids :
  (Z.to_nat (MAX_FID + 1) <= length fids2mstids)%nat ->
  wp false (MSTP_IN_set_all_fids2mstids fids2mstids) (fun _ w' => Inv w') w.
Proof.
  intros Hlen. unfold MSTP_IN_set_all_fids2mstids.
  pose proof Inv_maps as Hm. pose proof Hm as [Hcfg Hids Hsort Hrange Hvids Hfr Hfids Hmst].
  apply wp_bind, wp_the_br. set (fids := checked_fids2mstids _ _).
  case_match eqn:Hall; [by apply wp_ret|]. bool_hyps.
  destruct (mapM_vid2mstid_some _ _ Hm) as [old Hold].
  change (mapM (vid2mstid (br w)) all_vids = Some old) in Hold.
  apply wp_bind. eapply wp_deref; [done|].
  assert (maps_ok (strip ((br w) <| fid2mstid := fids |>)) (ids_of w)) as Hm'.
  { constructor; try done; [by destruct Hcfg; constructor| |]; unfold strip; upd_simpl.
    - unfold fids, checked_fids2mstids. rewrite length_imap, length_take. lia.
    - apply Forall_lookup. intros i id Hl. apply tree_exists_elem.
      rewrite forallb_forall in Hall. apply Hall. apply list_elem_of_In.
      by eapply list_elem_of_lookup_2. }
  apply Inv_mod_maps; [done|by upd_simpl..|]. intros u w1 Hw1 Hbr.
  apply wp_bind, wp_the_br. destruct (mapM_vid2mstid_some _ _ Hm') as [new Hnew].
  rewrite Hbr. change (mapM (vid2mstid ((br w) <| fid2mstid := fids |>)) all_vids = Some new) in Hnew.
  apply wp_bind. eapply wp_deref; [done|].
  eapply maps_changed_Inv; [exact Hm'|exact Hw1|]. intros Heq. bool_hyps. subst new.
  destruct Hw as [[_ Hd] _]. revert Hd. apply digest_ok_same; [|done].
  exact (eq_trans Hnew (eq_sym Hold)).
Qed.

Lemma Inv_begin : wp false br_state_machines_begin (fun _ w' => Inv w') w.
Proof.
  destruct Hw as [Hb Hi]. eapply wp_Inv_intro; [exact Hb|].
  destruct Hb as [[] ?].
  apply (br_begin_ok _ _ _ bo_ids bo_cfg (g_coh (std_of w))); [|by right].
  by rewrite with_coh_id.
Qed.
End vlan.

Lemma Inv_set_mst_config_id w revision name :
  Inv w -> wp false (MSTP_IN_set_mst_config_id revision name) (fun _ w' => Inv w') w.
Proof.
  intros Hw. unfold MSTP_IN_set_mst_config_id. apply wp_bind, wp_the_br.
  case_match; [|by apply wp_ret]. apply Inv_mod_br; [done|by upd_simpl..| |].
  - intros [[] Hd]. split; [|done]. destruct bo_cfg. by constructor.
  - intros u w1 Hw1 _. by apply Inv_begin.
Qed.
