(* ===== verification/MstpLoops.v ===== *)
(** * What the loops over ports and trees compute

    Loops of the daemon whose body is one assignment per element update the
    whole list: the equations by which operations that change the shape of
    the bridge (creation and deletion of trees) or its configuration are
    analysed. *)

From S2P Require Import Prelude MstpTypes MstpMonad.

(** ** Updating a prefix of a list *)

Definition alter_first {A} (k : nat) (f : A -> A) (l : list A) : list A :=
  imap (fun i x => if (i <? k)%nat then f x else x) l.

Section alter_first.
Context {A : Type} (f : A -> A).

Lemma lookup_alter_first k l i :
  alter_first k f l !! i = (fun x => if (i <? k)%nat then f x else x) <$> l !! i.
Proof. unfold alter_first. by rewrite list_lookup_imap. Qed.

Lemma length_alter_first k l : length (alter_first k f l) = length l.
Proof. apply length_imap. Qed.

Lemma alter_first_0 l : alter_first 0 f l = l.
Proof. apply list_eq. intros i. rewrite lookup_alter_first. by destruct (l !! i). Qed.

Lemma alter_first_S k l : alter_first (S k) f l = alter f k (alter_first k f l).
Proof.
  apply list_eq. intros i. destruct (decide (i = k)) as [->|Hne].
  - rewrite list_lookup_alter_eq, !lookup_alter_first, Nat.ltb_irrefl.
    replace (k <? S k)%nat with true by (symmetry; apply Nat.ltb_lt; lia). by destruct (l !! k).
  - rewrite list_lookup_alter_ne, !lookup_alter_first by done.
    replace (i <? S k)%nat with (i <? k)%nat; [done|].
    apply eq_true_iff_eq. rewrite !Nat.ltb_lt. lia.
Qed.

Lemma alter_first_all k l : (length l <= k)%nat -> alter_first k f l = map f l.
Proof.
  intros Hk. apply list_eq. intros i. rewrite lookup_alter_first, list_lookup_fmap.
  destruct (l !! i) eqn:Hi; [|done]. simpl.
  replace (i <? k)%nat with true; [done|]. symmetry. apply Nat.ltb_lt.
  apply lookup_lt_Some in Hi. lia.
Qed.
End alter_first.

(** ** Assignments *)

Definition with_br (w : world) (b : bridge_t) : world := w <| br := b |>.

Lemma with_br_id w : with_br w (br w) = w.
Proof. by destruct w. Qed.

Lemma mod_port_eq w p f :
  (p < length (br_ports (br w)))%nat -> mod_port p f w = Ret tt (with_br w (alter_port p f (br w))).
Proof.
  intros [prt Hprt]%lookup_lt_is_Some. unfold mod_port, the_port, mbind, M_bind.
  by rewrite Hprt.
Qed.

Lemma mod_tree_eq w t f :
  (t < length (br_trees (br w)))%nat -> mod_tree t f w = Ret tt (with_br w (alter_tree t f (br w))).
Proof.
  intros [tr Htr]%lookup_lt_is_Some. unfold mod_tree, the_tree, mbind, M_bind.
  by rewrite Htr.
Qed.

Lemma mod_ptp_eq w p t f :
  is_Some (lookup_ptp (br w) p t) -> mod_ptp p t f w = Ret tt (with_br w (alter_ptp p t f (br w))).
Proof. intros [x Hx]. unfold mod_ptp, the_ptp, mbind, M_bind. by rewrite Hx. Qed.

(** A loop whose [k]-th iteration leads from [S k] to [S (k + 1)]. *)
Lemma for_each_states (S : nat -> world) n f :
  (forall k, (k < n)%nat -> f k (S k) = Ret tt (S (1 + k)%nat)) ->
  for_each (seq 0 n) f (S 0%nat) = Ret tt (S n).
Proof.
  intros Hf. assert (forall m a, (a + m = n)%nat ->
    for_each (seq a m) f (S a) = Ret tt (S n)) as Hgen; [|by apply (Hgen n 0%nat)].
  induction m as [|m IH]; intros a Ha; simpl.
  - by replace a with n by lia.
  - unfold mbind, M_bind. rewrite Hf by lia. apply IH. lia.
Qed.

Lemma set_ports_twice (b : bridge_t) l l' :
  b <| br_ports := l |> <| br_ports := l' |> = b <| br_ports := l' |>.
Proof. by destruct b. Qed.

Lemma set_prt_trees_twice (prt : port_t) l l' :
  prt <| prt_trees := l |> <| prt_trees := l' |> = prt <| prt_trees := l' |>.
Proof. by destruct prt. Qed.

Lemma set_prt_trees_id (prt : port_t) : prt <| prt_trees := prt_trees prt |> = prt.
Proof. by destruct prt. Qed.

Lemma set_ports_id (b : bridge_t) : b <| br_ports := br_ports b |> = b.
Proof. by destruct b. Qed.

(** for every port, one assignment to it *)
Lemma for_port_mod_port f w :
  for_port_in_bridge (fun p => mod_port p f) w
  = Ret tt (with_br w ((br w) <| br_ports := map f (br_ports (br w)) |>)).
Proof.
  unfold for_port_in_bridge, num_ports. change (for_each (seq 0 (length (br_ports (br w))))
    (fun p => mod_port p f) w = Ret tt (with_br w ((br w) <| br_ports := map f (br_ports (br w)) |>))).
  pose (S := fun k => with_br w ((br w) <| br_ports := alter_first k f (br_ports (br w)) |>)).
  assert (S 0%nat = w) as H0.
  { unfold S. by rewrite alter_first_0, set_ports_id, with_br_id. }
  pose proof (for_each_states S (length (br_ports (br w))) (fun p => mod_port p f)) as Hs.
  rewrite H0 in Hs. rewrite Hs.
  - unfold S. by rewrite alter_first_all.
  - intros k Hk. rewrite mod_port_eq.
    + unfold S, with_br, alter_port. upd_simpl. rewrite set_ports_twice, alter_first_S. done.
    + unfold S, with_br. upd_simpl. by rewrite length_alter_first.
Qed.

(** for every port, one assignment to its entry for the tree [t] *)
Lemma for_port_mod_ptp f t w :
  (forall p prt, br_ports (br w) !! p = Some prt -> (t < length (prt_trees prt))%nat) ->
  for_ptp_in_tree (fun p => mod_ptp p t f) w
  = Ret tt (with_br w ((br w) <| br_ports :=
      map (fun prt => prt <| prt_trees := alter f t (prt_trees prt) |>) (br_ports (br w)) |>)).
Proof.
  intros Hlen. rewrite <-for_port_mod_port. unfold for_ptp_in_tree, for_port_in_bridge, num_ports.
  unfold mbind, M_bind, the_br. cbn.
  assert (forall l w', (forall p, p ∈ l -> is_Some (lookup_ptp (br w') p t)) -> 
     for_each l (fun p => mod_ptp p t f) w' = for_each l (fun p => mod_port p
       (fun prt => prt <| prt_trees := alter f t (prt_trees prt) |>)) w') as Heq.
  { induction l as [|p l IH]; intros w' Hl; [done|]. simpl. unfold mbind, M_bind.
    pose proof (Hl p (list_elem_of_here _ _)) as Hp.
    rewrite mod_ptp_eq by done. rewrite mod_port_eq.
    2:{ destruct Hp as [x Hx]. unfold lookup_ptp in Hx.
        destruct (br_ports (br w') !! p) eqn:E; [|done]. by eapply lookup_lt_Some. }
    apply IH. intros q Hq. specialize (Hl q (list_elem_of_further _ _ _ Hq)).
    unfold with_br, alter_ptp, alter_port, lookup_ptp in *. upd_simpl.
    destruct (decide (q = p)) as [->|Hne].
    - rewrite list_lookup_alter_eq. destruct (br_ports (br w') !! p); simpl in *; [|done].
      upd_simpl. rewrite list_lookup_alter_eq. destruct (prt_trees p0 !! t); simpl in *; [done|].
      by destruct Hl.
    - by rewrite list_lookup_alter_ne. }
  apply Heq. intros p Hp%list_elem_of_In%in_seq. unfold lookup_ptp.
  destruct (lookup_lt_is_Some_2 (br_ports (br w)) p) as [prt Hprt]; [lia|].
  rewrite Hprt. simpl. apply lookup_lt_is_Some. by eapply Hlen.
Qed.

(** for every tree, one assignment to it and one to each of its entries *)
Lemma for_tree_mod_all f g w :
  (forall p prt, br_ports (br w) !! p = Some prt ->
     length (prt_trees prt) = length (br_trees (br w))) ->
  for_tree_in_bridge (fun t => mod_tree t f ;; for_ptp_in_tree (fun p => mod_ptp p t g)) w
  = Ret tt (with_br w ((br w) <| br_trees := map f (br_trees (br w)) |>
      <| br_ports := map (fun prt => prt <| prt_trees := map g (prt_trees prt) |>)
                         (br_ports (br w)) |>)).
Proof.
  intros Hlen.
  transitivity (for_each (seq 0 (length (br_trees (br w))))
    (fun t => mod_tree t f ;; for_ptp_in_tree (fun p => mod_ptp p t g)) w); [done|].
  pose (row := fun k prt => prt <| prt_trees := alter_first k g (prt_trees prt) |>).
  pose (S := fun k => with_br w ((br w) <| br_trees := alter_first k f (br_trees (br w)) |>
      <| br_ports := map (row k) (br_ports (br w)) |>)).
  assert (S 0%nat = w) as H0.
  { unfold S. rewrite alter_first_0. rewrite (map_ext (row 0%nat) id).
    - rewrite map_id. destruct w as [[]]. done.
    - intros prt. unfold row. by rewrite alter_first_0, set_prt_trees_id. }
  pose proof (for_each_states S (length (br_trees (br w)))
    (fun t => mod_tree t f ;; for_ptp_in_tree (fun p => mod_ptp p t g))) as Hs.
  rewrite H0 in Hs. rewrite Hs; clear Hs.
  - unfold S. rewrite alter_first_all by done. do 3 f_equal. apply map_ext_in.
    intros prt [p Hp]%list_elem_of_In%list_elem_of_lookup. unfold row.
    by rewrite alter_first_all by (erewrite Hlen by done; done).
  - intros k Hk. unfold mbind, M_bind. rewrite mod_tree_eq.
    2:{ unfold S, with_br. upd_simpl. by rewrite length_alter_first. }
    rewrite for_port_mod_ptp.
    2:{ intros p prt. unfold S, with_br, alter_tree. upd_simpl. rewrite list_lookup_fmap.
        destruct (br_ports (br w) !! p) eqn:Hp; [|done]. simpl. intros [= <-].
        unfold row. upd_simpl. rewrite length_alter_first. by erewrite Hlen. }
    unfold S, with_br, alter_tree. upd_simpl. rewrite map_map.
    rewrite (map_ext _ (row (1 + k)%nat)).
    + rewrite alter_first_S. by destruct w as [[]].
    + intros prt. unfold row. upd_simpl. by rewrite set_prt_trees_twice, alter_first_S.
Qed.

(** ** Insertion *)

Lemma length_insert_at {A} i (x : A) l :
  length (take i l ++ x :: drop i l) = S (length l).
Proof. rewrite length_app. simpl. rewrite Nat.add_succ_r, <-length_app, take_drop. done. Qed.
