(* ===== verification/MstpEventsOk.v ===== *)
(** * Creation and deletion keep the invariant

    The operations that change the shape of the bridge or its configuration:
    creation and deletion of the bridge, of ports and of trees, the bridge
    address, enabling and disabling, and the parameters of the CIST. *)

From S2P Require Import Prelude Bytes MstpTypes MstpPriority MstpBpdu MstpMonad MstpOut.
From S2P Require Import MstpPort MstpInfo MstpRoles MstpTransitions MstpForwarding MstpRun.
From S2P Require Import HmacMd5 MstpConfig MstpEvents MstpAdmin MstpVlan MstpInv.
From S2P Require Import MstpPortOk MstpInfoOk MstpRolesOk MstpTransitionsOk MstpForwardingOk.
From S2P Require Import MstpRunOk MstpInvariant MstpVlanOk MstpLoops.
From Stdlib Require Import Sorting.Sorted.

(** ** Rows do not depend on their position *)

Lemma row_std cfg ids n n' p p' prt :
  row_ok (std_ghost cfg ids n) p prt -> row_ok (std_ghost cfg ids n') p' prt.
Proof.
  intros (Hids & [] & Hx). split; [done|]. split; [by constructor|].
  intros t x Ht. by destruct (Hx t x Ht).
Qed.

(** The standard ghost with agreement restricted to the positions [C]. *)
Abbreviation part cfg ids n C :=
  (with_coh (std_ghost cfg ids n) (fun q s => bridgeEnabled cfg = true /\ C q s)).

Lemma row_part cfg ids n n' p p' (C : nat -> nat -> Prop) prt :
  row_ok (std_ghost cfg ids n) p prt ->
  row_ok (part cfg ids n' C) p' prt.
Proof.
  intros (Hids & [] & Hx). split; [done|]. split; [by constructor|].
  intros t x Ht. destruct (Hx t x Ht). constructor; try done; simpl in *; tauto.
Qed.

(** ** Fresh objects *)

Lemma hello_create_tree b mac id :
  Hello_Time (BridgeTimes (create_tree b mac id)) = br_Hello_Time b.
Proof. reflexivity. Qed.

Lemma mstid_create_tree b mac id : tree_MSTID (create_tree b mac id) = id.
Proof. reflexivity. Qed.

Lemma mstid_create_ptp tr prt : ptp_MSTID (create_ptp tr prt) = tree_MSTID tr.
Proof. reflexivity. Qed.

Lemma create_ptp_ok cfg ids n (C : nat -> nat -> Prop) p t del tr prt :
  tree_ok (std_ghost cfg ids n) tr -> ~ C p t ->
  ptp_ok (part cfg ids n C) p t del (create_ptp tr prt).
Proof.
  intros Htr HC.
  assert (Hello_Time (portTimes (create_ptp tr prt)) = Hello_Time (BridgeTimes tr)) as Hh
    by reflexivity.
  constructor.
  - split; [simpl; done|]. done.
  - by intros [_ ?].
  - by intros [_ ?].
  - by split.
  - rewrite Hh. exact Htr.
  - by intros [?|[]].
  - done.
Qed.

Lemma new_port_ok cfg ids n (C : nat -> nat -> Prop) p sd no :
  config_ok cfg -> port_ok (part cfg ids n C) p (new_port sd no).
Proof.
  intros []. constructor; try done. change (txCount (new_port sd no)) with 0.
  cbn [g_cfg with_coh std_ghost]. lia.
Qed.

(** ** Ports *)

Lemma port_ok_trees g p prt l : port_ok g p prt -> port_ok g p (prt <| prt_trees := l |>).
Proof. intros []. by constructor. Qed.

Lemma Inv_port_create sd portno w :
  Inv w -> wp false (MSTP_IN_port_create_and_add_tail sd portno) (fun _ w' => Inv w') w.
Proof.
  intros [Hb Hw]. pose proof Hb as [[Hcfg Hids _ _ _ _ _ _] _].
  unfold MSTP_IN_port_create_and_add_tail. apply wp_bind, wp_the_br, wp_bind, wp_mod_br.
  set (prt := (new_port sd portno) <| prt_trees := _ |>).
  set (w1 := w <| br := _ |>). set (n := length (br_ports (br w))).
  apply wp_bind. eapply wp_mono.
  - eapply (prt_begin_ok (strip (br w)) (ids_of w) (S n) Hids Hcfg n w1); [lia|].
    destruct Hw as [Hc Hn Hi Htr Hr]. constructor; unfold w1; upd_simpl; try done.
    + rewrite length_app. simpl. lia.
    + intros p q Hq. apply lookup_app_Some in Hq as [Hq|[Hge Hq]].
      { apply (row_part _ _ n (S n) p p (fun q _ => q <> n)). exact (Hr p q Hq). }
      apply list_lookup_singleton_Some in Hq as [Hz <-].
      assert (p = n) as -> by (unfold n in *; lia).
      unfold prt. split; [|split].
      * upd_simpl. rewrite map_map. by apply map_ext.
      * apply port_ok_trees, new_port_ok, Hcfg.
      * intros t x. upd_simpl. rewrite list_lookup_fmap.
        destruct (br_trees (br w) !! t) as [tr|] eqn:Htree; [|done]. intros [= <-].
        apply create_ptp_ok; [exact (Htr t tr Htree)|]. tauto.
  - intros u w2 Hw2. apply wp_ret. eapply Inv_intro; [exact Hb|exact Hw2].
Qed.

Lemma row_delete cfg ids n p prt :
  row_ok (std_ghost cfg ids n) p prt -> row_ok (std_ghost cfg ids n) p (prt <| deleted := true |>).
Proof.
  intros (Hids & [] & Hx). split; [done|]. split; [by constructor|].
  intros t x Ht. destruct (Hx t x Ht). by constructor.
Qed.

Lemma lookup_delete_elem {A} i j (l : list A) x :
  delete i l !! j = Some x -> exists k, l !! k = Some x.
Proof.
  intros H. destruct (decide (j < i)%nat).
  - exists j. by rewrite list_lookup_delete_lt in H.
  - exists (S j). rewrite list_lookup_delete_ge in H; [done|lia].
Qed.

Lemma Inv_without_port p w :
  Inv w -> Inv (with_br w ((br w) <| br_ports := delete p (br_ports (br w)) |>)).
Proof.
  intros [Hb [Hc Hn Hi Htr Hr]]. unfold with_br.
  apply (Inv_intro (strip (br w)) (ids_of w) (length (delete p (br_ports (br w))))); [done|].
  constructor; upd_simpl; try done.
  intros q prt [k Hk]%lookup_delete_elem. eapply row_std, (Hr k prt Hk).
Qed.

Lemma wp_run_machines w : Inv w -> wp false br_state_machines_run (fun _ w' => Inv w') w.
Proof. apply Inv_keeps. intros g Hg. by apply keeps_run. Qed.

Lemma Inv_delete_port p w :
  (p < length (br_ports (br w)))%nat -> Inv w -> wp false (MSTP_IN_delete_port p) (fun _ w' => Inv w') w.
Proof.
  intros Hp [Hb Hw]. unfold MSTP_IN_delete_port. apply wp_bind. eapply wp_eq; [by apply mod_port_eq|].
  set (w1 := with_br _ _). assert (inv (std_of w) w1) as Hw1.
  { apply inv_alter_port; [done|]. intros prt _. apply row_delete. }
  apply wp_bind. eapply wp_the_port; [done..|]. intros prt Hprt Hrow.
  assert (runnable (std_of w)) as Hrun by (destruct Hb as [[] _]; by apply std_runnable).
  apply wp_bind. eapply (wp_mono _ _ (fun _ w' => Inv w')).
  - eapply wp_Inv_intro; [done|]. apply wp_keeps; [|done].
    case_match; keep.
  - intros u w2 Hw2. cbv beta in Hw2. apply wp_bind, wp_mod_br.
    by apply wp_run_machines, Inv_without_port.
Qed.

(** A disabled bridge runs no machine. *)
Lemma run_disabled w : bridgeEnabled (br w) = false -> br_state_machines_run w = Ret tt w.
Proof. intros Hd. unfold br_state_machines_run, the_br, mbind, M_bind. by rewrite Hd. Qed.

Lemma delete_port_disabled w prt l :
  bridgeEnabled (br w) = false -> br_ports (br w) = prt :: l ->
  MSTP_IN_delete_port 0 w = Ret tt (with_br w ((br w) <| br_ports := l |>)).
Proof.
  intros Hd Hl. unfold MSTP_IN_delete_port.
  erewrite bind_ret by (apply mod_port_eq; rewrite Hl; simpl; lia).
  set (w1 := with_br _ _).
  assert (br_ports (br w1) = (prt <| deleted := true |>) :: l) as Hl1.
  { unfold w1, with_br, alter_port. upd_simpl. by rewrite Hl. }
  rewrite (bind_ret _ _ _ (prt <| deleted := true |>) w1).
  2:{ unfold the_port. by rewrite Hl1. }
  set (w2 := if portEnabled prt
             then with_br w1 (alter_port 0 (fun prt => prt <| portEnabled := false |>) (br w1)) else w1).
  erewrite (bind_ret _ _ _ tt w2).
  2:{ upd_simpl. unfold w2. destruct (portEnabled prt); [|done].
      erewrite bind_ret by (apply mod_port_eq; rewrite Hl1; simpl; lia).
      by rewrite run_disabled. }
  erewrite bind_ret by done. rewrite run_disabled.
  2:{ unfold w2, w1, with_br, alter_port. destruct (portEnabled prt); by upd_simpl. }
  f_equal. unfold w2, w1, with_br, alter_port. destruct (portEnabled prt); upd_simpl.
  - rewrite Hl. simpl. by destruct w as [[]].
  - rewrite Hl. simpl. by destruct w as [[]].
Qed.

Lemma delete_all_ports n w :
  bridgeEnabled (br w) = false -> length (br_ports (br w)) = n ->
  forall a, for_each (seq a n) (fun _ => MSTP_IN_delete_port 0) w
  = Ret tt (with_br w ((br w) <| br_ports := [] |>)).
Proof.
  revert w. induction n as [|n IH]; intros w Hd Hn a; simpl.
  - apply nil_length_inv in Hn. rewrite <-Hn, set_ports_id, with_br_id. done.
  - destruct (br_ports (br w)) as [|prt l] eqn:Hl; [done|].
    erewrite bind_ret by (by eapply delete_port_disabled).
    rewrite IH; unfold with_br; upd_simpl; [|done|by injection Hn].
    by rewrite set_ports_twice.
Qed.

(** Deleting a bridge returns, and leaves neither ports nor trees. *)
Lemma delete_bridge_eq w :
  MSTP_IN_delete_bridge w
  = Ret tt (with_br w ((br w) <| bridgeEnabled := false |> <| br_ports := [] |> <| br_trees := [] |>)).
Proof.
  unfold MSTP_IN_delete_bridge. erewrite bind_ret by done.
  erewrite bind_ret; [|unfold for_port_in_bridge, num_ports; erewrite bind_ret by done;
    apply delete_all_ports; upd_simpl; done].
  unfold mod_br, with_br. by upd_simpl.
Qed.

(** ** The bridge *)

Lemma zero_vid2mstid b vid :
  vid2fid b = replicate (Z.to_nat (MAX_VID + 1)) 0 ->
  fid2mstid b = replicate (Z.to_nat (MAX_FID + 1)) 0 ->
  vid ∈ all_vids -> vid2mstid b vid = Some 0.
Proof.
  intros Hv Hf Hin. apply elem_of_all_vids in Hin. unfold vid2mstid. rewrite Hv, Hf.
  apply bind_Some. exists 0. split; apply lookup_replicate_2; unfold MAX_FID; lia.
Qed.

(** What MSTP_IN_bridge_create makes of the bridge. *)
Definition created (b : bridge_t) (mac : Z) (digest : list Z) : bridge_t :=
  let b' := {| br_ports := []; br_trees := []; bridgeEnabled := false;
     MstConfigId := {| selector := 0;
       configuration_name := sprintf_into (configuration_name (MstConfigId b)) (mac_name mac);
       revision_level := 0; configuration_digest := digest |};
     ForceProtocolVersion := protoRSTP; MaxHops := 20; br_Forward_Delay := 15; br_Max_Age := 20;
     br_Hello_Time := 2; Transmit_Hold_Count := 6; Migrate_Time := 3; Ageing_Time := 300;
     vid2fid := replicate (length (vid2fid b)) 0;
     fid2mstid := replicate (length (fid2mstid b)) 0;
     uptime := 0; br_sysdeps := br_sysdeps b |} in
  b' <| br_trees := [create_tree b' mac 0] |>.

Lemma vid2mstid_table_ext b b' :
  vid2fid b = vid2fid b' -> fid2mstid b = fid2mstid b' -> vid2mstid_table b = vid2mstid_table b'.
Proof.
  intros Hv Hf. unfold vid2mstid_table. f_equal. apply mapM_vid2mstid_ext.
  intros vid _. unfold vid2mstid. by rewrite Hv, Hf.
Qed.

Lemma recalc_eq w table :
  vid2mstid_table (br w) = Some table ->
  RecalcConfigDigest w = Ret tt (w <| br := (br w) <| MstConfigId :=
      (MstConfigId (br w)) <| configuration_digest := config_digest table |> |> |>).
Proof. intros Hw. unfold RecalcConfigDigest. erewrite bind_ret by done. by rewrite Hw. Qed.

Lemma bridge_create_eq mac w table :
  vid2mstid_table (created (br w) mac []) = Some table ->
  MSTP_IN_bridge_create mac w = Ret true (with_br w (created (br w) mac (config_digest table))).
Proof.
  intros Htable. unfold MSTP_IN_bridge_create. erewrite bind_ret by done.
  erewrite (bind_ret RecalcConfigDigest).
  2:{ apply recalc_eq. rewrite <-Htable. apply vid2mstid_table_ext; by upd_simpl. }
  generalize (config_digest table) as dg. clear Htable. intros dg.
  do 3 (erewrite bind_ret by (unfold mod_br; reflexivity)). unfold mret, M_ret, with_br. f_equal.
Qed.

Lemma Inv_bridge_create sd mac w :
  br w = calloc_bridge sd ->
  exists table, MSTP_IN_bridge_create mac w = Ret true (with_br w (created (br w) mac (config_digest table)))
    /\ Inv (with_br w (created (br w) mac (config_digest table))).
Proof.
  intros Hbr.
  assert (vid2fid (created (br w) mac []) = replicate (Z.to_nat (MAX_VID + 1)) 0) as Hv
    by (rewrite Hbr; apply (f_equal (fun n => replicate n 0)), length_replicate).
  assert (fid2mstid (created (br w) mac []) = replicate (Z.to_nat (MAX_FID + 1)) 0) as Hf
    by (rewrite Hbr; apply (f_equal (fun n => replicate n 0)), length_replicate).
  assert (is_Some (vid2mstid_table (created (br w) mac []))) as [table Htable].
  { unfold vid2mstid_table. apply fmap_is_Some, mapM_is_Some, Forall_forall.
    intros vid Hvid%list_elem_of_In. exists 0. by apply zero_vid2mstid. }
  exists table. split; [by apply bridge_create_eq|].
  set (b := created (br w) mac (config_digest table)).
  assert (vid2fid (strip b) = replicate (Z.to_nat (MAX_VID + 1)) 0) as Hv' by exact Hv.
  assert (fid2mstid (strip b) = replicate (Z.to_nat (MAX_FID + 1)) 0) as Hf' by exact Hf.
  assert (vid2mstid_table (strip b) = Some table) as Htable'.
  { rewrite <-Htable. by apply vid2mstid_table_ext; [rewrite Hv, Hv'|rewrite Hf, Hf']. }
  apply (Inv_intro (strip b) [0] 0%nat).
  - split; [constructor|].
    + constructor; [change (1 <= 2 <= 10)|change (1 <= 6 <= 10)|change (6 <= 20 <= 40)
        |change (6 <= 20 <= 40)|change (4 <= 15 <= 30)|change (20 <= 2 * (15 - 1))
        |change (10 <= 300 <= 1000000)|done|by right; left]; lia.
    + split; [done|]. split; [by apply Forall_nil|]. by apply Nat.leb_le.
    + by repeat constructor.
    + apply Forall_singleton. unfold MAX_MSTID. lia.
    + rewrite Hv'. apply length_replicate.
    + intros vid fid _. rewrite Hv'. intros [-> _]%lookup_replicate. unfold MAX_FID. lia.
    + rewrite Hf'. apply length_replicate.
    + rewrite Hf'. apply Forall_replicate. by apply list_elem_of_here.
    + intros table' Heq. rewrite Htable' in Heq. injection Heq as <-. reflexivity.
  - constructor; try done.
    intros [|[|t]] tr; [intros [= <-]; reflexivity|done..].
Qed.

Lemma Inv_set_bridge_address mac w :
  Inv w -> wp false (MSTP_IN_set_bridge_address mac) (fun _ w' => Inv w') w.
Proof.
  intros Hw. unfold MSTP_IN_set_bridge_address. apply wp_bind, wp_the_br, wp_bind.
  apply (wp_mono _ _ (fun _ w' => Inv w')).
  - apply Inv_keeps; [|done]. intros g []. unfold set_BridgePriority_from. keep.
  - intros u w1 Hw1. cbv beta in Hw1. case_match; [by apply wp_ret|by apply Inv_begin].
Qed.

(** The loop of MSTP_IN_set_bridge_enable over the ports. *)
Definition reset_port (b : bridge_t) (p : nat) : M unit :=
  prt ← the_port p;
  (if negb (rapidAgeingWhile prt =? 0) then MSTP_OUT_set_ageing_time p (Ageing_Time b)
   else mret tt) ;;
  mod_port p port_default_internal_vars ;;
  for_ptp_in_port p (fun t =>
    x ← the_ptp p t;
    (if negb (bool_decide (BR_STATE_DISABLED = ptp_state x)) then
       MSTP_OUT_set_state p t BR_STATE_DISABLED
     else mret tt) ;;
    mod_ptp p t ptp_default_internal_vars).

Lemma keeps_reset_port g b p :
  ids_ok (g_ids g) -> plain g -> (forall q s, ~ g_coh g q s) ->
  (p < g_np g)%nat -> keeps false g (reset_port b p).
Proof.
  intros Hids [Hpl1 Hpl2] Hno Hp. unfold reset_port, port_default_internal_vars, ptp_default_internal_vars.
  pose proof (fun t Ht => keeps_set_state false g p t Hp Ht BR_STATE_DISABLED (Hno p t)).
  keep.
Qed.

Lemma Inv_set_bridge_enable up w :
  Inv w -> wp false (MSTP_IN_set_bridge_enable up) (fun _ w' => Inv w') w.
Proof.
  intros Hw. pose proof Hw as [Hb Hi]. unfold MSTP_IN_set_bridge_enable.
  apply wp_bind, wp_the_br. case_match eqn:Hup; [by apply wp_ret|].
  apply wp_bind, wp_mod_br, wp_bind, wp_mod_br.
  set (cfg := strip ((br w) <| bridgeEnabled := up |> <| uptime := 0 |>)).
  assert (bridge_ok cfg (ids_of w)) as Hb'.
  { destruct Hb as [[] Hd]. split; [|exact Hd]. constructor; try done. by destruct bo_cfg. }
  pose (none := fun _ _ : nat => False).
  set (g := std_ghost cfg (ids_of w) (length (br_ports (br w)))).
  pose proof Hb' as [[Hcfg Hids _ _ _ _ _ _] _].
  match goal with |- wp _ _ _ ?w => set (w1 := w) end.
  assert (inv (with_coh g none) w1) as Hw1.
  { apply (coh_weaken g (fun _ _ => bridgeEnabled (strip (br w)) = true)); [|done].
    apply (inv_change_cfg _ (fun b => b <| bridgeEnabled := up |> <| uptime := 0 |>)) in Hi;
      by upd_simpl. }
  assert (plain (with_coh g none)) as Hplain by done.
  apply wp_bind. eapply (wp_mono _ _ (fun _ w' => inv (with_coh g none) w')).
  { apply wp_keeps; [|done]. unfold tree_default_internal_vars. keep. }
  intros [] w2 Hw2. cbv beta in Hw2.
  apply wp_bind. eapply (wp_mono _ _ (fun _ w' => inv (with_coh g none) w')).
  { apply wp_keeps; [|done]. apply keeps_for_port. intros p Hp.
    apply (keeps_reset_port _ (br w) p); [done|done| |done]. intros ? ? []. }
  intros [] w3 Hw3. cbv beta in Hw3. eapply wp_Inv_intro; [exact Hb'|].
  eapply br_begin_ok; [done|done|exact Hw3|].
  destruct up; [by left|right].
  eapply (coh_weaken g none); [exact Hw3|]. intros q s _ _ Hen. discriminate Hen.
Qed.

(** ** Parameters of the CIST *)

Lemma default_not_differs o old : differs o old = false -> default old o = old.
Proof. destruct o as [v|]; simpl; [|done]. intros H. by bool_hyps. Qed.

Lemma default_in_range lo hi o old :
  in_range lo hi o = true -> lo <= old <= hi -> lo <= default old o <= hi.
Proof. destruct o as [v|]; simpl; [|done]. intros H _. by bool_hyps. Qed.

(** The configuration after an accepted change. *)
Definition reconfigured (b : bridge_t) (cfg : CIST_BridgeConfig) : bridge_t := b
  <| br_Max_Age := default (br_Max_Age b) (cfg_bridge_max_age cfg) |>
  <| br_Forward_Delay := default (br_Forward_Delay b) (cfg_bridge_forward_delay cfg) |>
  <| ForceProtocolVersion := default (ForceProtocolVersion b) (cfg_protocol_version cfg) |>
  <| Transmit_Hold_Count := default (Transmit_Hold_Count b) (cfg_tx_hold_count cfg) |>
  <| MaxHops := default (MaxHops b) (cfg_max_hops cfg) |>
  <| br_Hello_Time := default (br_Hello_Time b) (cfg_bridge_hello_time cfg) |>
  <| Ageing_Time := default (Ageing_Time b) (cfg_bridge_ageing_time cfg) |>.

Lemma hello_reconfigured b cfg :
  br_Hello_Time (reconfigured b cfg) = default (br_Hello_Time b) (cfg_bridge_hello_time cfg).
Proof. unfold reconfigured. by upd_simpl. Qed.

Lemma hold_reconfigured b cfg :
  Transmit_Hold_Count (reconfigured b cfg)
  = default (Transmit_Hold_Count b) (cfg_tx_hold_count cfg).
Proof. unfold reconfigured. by upd_simpl. Qed.

(** What a request that is granted leaves in the bridge. *)
Record params_set (b : bridge_t) (cfg : CIST_BridgeConfig) (b' : bridge_t) : Prop := {
  set_age : br_Max_Age b' = default (br_Max_Age b) (cfg_bridge_max_age cfg);
  set_delay : br_Forward_Delay b' = default (br_Forward_Delay b) (cfg_bridge_forward_delay cfg);
  set_version : ForceProtocolVersion b' = default (ForceProtocolVersion b) (cfg_protocol_version cfg);
  set_hold : Transmit_Hold_Count b' = default (Transmit_Hold_Count b) (cfg_tx_hold_count cfg);
  set_hops : MaxHops b' = default (MaxHops b) (cfg_max_hops cfg);
  set_hello : br_Hello_Time b' = default (br_Hello_Time b) (cfg_bridge_hello_time cfg);
  set_ageing : Ageing_Time b' = default (Ageing_Time b) (cfg_bridge_ageing_time cfg);
  set_enabled : bridgeEnabled b' = bridgeEnabled b }.

Lemma reconfigured_params b cfg : params_set b cfg (reconfigured b cfg).
Proof. unfold reconfigured. constructor; by upd_simpl. Qed.

Lemma params_set_strip b cfg b' : params_set b cfg (strip b') -> params_set b cfg b'.
Proof. intros []. by constructor. Qed.

Lemma params_set_of_strip b cfg b' : params_set b cfg b' -> params_set b cfg (strip b').
Proof. intros []. by constructor. Qed.

Lemma reconfigured_ok b cfg :
  config_ok b -> bridge_config_valid b cfg = true -> config_ok (reconfigured b cfg).
Proof.
  intros [] Hv. unfold bridge_config_valid in Hv. bool_hyps. unfold reconfigured.
  constructor; upd_simpl; try (by apply default_in_range); try done.
  - destruct (cfg_bridge_max_age cfg), (cfg_bridge_forward_delay cfg); simpl in *; bool_hyps; lia.
  - destruct (cfg_protocol_version cfg) as [v|]; simpl in *; [|done].
    repeat match goal with H : _ || _ = true |- _ => apply orb_true_iff in H as [H|H] end;
      bool_hyps; auto.
Qed.

Lemma row_reconfig cfg cfg' ids n p prt prt' h :
  row_ok (std_ghost cfg ids n) p prt ->
  prt_trees prt' = map h (prt_trees prt) -> deleted prt' = deleted prt ->
  port_ok (std_ghost cfg' ids n) p prt' ->
  (forall t d x, ptp_ok (std_ghost cfg ids n) p t d x ->
     ptp_MSTID (h x) = ptp_MSTID x /\ ptp_ok (std_ghost cfg' ids n) p t d (h x)) ->
  row_ok (std_ghost cfg' ids n) p prt'.
Proof.
  intros (Hids & _ & Hx) Ht Hd Hok Hh. split; [|split; [done|]]; rewrite Ht.
  - rewrite map_map. etrans; [|exact Hids]. apply map_ext_in. intros x [t Hl]%list_elem_of_In%list_elem_of_lookup.
    by eapply Hh, Hx.
  - intros t x Hl. rewrite list_lookup_fmap in Hl. apply fmap_Some in Hl as (y & Hl & ->).
    rewrite Hd. by apply Hh, Hx.
Qed.

(** The loops of the operation, with the conditions that guard them. *)
Definition hold_reset (hold : bool) (prt : port_t) : port_t :=
  if hold then prt <| txCount := 0 |> else prt.

Lemma hold_loop_eq (hold : bool) w :
  (if hold then for_port_in_bridge (fun p => mod_port p (fun prt => prt <| txCount := 0 |>))
   else mret tt) w
  = Ret tt (with_br w ((br w) <| br_ports := map (hold_reset hold) (br_ports (br w)) |>)).
Proof.
  destruct hold; [apply for_port_mod_port|].
  rewrite (map_ext (hold_reset false) id) by done. by rewrite map_id, set_ports_id, with_br_id.
Qed.

Definition times_tree (changed : bool) (b : bridge_t) (tr : tree_t) : tree_t :=
  if changed then tr <| BridgeTimes := bridge_times b (BridgeTimes tr) |> else tr.
Definition times_ptp (changed : bool) (b : bridge_t) (x : per_tree_port_t) : per_tree_port_t :=
  if changed then x <| selected := false |> <| reselect := true |>
    <| portTimes := (portTimes x) <| Hello_Time := br_Hello_Time b |> |> else x.

Lemma times_loop_eq (changed : bool) w :
  (forall p prt, br_ports (br w) !! p = Some prt ->
     length (prt_trees prt) = length (br_trees (br w))) ->
  (if changed then
     b ← the_br;
     for_tree_in_bridge (fun t =>
       mod_tree t (fun tr => tr <| BridgeTimes := bridge_times b (BridgeTimes tr) |>) ;;
       for_ptp_in_tree (fun p => mod_ptp p t (fun x => x
         <| selected := false |>
         <| reselect := true |>
         <| portTimes := (portTimes x) <| Hello_Time := br_Hello_Time b |> |>)))
   else mret tt) w
  = Ret tt (with_br w ((br w)
      <| br_trees := map (times_tree changed (br w)) (br_trees (br w)) |>
      <| br_ports := map (fun prt => prt <| prt_trees :=
           map (times_ptp changed (br w)) (prt_trees prt) |>) (br_ports (br w)) |>)).
Proof.
  intros Hlen. destruct changed.
  - erewrite bind_ret by done. by rewrite for_tree_mod_all.
  - rewrite (map_ext (times_tree false _) id), map_id by done.
    rewrite (map_ext (fun prt : port_t => _) id), map_id.
    + by destruct w as [[]].
    + intros prt. rewrite (map_ext (times_ptp false _) id), map_id by done. apply set_prt_trees_id.
Qed.

(** The state after the assignments of the operation, [b] being the bridge
    with its new configuration. *)
Definition reconfigured_world (b : bridge_t) (hold times : bool) (w : world) : world :=
  with_br w (b
    <| br_trees := map (times_tree times b) (br_trees (br w)) |>
    <| br_ports := map (fun prt => (hold_reset hold prt) <| prt_trees :=
         map (times_ptp times b) (prt_trees prt) |>) (br_ports (br w)) |>).

Lemma maps_ok_reconfigured b cfg ids :
  maps_ok (strip b) ids -> config_ok (reconfigured b cfg) ->
  maps_ok (strip (reconfigured b cfg)) ids.
Proof.
  intros [] []. constructor; [constructor|..]; unfold strip in *; upd_simpl in *; try done;
    unfold reconfigured in *; upd_simpl in *; done.
Qed.

Lemma digest_ok_reconfigured b cfg :
  digest_ok (strip b) -> digest_ok (strip (reconfigured b cfg)).
Proof.
  apply digest_ok_same; [apply mapM_vid2mstid_ext; intros vid _; unfold vid2mstid|];
    unfold strip, reconfigured; by upd_simpl.
Qed.

Lemma strip_set b trees ports :
  strip (b <| br_trees := trees |> <| br_ports := ports |>) = strip b.
Proof. by destruct b. Qed.

Lemma reconfigured_inv b hold times w :
  Inv w -> bridge_ok (strip b) (ids_of w) -> bridgeEnabled b = bridgeEnabled (br w) ->
  (hold = false -> Transmit_Hold_Count b = Transmit_Hold_Count (br w)) ->
  (times = false -> br_Hello_Time b = br_Hello_Time (br w)) ->
  Inv (reconfigured_world b hold times w).
Proof.
  intros [_ Hi] Hb Hen Hthc Hhello.
  pose proof Hb as [[Hcfg _ _ _ _ _ _ _] _].
  apply (Inv_intro (strip b) (ids_of w) (length (br_ports (br w)))); [done|].
  destruct Hi as [Hc Hn Hids Htr Hr].
  constructor; unfold reconfigured_world, with_br; upd_simpl.
  - apply strip_set.
  - simpl. by rewrite length_map.
  - rewrite map_map. apply map_ext. intros tr. unfold times_tree. by destruct times.
  - intros t tr Hl. rewrite list_lookup_fmap in Hl. apply fmap_Some in Hl as (tr0 & Hl & ->).
    specialize (Htr t tr0 Hl). unfold tree_ok, times_tree in *. destruct times.
    + unfold bridge_times. by upd_simpl.
    + rewrite Htr. symmetry. exact (Hhello eq_refl).
  - intros p prt Hl. rewrite list_lookup_fmap in Hl. apply fmap_Some in Hl as (prt0 & Hl & ->).
    specialize (Hr p prt0 Hl). eapply row_reconfig; [exact Hr|by upd_simpl|..].
    + upd_simpl. by destruct hold.
    + destruct Hr as (_ & Hok & _). apply port_ok_trees. destruct Hok, Hcfg.
      constructor; destruct hold; unfold hold_reset; upd_simpl; try done.
      * cbn [g_cfg std_ghost]. lia.
      * cbn [g_cfg std_ghost]. change (Transmit_Hold_Count (strip b)) with (Transmit_Hold_Count b).
        rewrite (Hthc eq_refl). exact ok_hold.
    + intros t d x Hx. unfold times_ptp. destruct times.
      * split; [by upd_simpl|]. destruct Hx. constructor; upd_simpl; try done.
        { intros H. apply ok_pst. exact (eq_trans (eq_sym Hen) H). }
        { intros H. apply ok_kernel. exact (eq_trans (eq_sym Hen) H). }
        intros [?|Hf]; [done|destruct Hf].
      * split; [done|]. destruct Hx. constructor; try done.
        { intros H. apply ok_pst. exact (eq_trans (eq_sym Hen) H). }
        { intros H. apply ok_kernel. exact (eq_trans (eq_sym Hen) H). }
        { rewrite ok_hello. symmetry. exact (Hhello eq_refl). }
        { intros H. rewrite ok_desig by done. symmetry. exact (Hhello eq_refl). }
Qed.

Lemma inv_rectangular w p prt :
  Inv w -> br_ports (br w) !! p = Some prt -> length (prt_trees prt) = length (br_trees (br w)).
Proof.
  intros [_ Hi] Hp. rewrite (row_length _ _ _ (inv_row _ _ Hi p prt Hp)).
  unfold std_of, ids_of. simpl. by rewrite length_map.
Qed.

(** The two assignments to the bridge with the loop between them. *)
Lemma reconfigure_eq cfg hold w :
  exists w', w' = with_br w ((reconfigured (br w) cfg)
      <| br_ports := map (hold_reset hold) (br_ports (br w)) |>)
  /\ forall k : M Z,
  (mod_br (fun b => b
      <| br_Max_Age := default (br_Max_Age b) (cfg_bridge_max_age cfg) |>
      <| br_Forward_Delay := default (br_Forward_Delay b) (cfg_bridge_forward_delay cfg) |>
      <| ForceProtocolVersion := default (ForceProtocolVersion b) (cfg_protocol_version cfg) |>
      <| Transmit_Hold_Count := default (Transmit_Hold_Count b) (cfg_tx_hold_count cfg) |>) ;;
    (if hold then for_port_in_bridge (fun p => mod_port p (fun prt => prt <| txCount := 0 |>))
     else mret tt) ;;
    mod_br (fun b => b
      <| MaxHops := default (MaxHops b) (cfg_max_hops cfg) |>
      <| br_Hello_Time := default (br_Hello_Time b) (cfg_bridge_hello_time cfg) |>
      <| Ageing_Time := default (Ageing_Time b) (cfg_bridge_ageing_time cfg) |>) ;; k) w
  = k w'.
Proof.
  eexists. split; [reflexivity|]. intros k.
  erewrite bind_ret by done. erewrite bind_ret by apply hold_loop_eq. erewrite bind_ret by done.
  f_equal.
Qed.

(** The whole operation: the assignments, and then a run or a restart of the
    machines. *)
Lemma set_cist_bridge_config_eq cfg w :
  (forall p prt, br_ports (br w) !! p = Some prt ->
     length (prt_trees prt) = length (br_trees (br w))) ->
  bridge_config_valid (br w) cfg = true ->
  exists times (m : M unit), MSTP_IN_set_cist_bridge_config cfg w
    = (m ;; mret 0) (reconfigured_world (reconfigured (br w) cfg)
        (differs (cfg_tx_hold_count cfg) (Transmit_Hold_Count (br w))) times w)
    /\ (m = mret tt \/ m = br_state_machines_begin \/ m = br_state_machines_run)
    /\ (times = false -> differs (cfg_bridge_hello_time cfg) (br_Hello_Time (br w)) = false).
Proof.
  intros Hrect Hv. unfold MSTP_IN_set_cist_bridge_config. erewrite bind_ret by done.
  rewrite Hv. cbn [negb]. cbv iota zeta.
  set (hold := differs (cfg_tx_hold_count cfg) (Transmit_Hold_Count (br w))).
  set (times := _ || _ || differs (cfg_bridge_hello_time cfg) (br_Hello_Time (br w))).
  set (init := differs (cfg_protocol_version cfg) _).
  exists times, (if (times || init || hold) && bridgeEnabled (br w)
    then if init then br_state_machines_begin else br_state_machines_run else mret tt).
  split; [|split].
  - destruct (reconfigure_eq cfg hold w) as (w' & Hw' & Heq). rewrite Heq; clear Heq.
    assert (br_trees (br w') = br_trees (br w)) as Htrees
      by (rewrite Hw'; unfold with_br, reconfigured; by upd_simpl).
    assert (br_ports (br w') = map (hold_reset hold) (br_ports (br w))) as Hports
      by (rewrite Hw'; unfold with_br; by upd_simpl).
    erewrite bind_ret.
    2:{ apply times_loop_eq. intros p prt. rewrite Htrees, Hports, list_lookup_fmap.
        destruct (br_ports (br w) !! p) as [prt0|] eqn:Hp; [|done]. intros [= <-].
        rewrite <-(Hrect p prt0) by done. unfold hold_reset. by destruct hold. }
    f_equal. rewrite Htrees, Hports, map_map. rewrite Hw'. unfold reconfigured_world, with_br.
    upd_simpl. generalize (reconfigured (br w) cfg) as b. intros b.
    by destruct w as [[]], b, hold, times.
  - repeat case_match; auto.
  - intros Ht. unfold times in Ht. by bool_hyps.
Qed.

Lemma run_or_begin_keeps (m : M unit) w :
  m = mret tt \/ m = br_state_machines_begin \/ m = br_state_machines_run ->
  Inv w -> wp false m (fun _ w' => inv (std_of w) w') w.
Proof.
  intros Hm Hw. pose proof Hw as [[Hmaps _] Hi]. pose proof Hmaps as [].
  destruct Hm as [->|[->| ->]]; [by apply wp_ret| |].
  - apply (br_begin_ok _ _ _ bo_ids bo_cfg (g_coh (std_of w))); [|by right].
    by rewrite with_coh_id.
  - apply wp_keeps; [|done]. by apply keeps_run, std_runnable.
Qed.

(** A valid request is granted, and sets exactly what it asks for. *)
Lemma set_cist_bridge_config_ok cfg w :
  Inv w -> bridge_config_valid (br w) cfg = true ->
  wp false (MSTP_IN_set_cist_bridge_config cfg)
    (fun r w' => r = 0 /\ Inv w' /\ strip (br w') = strip (reconfigured (br w) cfg)) w.
Proof.
  intros Hw Hv.
  destruct (set_cist_bridge_config_eq cfg w) as (times & m & Heq & Hm & Htimes);
    [by intros p prt; apply inv_rectangular|done|].
  set (w1 := reconfigured_world _ _ _ _) in Heq.
  assert (Inv w1) as Hw1.
  { pose proof Hw as [[Hmaps Hd] _]. apply reconfigured_inv; [done| | | |].
    - split; [|by apply digest_ok_reconfigured]. apply maps_ok_reconfigured; [done|].
      apply reconfigured_ok; [|done]. destruct Hmaps as [[]]. by constructor.
    - unfold reconfigured. by upd_simpl.
    - intros Hh. rewrite hold_reconfigured. by apply default_not_differs.
    - intros Hh. rewrite hello_reconfigured. by apply default_not_differs, Htimes. }
  eapply wp_at_eq; [exact Heq|]. apply wp_bind.
  eapply wp_mono; [by apply run_or_begin_keeps|]. intros u w' Hw'. cbv beta in Hw'. apply wp_ret.
  split; [done|]. split; [exact (Inv_intro _ _ _ _ (proj1 Hw1) Hw')|].
  rewrite (inv_cfg _ _ Hw'). apply strip_set.
Qed.

Lemma invalid_bridge_config cfg w :
  bridge_config_valid (br w) cfg = false -> MSTP_IN_set_cist_bridge_config cfg w = Ret (-1) w.
Proof. intros Hv. unfold MSTP_IN_set_cist_bridge_config, the_br, mbind, M_bind. by rewrite Hv. Qed.

Lemma Inv_set_cist_bridge_config cfg w :
  Inv w -> wp false (MSTP_IN_set_cist_bridge_config cfg) (fun _ w' => Inv w') w.
Proof.
  intros Hw. destruct (bridge_config_valid (br w) cfg) eqn:Hv.
  - eapply wp_mono; [by apply set_cist_bridge_config_ok|]. naive_solver.
  - eapply wp_eq; [by apply invalid_bridge_config|done].
Qed.
