(* ===== verification/MstpTreesOk.v ===== *)
(** * Creation and deletion of trees keep the invariant *)

From stdpp Require Import sets.
From S2P Require Import Prelude Bytes MstpTypes MstpPriority MstpBpdu MstpMonad MstpOut.
From S2P Require Import MstpPort MstpInfo MstpRoles MstpTransitions MstpForwarding MstpRun.
From S2P Require Import HmacMd5 MstpConfig MstpEvents MstpAdmin MstpVlan MstpInv.
From S2P Require Import MstpPortOk MstpInfoOk MstpRolesOk MstpTransitionsOk MstpForwardingOk.
From S2P Require Import MstpRunOk MstpInvariant MstpVlanOk MstpLoops MstpEventsOk.
From Stdlib Require Import Sorting.Sorted.

(** ** Sorted lists of identifiers *)

Lemma sorted_insert l1 l2 x :
  StronglySorted Z.lt (l1 ++ l2) -> Forall (fun y => y < x) l1 -> Forall (fun y => x < y) l2 ->
  StronglySorted Z.lt (l1 ++ x :: l2).
Proof.
  induction l1 as [|y l1 IH]; simpl; intros Hs H1 H2; [by constructor|].
  inversion Hs as [|? ? Hs' Hy]; subst. inversion H1 as [|? ? Hyx H1']; subst.
  constructor; [by apply IH|]. apply Forall_app in Hy as [Hy1 Hy2].
  apply Forall_app. split; [done|]. by constructor.
Qed.

Lemma sorted_remove l1 l2 x :
  StronglySorted Z.lt (l1 ++ x :: l2) -> StronglySorted Z.lt (l1 ++ l2).
Proof.
  induction l1 as [|y l1 IH]; simpl; intros Hs; inversion Hs as [|? ? Hs' Hy]; subst; [done|].
  constructor; [by apply IH|]. apply Forall_app in Hy as [Hy1 Hy2]. inversion Hy2; subst.
  by apply Forall_app.
Qed.

Lemma sorted_lookup_lt l i j x y :
  StronglySorted Z.lt l -> l !! i = Some x -> l !! j = Some y -> (i < j)%nat -> x < y.
Proof.
  intros Hs. revert i j. induction Hs as [|z l Hs IH Hz]; intros [|i] [|j] Hi Hj Hlt; try lia; try done.
  - simpl in Hi. injection Hi as <-. simpl in Hj. by eapply Forall_lookup_1 in Hj.
  - eapply IH; [exact Hi|exact Hj|lia].
Qed.

(** ** The position of a new tree *)

Lemma tree_after_from_spec trees i after mstid k :
  tree_after_from i after mstid trees = Some k ->
  (after = Some k /\ Forall (fun tr => mstid <= tree_MSTID tr) trees)
  \/ exists j tr, k = (i + j)%nat /\ trees !! j = Some tr /\ tree_MSTID tr < mstid
     /\ forall j' tr', (j < j')%nat -> trees !! j' = Some tr' -> mstid <= tree_MSTID tr'.
Proof.
  revert i after. induction trees as [|tr trees IH]; intros i after; simpl.
  - intros ->. by left.
  - intros [(Haft & Hge)|(j & tr' & -> & Hj & Hlt & Hrest)]%IH.
    + destruct (tree_MSTID tr <? mstid) eqn:E; bool_hyps.
      * right. exists 0%nat, tr. injection Haft as <-. rewrite Nat.add_0_r.
        do 3 (split; [done|]). intros [|j'] tr' Hj' Hl; [lia|].
        by eapply Forall_lookup_1 in Hge.
      * left. split; [done|]. by constructor.
    + right. exists (S j), tr'. split; [lia|]. do 2 (split; [done|]).
      intros [|j'] tr2 Hj' Hl; [lia|]. eapply Hrest; [|exact Hl]. lia.
Qed.

(** In an ordered list the identifiers up to the position are smaller, the
    others are larger. *)
Lemma tree_after_split trees mstid k :
  StronglySorted Z.lt (map tree_MSTID trees) ->
  mstid ∉ map tree_MSTID trees -> tree_after mstid trees = Some k ->
  (k < length trees)%nat
  /\ Forall (fun id => id < mstid) (take (S k) (map tree_MSTID trees))
  /\ Forall (fun id => mstid < id) (drop (S k) (map tree_MSTID trees)).
Proof.
  intros Hs Hnin Hk. unfold tree_after in Hk.
  destruct (tree_after_from_spec _ _ _ _ _ Hk) as [[? _]|(j & tr & Hkj & Hj & Hlt & Hrest)]; [done|].
  simpl in Hkj. subst j.
  assert (map tree_MSTID trees !! k = Some (tree_MSTID tr)) as Hk' by (by rewrite list_lookup_fmap, Hj).
  split; [by eapply lookup_lt_Some|]. split; apply Forall_lookup.
  - intros i id Hi. apply lookup_take_Some in Hi as [Hi Hlt'].
    destruct (decide (i = k)) as [->|Hne].
    + rewrite Hk' in Hi. by injection Hi as <-.
    + transitivity (tree_MSTID tr); [|done]. eapply sorted_lookup_lt; [done..|]. lia.
  - intros i id Hi. rewrite lookup_drop in Hi.
    assert (id <> mstid) by (intros ->; apply Hnin; by eapply list_elem_of_lookup_2).
    pose proof Hi as Hi2. rewrite list_lookup_fmap in Hi2. apply fmap_Some in Hi2 as (tr' & Htr' & ->).
    assert (mstid <= tree_MSTID tr') by (eapply Hrest; [|exact Htr']; lia). lia.
Qed.

Lemma lookup_insert_at {A} i (x : A) l j y :
  (i <= length l)%nat -> insert_at i x l !! j = Some y ->
  (j = i /\ y = x) \/ (j <> i /\ exists j', l !! j' = Some y).
Proof.
  intros Hi. unfold insert_at. intros [H|[Hge H]]%lookup_app_Some.
  - apply lookup_take_Some in H as [H Hlt]. right. split; [lia|eauto].
  - rewrite length_take, Nat.min_l in Hge, H by done. destruct (j - i)%nat as [|m] eqn:E.
    + left. simpl in H. split; [lia|congruence].
    + right. split; [lia|]. simpl in H. rewrite lookup_drop in H. eauto.
Qed.

Lemma map_insert_at {A B} (f : A -> B) i x l :
  map f (insert_at i x l) = insert_at i (f x) (map f l).
Proof. unfold insert_at. rewrite map_app. simpl. by rewrite <-fmap_take, <-fmap_drop. Qed.

Lemma length_insert_at' {A} i (x : A) l : length (insert_at i x l) = S (length l).
Proof. apply length_insert_at. Qed.

Lemma insert_at_S_tail {A} i (x : A) y l : insert_at (S i) x (y :: l) = y :: insert_at i x l.
Proof. done. Qed.

(** ** Creation *)

Lemma maps_ok_new_tree b ids mstid k :
  maps_ok b ids -> 0 < mstid <= MAX_MSTID -> (length ids <= Z.to_nat MAX_IMPLEMENTATION_MSTIS)%nat ->
  Forall (fun id => id < mstid) (take (S k) ids) ->
  Forall (fun id => mstid < id) (drop (S k) ids) ->
  maps_ok b (insert_at (S k) mstid ids).
Proof.
  intros [Hcfg (Hhd & Htl & Hlen) Hs Hr Hv Hf Hfl Hm] Hid Hmax H1 H2.
  constructor; try done.
  - destruct ids as [|id0 ids]; [done|]. rewrite insert_at_S_tail. simpl in Hhd, Htl.
    split; [done|]. split.
    + unfold insert_at. simpl. apply Forall_app. split; [by apply Forall_take|].
      constructor; [lia|by apply Forall_drop].
    + simpl. rewrite length_insert_at'. simpl in Hmax. unfold MAX_IMPLEMENTATION_MSTIS, MAX_STANDARD_MSTIS in *. lia.
  - apply sorted_insert; [by rewrite take_drop|done..].
  - unfold insert_at. apply Forall_app. split; [by apply Forall_take|].
    constructor; [lia|by apply Forall_drop].
  - eapply Forall_impl; [|exact Hm]. simpl. intros id Hin. unfold insert_at.
    rewrite <-(take_drop (S k) ids) in Hin. rewrite !elem_of_app in *. rewrite elem_of_cons. tauto.
Qed.

(** What the creation of a tree answers and leaves. *)
Definition msti_created (mstid : Z) (w : world) (r : bool) (w' : world) : Prop :=
  Inv w' /\
  if r then 0 < mstid <= MAX_MSTID /\ (forall id, id ∈ ids_of w' <-> id = mstid \/ id ∈ ids_of w)
  else w' = w /\ (~ (0 < mstid <= MAX_MSTID) \/ Z.of_nat (length (br_trees (br w))) = 64).

Lemma elem_of_insert_at {A} i (x : A) l y : y ∈ insert_at i x l <-> y = x \/ y ∈ l.
Proof.
  unfold insert_at. rewrite elem_of_app, elem_of_cons. rewrite <-(take_drop i l) at 3.
  rewrite elem_of_app. tauto.
Qed.

Lemma tree_exists_iff b id : tree_exists b id = true <-> id ∈ map tree_MSTID (br_trees b).
Proof.
  unfold tree_exists. rewrite existsb_exists, list_elem_of_fmap. split.
  - intros (tr & Hin & Heq). bool_hyps. exists tr. split; [done|]. by apply list_elem_of_In.
  - intros (tr & -> & Hin). exists tr. split; [by apply list_elem_of_In|apply Z.eqb_refl].
Qed.

Lemma tree_after_first (trees : list tree_t) mstid :
  head (map tree_MSTID trees) = Some 0 -> 0 < mstid -> is_Some (tree_after mstid trees).
Proof.
  destruct trees as [|tr trees]; [done|]. intros [= H0] Hm. unfold tree_after. cbn [tree_after_from].
  rewrite H0. replace (0 <? mstid) with true by (symmetry; by apply Z.ltb_lt).
  assert (forall i j, is_Some (tree_after_from i (Some j) mstid trees)) as H; [|apply H].
  induction trees as [|tr' trees IH]; intros i j; [by eexists|].
  cbn [tree_after_from]. case_match; apply IH.
Qed.

Lemma create_msti_ok mstid w :
  Inv w -> wp false (MSTP_IN_create_msti mstid) (msti_created mstid w) w.
Proof.
  intros [Hb Hi]. pose proof Hb as [Hmaps Hd]. pose proof Hmaps as [Hcfg Hids Hs _ _ _ _ _].
  assert (Inv w) as HInv by by split.
  unfold MSTP_IN_create_msti. case_match eqn:Hrange.
  { apply wp_ret. split; [done|]. split; [done|]. left. apply orb_true_iff in Hrange.
    destruct Hrange; bool_hyps; lia. }
  bool_hyps.
  apply wp_bind, wp_the_br. case_match eqn:Hex.
  { apply wp_ret. split; [done|]. split; [lia|]. intros id. apply tree_exists_iff in Hex.
    split; [by right|]. by intros [->|]. }
  destruct (tree_after mstid (br_trees (br w))) as [k|] eqn:Hk.
  2:{ destruct (tree_after_first (br_trees (br w)) mstid) as [k' Hk']; [apply Hids|lia|congruence]. }
  case_match eqn:Hmax; bool_hyps.
  { apply wp_ret. split; [done|]. split; [done|]. right. destruct Hids as (_ & _ & Hlen).
    unfold ids_of in Hlen. rewrite length_map in Hlen.
    unfold MAX_IMPLEMENTATION_MSTIS, MAX_STANDARD_MSTIS in *. lia. }
  assert (mstid ∉ ids_of w) as Hnin.
  { intros Hin. apply tree_exists_iff in Hin. congruence. }
  destruct (tree_after_split _ _ _ Hs Hnin Hk) as (Hklen & H1 & H2).
  pose proof Hi as [Hc Hn Hids' Htr Hr].
  apply wp_bind. eapply wp_the_tree; [exact Hi| |].
  { unfold std_of, ids_of. simpl. rewrite length_map. lia. }
  intros cist _ _. set (new := create_tree _ _ mstid).
  apply wp_bind. eapply wp_eq; [apply for_port_mod_port|]. apply wp_bind, wp_mod_br.
  set (ids := insert_at (S k) mstid (ids_of w)). set (n := length (br_ports (br w))).
  assert (maps_ok (strip (br w)) ids) as Hmaps'.
  { apply maps_ok_new_tree; try done; unfold MAX_MSTID, MAX_IMPLEMENTATION_MSTIS in *; [lia|].
    unfold ids_of. rewrite length_map. lia. }
  pose proof Hmaps' as [_ Hids'' _ _ _ _ _ _].
  match goal with |- wp _ _ _ ?w => set (w1 := w) end. apply wp_bind.
  eapply wp_mono.
  - apply (tree_begin_ok (strip (br w)) ids n Hids'' Hcfg (S k) w1).
    { unfold ids. rewrite length_insert_at'. unfold ids_of. rewrite length_map. lia. }
    assert (tree_ok (std_ghost (strip (br w)) ids n) new) as Hnew by exact (hello_create_tree (br w) _ mstid).
    constructor; unfold w1, with_br; upd_simpl; try done.
    + by rewrite length_map.
    + apply map_insert_at.
    + intros t tr Ht. apply lookup_insert_at in Ht as [[-> ->]|(_ & t' & Ht)]; [done| |lia].
      exact (Htr t' tr Ht).
    + intros p prt Hp. rewrite list_lookup_fmap in Hp. apply fmap_Some in Hp as (prt0 & Hp & ->).
      destruct (Hr p prt0 Hp) as (Hrow & Hport & Hptp).
      assert (length (prt_trees prt0) = length (br_trees (br w))) as Hlen
        by (by eapply (inv_rectangular w p)).
      split; [|split]; upd_simpl.
      * rewrite map_insert_at. exact (f_equal (insert_at (S k) mstid) Hrow).
      * apply port_ok_trees. destruct Hport. by constructor.
      * intros t x Ht. apply lookup_insert_at in Ht as [[-> ->]|(Hne & t' & Ht)].
        { apply (create_ptp_ok _ _ _ (fun _ s => s <> S k)); [done|]. tauto. }
        { destruct (Hptp t' x Ht). constructor; try done; simpl in *; tauto. }
        lia.
  - intros u w2 Hw2. apply wp_ret.
    split; [eapply Inv_intro; [split; [exact Hmaps'|exact Hd]|exact Hw2]|]. split; [lia|]. intros id.
    assert (ids_of w2 = ids) as -> by exact (inv_ids _ _ Hw2). apply elem_of_insert_at.
Qed.

Lemma Inv_create_msti mstid w :
  Inv w -> wp false (MSTP_IN_create_msti mstid) (fun _ w' => Inv w') w.
Proof. intros Hw. eapply wp_mono; [by apply create_msti_ok|]. by intros r w' [Hw' _]. Qed.

(** ** Deletion *)

Lemma find_tree_spec mstid trees t :
  find_tree mstid trees = Some t -> exists tr, trees !! t = Some tr /\ tree_MSTID tr = mstid.
Proof.
  revert t. induction trees as [|tr trees IH]; intros t; simpl; [done|].
  case_match; bool_hyps.
  - intros [= <-]. by exists tr.
  - intros (t' & Ht & ->)%fmap_Some. destruct (IH t' Ht) as (tr' & ? & ?). by exists tr'.
Qed.

Lemma find_tree_none mstid trees :
  find_tree mstid trees = None -> mstid ∉ map tree_MSTID trees.
Proof.
  induction trees as [|tr trees IH]; simpl; [intros _ []%elem_of_nil|].
  case_match; [done|]. bool_hyps. intros ?%fmap_None [->|Hin]%elem_of_cons; [done|]. by apply IH.
Qed.

Lemma map_delete {A B} (f : A -> B) i l : map f (delete i l) = delete i (map f l).
Proof. revert i. induction l as [|x l IH]; intros [|i]; simpl; f_equal; auto. Qed.

Lemma elem_of_delete {A} i (l : list A) x : x ∈ delete i l -> x ∈ l.
Proof.
  intros [j Hj]%list_elem_of_lookup. apply lookup_delete_elem in Hj as [k Hk].
  by eapply list_elem_of_lookup_2.
Qed.

Lemma maps_ok_without_tree b ids t mstid :
  maps_ok b ids -> ids !! t = Some mstid -> mstid <> 0 ->
  existsb (Z.eqb mstid) (fid2mstid b) = false ->
  maps_ok b (delete t ids).
Proof.
  intros [Hcfg (Hhd & Htl & Hlen) Hs Hr Hv Hf Hfl Hm] Ht Hne Hno.
  pose proof (take_drop_middle _ _ _ Ht) as Hsplit.
  pose proof (delete_take_drop ids t) as Hdel.
  destruct ids as [|id0 ids]; [done|]. destruct t as [|t]; [simpl in *; congruence|].
  constructor; try done.
  - split; [done|]. split.
    + simpl. eapply Forall_forall. intros id Hid%list_elem_of_In%elem_of_delete.
      rewrite Forall_forall in Htl. by apply Htl, list_elem_of_In.
    + etrans; [|exact Hlen]. simpl. rewrite length_delete; [lia|]. simpl in Ht. by rewrite Ht.
  - rewrite Hdel. apply (sorted_remove _ _ mstid). by rewrite Hsplit.
  - apply Forall_forall. intros id Hid%list_elem_of_In%elem_of_delete.
    rewrite Forall_forall in Hr. by apply Hr, list_elem_of_In.
  - apply Forall_forall. intros id Hid. rewrite Forall_forall in Hm. specialize (Hm id Hid).
    rewrite Hdel. rewrite <-Hsplit in Hm. rewrite elem_of_app, elem_of_cons in Hm.
    rewrite elem_of_app. destruct Hm as [?|[->|?]]; [tauto| |tauto].
    exfalso. assert (existsb (Z.eqb mstid) (fid2mstid b) = true) as Hyes; [|congruence].
    apply existsb_exists. exists mstid. split; [done|apply Z.eqb_refl].
Qed.

(** What the deletion of a tree answers and leaves. *)
Definition msti_deleted (mstid : Z) (w : world) (r : bool) (w' : world) : Prop :=
  Inv w' /\
  if r then mstid ∉ ids_of w' /\ (forall id, id ∈ ids_of w' <-> id <> mstid /\ id ∈ ids_of w)
  else w' = w /\ (~ (0 < mstid <= MAX_MSTID) \/ mstid ∈ fid2mstid (br w)).

Lemma elem_of_delete_sorted l t x y :
  StronglySorted Z.lt l -> l !! t = Some x -> y ∈ delete t l <-> y <> x /\ y ∈ l.
Proof.
  intros Hs Ht. split.
  - intros Hy. split; [|by eapply elem_of_delete]. intros ->.
    apply list_elem_of_lookup in Hy as [i Hi]. rewrite list_lookup_delete in Hi. 
    case_match; [|].
    + pose proof (sorted_lookup_lt l i t x x Hs Hi Ht). lia.
    + pose proof (sorted_lookup_lt l t (S i) x x Hs Ht Hi). lia.
  - intros [Hne Hy]. apply list_elem_of_lookup in Hy as [i Hi].
    destruct (decide (i = t)) as [->|Hit]; [congruence|].
    apply list_elem_of_lookup. destruct (decide (i < t)%nat).
    + exists i. by rewrite list_lookup_delete_lt.
    + exists (i - 1)%nat. rewrite list_lookup_delete_ge by lia. by replace (S (i - 1)) with i by lia.
Qed.

Lemma delete_msti_ok mstid w :
  Inv w -> wp false (MSTP_IN_delete_msti mstid) (msti_deleted mstid w) w.
Proof.
  intros [[Hmaps Hd] Hi]. assert (Inv w) as HInv by (split; [by split|done]). pose proof Hi as [Hc Hn Hids' Htr Hr].
  unfold MSTP_IN_delete_msti. case_match eqn:Hrange.
  { apply wp_ret. split; [done|]. split; [done|]. left. apply orb_true_iff in Hrange.
    destruct Hrange; bool_hyps; lia. }
  bool_hyps.
  apply wp_bind, wp_the_br. case_match eqn:Hex.
  { apply wp_ret. split; [done|]. split; [done|]. right. apply existsb_exists in Hex as (id & Hin & Heq).
    bool_hyps. subst. by apply list_elem_of_In. }
  destruct (find_tree mstid (br_trees (br w))) as [t|] eqn:Ht.
  2:{ apply wp_ret. apply find_tree_none in Ht. split; [done|]. split; [exact Ht|].
      intros id. split; [|by intros []]. intros Hin. split; [|done]. by intros ->. }
  apply find_tree_spec in Ht as (tr & Ht & Htid).
  apply wp_bind, wp_mod_br, wp_bind. eapply wp_eq; [apply for_port_mod_port|].
  match goal with |- wp _ _ _ ?w => set (w1 := w) end.
  assert (ids_of w !! t = Some mstid) as Hid by (unfold ids_of; rewrite list_lookup_fmap, Ht; simpl; congruence).
  assert (inv (std_ghost (strip (br w)) (delete t (ids_of w)) (length (br_ports (br w)))) w1) as Hw1.
  2:{ assert (Inv w1) as HInv1.
      { eapply Inv_intro; [|exact Hw1]. split; [|exact Hd].
        eapply maps_ok_without_tree; [exact Hmaps|exact Hid|lia|exact Hex]. }
      apply wp_bind. eapply wp_mono; [apply (run_or_begin_keeps _ w1); [by right; right|done]|].
      intros u w2 Hw2. cbv beta in Hw2. apply wp_ret.
      assert (ids_of w2 = delete t (ids_of w)) as Hids2.
      { transitivity (ids_of w1); [exact (inv_ids _ _ Hw2)|exact (inv_ids _ _ Hw1)]. }
      split; [exact (Inv_intro _ _ _ _ (proj1 HInv1) Hw2)|]. rewrite Hids2.
      assert (forall id, id ∈ delete t (ids_of w) <-> id <> mstid /\ id ∈ ids_of w) as Hdel
        by (intros id; apply elem_of_delete_sorted; [apply Hmaps|exact Hid]).
      split; [|exact Hdel]. intros Hin. by apply Hdel in Hin as [? _]. }
  constructor; unfold w1, with_br; upd_simpl.
  - done.
  - simpl. by rewrite length_map.
  - rewrite map_delete. done.
  - intros s tr' [s' Hs]%lookup_delete_elem. exact (Htr s' tr' Hs).
  - intros p prt Hp. rewrite list_lookup_fmap in Hp. apply fmap_Some in Hp as (prt0 & Hp & ->).
    destruct (Hr p prt0 Hp) as (Hrow & Hport & Hptp). split; [|split]; upd_simpl.
    + rewrite map_delete. exact (f_equal (delete t) Hrow).
    + apply port_ok_trees. destruct Hport. by constructor.
    + intros s x [s' Hs]%lookup_delete_elem. destruct (Hptp s' x Hs). by constructor.
Qed.

Lemma Inv_delete_msti mstid w :
  Inv w -> wp false (MSTP_IN_delete_msti mstid) (fun _ w' => Inv w') w.
Proof. intros Hw. eapply wp_mono; [by apply delete_msti_ok|]. by intros r w' [Hw' _]. Qed.
