(* ===== verification/MstpSafety.v ===== *)
(** * Every event of the daemon is safe

    The life of a bridge as a transition system: it is created, and then any
    sequence of the MSTP_IN_* calls that mstpd/src/bridge_track.c can make
    happens to it. In every state so reached the invariant holds and no call
    dereferences an invalid pointer. *)

From S2P Require Import Prelude Bytes MstpTypes MstpPriority MstpBpdu MstpMonad MstpOut.
From S2P Require Import MstpPort MstpInfo MstpRoles MstpTransitions MstpForwarding MstpRun.
From S2P Require Import HmacMd5 MstpConfig MstpEvents MstpAdmin MstpVlan MstpInv.
From S2P Require Import MstpPortOk MstpInfoOk MstpRolesOk MstpTransitionsOk MstpForwardingOk.
From S2P Require Import MstpRunOk MstpInvariant MstpVlanOk MstpLoops MstpEventsOk MstpTreesOk.

(** ** The calls *)
Inductive call :=
  | C_port_create (sd : sysdep_if_data_t) (portno : Z)
  | C_delete_port (p : nat)
  | C_set_bridge_address (macaddr : Z)
  | C_set_bridge_enable (up : bool)
  | C_set_port_enable (p : nat) (up : bool) (speed duplex : Z)
  | C_one_second
  | C_all_fids_flushed (p t : nat)
  | C_rx_bpdu (p : nat) (buf : list Z) (size : Z)
  | C_set_vid2fid (vid fid : Z)
  | C_set_all_vids2fids (vids2fids : list Z)
  | C_set_fid2mstid (fid mstid : Z)
  | C_set_all_fids2mstids (fids2mstids : list Z)
  | C_create_msti (mstid : Z)
  | C_delete_msti (mstid : Z)
  | C_set_mst_config_id (revision : Z) (name : list Z)
  | C_set_cist_bridge_config (cfg : CIST_BridgeConfig)
  | C_set_msti_bridge_config (t : nat) (bridge_priority : Z)
  | C_set_cist_port_config (p : nat) (cfg : CIST_PortConfig)
  | C_set_msti_port_config (p t : nat) (cfg : MSTI_PortConfig)
  | C_port_mcheck (p : nat)
  | C_get_cist_bridge_status
  | C_get_msti_bridge_status (t : nat)
  | C_get_cist_port_status (p : nat)
  | C_get_msti_port_status (p t : nat)
  | C_get_mstilist.

Definition discard {A} (m : M A) : M unit := m ≫= fun _ => mret tt.

Definition perform (c : call) : M unit :=
  match c with
  | C_port_create sd portno => discard (MSTP_IN_port_create_and_add_tail sd portno)
  | C_delete_port p => MSTP_IN_delete_port p
  | C_set_bridge_address mac => MSTP_IN_set_bridge_address mac
  | C_set_bridge_enable up => MSTP_IN_set_bridge_enable up
  | C_set_port_enable p up speed duplex => MSTP_IN_set_port_enable p up speed duplex
  | C_one_second => MSTP_IN_one_second
  | C_all_fids_flushed p t => MSTP_IN_all_fids_flushed p t
  | C_rx_bpdu p buf size => MSTP_IN_rx_bpdu p buf size
  | C_set_vid2fid vid fid => discard (MSTP_IN_set_vid2fid vid fid)
  | C_set_all_vids2fids l => discard (MSTP_IN_set_all_vids2fids l)
  | C_set_fid2mstid fid mstid => discard (MSTP_IN_set_fid2mstid fid mstid)
  | C_set_all_fids2mstids l => discard (MSTP_IN_set_all_fids2mstids l)
  | C_create_msti mstid => discard (MSTP_IN_create_msti mstid)
  | C_delete_msti mstid => discard (MSTP_IN_delete_msti mstid)
  | C_set_mst_config_id rev name => MSTP_IN_set_mst_config_id rev name
  | C_set_cist_bridge_config cfg => discard (MSTP_IN_set_cist_bridge_config cfg)
  | C_set_msti_bridge_config t pri => discard (MSTP_IN_set_msti_bridge_config t pri)
  | C_set_cist_port_config p cfg => discard (MSTP_IN_set_cist_port_config p cfg)
  | C_set_msti_port_config p t cfg => discard (MSTP_IN_set_msti_port_config p t cfg)
  | C_port_mcheck p => discard (MSTP_IN_port_mcheck p)
  | C_get_cist_bridge_status => discard MSTP_IN_get_cist_bridge_status
  | C_get_msti_bridge_status t => discard (MSTP_IN_get_msti_bridge_status t)
  | C_get_cist_port_status p => discard (MSTP_IN_get_cist_port_status p)
  | C_get_msti_port_status p t => discard (MSTP_IN_get_msti_port_status p t)
  | C_get_mstilist => discard MSTP_IN_get_mstilist
  end.

Definition port_exists (w : world) (p : nat) : Prop := (p < length (br_ports (br w)))%nat.
Definition tree_exists_at (w : world) (t : nat) : Prop := (t < length (br_trees (br w)))%nat.

(** The callers pass pointers to existing objects, arrays of the declared
    size, and unsigned integers. *)
Definition valid_call (w : world) (c : call) : Prop :=
  match c with
  | C_delete_port p | C_set_port_enable p _ _ _ | C_rx_bpdu p _ _ | C_set_cist_port_config p _
  | C_port_mcheck p | C_get_cist_port_status p => port_exists w p
  | C_all_fids_flushed p t | C_set_msti_port_config p t _ | C_get_msti_port_status p t =>
      port_exists w p /\ tree_exists_at w t
  | C_set_msti_bridge_config t _ | C_get_msti_bridge_status t => tree_exists_at w t
  | C_set_vid2fid _ fid => 0 <= fid
  | C_set_fid2mstid fid _ => 0 <= fid
  | C_set_all_vids2fids l =>
      (Z.to_nat (MAX_VID + 1) <= length l)%nat /\ Forall (fun fid => 0 <= fid) l
  | C_set_all_fids2mstids l => (Z.to_nat (MAX_FID + 1) <= length l)%nat
  | _ => True
  end.

(** ** Reachable states

    Between the calls, the rest of the daemon sends other things, lets time
    pass, uses the stack, and updates the system dependent members of a
    bridge and of its ports; it touches nothing else. *)
Definition set_if_sysdeps (p : nat) (f : sysdep_if_data_t -> sysdep_if_data_t) : bridge_t -> bridge_t :=
  alter_port p (fun prt => prt <| prt_sysdeps := f (prt_sysdeps prt) |>).

Inductive reachable : world -> Prop :=
  | reach_create sd mac w b w' :
      br w = calloc_bridge sd -> MSTP_IN_bridge_create mac w = Ret b w' -> reachable w'
  | reach_call w c w' :
      reachable w -> valid_call w c -> perform c w = Ret tt w' -> reachable w'
  | reach_outside w w' : reachable w -> br w' = br w -> reachable w'
  | reach_br_sysdeps w f :
      reachable w -> reachable (with_br w ((br w) <| br_sysdeps := f (br_sysdeps (br w)) |>))
  | reach_if_sysdeps w p f :
      reachable w -> reachable (with_br w (set_if_sysdeps p f (br w))).

Lemma wp_discard {A} (m : M A) w :
  wp false m (fun _ w' => Inv w') w -> wp false (discard m) (fun _ w' => Inv w') w.
Proof. intros Hm. unfold discard. apply wp_bind. eapply wp_mono; [exact Hm|]. intros a w' Hw'. by apply wp_ret. Qed.

Lemma Inv_keeps_at {A} (m : M A) w :
  Inv w ->
  (forall g, runnable g -> g_np g = length (br_ports (br w)) ->
     length (g_ids g) = length (br_trees (br w)) -> keeps false g m) ->
  wp false m (fun _ w' => Inv w') w.
Proof.
  intros [Hb Hw] Hm. eapply wp_Inv_intro; [done|]. apply wp_keeps; [|done].
  destruct Hb as [[] _]. apply Hm; [by apply std_runnable|done|].
  unfold std_of, ids_of. simpl. by rewrite length_map.
Qed.

Lemma perform_ok c w :
  Inv w -> valid_call w c -> wp false (perform c) (fun _ w' => Inv w') w.
Proof.
  intros Hw Hv. destruct c; simpl in *; unfold port_exists, tree_exists_at in *; try apply wp_discard;
    first
    [ by apply Inv_port_create | by apply Inv_delete_port | by apply Inv_set_bridge_address
    | by apply Inv_set_bridge_enable | by apply Inv_one_second | by apply Inv_set_vid2fid
    | by (apply Inv_set_all_vids2fids; [done|apply Hv..]) | by apply Inv_set_fid2mstid | by apply Inv_set_all_fids2mstids
    | by apply Inv_create_msti | by apply Inv_delete_msti | by apply Inv_set_mst_config_id
    | by apply Inv_set_cist_bridge_config
    | apply Inv_keeps_at; [done|]; intros g Hg Hnp Hnt ].
  all: assert (0 < length (g_ids g))%nat as Hnt0
    by (destruct Hg as [(Hhd & _) _ _ _]; destruct (g_ids g); [done|simpl; lia]).
  - apply keeps_set_port_enable; [done|lia].
  - apply keeps_all_fids_flushed; [done|lia..].
  - apply keeps_rx_bpdu; [done|lia].
  - apply keeps_set_msti_bridge_config; [done|lia].
  - apply keeps_set_cist_port_config; [done|lia].
  - apply keeps_set_msti_port_config; [done|lia..].
  - apply keeps_port_mcheck; [done|lia].
  - unfold MSTP_IN_get_cist_bridge_status. keep.
  - unfold MSTP_IN_get_msti_bridge_status. keep.
  - unfold MSTP_IN_get_cist_port_status, MSTP_IN_get_msti_port_status, the_cist. keep.
  - unfold MSTP_IN_get_msti_port_status. keep.
  - unfold MSTP_IN_get_mstilist. keep.
Qed.

(** The invariants do not speak about what is outside of the engine. *)
Lemma Inv_outside w w' : Inv w -> br w' = br w -> Inv w'.
Proof. intros [Hb []] Heq. split; [|constructor]; unfold std_of, ids_of in *; by rewrite ?Heq. Qed.

Lemma Inv_br_sysdeps w f :
  Inv w -> Inv (with_br w ((br w) <| br_sysdeps := f (br_sysdeps (br w)) |>)).
Proof.
  intros [[[Hcfg Hids Hs Hr Hv Hfr Hf Hm] Hd] [_ _ _ Htr Hrow]]. split.
  - split; [constructor; try done; by destruct Hcfg; constructor|exact Hd].
  - constructor; try done. intros p prt Hp. destruct (Hrow p prt Hp) as (Hi & [] & Hx).
    split; [done|]. split; [by constructor|]. intros t x Ht. destruct (Hx t x Ht). by constructor.
Qed.

Lemma Inv_if_sysdeps w p f : Inv w -> Inv (with_br w (set_if_sysdeps p f (br w))).
Proof.
  intros [Hb Hi]. eapply Inv_intro; [exact Hb|]. apply inv_alter_port; [exact Hi|].
  intros prt _ Hrow. apply (row_update_port _ p prt); [done|done|exact Hrow|].
  destruct Hrow as (_ & [] & _). by constructor.
Qed.

Lemma reachable_Inv w : reachable w -> Inv w.
Proof.
  induction 1 as [sd mac w b w' Hbr Hret|w c w' Hr IH Hv Hret|w w' _ IH Heq|w f _ IH|w p f _ IH];
    [| |by eapply Inv_outside|by apply Inv_br_sysdeps|by apply Inv_if_sysdeps].
  - destruct (Inv_bridge_create sd mac w Hbr) as (table & Heq & Hinv).
    rewrite Heq in Hret. by injection Hret as _ <-.
  - exact (wp_elim false (perform c) (fun _ w' => Inv w') w tt w' (perform_ok c w IH Hv) Hret).
Qed.
