(* ===== verification/MstpDryRun.v ===== *)
(** * Dry runs

    The convention of mstpd/src/mstp.c: a function with a dry_run argument
    returns true in a dry run when an actual run would change the state, and
    changes nothing itself. [quiet]: no effect. [agrees mt mf]: when the dry
    run [mt] reports no change, the actual run [mf] makes none. *)

From S2P Require Import Prelude Bytes MstpTypes MstpPriority MstpBpdu MstpMonad MstpOut.
From S2P Require Import MstpPort MstpInfo MstpRoles MstpTransitions MstpForwarding MstpRun.
From S2P Require Import MstpLoops.

Definition quiet {A} (m : M A) : Prop :=
  forall w, match m w with Ret _ w' => w' = w | _ => True end.

Definition agree_at (w : world) (mt mf : M bool) : Prop :=
  forall w', mt w = Ret false w' -> w' = w /\ mf w = Ret false w.

Definition agrees (mt mf : M bool) : Prop := forall w, agree_at w mt mf.

Section quiet.
Context {A B : Type}.

Lemma quiet_ret (a : A) : quiet (mret a).
Proof. done. Qed.

Lemma quiet_out_of_fuel : quiet (@out_of_fuel A).
Proof. done. Qed.

Lemma quiet_deref (o : world -> option A) : quiet (fun w => deref (o w) w).
Proof. intros w. unfold deref. by destruct (o w). Qed.

Lemma quiet_bind (m : M A) (k : A -> M B) : quiet m -> (forall a, quiet (k a)) -> quiet (m ≫= k).
Proof.
  intros Hm Hk w. unfold mbind, M_bind. specialize (Hm w). destruct (m w) as [a w'| |]; [|done..].
  subst w'. apply Hk.
Qed.

Lemma quiet_eq (m : M A) w a w' : quiet m -> m w = Ret a w' -> w' = w.
Proof. intros Hm Heq. specialize (Hm w). by rewrite Heq in Hm. Qed.
End quiet.

Lemma quiet_the_br : quiet the_br.
Proof. done. Qed.
Lemma quiet_the_port p : quiet (the_port p).
Proof. apply quiet_deref. Qed.
Lemma quiet_the_tree t : quiet (the_tree t).
Proof. apply quiet_deref. Qed.
Lemma quiet_the_ptp p t : quiet (the_ptp p t).
Proof. apply quiet_deref. Qed.
Lemma quiet_ptps_of_tree t : quiet (ptps_of_tree t).
Proof. apply quiet_deref. Qed.
Lemma quiet_transition m : quiet (transition true m).
Proof. done. Qed.

Lemma quiet_num_ports : quiet num_ports.
Proof. done. Qed.
Lemma quiet_num_trees : quiet num_trees.
Proof. done. Qed.
Lemma quiet_num_ptps p : quiet (num_ptps p).
Proof. apply quiet_bind; [apply quiet_the_port|done]. Qed.

Lemma quiet_ptps_of_port p : quiet (ptps_of_port p).
Proof. apply quiet_bind; [apply quiet_the_port|done]. Qed.

Lemma quiet_any_of l f : (forall i, quiet (f i)) -> quiet (any_of l f).
Proof.
  intros Hf. induction l as [|i l IH]; [done|]. apply quiet_bind; [done|]. by intros [].
Qed.

Lemma agree_ret b : agrees (mret b) (mret b).
Proof. intros w w' [= -> <-]. done. Qed.

Lemma agree_ret_true mf : agrees (mret true) mf.
Proof. by intros w w' [=]. Qed.

Lemma agree_transition m : agrees (transition true m) (transition false m).
Proof. apply agree_ret_true. Qed.

Lemma agree_bind_at {A} (m : M A) (kt kf : A -> M bool) w :
  quiet m -> (forall a, m w = Ret a w -> agree_at w (kt a) (kf a)) ->
  agree_at w (m ≫= kt) (m ≫= kf).
Proof.
  intros Hm Hk w'. unfold mbind, M_bind. specialize (Hm w). destruct (m w) as [a w1| |]; [|done..].
  subst w1. by apply Hk.
Qed.

Lemma agree_bind {A} (m : M A) (kt kf : A -> M bool) :
  quiet m -> (forall a, agrees (kt a) (kf a)) -> agrees (m ≫= kt) (m ≫= kf).
Proof. intros Hm Hk w. apply agree_bind_at; [done|]. intros a _. apply Hk. Qed.

Lemma agree_at_of mt mf w : agrees mt mf -> agree_at w mt mf.
Proof. done. Qed.

Lemma agree_out_of_fuel mf : agrees out_of_fuel mf.
Proof. by intros w w' [=]. Qed.

Create HintDb quiet.
#[export] Hint Resolve quiet_ret quiet_out_of_fuel quiet_the_br quiet_the_port quiet_the_tree
  quiet_the_ptp quiet_ptps_of_tree quiet_transition quiet_num_ports quiet_num_trees quiet_num_ptps quiet_ptps_of_port
  agree_ret agree_ret_true agree_transition agree_out_of_fuel : quiet.

(** The structure of a machine, with the lemmas of the hint database. *)
Ltac quiet_step :=
  first
  [ solve [auto with quiet]
  | lazymatch goal with
    | |- forall _, _ => intros ?
    | |- quiet (_ ≫= _) => apply quiet_bind
    | |- agrees (_ ≫= _) (_ ≫= _) => apply agree_bind
    | |- quiet (if ?b then _ else _) => destruct b eqn:?
    | |- agrees (if ?b then _ else _) _ => destruct b eqn:?
    | |- quiet (match ?x with _ => _ end) => destruct x eqn:?
    | |- agrees (match ?x with _ => _ end) _ => destruct x eqn:?
    | |- quiet (let _ := _ in _) => cbv zeta
    | |- agrees (let _ := _ in _) _ => cbv zeta
    end ].
Ltac quietly := repeat quiet_step.

(** The first call of a machine that is a loop with a bound on its depth. *)
Ltac open_run run runf depth := unfold run; generalize depth; intros []; cbn [runf]; unfold the_cist; quietly.

(** An assignment that changes nothing. *)
Lemma alter_id {A} (f : A -> A) i (l : list A) x : l !! i = Some x -> f x = x -> alter f i l = l.
Proof.
  intros Hi Hf. apply list_eq. intros j. destruct (decide (i = j)) as [<-|Hne].
  - by rewrite list_lookup_alter_eq, Hi; simpl; rewrite Hf.
  - by rewrite list_lookup_alter_ne.
Qed.

Lemma mod_port_same w p f prt :
  br_ports (br w) !! p = Some prt -> f prt = prt -> mod_port p f w = Ret tt w.
Proof.
  intros Hp Hf. rewrite mod_port_eq by by eapply lookup_lt_Some.
  unfold alter_port. rewrite (alter_id f p _ prt) by done. by rewrite set_ports_id, with_br_id.
Qed.

Lemma lookup_ptp_split b p t x :
  lookup_ptp b p t = Some x -> exists prt, br_ports b !! p = Some prt /\ prt_trees prt !! t = Some x.
Proof. unfold lookup_ptp. destruct (br_ports b !! p) as [prt|]; [|done]. by exists prt. Qed.

Lemma mod_ptp_same w p t f x :
  lookup_ptp (br w) p t = Some x -> f x = x -> mod_ptp p t f w = Ret tt w.
Proof.
  intros Hx Hf. rewrite mod_ptp_eq by done. destruct (lookup_ptp_split _ _ _ _ Hx) as (prt & Hp & Ht).
  unfold alter_ptp, alter_port. rewrite (alter_id _ p _ prt); [by rewrite set_ports_id, with_br_id|done|].
  rewrite (alter_id f t _ x) by done. apply set_prt_trees_id.
Qed.

Lemma for_each_same l f w : (forall i, i ∈ l -> f i w = Ret tt w) -> for_each l f w = Ret tt w.
Proof.
  induction l as [|i l IH]; intros Hf; [done|]. simpl. unfold mbind, M_bind.
  rewrite Hf by apply list_elem_of_here. apply IH. intros j Hj. by apply Hf, list_elem_of_further.
Qed.

(** ** The machines that follow the convention by their structure *)

Lemma quiet_clearAllRcvdMsgs p : quiet (clearAllRcvdMsgs p true).
Proof. unfold clearAllRcvdMsgs. quietly. Qed.
#[export] Hint Resolve quiet_clearAllRcvdMsgs : quiet.

Lemma quiet_bridge_assurance p : quiet (bridge_assurance_run p true).
Proof. unfold bridge_assurance_run. quietly. Qed.
Lemma agree_bridge_assurance p : agrees (bridge_assurance_run p true) (bridge_assurance_run p false).
Proof. unfold bridge_assurance_run. quietly. Qed.

Lemma quiet_PRSM p : quiet (PRSM_run p true).
Proof. unfold PRSM_run, PRSM_to_DISCARD. quietly. Qed.

Lemma quiet_PPMSM p : quiet (PPMSM_run p true).
Proof. open_run PPMSM_run PPMSM_runf PPMSM_depth. Qed.
Lemma agree_PPMSM p : agrees (PPMSM_run p true) (PPMSM_run p false).
Proof. open_run PPMSM_run PPMSM_runf PPMSM_depth. Qed.

Lemma quiet_BDSM p : quiet (BDSM_run p true).
Proof. unfold BDSM_run, the_cist. quietly. Qed.
Lemma agree_BDSM p : agrees (BDSM_run p true) (BDSM_run p false).
Proof. unfold BDSM_run, the_cist. quietly. Qed.

Lemma quiet_PISM p t : quiet (PISM_run p t true).
Proof. open_run PISM_run PISM_runf PISM_depth. Qed.
Lemma agree_PISM p t : agrees (PISM_run p t true) (PISM_run p t false).
Proof. open_run PISM_run PISM_runf PISM_depth. Qed.

Lemma quiet_PRSSM t : quiet (PRSSM_run t true).
Proof. unfold PRSSM_run. quietly. Qed.
Lemma agree_PRSSM t : agrees (PRSSM_run t true) (PRSSM_run t false).
Proof. unfold PRSSM_run. quietly. Qed.

Lemma quiet_PSTSM p t : quiet (PSTSM_run p t true).
Proof. open_run PSTSM_run PSTSM_runf PSTSM_depth. Qed.
Lemma agree_PSTSM p t : agrees (PSTSM_run p t true) (PSTSM_run p t false).
Proof. open_run PSTSM_run PSTSM_runf PSTSM_depth. Qed.

Section PRTSM.
Context (rec1 rec2 : M unit) (v : prtsm_vars) (p t : nat).

Lemma quiet_role_change r : quiet (role_change_case rec1 v p t true r).
Proof. by destruct r. Qed.
Lemma agree_role_change r :
  agrees (role_change_case rec1 v p t true r) (role_change_case rec2 v p t false r).
Proof. destruct r; apply agree_ret_true. Qed.

Lemma quiet_master_port prt x s : quiet (master_port_case rec1 v p t true prt x s).
Proof. unfold master_port_case. quietly. Qed.
Lemma agree_master_port prt x s :
  agrees (master_port_case rec1 v p t true prt x s) (master_port_case rec2 v p t false prt x s).
Proof. unfold master_port_case. quietly. Qed.

Lemma quiet_root_port b x s r : quiet (root_port_case rec1 v p t true b x s r).
Proof. unfold root_port_case. quietly. Qed.
Lemma agree_root_port b x s r :
  agrees (root_port_case rec1 v p t true b x s r) (root_port_case rec2 v p t false b x s r).
Proof. unfold root_port_case. quietly. Qed.

Lemma quiet_designated_port prt x s : quiet (designated_port_case rec1 v p t true prt x s).
Proof. unfold designated_port_case. quietly. Qed.
Lemma agree_designated_port prt x s :
  agrees (designated_port_case rec1 v p t true prt x s) (designated_port_case rec2 v p t false prt x s).
Proof. unfold designated_port_case. quietly. Qed.

Lemma quiet_alternate_port x s : quiet (alternate_port_case rec1 v p t true x s).
Proof. unfold alternate_port_case. quietly. Qed.
Lemma agree_alternate_port x s :
  agrees (alternate_port_case rec1 v p t true x s) (alternate_port_case rec2 v p t false x s).
Proof. unfold alternate_port_case. quietly. Qed.
End PRTSM.
#[export] Hint Resolve quiet_role_change agree_role_change quiet_master_port agree_master_port
  quiet_root_port agree_root_port quiet_designated_port agree_designated_port
  quiet_alternate_port agree_alternate_port : quiet.

Lemma quiet_PRTSM p t : quiet (PRTSM_run p t true).
Proof. open_run PRTSM_run PRTSM_runr PRTSM_depth. Qed.
Lemma agree_PRTSM p t : agrees (PRTSM_run p t true) (PRTSM_run p t false).
Proof. open_run PRTSM_run PRTSM_runr PRTSM_depth. Qed.

(** ** The machines that compare every member they would write *)

Lemma the_port_ret p w prt : the_port p w = Ret prt w -> br_ports (br w) !! p = Some prt.
Proof. unfold the_port, deref. destruct (br_ports (br w) !! p); [|done]. by intros [= ->]. Qed.

Lemma the_ptp_ret p t w x : the_ptp p t w = Ret x w -> lookup_ptp (br w) p t = Some x.
Proof. unfold the_ptp, deref. destruct (lookup_ptp (br w) p t); [|done]. by intros [= ->]. Qed.

Lemma discard_fields (prt : port_t) e :
  PRSM_state prt = PRSM_DISCARD -> rcvdBpdu prt = false -> rcvdRSTP prt = false ->
  rcvdSTP prt = false -> edgeDelayWhile prt = e ->
  prt <| PRSM_state := PRSM_DISCARD |> <| rcvdBpdu := false |> <| rcvdRSTP := false |>
      <| rcvdSTP := false |> = prt
  /\ prt <| edgeDelayWhile := e |> = prt.
Proof. destruct prt. simpl. by intros -> -> -> -> ->. Qed.

Lemma clearAllRcvdMsgs_same p w prt :
  br_ports (br w) !! p = Some prt -> existsb rcvdMsg (prt_trees prt) = false ->
  clearAllRcvdMsgs p false w = Ret false w.
Proof.
  intros Hp Hany. unfold clearAllRcvdMsgs, for_ptp_in_port, num_ptps, the_port.
  unfold mbind, M_bind, deref. rewrite Hp. cbn.
  rewrite for_each_same; [done|]. intros t Ht%list_elem_of_In%in_seq.
  destruct (lookup_lt_is_Some_2 (prt_trees prt) t) as [x Hx]; [lia|].
  apply (mod_ptp_same w p t _ x); [unfold lookup_ptp; by rewrite Hp|].
  assert (rcvdMsg x = false) as Hr.
  { destruct (rcvdMsg x) eqn:Hr; [|done]. exfalso.
    assert (existsb rcvdMsg (prt_trees prt) = true); [|congruence].
    apply existsb_exists. exists x. split; [|done]. by eapply list_elem_of_In, list_elem_of_lookup_2. }
  destruct x. simpl in Hr. by subst.
Qed.

Lemma agree_discard p : agrees (PRSM_to_DISCARD p true) (PRSM_to_DISCARD p false).
Proof.
  intros w. unfold PRSM_to_DISCARD. apply agree_bind_at; [apply quiet_the_br|]. intros b [= <-].
  apply agree_bind_at; [apply quiet_the_port|]. intros prt Hprt%the_port_ret.
  destruct (_ || _) eqn:Hc; [by apply agree_at_of, agree_ret_true|]. intros w' Hd. bool_hyps.
  unfold clearAllRcvdMsgs, ptps_of_port, the_port, deref, mbind, M_bind in Hd.
  rewrite Hprt in Hd. injection Hd as Hany <-. split; [done|].
  destruct (discard_fields prt (Migrate_Time (br w))) as [Hd1 Hd2]; [done..|].
  unfold mbind at 1, M_bind at 1. rewrite (mod_port_same w p _ prt Hprt Hd1).
  rewrite (bind_ret _ _ _ _ _ (clearAllRcvdMsgs_same p w prt Hprt Hany)).
  unfold mbind, M_bind.
  by rewrite (mod_port_same w p (fun prt => prt <| edgeDelayWhile := _ |>) prt Hprt Hd2).
Qed.
#[export] Hint Resolve agree_discard : quiet.

Lemma quiet_discard p : quiet (PRSM_to_DISCARD p true).
Proof. unfold PRSM_to_DISCARD. quietly. Qed.
#[export] Hint Resolve quiet_discard : quiet.

Lemma agree_PRSM p : agrees (PRSM_run p true) (PRSM_run p false).
Proof. unfold PRSM_run. quietly. Qed.

Lemma transmit_init_fields (prt : port_t) :
  PTSM_state prt = PTSM_TRANSMIT_INIT -> newInfo prt = true -> newInfoMsti prt = true ->
  txCount prt = 0 ->
  prt <| PTSM_state := PTSM_TRANSMIT_INIT |> <| newInfo := true |> <| newInfoMsti := true |>
      <| txCount := 0 |> = prt.
Proof. destruct prt. simpl. by intros -> -> -> ->. Qed.

(** The port is not enabled where the machine enters TRANSMIT_INIT again. *)
Lemma agree_transmit_init rec1 rec2 p w prt :
  br_ports (br w) !! p = Some prt -> portEnabled prt = false ->
  agree_at w (PTSM_to_TRANSMIT_INIT rec1 p false true) (PTSM_to_TRANSMIT_INIT rec2 p false false).
Proof.
  intros Hp Hen. unfold PTSM_to_TRANSMIT_INIT.
  apply agree_bind_at; [apply quiet_the_port|]. intros prt' Hprt'%the_port_ret. simplify_eq.
  intros w' [= Hc <-]. bool_hyps. split; [done|].
  unfold mbind, M_bind. rewrite (mod_port_same w p _ prt) by (done || by apply transmit_init_fields).
  rewrite Hen. done.
Qed.

Lemma quiet_transmit_init rec p b : quiet (PTSM_to_TRANSMIT_INIT rec p b true).
Proof. unfold PTSM_to_TRANSMIT_INIT. quietly. Qed.
#[export] Hint Resolve quiet_transmit_init : quiet.

Lemma quiet_PTSM p : quiet (PTSM_run p true).
Proof. open_run PTSM_run PTSM_runf PTSM_depth. Qed.

Lemma agree_PTSM p : agrees (PTSM_run p true) (PTSM_run p false).
Proof.
  unfold PTSM_run. generalize PTSM_depth. intros [|n] w; [by intros w' [=]|]. cbn [PTSM_runf].
  apply agree_bind_at; [apply quiet_the_br|]. intros b [= <-].
  apply agree_bind_at; [apply quiet_the_port|]. intros prt Hprt%the_port_ret.
  destruct (portEnabled prt) eqn:Hen; simpl negb; cbv iota.
  - apply agree_at_of. unfold the_cist. quietly.
  - by apply (agree_transmit_init _ _ _ _ prt).
Qed.

(** No port has a TCN or an acknowledgment that its topology change machines
    have not read. *)
Definition no_tcn (w : world) : Prop :=
  forall p prt, br_ports (br w) !! p = Some prt -> rcvdTcn prt = false /\ rcvdTcAck prt = false.

Lemma quiet_tcsm_learning rec p t : quiet (TCSM_to_LEARNING rec p t true).
Proof. unfold TCSM_to_LEARNING. quietly. Qed.
#[export] Hint Resolve quiet_tcsm_learning : quiet.

Lemma quiet_TCSM p t : quiet (TCSM_run p t true).
Proof. open_run TCSM_run TCSM_runf TCSM_depth. Qed.

Lemma agree_TCSM p t w : no_tcn w -> agree_at w (TCSM_run p t true) (TCSM_run p t false).
Proof.
  intros Htcn. unfold TCSM_run. generalize TCSM_depth. intros [|n]; [by intros w' [=]|]. cbn [TCSM_runf].
  apply agree_bind_at; [apply quiet_the_port|]. intros prt Hprt%the_port_ret.
  apply agree_bind_at; [apply quiet_the_ptp|]. intros x Hx%the_ptp_ret.
  destruct (Htcn p prt Hprt) as [Htcn1 Htcn2].
  destruct (TCSM_state x) eqn:Hst; try (apply agree_at_of; quietly; fail).
  destruct (active_port x && _ && _); [by apply agree_at_of, agree_transition|].
  destruct (_ || tcProp x) eqn:Hc; [|apply agree_at_of; quietly].
  rewrite Htcn1, Htcn2 in Hc.
  unfold TCSM_to_LEARNING. apply agree_bind_at; [apply quiet_the_ptp|]. intros x' Hx'%the_ptp_ret.
  apply agree_bind_at; [apply quiet_the_port|]. intros prt' Hprt'%the_port_ret. simplify_eq.
  replace (_ || rcvdTc x || tcProp x) with true; [by intros w' [=]|].
  symmetry. destruct (rcvdTc x), (tcProp x); try done; by rewrite orb_true_r || rewrite !orb_true_r.
Qed.

(** ** All the machines *)

Lemma any_of_false l f w w' :
  (forall i, quiet (f i)) -> any_of l f w = Ret false w' ->
  w' = w /\ forall i, i ∈ l -> f i w = Ret false w.
Proof.
  intros Hf. revert w'. induction l as [|i l IH]; intros w'.
  - intros [= <-]. split; [done|]. intros i Hi. by apply not_elem_of_nil in Hi.
  - simpl. unfold mbind, M_bind. pose proof (Hf i w) as Hq.
    destruct (f i w) as [[] w1| |] eqn:Hi; try done. subst w1. intros Hl.
    apply IH in Hl as [-> Hl]. split; [done|]. intros j [->|Hj]%elem_of_cons; auto.
Qed.

Lemma any_of_all_false l f w : (forall i, i ∈ l -> f i w = Ret false w) -> any_of l f w = Ret false w.
Proof.
  induction l as [|i l IH]; intros Hf; [done|]. simpl. unfold mbind, M_bind.
  rewrite Hf by apply list_elem_of_here. apply IH. intros j Hj. by apply Hf, list_elem_of_further.
Qed.

Lemma checked_false (m : M bool) d w w' :
  quiet m -> (r ← m; mret (r && d)) w = Ret false w' -> d = true -> m w = Ret false w.
Proof.
  intros Hm H ->. unfold mbind, M_bind in H. specialize (Hm w).
  destruct (m w) as [b w1| |]; [|done..]. subst w1. injection H as Hb _. by destruct b.
Qed.

Lemma quiet_checked (m : M bool) d : quiet m -> quiet (r ← m; mret (r && d)).
Proof. intros Hm. by apply quiet_bind. Qed.
#[export] Hint Resolve quiet_checked : quiet.

Lemma agree_checked w (mt mf : M bool) :
  quiet mt -> agree_at w mt mf ->
  agree_at w (r ← mt; mret (r && true)) (r ← mf; mret (r && false)).
Proof.
  intros Hq Ha w' H. assert (mt w = Ret false w) as Hmt by by eapply checked_false.
  destruct (Ha w Hmt) as [_ Hmf]. unfold mbind, M_bind in *. rewrite Hmt in H. rewrite Hmf.
  by injection H as <-.
Qed.

Lemma agree_any_of l ft ff w :
  (forall i, quiet (ft i)) -> (forall i, agree_at w (ft i) (ff i)) ->
  agree_at w (any_of l ft) (any_of l ff).
Proof.
  intros Hq Ha w' H. apply any_of_false in H as [-> H]; [|done]. split; [done|].
  apply any_of_all_false. intros i Hi. by apply (Ha i w), H.
Qed.

Section any.
Context (w : world).

Lemma quiet_any_port d f : (forall p, quiet (f p)) -> quiet (any_port d f).
Proof. intros Hf. unfold any_port. quietly. apply quiet_any_of. quietly. Qed.
Lemma quiet_any_tree d f : (forall t, quiet (f t)) -> quiet (any_tree d f).
Proof. intros Hf. unfold any_tree. quietly. apply quiet_any_of. quietly. Qed.
Lemma quiet_any_ptp d f : (forall p t, quiet (f p t)) -> quiet (any_ptp d f).
Proof.
  intros Hf. unfold any_ptp. quietly. apply quiet_any_of. quietly. apply quiet_any_of. quietly.
Qed.

Lemma agree_any_port ft ff :
  (forall p, quiet (ft p)) -> (forall p, agree_at w (ft p) (ff p)) ->
  agree_at w (any_port true ft) (any_port false ff).
Proof.
  intros Hq Ha. apply agree_bind_at; [quietly|]. intros n _.
  apply agree_any_of; intros p; [quietly|by apply agree_checked].
Qed.
Lemma agree_any_tree ft ff :
  (forall t, quiet (ft t)) -> (forall t, agree_at w (ft t) (ff t)) ->
  agree_at w (any_tree true ft) (any_tree false ff).
Proof.
  intros Hq Ha. apply agree_bind_at; [quietly|]. intros n _.
  apply agree_any_of; intros p; [quietly|by apply agree_checked].
Qed.
Lemma agree_any_ptp ft ff :
  (forall p t, quiet (ft p t)) -> (forall p t, agree_at w (ft p t) (ff p t)) ->
  agree_at w (any_ptp true ft) (any_ptp false ff).
Proof.
  intros Hq Ha. apply agree_bind_at; [quietly|]. intros n _. apply agree_any_of; intros p.
  - quietly. apply quiet_any_of. quietly.
  - apply agree_bind_at; [quietly|]. intros m _.
    apply agree_any_of; intros t; [quietly|by apply agree_checked].
Qed.

Lemma agree_phases lt lf :
  Forall2 (fun mt mf => quiet mt /\ agree_at w mt mf) lt lf -> agree_at w (phases lt) (phases lf).
Proof.
  induction 1 as [|mt mf lt lf [Hq Ha] _ IH]; [apply agree_at_of, agree_ret|].
  intros w' H. cbn [phases] in *. unfold mbind, M_bind in *. specialize (Hq w).
  destruct (mt w) as [[] w1| |] eqn:Hm; try done. subst w1.
  destruct (Ha w Hm) as [_ ->]. by apply IH.
Qed.

Lemma phases_false l w' :
  Forall quiet l -> phases l w = Ret false w' -> w' = w /\ Forall (fun m => m w = Ret false w) l.
Proof.
  induction 1 as [|m l Hq _ IH]; [by intros [= <-]|].
  cbn [phases]. unfold mbind, M_bind. specialize (Hq w).
  destruct (m w) as [[] w1| |] eqn:Hm; try done. subst w1. intros [-> Hl]%IH. by repeat constructor.
Qed.
End any.

Lemma quiet_phases : Forall quiet (br_state_machines_phases true).
Proof.
  repeat constructor;
    first [apply quiet_any_port | apply quiet_any_tree | apply quiet_any_ptp];
    auto using quiet_bridge_assurance, quiet_PRSM, quiet_PPMSM, quiet_BDSM, quiet_PTSM, quiet_PISM,
      quiet_PRSSM, quiet_PRTSM, quiet_PSTSM, quiet_TCSM.
Qed.

Lemma quiet_dry_run : quiet (br_state_machines_run_once true).
Proof.
  unfold br_state_machines_run_once. induction quiet_phases as [|m l Hm _ IH]; [done|].
  cbn [phases]. apply quiet_bind; [done|]. by intros [].
Qed.

Lemma agree_run_once w :
  no_tcn w -> agree_at w (br_state_machines_run_once true) (br_state_machines_run_once false).
Proof.
  intros Htcn. apply agree_phases.
  repeat (apply List.Forall2_cons; [split|]); try apply List.Forall2_nil;
    try first [apply quiet_any_port | apply quiet_any_tree | apply quiet_any_ptp
              | apply agree_any_port | apply agree_any_tree | apply agree_any_ptp];
    intros; auto using quiet_bridge_assurance, quiet_PRSM, quiet_PPMSM, quiet_BDSM, quiet_PTSM,
      quiet_PISM, quiet_PRSSM, quiet_PRTSM, quiet_PSTSM, quiet_TCSM, agree_TCSM,
      agree_at_of, agree_bridge_assurance, agree_PRSM, agree_PPMSM, agree_BDSM, agree_PTSM,
      agree_PISM, agree_PRSSM, agree_PRTSM, agree_PSTSM.
Qed.

(** ** Quiescent states: no machine of the bridge has a transition to make *)
Definition quiescent (w : world) : Prop := br_state_machines_run_once true w = Ret false w.

Lemma quiescent_phase w i m :
  quiescent w -> br_state_machines_phases true !! i = Some m -> m w = Ret false w.
Proof.
  intros Hq Hi. apply phases_false in Hq as [_ Hq]; [|apply quiet_phases].
  by eapply Forall_lookup_1 in Hq.
Qed.

Lemma any_ptp_idle f w p t :
  (forall p t, quiet (f p t)) -> any_ptp true f w = Ret false w ->
  is_Some (lookup_ptp (br w) p t) -> f p t w = Ret false w.
Proof.
  intros Hq H [x (prt & Hp & Hx)%lookup_ptp_split]. unfold any_ptp in H.
  unfold mbind at 1, M_bind at 1 in H.
  change (any_of (seq 0 (length (br_ports (br w)))) (fun p =>
    m ← num_ptps p; any_of (seq 0 m) (fun t => r ← f p t; mret (r && true))) w = Ret false w) in H.
  apply any_of_false in H as [_ H]; [|quietly; apply quiet_any_of; quietly].
  specialize (H p). unfold num_ptps, the_port, deref in H. unfold mbind, M_bind in H.
  rewrite Hp in H. cbn in H. 
  assert (p ∈ seq 0 (length (br_ports (br w)))) as Hin.
  { apply list_elem_of_In, in_seq. apply lookup_lt_Some in Hp. lia. }
  specialize (H Hin). apply any_of_false in H as [_ H]; [|intros i; by apply quiet_checked].
  eapply checked_false; [done|apply H|done]. apply list_elem_of_In, in_seq.
  apply lookup_lt_Some in Hx. lia.
Qed.

Lemma any_port_idle f w p :
  (forall p, quiet (f p)) -> any_port true f w = Ret false w ->
  (p < length (br_ports (br w)))%nat -> f p w = Ret false w.
Proof.
  intros Hq H Hp. unfold any_port in H.
  change (any_of (seq 0 (length (br_ports (br w)))) (fun p => r ← f p; mret (r && true)) w
    = Ret false w) in H.
  apply any_of_false in H as [_ H]; [|intros i; by apply quiet_checked].
  eapply checked_false; [done|apply H|done]. apply list_elem_of_In, in_seq. lia.
Qed.
