(* ===== verification/MstpScenario.v ===== *)
(** * Scenarios

    Concrete histories of a bridge, on which the theorems are applied. The
    digest of a new bridge is left as a variable, so that a scenario is
    evaluated without hashing. *)

From S2P Require Import Prelude Bytes HmacMd5 MstpTypes MstpPriority MstpBpdu MstpMonad MstpOut MstpPort.
From S2P Require Import MstpInfo MstpRoles MstpTransitions MstpForwarding MstpRun MstpConfig MstpEvents.
From S2P Require Import MstpAdmin MstpVlan MstpInv MstpRunOk MstpInvariant MstpLoops MstpEventsOk.
From S2P Require Import MstpSafety MstpDryRun.

Definition is_ret {A} (o : outcome A) : bool := match o with Ret _ _ => true | _ => false end.

Definition next (c : call) (w : world) : world :=
  match perform c w with Ret _ w' => w' | _ => w end.

Lemma reachable_next c w :
  reachable w -> valid_call w c -> is_ret (perform c w) = true -> reachable (next c w).
Proof.
  intros Hw Hv Hret. unfold next. destruct (perform c w) as [[] w'| |] eqn:Hc; [|done..].
  by apply (reach_call w c).
Qed.

Lemma ret_not_fault {A} (o : outcome A) : is_ret o = true -> o <> Fault.
Proof. by destruct o. Qed.

(** A new bridge, with [d] for its digest. *)
Definition br0_sysdeps : sysdep_br_data_t := mk_sysdep_br_data_t 3 0x001122334455 "br0" true.
Definition blank : world := mk_world (calloc_bridge br0_sysdeps) [] (fun _ => 100%nat) 0 zero_bpdu.
Definition new_bridge (d : list Z) : world := with_br blank (created (br blank) 0x001122334455 d).

Lemma new_bridge_reachable : exists d, reachable (new_bridge d).
Proof.
  destruct (Inv_bridge_create br0_sysdeps 0x001122334455 blank eq_refl) as (table & Heq & _).
  exists (config_digest table). exact (reach_create _ _ blank _ _ eq_refl Heq).
Qed.

(** The digest of the mapping of every VLAN to the CIST, the value that
    802.1Q lists for it. *)
Definition default_digest : list Z :=
  [0xAC; 0x36; 0x17; 0x7F; 0x50; 0x28; 0x3C; 0xD4; 0xB8; 0x38; 0x21; 0xD8; 0xAB; 0x26; 0xDE; 0x62].

Lemma config_digest_default : config_digest (0 :: replicate 4094 0 ++ [0]) = default_digest.
Proof. vm_compute. reflexivity. Qed.

Lemma bridge_create_default mac w sd :
  br w = calloc_bridge sd ->
  MSTP_IN_bridge_create mac w = Ret true (with_br w (created (br w) mac default_digest)).
Proof.
  intros Hbr. rewrite <-config_digest_default. apply bridge_create_eq.
  rewrite (vid2mstid_table_ext _ (calloc_bridge sd)) by (by rewrite Hbr).
  vm_compute. reflexivity.
Qed.

Lemma default_bridge_reachable : reachable (new_bridge default_digest).
Proof.
  apply (reach_create br0_sysdeps 0x001122334455 blank true _ eq_refl).
  by apply (bridge_create_default _ _ br0_sysdeps).
Qed.

(** It is enabled with one gigabit port that has a link. *)
Definition eth1 : sysdep_if_data_t := mk_sysdep_if_data_t 7 0x001122334456 "eth1" true 1000 1.
Definition one_port (d : list Z) : world :=
  next (C_set_port_enable 0 true 1000 1)
    (next (C_set_bridge_enable true) (next (C_port_create eth1 1) (new_bridge d))).

Ltac scenario :=
  repeat first
  [ eassumption
  | apply reachable_next
  | vm_compute; repeat constructor; fail
  | vm_compute; reflexivity ].

Lemma one_port_reachable d : reachable (new_bridge d) -> reachable (one_port d).
Proof. intros H. unfold one_port. scenario. Qed.

(** Two seconds later. *)
Definition two_seconds (d : list Z) : world := next C_one_second (next C_one_second (one_port d)).

Lemma two_seconds_reachable d : reachable (new_bridge d) -> reachable (two_seconds d).
Proof. intros H. unfold two_seconds. do 2 (apply reachable_next; [|done|vm_compute; reflexivity]). by apply one_port_reachable. Qed.

(** A second port, connected to the first one by a cable: it receives the
    messages that the first one has sent. *)
Definition eth2 : sysdep_if_data_t := mk_sysdep_if_data_t 8 0x001122334457 "eth2" true 1000 1.
Definition two_ports (d : list Z) : world :=
  next (C_set_port_enable 1 true 1000 1) (next (C_port_create eth2 2) (one_port d)).

(** The messages that [port] has handed to the kernel, without their headers. *)
Definition sent (ifindex : Z) (w : world) : list (list Z) :=
  omap (fun e => match e with
    | Ev_packet_send i frame => if i =? ifindex then Some (drop sizeof_llc_header frame) else None
    | _ => None
    end) (out w).

Definition looped (d : list Z) : world :=
  next (C_rx_bpdu 1 (hd [] (sent 7 (two_ports d))) RST_BPDU_SIZE) (two_ports d).

Lemma two_ports_reachable d : reachable (new_bridge d) -> reachable (two_ports d).
Proof.
  intros H. unfold two_ports.
  apply reachable_next; [|vm_compute; repeat constructor|vm_compute; reflexivity].
  apply reachable_next; [by apply one_port_reachable|done|vm_compute; reflexivity].
Qed.

Lemma looped_reachable d : reachable (new_bridge d) -> reachable (looped d).
Proof.
  intros H. unfold looped.
  apply reachable_next; [by apply two_ports_reachable| |vm_compute; reflexivity].
  vm_compute; repeat constructor.
Qed.

(** A region: MSTP with one MSTI and two ports, both connected to a
    neighbour in the same region that is the root of the CIST and that
    accepts this bridge as its designated bridge in the MSTI. *)
Definition set_mstp : CIST_BridgeConfig :=
  {| cfg_bridge_max_age := None; cfg_bridge_forward_delay := None;
     cfg_protocol_version := Some protoMSTP; cfg_tx_hold_count := None; cfg_max_hops := None;
     cfg_bridge_hello_time := None; cfg_bridge_ageing_time := None |}.

Definition mst_bridge : world :=
  next (C_set_bridge_enable true)
    (next (C_port_create eth2 2) (next (C_port_create eth1 1)
      (next (C_create_msti 1) (next (C_set_cist_bridge_config set_mstp)
        (new_bridge default_digest))))).

Definition region : world :=
  next (C_set_port_enable 1 true 1000 1) (next (C_set_port_enable 0 true 1000 1) mst_bridge).

Definition neighbour_id : Z := make_bid 0x1000 0x00AABBCCDDEE.
Definition neighbour_bpdu (port : Z) : bpdu_t :=
  {| protocolIdentifier := 0; protocolVersion := protoMSTP; bpduType := bpduTypeRST;
     flags := BPDU_FLAGS_ROLE_SET encodedRoleDesignated;
     cistRootID := neighbour_id; cistExtRootPathCost := 0; cistRRootID := neighbour_id;
     cistPortID := port;
     MessageAge := (0, 0); MaxAge := (20, 0); HelloTime := (2, 0); ForwardDelay := (15, 0);
     version1_len := 0; version3_len := 80;
     mstConfigurationIdentifier := MstConfigId (br (new_bridge default_digest));
     cistIntRootPathCost := 0; cistBridgeID := neighbour_id; cistRemainingHops := 20;
     mstConfiguration :=
       [{| msti_flags := Z.lor (BPDU_FLAGS_ROLE_SET encodedRoleRoot) (flag_if true offsetAgreement);
           mstiRRootID := make_bid 0x8001 0x001122334455; mstiIntRootPathCost := 200;
           bridgeIdentifierPriority := 0x80; portIdentifierPriority := 0x80;
           msti_remainingHops := 19 |}] |}.

Definition from_neighbour (p : nat) (w : world) : world :=
  next (C_rx_bpdu p (encode_bpdu (neighbour_bpdu (0x8001 + Z.of_nat p)))
          (MST_BPDU_SIZE_WO_MSTI_MSGS + sizeof_msti_msg)) w.

Definition joined : world := from_neighbour 1 (from_neighbour 0 region).

Lemma mst_bridge_reachable : reachable mst_bridge.
Proof.
  unfold mst_bridge. do 5 (apply reachable_next; [|done|vm_compute; reflexivity]).
  exact default_bridge_reachable.
Qed.

Lemma region_reachable : reachable region.
Proof.
  unfold region.
  do 2 (apply reachable_next; [|vm_compute; repeat constructor|vm_compute; reflexivity]).
  exact mst_bridge_reachable.
Qed.

Lemma joined_reachable : reachable joined.
Proof.
  unfold joined, from_neighbour.
  do 2 (apply reachable_next; [|vm_compute; repeat constructor|vm_compute; reflexivity]).
  exact region_reachable.
Qed.

(** ** Quiescent bridges

    What holds when br_state_machines_run has nothing left to do: the port
    states follow the roles, and running the machines changes nothing. *)

(** ** One machine that is idle *)

Lemma the_ptp_eq w p t x : lookup_ptp (br w) p t = Some x -> the_ptp p t w = Ret x w.
Proof. intros Hx. unfold the_ptp, deref. by rewrite Hx. Qed.

Lemma the_port_eq w p prt : br_ports (br w) !! p = Some prt -> the_port p w = Ret prt w.
Proof. intros Hp. unfold the_port, deref. by rewrite Hp. Qed.

Lemma the_tree_eq w t tr : br_trees (br w) !! t = Some tr -> the_tree t w = Ret tr w.
Proof. intros Ht. unfold the_tree, deref. by rewrite Ht. Qed.

(** The state of the Port State Transition machine is the one that learn and
    forward ask for. *)
Definition pst_settled (x : per_tree_port_t) : Prop :=
  match PSTSM_state x with
  | PSTSM_DISCARDING => learn x = false
  | PSTSM_LEARNING => learn x = true /\ forward x = false
  | PSTSM_FORWARDING => forward x = true
  end.

Lemma idle_PSTSM w p t x :
  lookup_ptp (br w) p t = Some x -> PSTSM_run p t true w = Ret false w -> pst_settled x.
Proof.
  intros Hx. unfold PSTSM_run, PSTSM_depth. cbn [PSTSM_runf].
  rewrite (bind_ret _ _ _ _ _ (the_ptp_eq _ _ _ _ Hx)). unfold pst_settled.
  destruct (PSTSM_state x), (learn x), (forward x); by intros [=].
Qed.

(** A port whose role has been selected plays it. *)
Definition role_settled (x : per_tree_port_t) : Prop :=
  selected x = true -> updtInfo x = false -> role x = selectedRole x.

Lemma idle_PRTSM w p t prt cist x :
  br_ports (br w) !! p = Some prt -> lookup_ptp (br w) p 0 = Some cist ->
  lookup_ptp (br w) p t = Some x -> PRTSM_run p t true w = Ret false w -> role_settled x.
Proof.
  intros Hp Hc Hx H Hsel Hupd. unfold PRTSM_run, the_cist in H.
  assert (exists n, PRTSM_depth = S n) as [n Hn] by by exists 63%nat. rewrite Hn in H. clear Hn.
  rewrite (bind_ret _ _ _ _ _ (the_port_eq _ _ _ Hp)), (bind_ret _ _ _ _ _ (the_ptp_eq _ _ _ _ Hc)) in H.
  cbn [PRTSM_runr] in H. rewrite (bind_ret the_br _ w (br w) w eq_refl) in H.
  rewrite (bind_ret _ _ _ _ _ (the_port_eq _ _ _ Hp)), (bind_ret _ _ _ _ _ (the_ptp_eq _ _ _ _ Hx)) in H.
  destruct (decide (role x = selectedRole x)) as [|Hne]; [done|].
  rewrite bool_decide_false in H by done. rewrite Hsel, Hupd in H. cbn [negb andb] in H.
  by destruct (selectedRole x).
Qed.

(** ** The whole bridge *)

Lemma quiescent_PSTSM w p t x :
  quiescent w -> lookup_ptp (br w) p t = Some x -> pst_settled x.
Proof.
  intros Hq Hx. eapply idle_PSTSM; [done|].
  apply (any_ptp_idle (fun p t => PSTSM_run p t true)); [apply quiet_PSTSM| |done].
  by apply (quiescent_phase w 8 _ Hq).
Qed.

Lemma quiescent_PRTSM w p t x :
  quiescent w -> lookup_ptp (br w) p t = Some x -> role_settled x.
Proof.
  intros Hq Hx. destruct (lookup_ptp_split _ _ _ _ Hx) as (prt & Hp & Ht).
  destruct (lookup_lt_is_Some_2 (prt_trees prt) 0) as [cist Hc];
    [apply lookup_lt_Some in Ht; lia|].
  eapply (idle_PRTSM w p t prt cist); [done| |done|].
  - unfold lookup_ptp. by rewrite Hp.
  - apply (any_ptp_idle (fun p t => PRTSM_run p t true)); [apply quiet_PRTSM| |done].
    by apply (quiescent_phase w 7 _ Hq).
Qed.

Lemma run_loop_quiescent n w : quiescent w -> run_loop n w = Ret tt w.
Proof. intros Hq. destruct n; cbn [run_loop]; unfold mbind, M_bind; by rewrite Hq. Qed.

(** [passes n w w']: [n] passes over the machines of bridges that are not
    quiescent lead from [w] to [w']. *)
Inductive passes : nat -> world -> world -> Prop :=
  | passes_O w : passes 0 w w
  | passes_S n w b w1 w2 :
      br_state_machines_run_once true w = Ret true w ->
      br_state_machines_run_once false w = Ret b w1 -> passes n w1 w2 -> passes (S n) w w2.

Lemma run_loop_passes n w w' :
  run_loop n w = Ret tt w' -> exists k, passes k w w' /\ (quiescent w' \/ k = S n).
Proof.
  revert w. induction n as [|n IH]; intros w; cbn [run_loop]; unfold mbind, M_bind;
    pose proof (quiet_dry_run w) as Hq;
    destruct (br_state_machines_run_once true w) as [[] w1| |] eqn:Hd; try done; subst w1; simpl;
    try (intros [= <-]; exists 0%nat; split; [constructor|by left]; fail);
    destruct (br_state_machines_run_once false w) as [b w1| |] eqn:Hr; try done.
  - intros [= <-]. exists 1%nat. split; [|by right]. econstructor; [done..|]. constructor.
  - intros (k & Hk & Hend)%IH. exists (S k). split; [by econstructor|].
    destruct Hend as [Hend| ->]; auto.
Qed.
