(* ===== verification/MstpVlanSpec.v ===== *)
(** * The MST configuration as an administrator sees it

    The effect of the VLAN and tree commands of mstpd/src/mstp.c on the
    mapping of VLANs to trees and on the set of trees: an abstract view
    (which tree carries a VLAN, which trees exist) and what each command
    does to it. *)

From S2P Require Import Prelude Bytes MstpTypes MstpPriority MstpBpdu MstpMonad MstpOut.
From S2P Require Import MstpPort MstpInfo MstpRoles MstpTransitions MstpForwarding MstpRun.
From S2P Require Import HmacMd5 MstpConfig MstpEvents MstpAdmin MstpVlan MstpInv MstpRunOk.
From S2P Require Import MstpInvariant MstpVlanOk MstpLoops MstpEventsOk MstpTreesOk MstpSafety.
From S2P Require Import MstpScenario.
From Stdlib Require Import Sorting.Sorted.

(** The outcome of a command: it never faults, and it leaves a state and an
    answer as described when the state machines that it runs return. *)
Abbreviation answers m Q w := (wp false m Q w).

(** ** The allocation of VLANs *)

(** The digest in use is that of the mapping of the bridge. *)
Definition digest_is_current (b : bridge_t) : Prop :=
  exists table, vid2mstid_table b = Some table
    /\ configuration_digest (MstConfigId b) = config_digest table.

Lemma maps_set_current b w' :
  maps_set b w' -> digest_is_current (br w') /\ forall vid, vid2mstid (br w') vid = vid2mstid b vid.
Proof.
  intros [[[Hmaps Hd] _] [H1 H2]]. split.
  - destruct (mapM_vid2mstid_some _ _ Hmaps) as [l Hl].
    assert (vid2mstid_table (br w') = Some (0 :: l ++ [0])) as Ht
      by (unfold vid2mstid_table; change (vid2mstid (br w')) with (vid2mstid (strip (br w'))); by rewrite Hl).
    eexists. split; [exact Ht|]. exact (Hd _ Ht).
  - intros vid. unfold vid2mstid. by rewrite H1, H2.
Qed.

(** A VID outside 1..MAX_VID or a FID above MAX_FID is refused without any
    change; otherwise MSTP_IN_set_vid2fid moves exactly that VLAN to the tree
    of the FID, and the digest is the one of the new mapping. *)
Theorem set_vid2fid_spec w vid fid :
  reachable w -> 0 <= fid ->
  if (1 <=? vid) && (vid <=? MAX_VID) && (fid <=? MAX_FID) then
    answers (MSTP_IN_set_vid2fid vid fid) (fun r w' => r = true
      /\ digest_is_current (br w')
      /\ forall v, vid2mstid (br w') v
         = if decide (v = Z.to_nat vid) then fid2mstid (br w) !! Z.to_nat fid
           else vid2mstid (br w) v) w
  else MSTP_IN_set_vid2fid vid fid w = Ret false w.
Proof.
  intros Hw%reachable_Inv Hfid. case_match eqn:Hv; bool_hyps.
  - eapply wp_mono; [apply set_vid2fid_ok; [done..|]|].
    { unfold vid_valid. apply negb_true_iff. rewrite !orb_false_iff, !Z.ltb_ge. lia. }
    intros r w' [-> Hset]. split; [done|]. apply maps_set_current in Hset as [Hd Hmap].
    split; [done|]. intros v. rewrite Hmap. unfold vid2mstid. upd_simpl.
    pose proof (Inv_maps w Hw) as [_ _ _ _ Hlen _ _ _].
    change (vid2fid (strip (br w))) with (vid2fid (br w)) in Hlen.
    case_decide as Heq; [subst v|by rewrite list_lookup_insert_ne by done].
    rewrite list_lookup_insert_eq by (rewrite Hlen; unfold MAX_VID in *; lia). done.
  - unfold MSTP_IN_set_vid2fid. case_match eqn:Hc; [done|]. bool_hyps.
    rewrite !andb_false_iff, !Z.leb_gt in Hv. lia.
Qed.

(** A FID above MAX_FID and a tree that does not exist are refused without
    any change; otherwise MSTP_IN_set_fid2mstid moves exactly the VLANs of the
    FID to the tree, and the digest is the one of the new mapping. *)
Theorem set_fid2mstid_spec w fid mstid :
  reachable w -> 0 <= fid ->
  if (fid <=? MAX_FID) && bool_decide (mstid ∈ ids_of w) then
    answers (MSTP_IN_set_fid2mstid fid mstid) (fun r w' => r = true
      /\ digest_is_current (br w')
      /\ forall v, v ∈ all_vids -> vid2mstid (br w') v
         = if decide (vid2fid (br w) !! v = Some fid) then Some mstid
           else vid2mstid (br w) v) w
  else MSTP_IN_set_fid2mstid fid mstid w = Ret false w.
Proof.
  intros Hw%reachable_Inv Hfid. case_match eqn:Hv; bool_hyps.
  - apply tree_exists_iff in H0 as Hex.
    eapply wp_mono; [apply set_fid2mstid_ok; [done..|]|].
    { unfold fid_valid. rewrite Hex, andb_true_r. by apply Z.leb_le. }
    intros r w' [-> Hset]. split; [done|]. apply maps_set_current in Hset as [Hd Hmap].
    split; [done|]. intros v Hr%elem_of_all_vids. rewrite Hmap. unfold vid2mstid. upd_simpl.
    pose proof (Inv_maps w Hw) as [_ _ _ _ _ Hfr Hlen _].
    change (vid2fid (strip (br w))) with (vid2fid (br w)) in Hfr.
    change (fid2mstid (strip (br w))) with (fid2mstid (br w)) in Hlen.
    case_decide as Hf.
    { rewrite Hf. simpl. apply list_lookup_insert_eq. rewrite Hlen. unfold MAX_FID in *. lia. }
    destruct (vid2fid (br w) !! v) as [f|] eqn:Hvf; [|done].
    simpl. apply list_lookup_insert_ne. destruct (Hfr v f); [lia|done|]. intros Heq.
    apply Hf. f_equal. lia.
  - unfold MSTP_IN_set_fid2mstid. case_match eqn:Hc; [done|]. bool_hyps.
    unfold mbind at 1, M_bind at 1. cbn [the_br].
    replace (tree_exists (br w) mstid) with false; [done|]. symmetry. apply not_true_iff_false.
    intros Hex. apply tree_exists_iff in Hex. apply andb_false_iff in Hv as [Hv|Hv]; bool_hyps; [lia|].
    done.
Qed.

(** A command that returns by evaluation. *)
Lemma evaluated {A} (m : M A) w : is_ret (m w) = true -> exists a w', m w = Ret a w'.
Proof. destruct (m w) as [a w'| |]; [by eexists _, _|done..]. Qed.

Definition fid5_to_tree1 : world := next (C_set_fid2mstid 5 1) mst_bridge.

Lemma fid5_to_tree1_reachable : reachable fid5_to_tree1.
Proof. apply reachable_next; [exact mst_bridge_reachable|done|vm_compute; reflexivity]. Qed.

Lemma set_vid2fid_spec_witness : exists w',
  MSTP_IN_set_vid2fid 10 5 fid5_to_tree1 = Ret true w' /\ vid2mstid (br w') 10 = Some 1.
Proof.
  destruct (evaluated (MSTP_IN_set_vid2fid 10 5) fid5_to_tree1) as (r & w' & Heq);
    [vm_compute; reflexivity|].
  pose proof (set_vid2fid_spec fid5_to_tree1 10 5 fid5_to_tree1_reachable ltac:(lia)) as H.
  destruct (wp_elim _ _ _ _ _ _ H Heq) as (-> & _ & Hmap).
  exists w'. split; [exact Heq|]. rewrite Hmap. vm_compute. reflexivity.
Defined.

Lemma set_fid2mstid_spec_witness : exists w',
  MSTP_IN_set_fid2mstid 0 1 mst_bridge = Ret true w' /\ vid2mstid (br w') 1 = Some 1.
Proof.
  destruct (evaluated (MSTP_IN_set_fid2mstid 0 1) mst_bridge) as (r & w' & Heq);
    [vm_compute; reflexivity|].
  pose proof (set_fid2mstid_spec mst_bridge 0 1 mst_bridge_reachable ltac:(lia)) as H.
  rewrite (bool_decide_eq_true_2 (1 ∈ ids_of mst_bridge)) in H
    by (apply (bool_decide_eq_true_1 (1 ∈ ids_of mst_bridge)); vm_compute; reflexivity).
  destruct (wp_elim _ _ _ _ _ _ H Heq) as (-> & _ & Hmap).
  exists w'. split; [exact Heq|]. rewrite Hmap; [vm_compute; reflexivity|].
  apply elem_of_all_vids. vm_compute. lia.
Defined.

(** ** The set of trees *)

Lemma ids_increasing w : Inv w -> StronglySorted Z.lt (ids_of w).
Proof. by intros [[[] _] _]. Qed.

Lemma in_range_mstid mstid :
  negb ((1 <=? mstid) && (mstid <=? MAX_MSTID)) = (mstid <? 1) || (MAX_MSTID <? mstid).
Proof. by rewrite negb_andb, <-!Z.ltb_antisym. Qed.

(** Creating a tree that exists does nothing and succeeds; an identifier
    outside 1..MAX_MSTID, or a 65th tree, is refused without any change;
    otherwise exactly that tree is added, in the order of the identifiers. *)
Theorem create_msti_spec w mstid :
  reachable w ->
  if negb ((1 <=? mstid) && (mstid <=? MAX_MSTID)) then MSTP_IN_create_msti mstid w = Ret false w
  else if decide (mstid ∈ ids_of w) then MSTP_IN_create_msti mstid w = Ret true w
  else if MAX_IMPLEMENTATION_MSTIS <? Z.of_nat (length (br_trees (br w))) then
    MSTP_IN_create_msti mstid w = Ret false w
  else answers (MSTP_IN_create_msti mstid) (fun r w' => r = true
    /\ StronglySorted Z.lt (ids_of w')
    /\ forall id, id ∈ ids_of w' <-> id = mstid \/ id ∈ ids_of w) w.
Proof.
  intros Hw%reachable_Inv. pose proof Hw as [[[_ Hids _ _ _ _ _ _] _] _].
  rewrite in_range_mstid.
  destruct ((mstid <? 1) || (MAX_MSTID <? mstid)) eqn:Hr; [unfold MSTP_IN_create_msti; by rewrite Hr|].
  destruct (decide _) as [Hin|Hnin].
  { apply tree_exists_iff in Hin. unfold MSTP_IN_create_msti. rewrite Hr.
    unfold mbind at 1, M_bind at 1. cbn [the_br]. by rewrite Hin. }
  assert (tree_exists (br w) mstid = false) as Hex
    by (apply not_true_iff_false; by intros ?%tree_exists_iff).
  destruct (MAX_IMPLEMENTATION_MSTIS <? _) eqn:Hmax.
  { destruct (tree_after_first (br_trees (br w)) mstid) as [k Hk]; [apply Hids|bool_hyps; lia|].
    unfold MSTP_IN_create_msti. rewrite Hr. unfold mbind at 1, M_bind at 1. cbn [the_br].
    by rewrite Hex, Hk, Hmax. }
  eapply wp_mono; [by apply create_msti_ok|]. intros [] w' [Hw' Hres].
  - split; [done|]. split; [by apply ids_increasing|apply Hres].
  - exfalso. destruct Hres as [_ [Hres|Hres]]; bool_hyps; [lia|].
    unfold MAX_IMPLEMENTATION_MSTIS in Hmax. rewrite Hres in Hmax. done.
Qed.

(** A tree that some FID maps to, and an identifier outside 1..MAX_MSTID,
    are not deleted and nothing changes; deleting a tree that does not exist
    does nothing and succeeds; otherwise exactly that tree is removed. *)
Theorem delete_msti_spec w mstid :
  reachable w ->
  if negb ((1 <=? mstid) && (mstid <=? MAX_MSTID)) || bool_decide (mstid ∈ fid2mstid (br w)) then
    MSTP_IN_delete_msti mstid w = Ret false w
  else if decide (mstid ∈ ids_of w) then
    answers (MSTP_IN_delete_msti mstid) (fun r w' => r = true
      /\ StronglySorted Z.lt (ids_of w')
      /\ forall id, id ∈ ids_of w' <-> id <> mstid /\ id ∈ ids_of w) w
  else MSTP_IN_delete_msti mstid w = Ret true w.
Proof.
  intros Hw%reachable_Inv.
  assert (existsb (Z.eqb mstid) (fid2mstid (br w)) = bool_decide (mstid ∈ fid2mstid (br w))) as Hex.
  { apply eq_true_iff_eq. rewrite existsb_exists, bool_decide_eq_true. split.
    - intros (id & Hin & ->%Z.eqb_eq). by apply list_elem_of_In.
    - intros Hin. exists mstid. split; [by apply list_elem_of_In|apply Z.eqb_refl]. }
  rewrite in_range_mstid.
  destruct ((mstid <? 1) || (MAX_MSTID <? mstid)) eqn:Hr; simpl.
  { unfold MSTP_IN_delete_msti. by rewrite Hr. }
  destruct (bool_decide (mstid ∈ fid2mstid (br w))) eqn:Hfid.
  { unfold MSTP_IN_delete_msti. rewrite Hr. unfold mbind at 1, M_bind at 1. cbn [the_br]. by rewrite Hex. }
  destruct (decide _) as [Hin|Hnin].
  - eapply wp_mono; [by apply delete_msti_ok|]. intros [] w' [Hw' Hres].
    + split; [done|]. split; [by apply ids_increasing|apply Hres].
    + exfalso. destruct Hres as [_ [Hres|Hres]]; bool_hyps; [lia|done].
  - unfold MSTP_IN_delete_msti. rewrite Hr. unfold mbind at 1, M_bind at 1. cbn [the_br]. rewrite Hex.
    destruct (find_tree mstid (br_trees (br w))) as [t|] eqn:Ht; [|done].
    exfalso. apply Hnin. apply find_tree_spec in Ht as (tr & Ht & <-).
    apply list_elem_of_fmap. exists tr. split; [done|]. by eapply list_elem_of_lookup_2.
Qed.

Lemma create_msti_spec_witness : exists w',
  MSTP_IN_create_msti 7 mst_bridge = Ret true w' /\ 7 ∈ ids_of w' /\ 1 ∈ ids_of w'.
Proof.
  destruct (evaluated (MSTP_IN_create_msti 7) mst_bridge) as (r & w' & Heq);
    [vm_compute; reflexivity|].
  pose proof (create_msti_spec mst_bridge 7 mst_bridge_reachable) as H.
  rewrite decide_False in H by (apply (bool_decide_eq_false_1 (7 ∈ ids_of mst_bridge)); vm_compute; reflexivity).
  destruct (wp_elim _ _ _ _ _ _ H Heq) as (-> & _ & Hids).
  exists w'. split; [exact Heq|]. split; apply Hids; [by left|right]. apply (bool_decide_eq_true_1 (1 ∈ ids_of mst_bridge)). vm_compute. reflexivity.
Defined.

Lemma delete_msti_spec_witness : exists w',
  MSTP_IN_delete_msti 1 mst_bridge = Ret true w' /\ 1 ∉ ids_of w'.
Proof.
  destruct (evaluated (MSTP_IN_delete_msti 1) mst_bridge) as (r & w' & Heq);
    [vm_compute; reflexivity|].
  pose proof (delete_msti_spec mst_bridge 1 mst_bridge_reachable) as H.
  rewrite (bool_decide_eq_false_2 (1 ∈ fid2mstid (br mst_bridge))) in H
    by (apply (bool_decide_eq_false_1 (1 ∈ fid2mstid (br mst_bridge))); vm_compute; reflexivity).
  rewrite decide_True in H by (apply (bool_decide_eq_true_1 (1 ∈ ids_of mst_bridge)); vm_compute; reflexivity).
  destruct (wp_elim _ _ _ _ _ _ H Heq) as (-> & _ & Hids).
  exists w'. split; [exact Heq|]. intros Hin. destruct (proj1 (Hids 1) Hin) as [Hne _]. exact (Hne eq_refl).
Defined.
