(* ===== verification/MstpDiverge.v ===== *)
(** * A topology change notification that is never digested

    The Topology Change machine of an MSTI does not clear rcvdTcn, a member
    of the port that only the machine of the CIST clears. When a TCN BPDU
    arrives on a port whose MSTI machine is ACTIVE and whose CIST machine is
    INACTIVE, the machine calls itself from ACTIVE by NOTIFIED_TCN and
    NOTIFIED_TC to ACTIVE without end. *)

From S2P Require Import Prelude Bytes MstpTypes MstpPriority MstpBpdu MstpMonad MstpOut MstpPort.
From S2P Require Import MstpInfo MstpRoles MstpTransitions MstpForwarding MstpRun HmacMd5.
From S2P Require Import MstpConfig MstpEvents MstpAdmin MstpVlan MstpInv MstpInvariant MstpLoops.
From S2P Require Import MstpSafety MstpDryRun MstpScenario.

(** The TCSM of tree [t] on port [p] is in state [st] of the loop. *)
Definition spinning (p t : nat) (st : TCSM_states_t) (w : world) : Prop :=
  exists prt x, br_ports (br w) !! p = Some prt /\ prt_trees prt !! t = Some x
    /\ rcvdTcn prt = true /\ operEdge prt = false
    /\ ptp_MSTID x <> 0 /\ active_port x = true /\ TCSM_state x = st.

(** [stays P m]: if [m] returns, it does so in a state with [P]. *)
Definition stays (P : world -> Prop) {A} (m : M A) : Prop :=
  forall w a w', P w -> m w = Ret a w' -> P w'.

Section stays.
Context (P : world -> Prop).

Lemma stays_ret {A} (a : A) : stays P (mret a).
Proof. by intros w a' w' Hw [= _ <-]. Qed.

Lemma stays_quiet {A} (m : M A) : quiet m -> stays P m.
Proof. intros Hm w a w' Hw Heq. specialize (Hm w). rewrite Heq in Hm. by subst. Qed.

Lemma stays_bind {A B} (m : M A) (k : A -> M B) :
  stays P m -> (forall a, stays P (k a)) -> stays P (m ≫= k).
Proof.
  intros Hm Hk w b w2 Hw. unfold mbind, M_bind. destruct (m w) as [a w1| |] eqn:Hm1; [|done..].
  apply Hk. by eapply Hm.
Qed.

Lemma stays_for_each l f : (forall i, stays P (f i)) -> stays P (for_each l f).
Proof.
  intros Hf. induction l as [|i l IH]; [apply stays_ret|]. apply stays_bind; [done|]. by intros _.
Qed.

Lemma stays_if {A} (b : bool) (m1 m2 : M A) : stays P m1 -> stays P m2 -> stays P (if b then m1 else m2).
Proof. by destruct b. Qed.
End stays.

Section spinning.
Context (p t : nat) (st : TCSM_states_t).

Lemma spinning_mod_port q f :
  (forall prt, prt_trees (f prt) = prt_trees prt /\ rcvdTcn (f prt) = rcvdTcn prt
     /\ operEdge (f prt) = operEdge prt) ->
  stays (spinning p t st) (mod_port q f).
Proof.
  intros Hf w [] w' (prt & x & Hp & Hx & Hr & He & Hx') Heq.
  unfold mod_port, the_port, mbind, M_bind, deref in Heq.
  destruct (br_ports (br w) !! q) eqn:Hq; [|done]. injection Heq as <-.
  unfold spinning, alter_port. upd_simpl. destruct (decide (q = p)) as [->|Hne].
  - rewrite list_lookup_alter_eq, Hp. destruct (Hf prt) as (H1 & H2 & H3).
    exists (f prt), x. rewrite H1, H2, H3. done.
  - rewrite list_lookup_alter_ne by done. by exists prt, x.
Qed.

Lemma spinning_mod_ptp q s f :
  (forall x, ptp_MSTID (f x) = ptp_MSTID x /\ role (f x) = role x /\ TCSM_state (f x) = TCSM_state x) ->
  stays (spinning p t st) (mod_ptp q s f).
Proof.
  intros Hf w [] w' (prt & x & Hp & Hx & Hr & He & Hi & Ha & Hst) Heq.
  unfold mod_ptp, the_ptp, mbind, M_bind, deref in Heq.
  destruct (lookup_ptp (br w) q s) eqn:Hq; [|done]. injection Heq as <-.
  unfold spinning, alter_ptp, alter_port. upd_simpl. destruct (decide (q = p)) as [->|Hne].
  - rewrite list_lookup_alter_eq, Hp. simpl. eexists. exists (if decide (s = t) then f x else x).
    split; [done|]. upd_simpl. destruct (decide (s = t)) as [->|Hne].
    + rewrite list_lookup_alter_eq, Hx. destruct (Hf x) as (H1 & H2 & H3).
      unfold active_port in *. by rewrite H1, H2, H3.
    + by rewrite list_lookup_alter_ne.
  - rewrite list_lookup_alter_ne by done. by exists prt, x.
Qed.

Lemma spinning_mod_tree s f : stays (spinning p t st) (mod_tree s f).
Proof.
  intros w [] w' Hw Heq. unfold mod_tree, the_tree, mbind, M_bind, deref in Heq.
  destruct (br_trees (br w) !! s); [|done]. by injection Heq as <-.
Qed.
End spinning.

(** The state changes, everything else that matters stays. *)
Lemma spinning_enter p t st st' f w a w' :
  (forall x, ptp_MSTID (f x) = ptp_MSTID x /\ role (f x) = role x /\ TCSM_state (f x) = st') ->
  spinning p t st w -> mod_ptp p t f w = Ret a w' -> spinning p t st' w'.
Proof.
  intros Hf (prt & x & Hp & Hx & Hr & He & Hi & Ha & Hst) Heq.
  unfold mod_ptp, the_ptp, mbind, M_bind, deref in Heq.
  destruct (lookup_ptp (br w) p t) eqn:Hq; [|done]. injection Heq as _ <-.
  unfold spinning, alter_ptp, alter_port. upd_simpl. rewrite list_lookup_alter_eq, Hp. simpl.
  eexists. exists (f x). split; [done|]. upd_simpl. rewrite list_lookup_alter_eq, Hx.
  destruct (Hf x) as (H1 & H2 & H3). unfold active_port in *. by rewrite H1, H2, H3.
Qed.

Ltac spin :=
  repeat lazymatch goal with
  | |- forall _, _ => intros ?
  | |- stays _ (mod_tree _ _) => apply spinning_mod_tree
  | |- stays _ (mod_port _ _) => apply spinning_mod_port; intros []; done
  | |- stays _ (mod_ptp _ _ _) => apply spinning_mod_ptp; intros []; done
  | |- stays _ (mret _) => apply stays_ret
  | |- stays _ (for_each _ _) => apply stays_for_each
  | |- stays _ (_ ≫= _) => apply stays_bind
  | |- stays _ (if _ then _ else _) => apply stays_if
  | |- stays _ _ => first [solve [auto with quiet spinning] | apply stays_quiet; solve [auto with quiet]]
  end.

Create HintDb spinning.
Lemma spinning_set_TopologyChange p t st s b q : stays (spinning p t st) (set_TopologyChange s b q).
Proof. unfold set_TopologyChange. spin. Qed.
Lemma spinning_set_newInfoXst p t st q s : stays (spinning p t st) (set_newInfoXst q s).
Proof. unfold set_newInfoXst. spin. Qed.

#[export] Hint Resolve spinning_set_TopologyChange spinning_set_newInfoXst : spinning.

Lemma spinning_newTcWhile p t st q s : stays (spinning p t st) (newTcWhile q s).
Proof.
  unfold newTcWhile, the_cist. spin.
Qed.

Lemma spinning_setTcPropTree p t st q s : stays (spinning p t st) (setTcPropTree q s).
Proof. unfold setTcPropTree, for_ptp_in_tree, for_port_in_bridge. spin. Qed.

#[export] Hint Resolve spinning_newTcWhile spinning_setTcPropTree : spinning.

Lemma bind_inv {A B} (m : M A) (k : A -> M B) w b w2 :
  (m ≫= k) w = Ret b w2 -> exists a w1, m w = Ret a w1 /\ k a w1 = Ret b w2.
Proof. unfold mbind, M_bind. destruct (m w) as [a w1| |]; [|done..]. by exists a, w1. Qed.

(** The states of the loop. *)
Definition in_loop (st : TCSM_states_t) : Prop :=
  st = TCSM_ACTIVE \/ st = TCSM_NOTIFIED_TCN \/ st = TCSM_NOTIFIED_TC.

Section turn.
Context (p t : nat) (rec : M unit).
Context (Hrec : forall st w1 w2, in_loop st -> spinning p t st w1 -> rec w1 <> Ret tt w2).

Lemma spin_NOTIFIED_TCN st w w' : spinning p t st w -> TCSM_to_NOTIFIED_TCN rec p t w <> Ret tt w'.
Proof.
  intros Hw (u1 & w1 & H1 & (u2 & w2 & H2 & H3)%bind_inv)%bind_inv.
  eapply (spinning_enter _ _ _ TCSM_NOTIFIED_TCN) in H1; [|by intros []|exact Hw].
  pose proof (spinning_newTcWhile p t _ p t _ _ _ H1 H2) as Hw2. apply (Hrec TCSM_NOTIFIED_TCN w2 w'); unfold in_loop; auto.
Qed.

Lemma spin_NOTIFIED_TC st w w' : spinning p t st w -> TCSM_to_NOTIFIED_TC rec p t w <> Ret tt w'.
Proof.
  intros Hw (u1 & w1 & H1 & (x & w2 & H2 & (u3 & w3 & H3 & (u4 & w4 & H4 & H5)%bind_inv)%bind_inv)
    %bind_inv)%bind_inv.
  eapply (spinning_enter _ _ _ TCSM_NOTIFIED_TC) in H1; [|by intros []|exact Hw].
  pose proof H1 as (prt & y & Hp & Hy & _ & _ & Hi & _).
  unfold the_ptp, lookup_ptp, deref in H2. rewrite Hp in H2. simpl in H2. rewrite Hy in H2.
  injection H2 as <- <-.
  replace (0 =? ptp_MSTID y) with false in H3
    by (symmetry; apply Z.eqb_neq; congruence).
  replace (ptp_MSTID y =? 0) with false in H3 by (symmetry; by apply Z.eqb_neq).
  injection H3 as _ <-. pose proof (spinning_setTcPropTree p t _ p t _ _ _ H1 H4) as Hw4.
  apply (Hrec TCSM_NOTIFIED_TC w4 w'); unfold in_loop; auto.
Qed.

Lemma spin_ACTIVE st w w' : spinning p t st w -> TCSM_to_ACTIVE rec p t w <> Ret tt w'.
Proof.
  intros Hw (u1 & w1 & H1 & H2)%bind_inv.
  eapply (spinning_enter _ _ _ TCSM_ACTIVE) in H1; [|by intros []|exact Hw].
  apply (Hrec TCSM_ACTIVE w1 w'); unfold in_loop; auto.
Qed.
End turn.

(** Whatever the depth of the recursion, the call does not return. *)
Lemma spinning_diverges n p t st w b w' :
  in_loop st -> spinning p t st w -> TCSM_runf n p t false w <> Ret b w'.
Proof.
  revert st w b w'. induction n as [|n IH]; intros st w b w' Hst Hw Heq; [done|].
  pose proof Hw as (prt & x & Hp & Hx & Hr & He & Hi & Ha & Hs).
  assert (lookup_ptp (br w) p t = Some x) as Hl by (unfold lookup_ptp; by rewrite Hp).
  assert (forall st w1 w2, in_loop st -> spinning p t st w1 ->
    (TCSM_runf n p t false ;; mret tt) w1 <> Ret tt w2) as Hrec.
  { intros st' w1 w2 Hst' Hw1 (r & w3 & H1 & _)%bind_inv. by apply (IH st' w1 r w3). }
  cbn [TCSM_runf] in Heq.
  rewrite (bind_ret (the_port p) _ w prt w) in Heq by (unfold the_port, deref; by rewrite Hp).
  rewrite (bind_ret (the_ptp p t) _ w x w) in Heq by (unfold the_ptp, deref; by rewrite Hl).
  rewrite Hs, Ha, He, Hr in Heq.
  destruct Hst as [-> |[-> | ->]]; apply bind_inv in Heq as (u & w1 & Heq & _); destruct u.
  - by apply (spin_NOTIFIED_TCN p t _ Hrec _ _ _ Hw) in Heq.
  - by apply (spin_NOTIFIED_TC p t _ Hrec _ _ _ Hw) in Heq.
  - by apply (spin_ACTIVE p t _ Hrec _ _ _ Hw) in Heq.
Qed.

(** ** The machines with another depth of the recursion

    [run_at n]: br_state_machines_run when the Topology Change machine may
    call itself [n] times. *)
Definition phases_at (n : nat) (dry_run : bool) : list (M bool) :=
  take 9 (br_state_machines_phases dry_run)
  ++ [any_ptp dry_run (fun p t => TCSM_runf n p t dry_run)].

Fixpoint run_loop_at (n k : nat) : M unit :=
  changed ← phases (phases_at n true);
  if negb changed then mret tt
  else
    phases (phases_at n false) ;;
    match k with
    | O => mret tt
    | S k => run_loop_at n k
    end.

Definition run_at (n : nat) : M unit :=
  b ← the_br;
  if negb (bridgeEnabled b) then mret tt
  else
    w ← get_world;
    (fun w' => Ret tt (w' <| runs := S (runs w') |>)) ;;
    run_loop_at n (clock w (runs w)).

Lemma phases_at_depth dry : phases_at TCSM_depth dry = br_state_machines_phases dry.
Proof. unfold phases_at, br_state_machines_phases, TCSM_run. reflexivity. Qed.

Lemma once_at dry : phases (phases_at TCSM_depth dry) = br_state_machines_run_once dry.
Proof. rewrite phases_at_depth. reflexivity. Qed.

Lemma run_at_depth w : run_at TCSM_depth w = br_state_machines_run w.
Proof.
  assert (forall k, run_loop_at TCSM_depth k = run_loop k) as Hloop.
  { induction k as [|k IH]; cbn [run_loop_at run_loop]; rewrite !once_at; [|rewrite IH]; reflexivity. }
  unfold run_at, br_state_machines_run, mbind, M_bind. cbn. case_match; [done|].
  by rewrite Hloop.
Qed.

(** What [run_at n] does first on a bridge that has something to do. *)
Lemma run_at_first_pass n w u w' :
  bridgeEnabled (br w) = true ->
  phases (phases_at n true) (w <| runs := S (runs w) |>) = Ret true (w <| runs := S (runs w) |>) ->
  run_at n w = Ret u w' ->
  exists r w1, phases (phases_at n false) (w <| runs := S (runs w) |>) = Ret r w1.
Proof.
  intros Hen Hdry Heq. unfold run_at in Heq. rewrite (bind_ret the_br _ w (br w) w) in Heq by done.
  rewrite Hen in Heq. cbn [negb] in Heq. rewrite (bind_ret get_world _ w w w) in Heq by done.
  apply bind_inv in Heq as (u1 & w1 & [= _ <-] & Heq).
  destruct (clock w (runs w)); cbn [run_loop_at] in Heq;
    rewrite (bind_ret _ _ _ _ _ Hdry) in Heq; cbn [negb] in Heq;
    apply bind_inv in Heq as (r & w1 & H1 & _); eauto.
Qed.

(** One pass comes to the machine of the last of two trees on two ports. *)
Lemma phases_app (ms ms' : list (M bool)) w w1 :
  phases ms w = Ret false w1 -> phases (ms ++ ms') w = phases ms' w1.
Proof.
  revert w. induction ms as [|m ms IH]; intros w Heq; [by injection Heq as ->|].
  cbn [phases app] in *. apply bind_inv in Heq as (r & w2 & H1 & H2).
  rewrite (bind_ret _ _ _ _ _ H1). destruct r; [done|]. by apply IH.
Qed.

(** ** The properties *)

(** A TCN BPDU of four octets, and the bridge when it has been stored on the
    port that is alternate in the CIST. *)
Definition tcn_call : call := C_rx_bpdu 1 (be_bytes 2 0 ++ [protoSTP; bpduTypeTCN]) TCN_BPDU_SIZE.
Definition tcn_stored : world :=
  with_br joined (alter_port 1 (fun prt => prt
    <| num_rx_bpdu := u32 (num_rx_bpdu prt + 1) |>
    <| num_rx_tcn := u32 (num_rx_tcn prt + 1) |>
    <| rcvdBpduData := decode_bpdu (be_bytes 2 0 ++ [protoSTP; bpduTypeTCN]) |>
    <| rcvdBpdu := true |>
    <| brAssuRcvdInfoWhile := 6 |>) (br joined)).

Definition after {A} (m : M A) (w : world) : world :=
  match m w with Ret _ w' => w' | _ => w end.

Lemma tcn_call_stores : perform tcn_call joined = br_state_machines_run tcn_stored.
Proof.
  unfold tcn_call, perform, MSTP_IN_rx_bpdu. cbv zeta.
  rewrite (bind_ret the_br _ joined _ _ eq_refl).
  rewrite (bind_ret _ _ _ tt _ (mod_port_eq joined 1 _ ltac:(vm_compute; lia))).
  set (w1 := with_br joined _).
  set (prt := default (calloc_port eth2) (br_ports (br w1) !! 1%nat)).
  rewrite (bind_ret (the_port 1) _ w1 prt w1) by (vm_compute; reflexivity).
  replace (BpduGuardPort prt) with false by (vm_compute; reflexivity).
  replace (bpduFilterPort prt) with false by (vm_compute; reflexivity).
  replace (negb (bridgeEnabled (br joined))) with false by (vm_compute; reflexivity).
  replace (rcvdBpdu prt) with false by (vm_compute; reflexivity).
  replace (rx_validate _ _) with (Some (protoSTP, @None Z)) by (vm_compute; reflexivity).
  rewrite (bind_ret _ _ _ tt _ (mod_port_eq w1 1 _ ltac:(vm_compute; lia))).
  set (w2 := with_br w1 _).
  rewrite (bind_ret (updtbrAssuRcvdInfoWhile 1) _ w2 tt tcn_stored) by (vm_compute; reflexivity).
  reflexivity.
Qed.

(** The pass up to the machine of the MSTI on that port. *)
Definition first_pass : world := tcn_stored <| runs := S (runs tcn_stored) |>.
Definition before_TCSM : world := after (phases (take 9 (br_state_machines_phases false))) first_pass.
Definition before_spin : world :=
  after (TCSM_runf 2 1 0 false) (after (TCSM_runf 2 0 1 false) (after (TCSM_runf 2 0 0 false) before_TCSM)).

Lemma any_of_next i ix (f : nat -> M bool) w w1 :
  f i w = Ret false w1 -> any_of (i :: ix) f w = any_of ix f w1.
Proof. intros Hf. cbn [any_of]. by rewrite (bind_ret (f i) _ w false w1 Hf). Qed.

Lemma any_of_head i ix (f : nat -> M bool) w r w' :
  any_of (i :: ix) f w = Ret r w' -> exists r1 w1, f i w = Ret r1 w1.
Proof. cbn [any_of]. intros (r1 & w1 & H1 & _)%bind_inv. eauto. Qed.

Lemma actual_false (m : M bool) w w1 :
  m w = Ret false w1 -> (r ← m; mret (r && false)) w = Ret false w1.
Proof. intros Hm. by rewrite (bind_ret m _ w false w1 Hm). Qed.

Lemma pass_reaches_spin m r w' :
  any_ptp false (fun p t => TCSM_runf (S (S m)) p t false) before_TCSM = Ret r w' ->
  exists r1 w1, TCSM_runf (S (S m)) 1 1 false before_spin = Ret r1 w1.
Proof.
  set (w10 := after (TCSM_runf 2 0 0 false) before_TCSM).
  set (w11 := after (TCSM_runf 2 0 1 false) w10).
  assert (TCSM_runf (S (S m)) 0 0 false before_TCSM = Ret false w10) as H00 by (vm_compute; reflexivity).
  assert (TCSM_runf (S (S m)) 0 1 false w10 = Ret false w11) as H01 by (vm_compute; reflexivity).
  assert (TCSM_runf (S (S m)) 1 0 false w11 = Ret false before_spin) as H10 by (vm_compute; reflexivity).
  assert (num_ports before_TCSM = Ret 2%nat before_TCSM) as Hn by (vm_compute; reflexivity).
  assert (num_ptps 0 before_TCSM = Ret 2%nat before_TCSM) as Hm0 by (vm_compute; reflexivity).
  assert (num_ptps 1 w11 = Ret 2%nat w11) as Hm1 by (vm_compute; reflexivity).
  set (body := fun p t => (r ← TCSM_runf (S (S m)) p t false; mret (r && false)) : M bool).
  set (row := fun p => (n ← num_ptps p; any_of (seq 0 n) (body p)) : M bool).
  change ((num_ports ≫= fun n => any_of (seq 0 n) row) before_TCSM = Ret r w' ->
    exists r1 w1, TCSM_runf (S (S m)) 1 1 false before_spin = Ret r1 w1).
  pose proof (actual_false _ _ _ H00 : body 0%nat 0%nat before_TCSM = Ret false w10) as B00.
  pose proof (actual_false _ _ _ H01 : body 0%nat 1%nat w10 = Ret false w11) as B01.
  pose proof (actual_false _ _ _ H10 : body 1%nat 0%nat w11 = Ret false before_spin) as B10.
  assert (row 0%nat before_TCSM = Ret false w11) as R0.
  { unfold row. rewrite (bind_ret _ _ _ _ _ Hm0). change (seq 0 2) with [0%nat; 1%nat].
    rewrite (any_of_next 0 _ (body 0%nat) _ _ B00), (any_of_next 1 _ (body 0%nat) _ _ B01). reflexivity. }
  rewrite (bind_ret _ _ _ _ _ Hn). change (seq 0 2) with [0%nat; 1%nat].
  rewrite (any_of_next 0 _ row _ _ R0). intros (r2 & w2 & H2)%any_of_head.
  unfold row in H2. rewrite (bind_ret _ _ _ _ _ Hm1) in H2.
  change (seq 0 2) with [0%nat; 1%nat] in H2. rewrite (any_of_next 0 _ (body 1%nat) _ _ B10) in H2.
  apply any_of_head in H2 as (r3 & w3 & H3). apply bind_inv in H3 as (r4 & w4 & H4 & _). eauto.
Qed.

Lemma spinning_before_spin : spinning 1 1 TCSM_ACTIVE before_spin.
Proof.
  eexists _, _. split; [vm_compute; reflexivity|]. split; [vm_compute; reflexivity|].
  repeat split; try (vm_compute; reflexivity). vm_compute. discriminate.
Qed.

Lemma tcn_run_never_returns n u w' : run_at n tcn_stored <> Ret u w'.
Proof.
  intros Heq.
  assert (bridgeEnabled (br tcn_stored) = true) as Hen by (vm_compute; reflexivity).
  assert (phases (phases_at n true) first_pass = Ret true first_pass) as Hdry
    by (vm_compute; reflexivity).
  destruct (run_at_first_pass n tcn_stored u w' Hen Hdry Heq) as (r & w1 & H1).
  fold first_pass in H1. unfold phases_at in H1.
  rewrite (phases_app _ _ _ before_TCSM) in H1 by (vm_compute; reflexivity).
  cbn [phases] in H1. apply bind_inv in H1 as (r1 & w2 & H1 & _).
  destruct n as [|[|m]]; [vm_compute in H1; discriminate..|].
  apply pass_reaches_spin in H1 as (r2 & w3 & H1). revert H1.
  apply (spinning_diverges _ _ _ TCSM_ACTIVE); [by left|exact spinning_before_spin].
Qed.

(** C34: one TCN BPDU hangs the bridge. In a reachable state of an MSTP bridge
    with one MSTI, joined to a neighbour of its region by two links, a TCN BPDU
    of four octets on the port that is alternate in the CIST is stored, and
    the run of the machines that follows does not return, whatever depth [n]
    is allowed to the recursion of the Topology Change machine (the run of
    the daemon is [run_at TCSM_depth]): the machine of the MSTI calls itself
    without end. It does so in every state in which rcvdTcn is set on a port
    that is not an edge port and the machine of an MSTI with an active role is
    ACTIVE on it. *)
Theorem tcn_bpdu_hangs_bridge :
  (forall p t prt x w, br_ports (br w) !! p = Some prt -> prt_trees prt !! t = Some x ->
     rcvdTcn prt = true -> operEdge prt = false ->
     ptp_MSTID x <> 0 -> active_port x = true -> TCSM_state x = TCSM_ACTIVE ->
     forall n b w', TCSM_runf n p t false w <> Ret b w')
  /\ exists w stored, reachable w /\ valid_call w tcn_call
     /\ perform tcn_call w = br_state_machines_run stored
     /\ br_state_machines_run stored = run_at TCSM_depth stored
     /\ forall n u w', run_at n stored <> Ret u w'.
Proof.
  split.
  - intros p t prt x w Hp Hx Hr He Hi Ha Hs n b w'.
    apply (spinning_diverges n p t TCSM_ACTIVE); [by left|]. by exists prt, x.
  - exists joined, tcn_stored. split; [exact joined_reachable|].
    split; [vm_compute; repeat constructor|]. split; [exact tcn_call_stores|].
    split; [by rewrite run_at_depth|]. exact tcn_run_never_returns.
Qed.
