(* ===== verification/MstpFrame.v ===== *)
(** * The protocol engine, its interfaces and the kernel

    Every MSTP_IN_* function except the creation and deletion of ports leaves
    the system dependent members of the bridge and of its ports, which belong
    to bridge_track.c, as they are, and keeps the list of ports ([framed]). It
    also keeps the record that the kernel has of the states of the interfaces
    ([kernel_view]: its calls of br_set_state) in agreement with the states of
    the ports in the CIST ([told]). Both are instances of what [EngineInv]
    asks of an invariant. [bridge_life] is the life of a bridge together with
    the record of the kernel. *)

From S2P Require Import Prelude Bytes MstpTypes MstpPriority MstpBpdu MstpMonad MstpOut MstpPort.
From S2P Require Import MstpInfo MstpRoles MstpTransitions MstpForwarding MstpRun HmacMd5.
From S2P Require Import MstpConfig MstpEvents MstpAdmin MstpVlan MstpInv MstpInvariant MstpLoops.
From S2P Require Import MstpEventsOk MstpSafety MstpDryRun MstpScenario MstpDiverge.

(** ** What an invariant of the engine needs

    A predicate is kept by the whole engine when it is kept by its assignments
    to the members of the bridge, ports and trees, where an assignment keeps
    the interfaces and the states of ports that were told to the kernel; by
    what it hands to the kernel other than such a state; by MSTP_OUT_set_state,
    which does both; and by the entry and removal of the per-tree ports of an
    MSTI. *)

Definition other_event (e : event_t) : Prop :=
  match e with Ev_br_set_state _ _ => False | _ => True end.

Class EngineInv (P : world -> Prop) : Prop := {
  ei_emit e : other_event e -> stays P (emit e);
  ei_mod_br f : (forall b, br_sysdeps (f b) = br_sysdeps b /\ br_ports (f b) = br_ports b) ->
    stays P (mod_br f);
  ei_mod_port p f : (forall prt, prt_sysdeps (f prt) = prt_sysdeps prt
                       /\ prt_trees (f prt) = prt_trees prt) -> stays P (mod_port p f);
  ei_mod_ptp p t f : (forall x, ptp_MSTID (f x) = ptp_MSTID x /\ ptp_state (f x) = ptp_state x) ->
    stays P (mod_ptp p t f);
  ei_runs : stays P (fun w => Ret tt (w <| runs := S (runs w) |>));
  ei_set_state p t st : stays P (MSTP_OUT_set_state p t st);
  ei_insert p i tree : tree_MSTID tree <> 0 ->
    stays P (mod_port p (fun prt =>
      prt <| prt_trees := insert_at i (create_ptp tree prt) (prt_trees prt) |>));
  ei_delete p i :
    stays P (mod_port p (fun prt => prt <| prt_trees := delete i (prt_trees prt) |>)) }.

Lemma stays_option {A B} P (o : option A) (f : A -> M B) m :
  (forall a, stays P (f a)) -> stays P m ->
  stays P (match o with Some a => f a | None => m end).
Proof. by destruct o. Qed.

Lemma stays_any_of P ix f : (forall i, stays P (f i)) -> stays P (any_of ix f).
Proof.
  intros Hf. induction ix as [|i ix IH]; [apply stays_ret|].
  apply stays_bind; [done|]. intros []; [apply stays_ret|done].
Qed.

Section engine.
Context (P : world -> Prop) {HP : EngineInv P}.

Lemma ei_fault A : stays P (@fault A).
Proof. by intros w a w' _. Qed.
Lemma ei_fuel A : stays P (@out_of_fuel A).
Proof. by intros w a w' _. Qed.
Lemma ei_deref A (o : world -> option A) : stays P (fun w => deref (o w) w).
Proof. apply stays_quiet, quiet_deref. Qed.
Lemma ei_get_world : stays P get_world.
Proof. apply stays_quiet. done. Qed.
Lemma ei_mod_tree t f : stays P (mod_tree t f).
Proof. apply stays_bind; [apply stays_quiet, quiet_the_tree|]. intros _. by apply ei_mod_br. Qed.

(** A per-tree port that is read, changed and written back. *)
Lemma mod_ptp_read p t (f : per_tree_port_t -> per_tree_port_t) x w :
  lookup_ptp (br w) p t = Some x -> mod_ptp p t (fun _ => f x) w = mod_ptp p t f w.
Proof.
  intros Hx. rewrite !mod_ptp_eq by (by rewrite Hx). do 2 f_equal. unfold alter_ptp, alter_port.
  f_equal. apply list_eq. intros q. destruct (decide (p = q)) as [<-|Hne];
    [|by rewrite !list_lookup_alter_ne].
  rewrite !list_lookup_alter_eq. unfold lookup_ptp in Hx.
  destruct (br_ports (br w) !! p) as [prt|]; [|done]. simpl in *. do 2 f_equal.
  apply list_eq. intros s. destruct (decide (t = s)) as [<-|Hne];
    [|by rewrite !list_lookup_alter_ne].
  by rewrite !list_lookup_alter_eq, Hx.
Qed.

Lemma ei_update {A} p t (f : per_tree_port_t -> per_tree_port_t) (k : per_tree_port_t -> M A) :
  (forall x, ptp_MSTID (f x) = ptp_MSTID x /\ ptp_state (f x) = ptp_state x) ->
  (forall x, stays P (k x)) ->
  stays P (x ← the_ptp p t; mod_ptp p t (fun _ => f x) ;; k x).
Proof.
  intros Hf Hk w a w' Hw (x & w1 & H1 & H2)%bind_inv.
  pose proof H1 as ->%quiet_eq; [|auto with quiet].
  apply bind_inv in H2 as ([] & w2 & H2 & H3). eapply Hk; [|exact H3].
  unfold the_ptp, deref in H1. destruct (lookup_ptp (br w) p t) eqn:Hx; [|done].
  injection H1 as ->. rewrite mod_ptp_read in H2 by done. by eapply (ei_mod_ptp p t f).
Qed.

Lemma choose_role_same cist tree prt y is_root x :
  ptp_MSTID (choose_role cist tree prt y is_root x) = ptp_MSTID x
  /\ ptp_state (choose_role cist tree prt y is_root x) = ptp_state x.
Proof. destruct x. unfold choose_role, update_if_changed. by repeat case_match. Qed.

Create HintDb frame.
#[local] Hint Resolve ei_fault ei_fuel ei_mod_tree ei_deref ei_get_world ei_set_state : frame.

Ltac head_of m := lazymatch m with ?f _ => head_of f | _ => m end.

Ltac frame_step :=
  lazymatch goal with
  | |- forall _, _ => intros ?
  | |- stays _ (mret _) => apply stays_ret
  | |- stays _ (emit _) => apply ei_emit; exact I
  | |- stays _ (mod_br _) => apply ei_mod_br; by intros []
  | |- stays _ (mod_port _ _) =>
      apply ei_mod_port; intros []; cbv beta; repeat case_match; split; reflexivity
  | |- stays _ (mod_ptp _ _ _) =>
      apply ei_mod_ptp; intros []; cbv beta; repeat case_match; split; reflexivity
  | |- stays _ (_ ≫= _) => apply stays_bind
  | |- stays _ (let _ := _ in _) => cbv zeta
  | |- stays _ (for_each _ _) => apply stays_for_each
  | |- stays _ (any_of _ _) => apply stays_any_of
  | |- stays _ (if ?b then _ else _) => destruct b
  | |- stays _ (match ?x with _ => _ end) => destruct x
  | |- stays _ ?m =>
      first [ solve [auto with frame]
            | solve [apply stays_quiet; auto with quiet nocore]
            | let h := head_of m in progress unfold h ]
  end.
Ltac frame := repeat frame_step.

Lemma frame_txConfig p : stays P (txConfig p).
Proof. frame. Qed.
Lemma frame_txMstp p : stays P (txMstp p).
Proof. frame. Qed.
Lemma frame_txTcn p : stays P (txTcn p).
Proof. frame. Qed.
Lemma frame_set_TopologyChange t b p : stays P (set_TopologyChange t b p).
Proof. frame. Qed.
Lemma frame_newTcWhile p t : stays P (newTcWhile p t).
Proof. frame. Qed.
#[local] Hint Resolve frame_txConfig frame_txMstp frame_txTcn frame_set_TopologyChange
  frame_newTcWhile : frame.

Lemma frame_PRSM_run p dry : stays P (PRSM_run p dry).
Proof. frame. Qed.
Lemma frame_BDSM_run p dry : stays P (BDSM_run p dry).
Proof. frame. Qed.
Lemma frame_PPMSM_runf n p dry : stays P (PPMSM_runf n p dry).
Proof. revert dry. induction n as [|n IH]; intros dry; frame; apply IH. Qed.
Lemma frame_PTSM_runf n p dry : stays P (PTSM_runf n p dry).
Proof. revert dry. induction n as [|n IH]; intros dry; frame; apply IH. Qed.
#[local] Hint Resolve frame_PRSM_run frame_BDSM_run frame_PPMSM_runf frame_PTSM_runf : frame.

Lemma frame_PISM_runf n p t dry : stays P (PISM_runf n p t dry).
Proof. revert dry. induction n as [|n IH]; intros dry; frame; apply IH. Qed.
Lemma frame_set_role_of cist root p t : stays P (set_role_of cist root p t).
Proof.
  unfold set_role_of. do 3 (apply stays_bind; [frame|intros ?]). cbv zeta.
  apply (ei_update p t (choose_role cist _ _ _ (bool_decide (root = Some p)))).
  - intros x. apply choose_role_same.
  - frame.
Qed.
#[local] Hint Resolve frame_set_role_of : frame.
Lemma frame_PRSSM_run t dry : stays P (PRSSM_run t dry).
Proof. frame. Qed.
Lemma frame_PSTSM_runf n p t dry : stays P (PSTSM_runf n p t dry).
Proof. revert dry. induction n as [|n IH]; intros dry; frame; apply IH. Qed.
Lemma frame_set_fdbFlush p t : stays P (set_fdbFlush p t).
Proof. frame. Qed.
#[local] Hint Resolve frame_PISM_runf frame_PRSSM_run frame_PSTSM_runf frame_set_fdbFlush : frame.
Lemma frame_TCSM_runf n p t dry : stays P (TCSM_runf n p t dry).
Proof. revert dry. induction n as [|n IH]; intros dry; frame; apply IH. Qed.
Lemma frame_PRTSM_runr n v p t dry : stays P (PRTSM_runr n v p t dry).
Proof. revert v dry. induction n as [|n IH]; intros v dry; frame; apply IH. Qed.
#[local] Hint Resolve frame_TCSM_runf frame_PRTSM_runr : frame.

Lemma frame_phases ms : Forall (stays P) ms -> stays P (phases ms).
Proof. induction 1; cbn [phases]; frame; done. Qed.
Lemma frame_run_once dry : stays P (br_state_machines_run_once dry).
Proof. apply frame_phases. repeat constructor; frame. Qed.
#[local] Hint Resolve frame_run_once : frame.
Lemma frame_run_loop n : stays P (run_loop n).
Proof. induction n as [|n IH]; frame; apply IH. Qed.
Lemma frame_run : stays P br_state_machines_run.
Proof.
  unfold br_state_machines_run. apply stays_bind; [frame|]. intros b. destruct (negb _); [frame|].
  apply stays_bind; [frame|]. intros w0. apply stays_bind; [apply ei_runs|].
  intros _. apply frame_run_loop.
Qed.
#[local] Hint Resolve frame_run : frame.

Lemma frame_tree_begin t : stays P (tree_state_machines_begin t).
Proof. frame. Qed.
Lemma frame_prt_begin p : stays P (prt_state_machines_begin p).
Proof. frame. Qed.
Lemma frame_begin : stays P br_state_machines_begin.
Proof. frame. Qed.
#[local] Hint Resolve frame_tree_begin frame_prt_begin frame_begin : frame.

(** ** The calls *)

Lemma frame_set_cist_bridge_config cfg : stays P (MSTP_IN_set_cist_bridge_config cfg).
Proof. frame. Qed.
Lemma frame_set_cist_port_config p cfg : stays P (MSTP_IN_set_cist_port_config p cfg).
Proof. frame. Qed.
Lemma frame_create_msti mstid : stays P (MSTP_IN_create_msti mstid).
Proof.
  unfold MSTP_IN_create_msti. destruct (_ || _) eqn:Hid; [apply stays_ret|].
  frame. apply ei_insert. bool_hyps. simpl. unfold create_tree. upd_simpl. simpl. lia.
Qed.
Lemma frame_delete_msti mstid : stays P (MSTP_IN_delete_msti mstid).
Proof. frame. apply ei_delete. Qed.
#[local] Hint Resolve frame_set_cist_bridge_config frame_set_cist_port_config frame_create_msti
  frame_delete_msti : frame.

Definition keeps_ports (c : call) : Prop :=
  match c with C_port_create _ _ | C_delete_port _ => False | _ => True end.

Lemma frame_call c : keeps_ports c -> stays P (perform c).
Proof. destruct c; intros Hc; try done; unfold perform, discard; frame. Qed.
End engine.

(** ** The interfaces *)

(** What the engine leaves alone. *)
Definition interfaces (b : bridge_t) : sysdep_br_data_t * list sysdep_if_data_t :=
  (br_sysdeps b, map prt_sysdeps (br_ports b)).

Section interfaces.
Context (l : sysdep_br_data_t * list sysdep_if_data_t).

Definition framed (w : world) : Prop := interfaces (br w) = l.

Lemma map_alter_same {A B} (f : A -> B) g i ix :
  (forall x, f (g x) = f x) -> map f (alter g i ix) = map f ix.
Proof.
  intros Hg. apply list_eq. intros j. rewrite !list_lookup_fmap.
  destruct (decide (i = j)) as [->|Hne].
  - rewrite list_lookup_alter_eq. destruct (ix !! j); simpl; [by rewrite Hg|done].
  - by rewrite list_lookup_alter_ne.
Qed.

Lemma framed_mod_br f :
  (forall b, interfaces (f b) = interfaces b) -> stays framed (mod_br f).
Proof. intros Hf w [] w' Hw [= <-]. unfold framed in *. rewrite <-Hw. exact (Hf (br w)). Qed.

Lemma framed_mod_port p f :
  (forall prt, prt_sysdeps (f prt) = prt_sysdeps prt) -> stays framed (mod_port p f).
Proof.
  intros Hf. apply stays_bind; [apply stays_quiet, quiet_the_port|]. intros _. apply framed_mod_br.
  intros b. unfold interfaces, alter_port. upd_simpl. by rewrite map_alter_same.
Qed.

Lemma framed_mod_ptp p t f : stays framed (mod_ptp p t f).
Proof.
  apply stays_bind; [apply stays_quiet, quiet_the_ptp|]. intros _. apply framed_mod_br.
  intros b. unfold interfaces, alter_ptp, alter_port. upd_simpl. by rewrite map_alter_same.
Qed.

Lemma framed_emit e : stays framed (emit e).
Proof. by intros w [] w' Hw [= <-]. Qed.

#[export] Instance framed_engine : EngineInv framed.
Proof.
  constructor.
  - intros e _. apply framed_emit.
  - intros f Hf. apply framed_mod_br. intros b. unfold interfaces. by destruct (Hf b) as [-> ->].
  - intros p f Hf. apply framed_mod_port. intros prt. apply Hf.
  - intros p t f _. apply framed_mod_ptp.
  - intros w [] w' Hw [= <-]. exact Hw.
  - intros p t st. unfold MSTP_OUT_set_state.
    apply stays_bind; [apply stays_quiet, quiet_the_ptp|]. intros x. case_match; [apply stays_ret|].
    apply stays_bind; [apply framed_mod_ptp|]. intros _. apply stays_bind.
    { destruct (driver_set_new_state st); try apply stays_ret; apply framed_mod_port; by intros []. }
    intros _. case_match; [|apply stays_ret].
    apply stays_bind; [apply stays_quiet, quiet_the_port|]. intros prt. apply framed_emit.
  - intros p i tree _. apply framed_mod_port. by intros [].
  - intros p i. apply framed_mod_port. by intros [].
Qed.
End interfaces.

(** ** Ports that come and go *)

Lemma map_delete_at {A B} (f : A -> B) i l : map f (delete i l) = delete i (map f l).
Proof. revert i. induction l as [|x l IH]; intros [|i]; simpl; f_equal; auto. Qed.

Lemma delete_port_interfaces p w u w' :
  MSTP_IN_delete_port p w = Ret u w' ->
  interfaces (br w') = ((interfaces (br w)).1, delete p (interfaces (br w)).2).
Proof.
  intros Heq. unfold MSTP_IN_delete_port in Heq. set (l := interfaces (br w)).
  apply bind_inv in Heq as (u1 & w1 & H1 & Heq).
  assert (framed l w1) as Hf1.
  { eapply (framed_mod_port l p); [|reflexivity|exact H1]. by intros []. }
  apply bind_inv in Heq as (prt & w2 & H2 & Heq). pose proof H2 as ->%quiet_eq; [|auto with quiet].
  apply bind_inv in Heq as (u3 & w3 & H3 & Heq).
  assert (framed l w3) as Hf3.
  { revert H3. destruct (portEnabled prt); [|by intros [= _ <-]].
    intros (u4 & w4 & H4 & H5)%bind_inv. eapply (frame_run (framed l)); [|exact H5].
    eapply (framed_mod_port l p); [|exact Hf1|exact H4]. by intros []. }
  apply bind_inv in Heq as (u4 & w4 & [= _ <-] & Heq).
  eapply (frame_run (framed (l.1, delete p l.2))) in Heq; [exact Heq|].
  change ((br_sysdeps (br w3), map prt_sysdeps (delete p (br_ports (br w3)))) = (l.1, delete p l.2)).
  rewrite map_delete_at. unfold framed, interfaces in Hf3. by rewrite <-Hf3.
Qed.

Lemma create_port_interfaces sd portno w r w' :
  MSTP_IN_port_create_and_add_tail sd portno w = Ret r w' ->
  r = true /\ interfaces (br w') = ((interfaces (br w)).1, (interfaces (br w)).2 ++ [sd]).
Proof.
  intros Heq. unfold MSTP_IN_port_create_and_add_tail in Heq.
  apply bind_inv in Heq as (b & w1 & [= <- <-] & Heq). cbv zeta in Heq.
  apply bind_inv in Heq as (u2 & w2 & [= _ <-] & Heq).
  apply bind_inv in Heq as (u3 & w3 & H3 & [= <- <-]). split; [done|].
  eapply (frame_prt_begin (framed ((interfaces (br w)).1, (interfaces (br w)).2 ++ [sd]))) in H3;
    [exact H3|].
  change ((br_sysdeps (br w), map prt_sysdeps (br_ports (br w) ++
    [(new_port sd portno) <| prt_trees := map (fun tree => create_ptp tree (new_port sd portno)) (br_trees (br w)) |>]))
    = (br_sysdeps (br w), map prt_sysdeps (br_ports (br w)) ++ [sd])). by rewrite map_app.
Qed.

(** ** What the kernel was told

    [kernel_view K evs]: the last state of every interface that the daemon
    has told the kernel by br_set_state, [K] before the outputs [evs]. *)
Definition telling (K : Z -> option br_state_t) (e : event_t) : Z -> option br_state_t :=
  match e with
  | Ev_br_set_state i st => fun j => if j =? i then Some st else K j
  | _ => K
  end.
Definition kernel_view : (Z -> option br_state_t) -> list event_t -> Z -> option br_state_t :=
  foldl telling.

Definition index_of (prt : port_t) : Z := if_index (prt_sysdeps prt).

(** A port has one per-tree port of the CIST, and its state is the one that
    the kernel was told, or "disabled" while it was told nothing. *)
Definition row_shown (K : Z -> option br_state_t) (prt : port_t) : Prop :=
  (forall t s x y, prt_trees prt !! t = Some x -> prt_trees prt !! s = Some y ->
     ptp_MSTID x = 0 -> ptp_MSTID y = 0 -> t = s)
  /\ forall t x, prt_trees prt !! t = Some x -> ptp_MSTID x = 0 ->
     default BR_STATE_DISABLED (K (index_of prt)) = ptp_state x.

Definition shown (K : Z -> option br_state_t) (b : bridge_t) : Prop :=
  NoDup (map index_of (br_ports b)) /\ Forall (row_shown K) (br_ports b).

(** What was handed to the kernel since the outputs were [L] leads from the
    view [K] to one that agrees with the bridge. *)
Definition told (K : Z -> option br_state_t) (L : list event_t) (w : world) : Prop :=
  exists evs, out w = L ++ evs /\ shown (kernel_view K evs) (br w).

Section told.
Context (K : Z -> option br_state_t) (L : list event_t).

Lemma told_br w b' :
  (forall V, shown V (br w) -> shown V b') -> told K L w -> told K L (w <| br := b' |>).
Proof. intros Hb (evs & Hout & Hs). exists evs. split; [by upd_simpl|]. upd_simpl. by apply Hb. Qed.

Lemma shown_alter V p f b :
  (forall prt, row_shown V prt -> index_of (f prt) = index_of prt /\ row_shown V (f prt)) ->
  shown V b -> shown V (alter_port p f b).
Proof.
  intros Hf [Hnd Hrows]. unfold shown, alter_port. upd_simpl.
  rewrite list.Forall_forall in Hrows.
  assert (forall prt, prt ∈ alter f p (br_ports b) ->
    exists q prt0, br_ports b !! q = Some prt0 /\ (prt = prt0 \/ prt = f prt0)) as Hin.
  { intros prt [q Hq]%list_elem_of_lookup. exists q. destruct (decide (p = q)) as [<-|Hne].
    - rewrite list_lookup_alter_eq in Hq. destruct (br_ports b !! p); [|done].
      injection Hq as <-. eauto.
    - rewrite list_lookup_alter_ne in Hq by done. eauto. }
  split.
  - replace (map index_of (alter f p (br_ports b))) with (map index_of (br_ports b)); [done|].
    apply list_eq. intros q. rewrite !list_lookup_fmap. destruct (decide (p = q)) as [<-|Hne].
    + rewrite list_lookup_alter_eq. destruct (br_ports b !! p) eqn:Hp; [|done]. simpl. f_equal.
      symmetry. apply Hf, Hrows. by eapply list_elem_of_lookup_2.
    + by rewrite list_lookup_alter_ne.
  - apply list.Forall_forall. intros prt (q & prt0 & Hq%list_elem_of_lookup_2 & [->| ->])%Hin; [by apply Hrows|].
    by apply Hf, Hrows.
Qed.

Lemma told_mod_port p f :
  (forall V prt, row_shown V prt -> index_of (f prt) = index_of prt /\ row_shown V (f prt)) ->
  stays (told K L) (mod_port p f).
Proof.
  intros Hf. apply stays_bind; [apply stays_quiet, quiet_the_port|].
  intros _ w [] w' Hw [= <-]. apply told_br; [|done]. intros V. apply shown_alter, Hf.
Qed.

Lemma row_shown_alter V prt t f :
  (forall x, ptp_MSTID (f x) = ptp_MSTID x /\ ptp_state (f x) = ptp_state x) ->
  row_shown V prt -> row_shown V (prt <| prt_trees := alter f t (prt_trees prt) |>).
Proof.
  intros Hf [H1 H2].
  assert (forall s x, alter f t (prt_trees prt) !! s = Some x -> exists x0,
    prt_trees prt !! s = Some x0 /\ ptp_MSTID x = ptp_MSTID x0 /\ ptp_state x = ptp_state x0) as Hl.
  { intros s x Hs. destruct (decide (t = s)) as [<-|Hne].
    - rewrite list_lookup_alter_eq in Hs. destruct (prt_trees prt !! t) as [x0|]; [|done].
      injection Hs as <-. exists x0. by destruct (Hf x0).
    - rewrite list_lookup_alter_ne in Hs by done. by exists x. }
  split; upd_simpl.
  - intros a b x y (x0 & ? & -> & _)%Hl (y0 & ? & -> & _)%Hl. eauto.
  - intros s x (x0 & ? & -> & ->)%Hl. unfold index_of. upd_simpl. eauto.
Qed.

Lemma index_alter_ptp p t f b :
  map index_of (br_ports (alter_ptp p t f b)) = map index_of (br_ports b).
Proof. unfold alter_ptp, alter_port. upd_simpl. apply map_alter_same. by intros []. Qed.

(** A new state of one per-tree port, and what the kernel is told of it. *)
Definition set_state_view (V : Z -> option br_state_t) (prt : port_t) (x : per_tree_port_t)
    (st : br_state_t) : Z -> option br_state_t :=
  if ptp_MSTID x =? 0 then telling V (Ev_br_set_state (index_of prt) st) else V.

Lemma shown_set_state V b p t prt x st :
  shown V b -> br_ports b !! p = Some prt -> prt_trees prt !! t = Some x ->
  shown (set_state_view V prt x st) (alter_ptp p t (fun x => x <| ptp_state := st |>) b).
Proof.
  intros [Hnd Hrows] Hp Hx. split; [by rewrite index_alter_ptp|].
  rewrite list.Forall_lookup in Hrows. apply list.Forall_lookup. intros q prt' Hq.
  unfold alter_ptp, alter_port in Hq. upd_simpl in *. destruct (decide (p = q)) as [<-|Hne].
  - rewrite list_lookup_alter_eq, Hp in Hq. injection Hq as <-.
    destruct (Hrows p prt Hp) as [Huniq Hst]. split; upd_simpl.
    { intros s1 s2 y1 y2 H1 H2 H3 H4. rewrite !list_lookup_alter in *.
      unfold index_of. repeat case_decide; subst; simplify_option_eq; upd_simpl in *; eauto. }
    intros s y Hs Hy. rewrite list_lookup_alter in Hs. unfold set_state_view, index_of. upd_simpl.
    destruct (decide (t = s)) as [<-|Hne].
    + rewrite Hx in Hs. injection Hs as <-. upd_simpl in *.
      rewrite Hy, Z.eqb_refl. simpl. by rewrite Z.eqb_refl.
    + assert (ptp_MSTID x <> 0) as Hx0 by (intros Hx0; apply Hne; eauto).
      rewrite (proj2 (Z.eqb_neq _ _) Hx0). eauto.
  - rewrite list_lookup_alter_ne in Hq by done. destruct (Hrows q prt' Hq) as [Huniq Hst].
    split; [done|]. intros s y Hs Hy. rewrite <-(Hst s y Hs Hy). unfold set_state_view, telling.
    case_match; [|done]. destruct (Z.eqb_spec (index_of prt') (index_of prt)) as [He|]; [|done].
    exfalso. apply Hne. eapply (NoDup_lookup _ p q (index_of prt) Hnd);
      rewrite list_lookup_fmap; [by rewrite Hp|by rewrite Hq, <-He].
Qed.

Lemma told_set_state p t st : stays (told K L) (MSTP_OUT_set_state p t st).
Proof.
  intros w [] w' (evs & Hout & Hs) Heq. unfold MSTP_OUT_set_state, driver_set_new_state in Heq.
  apply bind_inv in Heq as (x & w0 & H0 & Heq). pose proof H0 as ->%quiet_eq; [|auto with quiet].
  unfold the_ptp, deref in H0. destruct (lookup_ptp (br w) p t) eqn:Hl; [|done]. injection H0 as ->.
  case_bool_decide; [injection Heq as <-; by exists evs|]. cbv zeta in Heq.
  destruct (lookup_ptp_split _ _ _ _ Hl) as (prt & Hp & Hx).
  apply bind_inv in Heq as (u1 & w1 & H1 & Heq).
  rewrite mod_ptp_eq in H1 by (by rewrite Hl). injection H1 as _ <-.
  set (V := set_state_view (kernel_view K evs) prt x st) in *.
  set (P := fun w' => out w' = L ++ evs /\ shown V (br w')
    /\ index_of <$> br_ports (br w') !! p = Some (index_of prt)).
  apply bind_inv in Heq as (u2 & w2 & H2 & Heq).
  assert (P w2) as (Hout2 & Hs2 & Hp2).
  { assert (forall f, (forall prt, prt_sysdeps (f prt) = prt_sysdeps prt /\ prt_trees (f prt) = prt_trees prt) ->
      stays P (mod_port p f)) as Hmod.
    { intros f Hf. apply stays_bind; [apply stays_quiet, quiet_the_port|].
      intros _ w3 [] w4 (Ho & Hsh & Hix) [= <-]. split; [done|]. split.
      - apply shown_alter; [|done]. intros prt' [Hu Hst]. unfold row_shown, index_of in *.
        destruct (Hf prt') as [-> ->]. done.
      - upd_simpl. unfold alter_port. upd_simpl. rewrite list_lookup_alter_eq.
        destruct (br_ports (br w3) !! p) as [prt'|]; [|done]. simpl in *. rewrite <-Hix.
        unfold index_of. by destruct (Hf prt') as [-> _]. }
    assert (P (with_br w (alter_ptp p t (fun x => x <| ptp_state := st |>) (br w)))) as Hw1.
    { split; [done|]. split; [by apply shown_set_state|].
      rewrite <-list_lookup_fmap. change (map index_of (br_ports (alter_ptp p t
        (fun x => x <| ptp_state := st |>) (br w))) !! p = Some (index_of prt)).
      by rewrite index_alter_ptp, list_lookup_fmap, Hp. }
    revert Hw1 H2. destruct st; intros Hw1 H2;
      first [ refine (Hmod _ _ _ _ _ Hw1 H2); by intros [] | by injection H2 as _ <- ]. }
  unfold V, set_state_view in Hs2. destruct (ptp_MSTID x =? 0).
  - apply bind_inv in Heq as (prt2 & w3 & H3 & Heq). pose proof H3 as ->%quiet_eq; [|auto with quiet].
    unfold the_port, deref in H3. destruct (br_ports (br w2) !! p) eqn:Hp3; [|done].
    injection H3 as ->. injection Hp2 as Hi. injection Heq as <-.
    exists (evs ++ [Ev_br_set_state (if_index (prt_sysdeps prt2)) st]). upd_simpl.
    rewrite Hout2, app_assoc. split; [done|]. unfold kernel_view in *. rewrite foldl_app.
    unfold index_of in Hi. by rewrite Hi.
  - injection Heq as <-. by exists evs.
Qed.
Lemma row_shown_insert V prt i x :
  ptp_MSTID x <> 0 -> row_shown V prt ->
  row_shown V (prt <| prt_trees := insert_at i x (prt_trees prt) |>).
Proof.
  intros Hx [Hu Hst].
  assert (forall s y, insert_at i x (prt_trees prt) !! s = Some y -> ptp_MSTID y = 0 ->
    exists s', prt_trees prt !! s' = Some y /\ s = if (s' <? i)%nat then s' else S s') as Hl.
  { unfold insert_at. intros s y Hs Hy.
    apply lookup_app_Some in Hs as [Hs|[Hlen Hs]].
    - apply lookup_take_Some in Hs as [Hs Hlt]. exists s. by rewrite (proj2 (Nat.ltb_lt _ _) Hlt).
    - rewrite length_take in Hlen, Hs.
      destruct (s - _)%nat as [|k] eqn:Hk; [injection Hs as ->; done|].
      simpl in Hs. rewrite lookup_drop in Hs. exists (i + k)%nat. split; [done|].
      apply lookup_lt_Some in Hs. rewrite (proj2 (Nat.ltb_ge _ _)) by lia. lia. }
  split; upd_simpl; unfold index_of; upd_simpl.
  - intros a b y z Ha Hb Hy Hz. apply Hl in Ha as (a' & Ha & ->); [|done].
    apply Hl in Hb as (b' & Hb & ->); [|done]. by rewrite (Hu a' b' y z).
  - intros s y Hs Hy. apply Hl in Hs as (s' & Hs & ->); eauto.
Qed.

Lemma row_shown_delete V prt i :
  row_shown V prt -> row_shown V (prt <| prt_trees := delete i (prt_trees prt) |>).
Proof.
  intros [Hu Hst].
  assert (forall s, delete i (prt_trees prt) !! s
    = prt_trees prt !! if (s <? i)%nat then s else S s) as Hl.
  { intros s. destruct (Nat.ltb_spec s i); [by rewrite list_lookup_delete_lt|
      by rewrite list_lookup_delete_ge]. }
  split; upd_simpl; unfold index_of; upd_simpl.
  - intros a b y z. rewrite !Hl. intros Ha Hb Hy Hz. specialize (Hu _ _ _ _ Ha Hb Hy Hz).
    destruct (Nat.ltb_spec a i), (Nat.ltb_spec b i); lia.
  - intros s y. rewrite Hl. eauto.
Qed.

#[export] Instance told_engine : EngineInv (told K L).
Proof.
  constructor.
  - intros e He w [] w' (evs & Hout & Hs) [= <-]. exists (evs ++ [e]). upd_simpl.
    rewrite Hout, app_assoc. split; [done|]. unfold kernel_view in *. rewrite foldl_app.
    by destruct e.
  - intros f Hf w [] w' Hw [= <-]. apply told_br; [|done]. intros V. unfold shown.
    by destruct (Hf (br w)) as [_ ->].
  - intros p f Hf. apply told_mod_port. intros V prt. unfold row_shown, index_of.
    by destruct (Hf prt) as [-> ->].
  - intros p t f Hf. apply stays_bind; [apply stays_quiet, quiet_the_ptp|].
    intros _ w [] w' Hw [= <-]. apply told_br; [|done]. intros V. apply shown_alter.
    intros prt Hrow. split; [by destruct prt|by apply row_shown_alter].
  - intros w [] w' Hw [= <-]. exact Hw.
  - apply told_set_state.
  - intros p i tree Ht. apply told_mod_port. intros V prt Hrow. split; [by destruct prt|].
    by apply row_shown_insert.
  - intros p i. apply told_mod_port. intros V prt Hrow. split; [by destruct prt|].
    by apply row_shown_delete.
Qed.

(** A port that goes. *)
Lemma told_delete_port p : stays (told K L) (MSTP_IN_delete_port p).
Proof.
  assert (forall f, (forall prt, prt_sysdeps (f prt) = prt_sysdeps prt
    /\ prt_trees (f prt) = prt_trees prt) -> stays (told K L) (mod_port p f)) as Hmod
    by apply ei_mod_port.
  unfold MSTP_IN_delete_port. apply stays_bind; [apply Hmod; by intros []|]. intros _.
  apply stays_bind; [apply stays_quiet, quiet_the_port|]. intros prt.
  apply stays_bind.
  { case_match; [|apply stays_ret]. apply stays_bind; [apply Hmod; by intros []|].
    intros _. apply frame_run, told_engine. }
  intros _. apply stays_bind; [|intros _; apply frame_run, told_engine].
  intros w [] w' Hw [= <-]. apply told_br; [|done]. intros V [Hnd Hrows].
  split; upd_simpl.
  - rewrite map_delete_at. eapply sublist_NoDup; [exact Hnd|apply sublist_delete].
  - by apply Forall_delete.
Qed.
End told.

(** A port that comes, on an interface that the bridge does not have yet: the
    kernel has been told nothing about it. *)
Definition forget (i : Z) (K : Z -> option br_state_t) : Z -> option br_state_t :=
  fun j => if j =? i then None else K j.

Lemma ids_unique ids t s :
  ids_ok ids -> ids !! t = Some 0 -> ids !! s = Some 0 -> t = s.
Proof.
  intros (Hhd & Htl & _) Ht Hs. destruct ids as [|i ids]; [done|]. simpl in *.
  rewrite list.Forall_lookup in Htl.
  destruct t as [|t], s as [|s]; simpl in *; try done; exfalso; by eapply Htl.
Qed.

Lemma shown_new_port K w sd portno :
  Inv w -> shown K (br w) -> if_index sd ∉ map index_of (br_ports (br w)) ->
  let prt := new_port sd portno in
  let prt := prt <| prt_trees := map (fun tree => create_ptp tree prt) (br_trees (br w)) |> in
  shown (forget (if_index sd) K) ((br w) <| br_ports := br_ports (br w) ++ [prt] |>).
Proof.
  intros [[Hm _] _] [Hnd Hrows] Hnew prt0 prt.
  assert (index_of prt = if_index sd) as Hix by reflexivity.
  split; upd_simpl.
  - rewrite map_app. apply list.NoDup_app. split; [done|]. split; [|apply NoDup_singleton].
    intros i Hi. simpl. rewrite Hix, list_elem_of_singleton. by intros ->.
  - apply Forall_app. split; [|constructor; [|done]].
    + rewrite list.Forall_forall in *. intros q Hq. specialize (Hrows q Hq) as [Hu Hst].
      split; [done|]. intros t x Hx Hid. rewrite <-(Hst t x Hx Hid). unfold forget.
      destruct (Z.eqb_spec (index_of q) (if_index sd)) as [He|]; [|done].
      exfalso. apply Hnew. rewrite <-He. by apply list_elem_of_fmap_2.
    + assert (forall t x, prt_trees prt !! t = Some x ->
        ids_of w !! t = Some (ptp_MSTID x) /\ ptp_state x = BR_STATE_DISABLED) as Hx.
      { intros t x. unfold prt. upd_simpl. rewrite list_lookup_fmap. unfold ids_of.
        rewrite list_lookup_fmap. destruct (br_trees (br w) !! t); [|done].
        intros [= <-]. done. }
      split.
      * intros t s x y [Ht _]%Hx [Hs _]%Hx Hx0 Hy0. rewrite Hx0 in Ht. rewrite Hy0 in Hs.
        apply (ids_unique (ids_of w)); [apply (bo_ids _ _ Hm)|done..].
      * intros t x [_ ->]%Hx _. rewrite Hix. unfold forget. by rewrite Z.eqb_refl.
Qed.

Lemma told_create_port K w sd portno r w' :
  Inv w -> shown K (br w) -> if_index sd ∉ map index_of (br_ports (br w)) ->
  MSTP_IN_port_create_and_add_tail sd portno w = Ret r w' ->
  told (forget (if_index sd) K) (out w) w'.
Proof.
  intros Hi Hs Hnew Heq. unfold MSTP_IN_port_create_and_add_tail in Heq.
  apply bind_inv in Heq as (b & w1 & [= <- <-] & Heq). cbv zeta in Heq.
  apply bind_inv in Heq as (u2 & w2 & [= _ <-] & Heq).
  apply bind_inv in Heq as (u3 & w3 & H3 & [= _ <-]).
  refine (frame_prt_begin (told (forget (if_index sd) K) (out w)) _ _ _ _ _ H3).
  exists []. rewrite app_nil_r. split; [done|]. by apply shown_new_port.
Qed.

(** ** The life of a bridge with the kernel's view of it

    [bridge_life K w]: the calls of [reachable] happen to the bridge, every
    interface that enters it is not in it already, keeps its index, and [K]
    is what the daemon has told the kernel about the interfaces since they
    entered the bridge. *)
Definition enters (c : call) (w : world) : Prop :=
  match c with
  | C_port_create sd _ => if_index sd ∉ map index_of (br_ports (br w))
  | _ => True
  end.
Definition forgotten (c : call) (K : Z -> option br_state_t) : Z -> option br_state_t :=
  match c with C_port_create sd _ => forget (if_index sd) K | _ => K end.

Inductive bridge_life : (Z -> option br_state_t) -> world -> Prop :=
  | life_create K sd mac w b w' :
      br w = calloc_bridge sd -> MSTP_IN_bridge_create mac w = Ret b w' -> bridge_life K w'
  | life_call K w c w' evs :
      bridge_life K w -> valid_call w c -> enters c w -> perform c w = Ret tt w' ->
      out w' = out w ++ evs -> bridge_life (kernel_view (forgotten c K) evs) w'
  | life_outside K w w' : bridge_life K w -> br w' = br w -> bridge_life K w'
  | life_br_sysdeps K w f :
      bridge_life K w -> bridge_life K (with_br w ((br w) <| br_sysdeps := f (br_sysdeps (br w)) |>))
  | life_if_sysdeps K w p f :
      (forall sd, if_index (f sd) = if_index sd) ->
      bridge_life K w -> bridge_life K (with_br w (set_if_sysdeps p f (br w))).

Lemma life_reachable K w : bridge_life K w -> reachable w.
Proof. induction 1; eauto using reachable. Qed.

Lemma told_call K c w w' :
  Inv w -> shown K (br w) -> enters c w -> perform c w = Ret tt w' ->
  told (forgotten c K) (out w) w'.
Proof.
  intros Hi Hs Hc Heq.
  assert (told K (out w) w) as Hw by (exists []; by rewrite app_nil_r).
  assert (keeps_ports c -> told K (out w) w') as Hcall.
  { intros Hk. exact (frame_call (told K (out w)) c Hk w tt w' Hw Heq). }
  destruct c; try exact (Hcall I).
  - apply bind_inv in Heq as (r & w1 & H1 & [= <-]). by eapply told_create_port.
  - by eapply told_delete_port.
Qed.

Lemma life_shown K w : bridge_life K w -> shown K (br w).
Proof.
  induction 1 as [K sd mac w b w' Hbr Hret|K w c w' evs Hw IH Hv Hc Heq Hout|K w w' _ IH Hbr
    |K w f _ IH|K w p f Hf _ IH].
  - destruct (Inv_bridge_create sd mac w Hbr) as (table & Heq & _). rewrite Heq in Hret.
    injection Hret as _ <-. repeat constructor.
  - destruct (told_call K c w w' (reachable_Inv w (life_reachable K w Hw)) IH Hc Heq)
      as (evs' & Hout' & Hs).
    rewrite Hout in Hout'. by apply app_inv_head in Hout' as <-.
  - by rewrite Hbr.
  - exact IH.
  - unfold with_br, set_if_sysdeps. upd_simpl. apply shown_alter; [|done].
    intros prt Hrow. unfold row_shown, index_of in *. upd_simpl. by rewrite Hf.
Qed.

(** Every call of a bridge with its view of the kernel has a next view. *)
Lemma life_next K c w w' :
  bridge_life K w -> valid_call w c -> enters c w -> perform c w = Ret tt w' ->
  exists evs, out w' = out w ++ evs /\ bridge_life (kernel_view (forgotten c K) evs) w'.
Proof.
  intros Hw Hv Hc Heq.
  destruct (told_call K c w w' (reachable_Inv w (life_reachable K w Hw)) (life_shown K w Hw) Hc Heq)
    as (evs & Hout & _).
  exists evs. split; [done|]. by eapply life_call.
Qed.

(** The histories of [MstpScenario] with their view. *)
Definition lives (w : world) : Prop := exists K, bridge_life K w.

Lemma lives_next c w :
  lives w -> valid_call w c -> enters c w -> is_ret (perform c w) = true -> lives (next c w).
Proof.
  intros [K Hw] Hv Hc Hret. unfold next. destruct (perform c w) as [[] w'| |] eqn:Heq; [|done..].
  destruct (life_next K c w w' Hw Hv Hc Heq) as (evs & _ & Hl). by eexists.
Qed.

Lemma new_bridge_lives : exists d, lives (new_bridge d).
Proof.
  destruct (Inv_bridge_create br0_sysdeps 0x001122334455 blank eq_refl) as (table & Heq & _).
  exists (config_digest table), (fun _ => None). exact (life_create _ _ _ blank _ _ eq_refl Heq).
Qed.

Ltac lively :=
  apply lives_next; [| vm_compute; repeat constructor; fail
                     | first [exact I | apply (bool_decide_unpack _); vm_compute; exact I]
                     | vm_compute; reflexivity ].

Lemma two_seconds_lives d : lives (new_bridge d) -> lives (two_seconds d).
Proof. intros H. unfold two_seconds, one_port. do 5 lively. exact H. Qed.

Lemma looped_lives d : lives (new_bridge d) -> lives (looped d).
Proof. intros H. unfold looped, two_ports, one_port. do 6 lively. exact H. Qed.
