(* ===== verification/BridgesOk.v ===== *)
(** * The bookkeeping of bridge_track.c is sound

    Rules for the handlers of [Bridges], and the invariant of the daemon:
    every bridge in its list is in a reachable state of the protocol engine,
    and an interface is a port of at most one bridge. *)

From S2P Require Import Prelude Bytes MstpTypes MstpPriority MstpBpdu MstpMonad MstpOut MstpPort.
From S2P Require Import MstpInfo MstpRoles MstpTransitions MstpForwarding MstpRun HmacMd5.
From S2P Require Import MstpConfig MstpEvents MstpAdmin MstpVlan MstpInv MstpInvariant MstpLoops.
From S2P Require Import MstpEventsOk MstpTreesOk MstpSafety MstpDryRun MstpDiverge MstpFrame Bridges.

(** ** Rules *)

(** The handler does not use an invalid pointer, and when it returns, [Q]. *)
Definition holds {A} (m : D A) (Q : A -> daemon -> Prop) (d : daemon) : Prop :=
  match m d with Done a d' => Q a d' | Crash => False | Endless => True end.

Section rules.
Context {A B : Type}.

Lemma holds_ret (a : A) (Q : A -> daemon -> Prop) d : Q a d -> holds (mret a) Q d.
Proof. done. Qed.

Lemma holds_bind (m : D A) (k : A -> D B) Q d :
  holds m (fun a => holds (k a) Q) d -> holds (m ≫= k) Q d.
Proof. unfold holds, mbind, D_bind. by destruct (m d). Qed.

Lemma holds_mono (m : D A) (Q R : A -> daemon -> Prop) d :
  holds m Q d -> (forall a d', Q a d' -> R a d') -> holds m R d.
Proof. unfold holds. destruct (m d); auto. Qed.

Lemma holds_fmap (f : A -> B) (m : D A) (Q : B -> daemon -> Prop) d :
  holds m (fun a => Q (f a)) d -> holds (f <$> m) Q d.
Proof. unfold fmap, D_fmap, holds, mbind, D_bind. by destruct (m d). Qed.

Lemma holds_bridges (Q : list bridge_t -> daemon -> Prop) d : Q (bridges d) d -> holds the_bridges Q d.
Proof. done. Qed.

Lemma holds_bridge i b (Q : bridge_t -> daemon -> Prop) d :
  bridges d !! i = Some b -> Q b d -> holds (the_bridge i) Q d.
Proof. unfold holds, the_bridge. by intros ->. Qed.

Lemma holds_if i p b prt (Q : port_t -> daemon -> Prop) d :
  bridges d !! i = Some b -> br_ports b !! p = Some prt -> Q prt d -> holds (the_if i p) Q d.
Proof. unfold holds, the_if. intros ->. simpl. by intros ->. Qed.

Lemma holds_ask (q : kernel_t -> A) (Q : A -> daemon -> Prop) d :
  (forall a d', bridges d' = bridges d -> Q a d') -> holds (ask q) Q d.
Proof. intros HQ. by apply HQ. Qed.
End rules.

Lemma holds_mod_bridges f (Q : unit -> daemon -> Prop) d :
  (forall d', bridges d' = f (bridges d) -> Q tt d') -> holds (mod_bridges f) Q d.
Proof. intros HQ. by apply HQ. Qed.

Lemma find_index_Some {A} f (l : list A) i :
  find_index f l = Some i -> exists x, l !! i = Some x /\ f x = true.
Proof.
  revert i. induction l as [|x l IH]; intros i; simpl; [done|]. case_match.
  - intros [= <-]. by exists x.
  - intros (j & Hj & ->)%fmap_Some. by apply IH.
Qed.

Lemma find_index_None {A} f (l : list A) x : find_index f l = None -> x ∈ l -> f x = false.
Proof.
  induction l as [|y l IH]; simpl; [by intros _ ?%elem_of_nil|]. case_match; [done|].
  intros Hn%fmap_None [->|?]%elem_of_cons; auto.
Qed.

(** ** The invariant *)

Definition port_ifs (b : bridge_t) : list Z := map (fun prt => if_index (prt_sysdeps prt)) (br_ports b).
Definition shape (bs : list bridge_t) : list (Z * list Z) :=
  map (fun b => (br_if_index (br_sysdeps b), port_ifs b)) bs.

Definition unique (s : list (Z * list Z)) : Prop := NoDup s.*1 /\ NoDup (concat s.*2).

(** A bridge that the engine can be called on, whatever is outside of it. *)
Definition live (b : bridge_t) : Prop := reachable (mk_world b [] (fun _ => O) 0 zero_bpdu).

Lemma live_world b d : live b <-> reachable (world_of b d).
Proof. split; intros H; (eapply reach_outside; [exact H|done]). Qed.

Lemma live_of w : reachable w -> live (br w).
Proof. intros Hw. by eapply reach_outside. Qed.

Record BInv (bs : list bridge_t) : Prop := {
  all_live : Forall live bs;
  all_unique : unique (shape bs) }.

Lemma shape_lookup bs i : shape bs !! i = (fun b => (br_if_index (br_sysdeps b), port_ifs b)) <$> bs !! i.
Proof. apply list_lookup_fmap. Qed.

Lemma shape_insert_same bs i b b' :
  bs !! i = Some b -> br_if_index (br_sysdeps b') = br_if_index (br_sysdeps b) ->
  port_ifs b' = port_ifs b -> shape (<[i := b']> bs) = shape bs.
Proof.
  intros Hb H1 H2. unfold shape. etrans; [apply list_fmap_insert|]. apply list_insert_id.
  by rewrite list_lookup_fmap, Hb, H1, H2.
Qed.

Lemma BInv_insert bs i b b' :
  BInv bs -> bs !! i = Some b -> live b' -> br_if_index (br_sysdeps b') = br_if_index (br_sysdeps b) ->
  port_ifs b' = port_ifs b -> BInv (<[i := b']> bs) /\ shape (<[i := b']> bs) = shape bs.
Proof.
  intros [Hl Hu] Hb Hb' H1 H2. pose proof (shape_insert_same bs i b b' Hb H1 H2) as Hs.
  split; [|done]. constructor; [by apply Forall_insert|by rewrite Hs].
Qed.

Lemma interfaces_shape b b' :
  interfaces b' = interfaces b ->
  br_if_index (br_sysdeps b') = br_if_index (br_sysdeps b) /\ port_ifs b' = port_ifs b
  /\ length (br_ports b') = length (br_ports b).
Proof.
  intros Hi. unfold interfaces in Hi. injection Hi as H1 H2. split; [by rewrite H1|].
  apply (f_equal (map if_index)) in H2 as H3. rewrite !map_map in H3. split; [exact H3|].
  apply (f_equal length) in H2. by rewrite !length_map in H2.
Qed.

(** ** Calls of the engine *)

(** [m] is the call [c], with its answer. *)
Definition is_call {A} (c : call) (m : M A) : Prop :=
  forall w, perform c w = match m w with Ret _ w' => Ret tt w' | Fault => Fault | Fuel => Fuel end.

Lemma is_call_discard {A} c (m : M A) : perform c = discard m -> is_call c m.
Proof. intros Heq w. rewrite Heq. unfold discard, mbind, M_bind. by destruct (m w). Qed.

Lemma is_call_unit c m : perform c = m -> is_call c m.
Proof. intros Heq w. rewrite Heq. by destruct (m w) as [[]| |]. Qed.

Lemma holds_on_bridge {A} c (m : M A) i b (Q : A -> daemon -> Prop) d :
  is_call c m -> live b -> bridges d !! i = Some b -> valid_call (world_of b d) c ->
  (forall a w' d', live (br w') -> perform c (world_of b d) = Ret tt w' ->
     bridges d' = <[i := br w']> (bridges d) -> Q a d') ->
  holds (on_bridge i m) Q d.
Proof.
  intros Hc Hb Hi Hv HQ. unfold holds, on_bridge. rewrite Hi.
  apply live_world with (d := d) in Hb. pose proof (Hc (world_of b d)) as Heq.
  pose proof (wp_not_fault _ _ _ _ (perform_ok c _ (reachable_Inv _ Hb) Hv)) as Hnf.
  destruct (m (world_of b d)) as [a w'| |] eqn:Hm; [|congruence|done].
  apply HQ with w'; [|done|done]. apply live_of. by eapply reach_call.
Qed.

(** The calls that keep the ports. *)
Lemma holds_call {A} c (m : M A) i b (Q : A -> daemon -> Prop) d :
  is_call c m -> keeps_ports c -> BInv (bridges d) -> bridges d !! i = Some b ->
  valid_call (world_of b d) c ->
  (forall a d', BInv (bridges d') -> shape (bridges d') = shape (bridges d) -> Q a d') ->
  holds (on_bridge i m) Q d.
Proof.
  intros Hc Hk HB Hi Hv HQ. eapply holds_on_bridge; [done| |done..|].
  { destruct HB as [Hl _]. by eapply Forall_lookup_1. }
  intros a w' d' Hw' Heq Hd'.
  destruct (interfaces_shape b (br w')) as (H1 & H2 & _).
  { exact (frame_call _ c Hk (world_of b d) tt w' eq_refl Heq). }
  destruct (BInv_insert (bridges d) i b (br w')) as [H3 H4]; [done..|].
  apply HQ; by rewrite Hd'.
Qed.

(** Positions are valid as long as the shape is the same. *)
Definition slot (s : list (Z * list Z)) (i p : nat) : Prop :=
  exists x, s !! i = Some x /\ (p < length x.2)%nat.

Lemma shape_bridge bs s i : shape bs = s -> is_Some (s !! i) -> exists b, bs !! i = Some b.
Proof. intros <- [x Hx]. rewrite shape_lookup in Hx. apply fmap_Some in Hx as (b & Hb & _). by exists b. Qed.

Lemma slot_port bs s i p :
  shape bs = s -> slot s i p ->
  exists b prt, bs !! i = Some b /\ br_ports b !! p = Some prt /\ (p < length (br_ports b))%nat.
Proof.
  intros <- (x & Hx & Hp). rewrite shape_lookup in Hx. apply fmap_Some in Hx as (b & Hb & ->).
  simpl in Hp. unfold port_ifs in Hp. rewrite length_map in Hp.
  apply lookup_lt_is_Some in Hp as Hprt. destruct Hprt as [prt Hprt]. by exists b, prt.
Qed.

(** ** Handlers that keep the shape *)

Definition at_shape (s : list (Z * list Z)) (d : daemon) : Prop :=
  BInv (bridges d) /\ shape (bridges d) = s.

Definition steady {A} (s : list (Z * list Z)) (m : D A) : Prop :=
  forall d, at_shape s d -> holds m (fun _ d' => at_shape s d') d.

Lemma at_shape_same s d d' : bridges d' = bridges d -> at_shape s d -> at_shape s d'.
Proof. intros Heq. unfold at_shape. by rewrite Heq. Qed.

Section steady.
Context (s : list (Z * list Z)).

Lemma steady_ret {A} (a : A) : steady s (mret a).
Proof. intros d Hd. by apply holds_ret. Qed.

Lemma steady_bind {A B} (m : D A) (k : A -> D B) :
  steady s m -> (forall a, steady s (k a)) -> steady s (m ≫= k).
Proof.
  intros Hm Hk d Hd. apply holds_bind. eapply holds_mono; [by apply Hm|].
  intros a d' Hd'. by apply Hk.
Qed.

Lemma steady_ask {A B} (q : kernel_t -> A) (k : A -> D B) :
  (forall a, steady s (k a)) -> steady s (ask q ≫= k).
Proof.
  intros Hk d Hd. apply holds_bind, holds_ask. intros a d' Heq. apply Hk. by eapply at_shape_same.
Qed.

Lemma steady_the_bridge {B} i (k : bridge_t -> D B) :
  is_Some (s !! i) -> (forall b, steady s (k b)) -> steady s (the_bridge i ≫= k).
Proof.
  intros Hi Hk d Hd. destruct (shape_bridge (bridges d) s i) as [b Hb]; [apply Hd|done|].
  apply holds_bind. eapply holds_bridge; [exact Hb|]. by apply Hk.
Qed.

Lemma steady_the_if {B} i p (k : port_t -> D B) :
  slot s i p -> (forall prt, steady s (k prt)) -> steady s (the_if i p ≫= k).
Proof.
  intros Hp Hk d Hd. destruct (slot_port (bridges d) s i p) as (b & prt & Hb & Hprt & _); [apply Hd|done|].
  apply holds_bind. eapply holds_if; [exact Hb|exact Hprt|]. by apply Hk.
Qed.

(** [valid_call] for every bridge in place [i]. *)
Lemma steady_call {A} c (m : M A) i :
  is_call c m -> keeps_ports c -> is_Some (s !! i) ->
  (forall b d, at_shape s d -> bridges d !! i = Some b -> valid_call (world_of b d) c) ->
  steady s (on_bridge i m).
Proof.
  intros Hc Hk Hi Hv d Hd. destruct (shape_bridge (bridges d) s i) as [b Hb]; [apply Hd|done|].
  eapply (holds_call c); [done|done|apply Hd|done|by apply Hv|].
  intros a d' HB Hs. split; [done|]. rewrite Hs. apply Hd.
Qed.

Lemma steady_mod_bridge i f :
  is_Some (s !! i) ->
  (forall b, live b -> live (f b) /\ br_if_index (br_sysdeps (f b)) = br_if_index (br_sysdeps b)
     /\ port_ifs (f b) = port_ifs b) ->
  steady s (mod_bridge i f).
Proof.
  intros Hi Hf d Hd. destruct (shape_bridge (bridges d) s i) as [b Hb]; [apply Hd|done|].
  apply holds_bind. eapply holds_bridge; [exact Hb|]. apply holds_mod_bridges. intros d' Hd'.
  destruct Hd as [HB Hs]. destruct (Hf b) as (H1 & H2 & H3).
  { destruct HB as [Hl _]. by eapply Forall_lookup_1. }
  destruct (BInv_insert (bridges d) i b (f b)) as [H4 H5]; [done..|].
  assert (bridges d' = <[i := f b]> (bridges d)) as Heq.
  { rewrite Hd'. apply list_eq. intros j. destruct (decide (i = j)) as [<-|Hne].
    - rewrite list_lookup_alter_eq, list_lookup_insert_eq by (by eapply lookup_lt_Some).
      by rewrite Hb.
    - by rewrite list_lookup_alter_ne, list_lookup_insert_ne. }
  split; rewrite Heq; [done|]. by rewrite H5.
Qed.

Lemma live_br_sysdeps b f : live b -> live (b <| br_sysdeps := f (br_sysdeps b) |>).
Proof. intros H. exact (reach_br_sysdeps _ f H). Qed.

Lemma live_if_sysdeps b p f : live b -> live (set_if_sysdeps p f b).
Proof. intros H. exact (reach_if_sysdeps _ p f H). Qed.

Lemma port_ifs_alter b p f :
  (forall sd, if_index (f sd) = if_index sd) -> port_ifs (set_if_sysdeps p f b) = port_ifs b.
Proof.
  intros Hf. unfold port_ifs, set_if_sysdeps, alter_port. upd_simpl. apply map_alter_same.
  intros prt. upd_simpl. apply Hf.
Qed.

Lemma steady_mod_if i p f :
  slot s i p -> (forall sd, if_index (f sd) = if_index sd) -> steady s (mod_if i p f).
Proof.
  intros Hp Hf. unfold mod_if. apply steady_the_if; [done|]. intros _.
  apply steady_mod_bridge; [destruct Hp as (x & Hx & _); by eexists|].
  intros b Hb. split; [by apply live_if_sysdeps|]. split; [done|]. by apply port_ifs_alter.
Qed.

Lemma steady_check_mac name addr : steady s (check_mac_address name addr).
Proof. apply steady_ask. intros a. apply steady_ret. Qed.

Lemma steady_set_address i mac :
  is_Some (s !! i) ->
  steady s (mod_bridge i (set_br_macaddr_of mac) ;; on_bridge i (MSTP_IN_set_bridge_address mac)).
Proof.
  intros Hi. apply steady_bind; [|intros _].
  - apply steady_mod_bridge; [done|]. intros b Hb. unfold set_br_macaddr_of.
    split; [exact (live_br_sysdeps b (fun sd => sd <| br_macaddr := mac |>) Hb)|]. by upd_simpl.
  - by eapply (steady_call (C_set_bridge_address mac)); [by apply is_call_unit|..].
Qed.

Lemma steady_set_br_up i up : is_Some (s !! i) -> steady s (set_br_up i up).
Proof.
  intros Hi. unfold set_br_up. apply steady_the_bridge; [done|]. intros b. cbv zeta.
  apply steady_bind; [|intros _].
  { apply steady_mod_bridge; [done|]. intros b' Hb'.
    split; [exact (live_br_sysdeps b' (fun sd => sd <| br_up := up |>) Hb')|]. by upd_simpl. }
  apply steady_bind; [apply steady_check_mac|]. intros mac. apply steady_bind; [|intros _].
  - destruct mac; [by apply steady_set_address|apply steady_ret].
  - case_match; [|apply steady_ret].
    by eapply (steady_call (C_set_bridge_enable up)); [by apply is_call_unit|..].
Qed.

Lemma slot_bridge i p : slot s i p -> is_Some (s !! i).
Proof. intros (x & Hx & _). by eexists. Qed.
#[local] Hint Resolve slot_bridge : core.

(** A call about port [p] of bridge [i]. *)
Lemma valid_port i p b d : slot s i p -> at_shape s d -> bridges d !! i = Some b -> port_exists (world_of b d) p.
Proof.
  intros Hp [_ Hs] Hb. destruct (slot_port (bridges d) s i p) as (b' & prt & Hb' & _ & Hlt); [done..|].
  simplify_eq. exact Hlt.
Qed.

Lemma steady_set_if_up i p up : slot s i p -> steady s (set_if_up i p up).
Proof.
  intros Hp. unfold set_if_up. apply steady_the_if; [done|]. intros prt. cbv zeta.
  apply steady_bind; [apply steady_check_mac|]. intros mac. apply steady_bind; [|intros _].
  { destruct mac; [|apply steady_ret]. apply steady_bind; [by apply steady_mod_if|intros _].
    apply steady_the_bridge; [by eauto|]. intros b. apply steady_bind; [apply steady_check_mac|].
    intros [br_mac|]; [apply steady_set_address; by eauto|apply steady_ret]. }
  apply steady_bind.
  - case_match; [apply steady_bind; [by apply steady_mod_if|intros _; apply steady_ret]|].
    apply steady_ask. intros r. destruct (match r with Some _ => _ | None => _ end) as [speed duplex].
    apply steady_bind; [by apply steady_mod_if|intros _; apply steady_ret].
  - intros []; [|apply steady_ret]. apply steady_the_if; [done|]. intros prt'. cbv zeta.
    eapply (steady_call (C_set_port_enable p _ _ _)); [by apply is_call_unit|done|by eauto|].
    intros b d Hd Hb. by eapply valid_port.
Qed.
End steady.

(** ** Handlers that change the shape *)

Definition drop_if (p : nat) (x : Z * list Z) : Z * list Z := (x.1, delete p x.2).
Definition add_if (if_idx : Z) (x : Z * list Z) : Z * list Z := (x.1, x.2 ++ [if_idx]).

(** The interfaces that are ports. *)
Definition owned (s : list (Z * list Z)) : list Z := concat s.*2.

Lemma sublist_concat_alter f i (ls : list (list Z)) :
  (forall l, f l `sublist_of` l) -> concat (alter f i ls) `sublist_of` concat ls.
Proof.
  intros Hf. revert i. induction ls as [|l ls IH]; intros [|i]; simpl; [done|done|..].
  - apply sublist_app; [apply Hf|done].
  - apply sublist_app; [done|apply IH].
Qed.

Lemma fst_alter_same f i (s : list (Z * list Z)) : (forall x, (f x).1 = x.1) -> (alter f i s).*1 = s.*1.
Proof. intros Hf. apply (map_alter_same fst f i s Hf). Qed.

Lemma snd_alter f g i (s : list (Z * list Z)) : (forall x, (f x).2 = g x.2) -> (alter f i s).*2 = alter g i s.*2.
Proof.
  intros Hf. apply list_eq. intros j. rewrite list_lookup_fmap. destruct (decide (i = j)) as [->|Hne].
  - rewrite !list_lookup_alter_eq, list_lookup_fmap. destruct (s !! j); simpl; [by rewrite Hf|done].
  - by rewrite !list_lookup_alter_ne, list_lookup_fmap by done.
Qed.

Lemma unique_drop s i p : unique s -> unique (alter (drop_if p) i s).
Proof.
  intros [H1 H2]. split; [by rewrite fst_alter_same|].
  rewrite (snd_alter _ (delete p)) by done. eapply sublist_NoDup; [exact H2|].
  apply sublist_concat_alter. intros l. apply sublist_delete.
Qed.

Lemma owned_drop s i p x : x ∈ owned (alter (drop_if p) i s) -> x ∈ owned s.
Proof.
  unfold owned. rewrite (snd_alter _ (delete p)) by done. intros Hx.
  eapply elem_of_submseteq; [exact Hx|]. apply sublist_submseteq, sublist_concat_alter.
  intros l. apply sublist_delete.
Qed.

Lemma owned_lookup s x : x ∈ owned s <-> exists i y, s !! i = Some y /\ x ∈ y.2.
Proof.
  unfold owned. rewrite list_elem_of_In, in_concat. split.
  - intros (l & Hl & Hx). apply list_elem_of_In, list_elem_of_fmap in Hl as (y & -> & Hy).
    apply list_elem_of_lookup in Hy as [i Hi]. exists i, y. split; [done|by apply list_elem_of_In].
  - intros (i & y & Hi & Hx). exists y.2. split; [|by apply list_elem_of_In].
    apply list_elem_of_In, list_elem_of_fmap. exists y. split; [done|]. by eapply list_elem_of_lookup_2.
Qed.

Lemma concat_snoc_at (ls : list (list Z)) i x :
  is_Some (ls !! i) -> concat (alter (fun l => l ++ [x]) i ls) ≡ₚ x :: concat ls.
Proof.
  revert i. induction ls as [|l ls IH]; intros [|i] [y Hi]; simpl in *; [done..| |].
  - rewrite <-app_assoc. simpl. by rewrite Permutation_middle.
  - change (l ++ concat (alter (fun l => l ++ [x]) i ls) ≡ₚ x :: l ++ concat ls).
    rewrite IH by (by eexists). by rewrite Permutation_middle.
Qed.

Lemma unique_add s i if_idx :
  unique s -> is_Some (s !! i) -> if_idx ∉ owned s -> unique (alter (add_if if_idx) i s).
Proof.
  intros [H1 H2] Hi Hx. split; [by rewrite fst_alter_same|].
  rewrite (snd_alter _ (fun l => l ++ [if_idx])) by done.
  rewrite concat_snoc_at by (rewrite list_lookup_fmap; by apply fmap_is_Some).
  by constructor.
Qed.

Lemma shape_alter bs i b b' f :
  bs !! i = Some b ->
  (br_if_index (br_sysdeps b'), port_ifs b') = f (br_if_index (br_sysdeps b), port_ifs b) ->
  shape (<[i := b']> bs) = alter f i (shape bs).
Proof.
  intros Hb Hf. apply list_eq. intros j. rewrite shape_lookup.
  destruct (decide (i = j)) as [<-|Hne].
  - rewrite list_lookup_insert_eq by (by eapply lookup_lt_Some).
    rewrite list_lookup_alter_eq, shape_lookup, Hb. simpl. by rewrite Hf.
  - rewrite list_lookup_insert_ne, list_lookup_alter_ne by done. by rewrite shape_lookup.
Qed.

Lemma at_shape_insert s d d' i b b' f :
  at_shape s d -> bridges d !! i = Some b -> bridges d' = <[i := b']> (bridges d) -> live b' ->
  (br_if_index (br_sysdeps b'), port_ifs b') = f (br_if_index (br_sysdeps b), port_ifs b) ->
  unique (alter f i s) -> at_shape (alter f i s) d'.
Proof.
  intros [[Hl _] Hs] Hb Hd' Hb' Hf Hu.
  assert (shape (bridges d') = alter f i s) as Hs' by (rewrite Hd', <-Hs; by eapply shape_alter).
  split; [|done]. constructor; [rewrite Hd'; by apply Forall_insert|by rewrite Hs'].
Qed.

Lemma holds_delete_if s i p (Q : unit -> daemon -> Prop) d :
  at_shape s d -> slot s i p ->
  (forall d', at_shape (alter (drop_if p) i s) d' -> Q tt d') -> holds (delete_if i p) Q d.
Proof.
  intros Hd Hp HQ. pose proof Hd as [HB Hs].
  destruct (slot_port (bridges d) s i p) as (b & prt & Hb & Hprt & Hlt); [done..|].
  unfold delete_if. eapply (holds_on_bridge (C_delete_port p)); [by apply is_call_unit| |done|done|].
  { destruct HB as [Hl _]. by eapply Forall_lookup_1. }
  intros [] w' d' Hw' Heq Hd'. apply HQ. apply delete_port_interfaces in Heq.
  eapply at_shape_insert; [exact Hd|exact Hb|exact Hd'|exact Hw'| |].
  - injection Heq as H1 H2. unfold drop_if. simpl in *. rewrite H1. f_equal.
    apply (f_equal (map if_index)) in H2. rewrite map_delete_at, !map_map in H2. exact H2.
  - apply unique_drop. rewrite <-Hs. apply HB.
Qed.

Lemma holds_create_if s i if_idx (Q : option nat -> daemon -> Prop) d :
  at_shape s d -> is_Some (s !! i) -> if_idx ∉ owned s ->
  (forall d', at_shape s d' -> Q None d') ->
  (forall d' p, at_shape (alter (add_if if_idx) i s) d' -> slot (alter (add_if if_idx) i s) i p -> Q (Some p) d') ->
  holds (create_if i if_idx) Q d.
Proof.
  intros Hd Hi Hx HN HS. unfold create_if.
  apply holds_bind, holds_ask. intros [name|] d1 Heq1; [|apply holds_ret, HN; by eapply at_shape_same].
  apply holds_bind, holds_ask. intros [mac|] d2 Heq2;
    [|apply holds_ret, HN; eapply at_shape_same; [|done]; congruence].
  apply holds_bind, holds_ask. intros portno d3 Heq3.
  assert (at_shape s d3) as Hd3 by (eapply at_shape_same; [|exact Hd]; congruence).
  destruct (portno <? 0); [by apply holds_ret, HN|].
  destruct (_ || _); [by apply holds_ret, HN|].
  pose proof Hd3 as [HB Hs]. destruct (shape_bridge (bridges d3) s i Hs Hi) as [b Hb].
  apply holds_bind. eapply holds_bridge; [exact Hb|]. apply holds_bind.
  set (sd := mk_sysdep_if_data_t if_idx mac name false 0 0).
  unfold holds, on_bridge. rewrite Hb.
  pose proof (Forall_lookup_1 _ _ _ _ (all_live _ HB) Hb) as Hlive.
  apply (live_world b d3) in Hlive as Hw.
  assert (is_call (C_port_create sd portno) (MSTP_IN_port_create_and_add_tail sd portno)) as Hc
    by by apply is_call_discard.
  pose proof (wp_not_fault _ _ _ _ (perform_ok (C_port_create sd portno) _ (reachable_Inv _ Hw) I)) as Hnf.
  pose proof (Hc (world_of b d3)) as Heq.
  destruct (MSTP_IN_port_create_and_add_tail sd portno (world_of b d3)) as [r w'| |] eqn:Hm;
    [|congruence|done].
  apply create_port_interfaces in Hm as [-> Hif]. injection Hif as H1 H2.
  assert (unique (alter (add_if if_idx) i s)) as Hu by (apply unique_add; [rewrite <-Hs; apply HB|done..]).
  apply (f_equal (map if_index)) in H2. rewrite map_app, !map_map in H2.
  apply HS.
  - eapply at_shape_insert; [exact Hd3|exact Hb|reflexivity|exact (live_of _ (reach_call _ (C_port_create sd portno) _ Hw I Heq))| |exact Hu].
    unfold add_if. simpl in *. rewrite H1. f_equal. exact H2.
  - eexists. split; [rewrite list_lookup_alter_eq, <-Hs, shape_lookup, Hb; done|].
    simpl. unfold port_ifs. rewrite length_app, length_map. simpl. lia.
Qed.

(** ** Searching *)

Lemma holds_find_if s j x if_idx (Q : option nat -> daemon -> Prop) d :
  at_shape s d -> s !! j = Some x ->
  (if_idx ∉ x.2 -> Q None d) -> (forall p, x.2 !! p = Some if_idx -> slot s j p -> Q (Some p) d) ->
  holds (find_if j if_idx) Q d.
Proof.
  intros [HB Hs] Hj HN HS. destruct (shape_bridge (bridges d) s j Hs) as [b Hb]; [by eexists|].
  apply holds_bind. eapply holds_bridge; [exact Hb|]. apply holds_ret.
  assert (x = (br_if_index (br_sysdeps b), port_ifs b)) as ->.
  { rewrite <-Hs, shape_lookup, Hb in Hj. by injection Hj. }
  destruct (find_index (has_index if_idx) (br_ports b)) as [p|] eqn:Hf.
  - apply find_index_Some in Hf as (prt & Hprt & Hif). unfold has_index in Hif. bool_hyps.
    assert (port_ifs b !! p = Some if_idx) as Hp by (unfold port_ifs; rewrite list_lookup_fmap, Hprt; simpl; by f_equal).
    apply HS; [exact Hp|]. exists (br_if_index (br_sysdeps b), port_ifs b). split; [done|]. by eapply lookup_lt_Some.
  - apply HN. simpl. unfold port_ifs. intros (prt & -> & Hin)%list_elem_of_fmap.
    pose proof (find_index_None _ _ prt Hf Hin) as Hno. unfold has_index in Hno.
    by rewrite Z.eqb_refl in Hno.
Qed.

Lemma concat_delete_at (ls : list (list Z)) j l p x :
  ls !! j = Some l -> l !! p = Some x -> concat ls ≡ₚ x :: concat (alter (delete p) j ls).
Proof.
  revert j. induction ls as [|l' ls IH]; intros [|j] Hj Hp; [done|done|..].
  - injection Hj as ->. simpl. rewrite (delete_Permutation l p x Hp) at 1. done.
  - change (l' ++ concat ls ≡ₚ x :: l' ++ concat (alter (delete p) j ls)).
    rewrite (IH j Hj Hp). by rewrite Permutation_middle.
Qed.

Lemma not_owned_drop s j x p if_idx :
  unique s -> s !! j = Some x -> x.2 !! p = Some if_idx -> if_idx ∉ owned (alter (drop_if p) j s).
Proof.
  intros [_ Hnd] Hj Hp. unfold owned. rewrite (snd_alter _ (delete p)) by done.
  rewrite (concat_delete_at s.*2 j x.2 p if_idx) in Hnd; [|by rewrite list_lookup_fmap, Hj|done].
  by inversion Hnd.
Qed.

Lemma holds_delete_from_others s i x if_idx (Q : bool -> daemon -> Prop) d :
  at_shape s d -> s !! i = Some x -> if_idx ∉ x.2 ->
  (forall b d' s', at_shape s' d' -> s' !! i = Some x -> if_idx ∉ owned s' -> Q b d') ->
  holds (delete_from_others i if_idx) Q d.
Proof.
  intros Hd Hi Hx HQ. unfold delete_from_others. apply holds_bind, holds_bridges.
  assert (length (bridges d) = length s) as Hlen by (destruct Hd as [_ <-]; unfold shape; by rewrite length_map).
  rewrite Hlen.
  assert (forall n a d, (a + n = length s)%nat -> at_shape s d ->
    (forall k y, (k < a)%nat -> s !! k = Some y -> if_idx ∉ y.2) ->
    holds (until_d (seq a n) (fun j => if Nat.eqb j i then mret false else delete_if_byindex j if_idx)) Q d)
    as Hloop; [|apply (Hloop (length s) O); [lia|done|lia]].
  clear d Hd Hlen. intros n. induction n as [|n IH]; intros a d Ha Hd Hbefore; cbn [seq until_d].
  - apply holds_ret. apply (HQ _ _ s); [done|done|]. intros (k & y & Hk & Hin)%owned_lookup.
    eapply Hbefore; [|exact Hk|exact Hin]. apply lookup_lt_Some in Hk. lia.
  - assert (is_Some (s !! a)) as [y Hy] by (apply lookup_lt_is_Some; lia).
    apply holds_bind. destruct (Nat.eqb_spec a i) as [->|Hne].
    { apply holds_ret. apply IH; [lia|done|]. intros k z Hk Hz.
      destruct (decide (k = i)) as [->|]; [by simplify_eq|]. eapply Hbefore; [|exact Hz]. lia. }
    unfold delete_if_byindex. apply holds_bind. eapply holds_find_if; [exact Hd|exact Hy|..].
    + intros Hno. apply holds_ret, IH; [lia|done|]. intros k z Hk Hz.
      destruct (decide (k = a)) as [->|]; [by simplify_eq|]. eapply Hbefore; [|exact Hz]. lia.
    + intros p Hp Hslot. apply holds_bind. eapply holds_delete_if; [done..|]. intros d' Hd'.
      apply holds_ret, holds_ret. eapply HQ; [exact Hd'| |].
      * by rewrite list_lookup_alter_ne.
      * eapply not_owned_drop; [|done..]. destruct Hd as [HB <-]. apply HB.
Qed.

(** ** Handlers that keep the invariant *)

Definition sound {A} (m : D A) : Prop :=
  forall d, BInv (bridges d) -> holds m (fun _ d' => BInv (bridges d')) d.

Lemma steady_sound {A} (m : D A) d s (Q : A -> daemon -> Prop) :
  steady s m -> at_shape s d -> (forall a d', BInv (bridges d') -> Q a d') -> holds m Q d.
Proof. intros Hm Hd HQ. eapply holds_mono; [by apply Hm|]. intros a d' [HB _]. by apply HQ. Qed.

Lemma at_own_shape d : BInv (bridges d) -> at_shape (shape (bridges d)) d.
Proof. done. Qed.

Lemma sound_find_br (if_idx : Z) A (k : option nat -> D A) :
  (forall d, BInv (bridges d) -> if_idx ∉ (shape (bridges d)).*1 ->
     holds (k None) (fun _ d' => BInv (bridges d')) d) ->
  (forall i d x, BInv (bridges d) -> shape (bridges d) !! i = Some (if_idx, x) ->
     holds (k (Some i)) (fun _ d' => BInv (bridges d')) d) ->
  sound (find_br if_idx ≫= k).
Proof.
  intros HN HS d HB. apply holds_bind, holds_bind, holds_bridges, holds_ret.
  destruct (find_index _ (bridges d)) as [i|] eqn:Hf.
  - apply find_index_Some in Hf as (b & Hb & Hif). bool_hyps. eapply HS; [done|].
    rewrite shape_lookup, Hb. simpl. by rewrite Hif.
  - apply HN; [done|]. unfold shape. rewrite <-list_fmap_compose.
    intros (b & -> & Hin)%list_elem_of_fmap. pose proof (find_index_None _ _ b Hf Hin) as Hno.
    simpl in Hno. by rewrite Z.eqb_refl in Hno.
Qed.

Lemma holds_create_br s if_idx (Q : option nat -> daemon -> Prop) d :
  at_shape s d -> if_idx ∉ s.*1 ->
  (forall d', at_shape s d' -> Q None d') ->
  (forall d', at_shape (s ++ [(if_idx, [])]) d' -> Q (Some (length s)) d') ->
  holds (create_br if_idx) Q d.
Proof.
  intros Hd Hx HN HS. unfold create_br.
  apply holds_bind, holds_ask. intros [name|] d1 Heq1; [|apply holds_ret, HN; by eapply at_shape_same].
  apply holds_bind, holds_ask. intros [mac|] d2 Heq2;
    [|apply holds_ret, HN; eapply at_shape_same; [|done]; congruence].
  assert (at_shape s d2) as [HB Hs] by (eapply at_shape_same; [|exact Hd]; congruence).
  set (sd := mk_sysdep_br_data_t if_idx mac name false).
  destruct (Inv_bridge_create sd mac (world_of (calloc_bridge sd) d2) eq_refl) as (table & Heq & _).
  pose proof (live_of _ (reach_create sd mac (world_of (calloc_bridge sd) d2) true _ eq_refl Heq)) as Hlive.
  apply holds_bind. unfold holds, on_unlisted. rewrite Heq. simpl negb. cbv iota.
  apply holds_bind, holds_bridges, holds_bind, holds_mod_bridges. intros d3 Hd3. apply holds_ret.
  replace (length _) with (length s) by (rewrite <-Hs; apply length_map).
  apply HS. simpl in Hd3.
  assert (shape (bridges d3) = s ++ [(if_idx, [])]) as Hs3.
  { rewrite Hd3. unfold shape. rewrite map_app. by rewrite <-Hs. }
  split; [|exact Hs3]. constructor.
  - rewrite Hd3. apply Forall_app. split; [apply HB|]. by constructor.
  - rewrite Hs3. destruct HB as [_ [H1 H2]]. rewrite Hs in H1, H2. split.
    + rewrite fmap_app. apply list.NoDup_app. split; [done|]. split; [|apply NoDup_singleton].
      intros y Hy Hy'%list_elem_of_singleton. simpl in Hy'. rewrite Hy' in Hy. exact (Hx Hy).
    + rewrite fmap_app, concat_app. simpl. by rewrite app_nil_r.
Qed.

Lemma unique_delete s i : unique s -> unique (delete i s).
Proof.
  intros [H1 H2]. split.
  - eapply sublist_NoDup; [exact H1|]. apply fmap_sublist, sublist_delete.
  - eapply sublist_NoDup; [exact H2|]. clear. revert i.
    induction s as [|x s IH]; intros [|i]; simpl; [done|done| |].
    + by apply sublist_inserts_l.
    + by apply sublist_app.
Qed.

Lemma holds_delete_br if_idx d (Q : bool -> daemon -> Prop) :
  BInv (bridges d) -> (forall b d', BInv (bridges d') -> Q b d') ->
  holds (delete_br_byindex if_idx) Q d.
Proof.
  intros HB HQ. unfold delete_br_byindex, find_br. apply holds_bind, holds_bind, holds_bridges, holds_ret.
  destruct (find_index _ (bridges d)) as [i|] eqn:Hf; [|by apply holds_ret, HQ].
  apply find_index_Some in Hf as (b & Hb & _).
  apply holds_bind. eapply holds_bridge; [exact Hb|]. apply holds_bind, holds_mod_bridges. intros d' Hd'.
  apply holds_bind. unfold holds, on_unlisted. rewrite delete_bridge_eq. apply holds_ret, HQ.
  simpl. rewrite Hd'. destruct HB as [Hl Hu]. constructor.
  - by apply Forall_delete.
  - unfold shape. rewrite map_delete_at. by apply unique_delete.
Qed.

(** ** Notifications *)

Lemma steady_is_sound {A} (m : D A) : (forall s, steady s m) -> sound m.
Proof. intros Hm d HB. eapply steady_sound; [apply Hm|by apply at_own_shape|done]. Qed.

Lemma sound_bind {A B} (m : D A) (k : A -> D B) :
  sound m -> (forall a, sound (k a)) -> sound (m ≫= k).
Proof.
  intros Hm Hk d HB. apply holds_bind. eapply holds_mono; [by apply Hm|].
  intros a d' HB'. by apply Hk.
Qed.

Lemma sound_ret {A} (a : A) : sound (mret a).
Proof. intros d HB. by apply holds_ret. Qed.

Lemma holds_new_if s i x if_idx (m : option nat -> D Z) d :
  at_shape s d -> s !! i = Some x -> if_idx ∉ x.2 ->
  (forall s', is_Some (s' !! i) -> steady s' (m None)) ->
  (forall s' p, slot s' i p -> steady s' (m (Some p))) ->
  holds (delete_from_others i if_idx ;; (p ← create_if i if_idx; m p))
    (fun _ d' => BInv (bridges d') /\ exists x', shape (bridges d') !! i = Some x') d.
Proof.
  intros Hd Hi Hx HN HS. apply holds_bind. eapply holds_delete_from_others; [done..|].
  intros b d1 s1 Hd1 Hi1 Hx1. apply holds_bind.
  eapply holds_create_if; [exact Hd1|by eexists|exact Hx1|..].
  - intros d2 Hd2. eapply holds_mono; [apply HN; [|exact Hd2]; by eexists|].
    intros a d3 [HB3 ->]. split; [done|]. by eexists.
  - intros d2 p Hd2 Hp. eapply holds_mono; [apply HS; [exact Hp|exact Hd2]|].
    intros a d3 [HB3 ->]. split; [done|]. exact (slot_bridge _ _ _ Hp).
Qed.

Lemma sound_notify_slave s i if_idx newlink running d :
  at_shape s d -> is_Some (s !! i) ->
  holds (notify_slave i if_idx newlink running) (fun _ d' => BInv (bridges d')) d.
Proof.
  intros Hd [x Hi]. unfold notify_slave. apply holds_bind.
  eapply holds_find_if; [exact Hd|exact Hi|..].
  - intros Hno. destruct newlink; [|apply holds_ret, Hd].
    eapply holds_mono; [eapply (holds_new_if s i x if_idx); [done..| |]|by intros a d' [HB _]].
    + intros s' _. apply steady_ret.
    + intros s' p Hp. apply steady_bind; [by apply steady_set_if_up|]. intros _. apply steady_ret.
  - intros p _ Hp. destruct newlink.
    + eapply steady_sound; [|exact Hd|done].
      apply steady_bind; [by apply steady_set_if_up|]. intros _. apply steady_ret.
    + apply holds_bind. eapply holds_delete_if; [done..|]. intros d' Hd'. apply holds_ret, Hd'.
Qed.

Lemma at_shape_length s d : at_shape s d -> length (bridges d) = length s.
Proof. intros [_ <-]. unfold shape. by rewrite length_map. Qed.

(** The invariant, with [n] bridges. *)
Definition sized (n : nat) (d : daemon) : Prop := BInv (bridges d) /\ length (bridges d) = n.

Lemma sized_lookup n j d : sized n d -> (j < n)%nat -> is_Some (shape (bridges d) !! j).
Proof. intros [_ <-] Hj. apply lookup_lt_is_Some. unfold shape. by rewrite length_map. Qed.

Lemma holds_delete_if_byindex n j if_idx d :
  sized n d -> (j < n)%nat -> holds (delete_if_byindex j if_idx) (fun _ d' => sized n d') d.
Proof.
  intros Hd Hj. destruct (sized_lookup n j d Hd Hj) as [x Hx].
  assert (at_shape (shape (bridges d)) d) as Hs by (apply at_own_shape, Hd).
  unfold delete_if_byindex. apply holds_bind.
  eapply holds_find_if; [exact Hs|exact Hx|intros _; by apply holds_ret|].
  intros p _ Hp. apply holds_bind. eapply holds_delete_if; [done..|]. intros d' Hd'.
  apply holds_ret. split; [apply Hd'|]. rewrite (at_shape_length _ _ Hd'), length_alter.
  unfold shape. rewrite length_map. apply Hd.
Qed.

Lemma holds_until n f a m d :
  (forall j d, (a <= j < a + m)%nat -> sized n d -> holds (f j) (fun _ d' => sized n d') d) ->
  sized n d -> holds (until_d (seq a m) f) (fun _ d' => sized n d') d.
Proof.
  revert a d. induction m as [|m IH]; intros a d Hf Hd; cbn [seq until_d]; [by apply holds_ret|].
  apply holds_bind. eapply holds_mono; [apply Hf; [lia|done]|].
  intros [] d' Hd'; [by apply holds_ret|]. apply IH; [|done]. intros j d'' Hj. apply Hf. lia.
Qed.

Lemma holds_for_each n f a m d :
  (forall j d, (a <= j < a + m)%nat -> sized n d -> holds (f j) (fun _ d' => sized n d') d) ->
  sized n d -> holds (for_each_d (seq a m) f) (fun _ d' => sized n d') d.
Proof.
  revert a d. induction m as [|m IH]; intros a d Hf Hd; cbn [seq for_each_d]; [by apply holds_ret|].
  apply holds_bind. eapply holds_mono; [apply Hf; [lia|done]|].
  intros u d' Hd'. apply IH; [|done]. intros j d'' Hj. apply Hf. lia.
Qed.

Lemma sized_own d : BInv (bridges d) -> sized (length (bridges d)) d.
Proof. done. Qed.

Lemma steady_sized {A} n (m : D A) j d :
  (forall s, is_Some (s !! j) -> steady s m) -> sized n d -> (j < n)%nat ->
  holds m (fun _ d' => sized n d') d.
Proof.
  intros Hm Hd Hj. eapply holds_mono; [apply (Hm (shape (bridges d)));
    [by eapply sized_lookup|apply at_own_shape, Hd]|].
  intros a d' Hd'. split; [apply Hd'|]. rewrite (at_shape_length _ _ Hd').
  unfold shape. rewrite length_map. apply Hd.
Qed.

Lemma sound_one_second : sound bridge_one_second.
Proof.
  intros d HB. apply holds_bind, holds_bridges.
  eapply holds_mono; [eapply (holds_for_each (length (bridges d))); [|by apply sized_own]|by intros a d' [HB' _]].
  intros j d' Hj Hd'. eapply (steady_sized _ _ j); [|done|lia].
  intros s Hs. by eapply (steady_call s C_one_second); [by apply is_call_unit|..].
Qed.

Lemma sound_fini : sound bridge_track_fini.
Proof.
  intros d HB. apply holds_bind, holds_bridges. apply holds_bind.
  eapply holds_mono; [eapply (holds_for_each (length (bridges d))); [|by apply sized_own]|].
  - intros j d' Hj Hd'. eapply (steady_sized _ _ j); [|done|lia]. intros s Hs. by apply steady_set_br_up.
  - intros u d' [HB' _]. by apply holds_ret.
Qed.

Lemma sound_bridge_notify br_index if_idx newlink flags : sound (bridge_notify br_index if_idx newlink flags).
Proof.
  unfold bridge_notify. cbv zeta. case_match; [|case_match; [|case_match]].
  - apply sound_find_br; [intros; by apply holds_ret|]. intros i d x HB Hi.
    assert (at_shape (shape (bridges d)) d) as Hd by done. revert Hd Hi. generalize (shape (bridges d)).
    intros s Hd Hi. destruct (shape_bridge (bridges d) s i) as [b Hb]; [apply Hd|by eexists|].
    apply holds_bind. eapply holds_bridge; [exact Hb|]. apply holds_bind, holds_ask.
    intros br_flags d1 Heq1. apply holds_bind.
    eapply holds_mono; [|intros u d2 Hd2; eapply (sound_notify_slave s); [exact Hd2|by eexists]].
    assert (at_shape s d1) as Hd1 by by eapply at_shape_same.
    case_match; [|by apply holds_ret]. apply steady_set_br_up; [by eexists|done].
  - intros d HB. apply holds_bind, holds_delete_br; [done|]. intros deleted d1 HB1.
    apply holds_bind. apply (holds_mono _ (fun _ d' => BInv (bridges d'))); [|intros; by apply holds_ret].
    case_match; [|by apply holds_ret]. apply holds_bind, holds_bridges, holds_bind.
    eapply holds_mono; [eapply (holds_until (length (bridges d1))); [|by apply sized_own]|].
    + intros j d2 Hj Hd2. apply holds_delete_if_byindex; [done|lia].
    + intros b d2 [HB2 _]. by apply holds_ret.
  - apply sound_find_br; [intros; by apply holds_ret|]. intros i d x HB Hi.
    eapply steady_sound; [|by apply at_own_shape|done].
    apply steady_bind; [apply steady_set_br_up; by eexists|]. intros u. apply steady_ret.
  - apply sound_ret.
Qed.

(** ** Packets *)

Lemma find_port_from_spec i if_idx bs j p :
  find_port_from i if_idx bs = Some (j, p) ->
  exists k b prt, j = (i + k)%nat /\ bs !! k = Some b /\ br_ports b !! p = Some prt
    /\ if_index (prt_sysdeps prt) = if_idx.
Proof.
  revert i. induction bs as [|b bs IH]; intros i Hf; simpl in Hf; [done|].
  destruct (find_index (has_index if_idx) (br_ports b)) as [q|] eqn:Hq.
  - injection Hf as <- <-. apply find_index_Some in Hq as (prt & Hprt & Hif).
    exists O, b, prt. rewrite Nat.add_0_r. unfold has_index in Hif. bool_hyps. done.
  - apply IH in Hf as (k & b' & prt & -> & Hb & Hprt & Hif). exists (S k), b', prt.
    split; [lia|done].
Qed.

Lemma sound_bpdu_rcv if_idx data len : sound (bridge_bpdu_rcv if_idx data len).
Proof.
  intros d HB. apply holds_bind, holds_bridges.
  destruct (find_port_from 0 if_idx (bridges d)) as [[i p]|] eqn:Hf; [|by apply holds_ret].
  apply find_port_from_spec in Hf as (k & b & prt & -> & Hb & Hprt & _). simpl.
  apply holds_bind. eapply holds_if; [exact Hb|exact Hprt|].
  case_match; [by apply holds_ret|]. case_match; [|by apply holds_ret].
  eapply (holds_call (C_rx_bpdu p _ _)); [by apply is_call_unit|done|done|exact Hb| |by intros].
  by eapply lookup_lt_Some.
Qed.

(** ** Commands *)

Lemma sound_ctl_bridge {A} br_index (err : A) k :
  (forall i s, is_Some (s !! i) -> steady s (k i)) -> sound (ctl_bridge br_index err k).
Proof.
  intros Hk. apply sound_find_br; [intros; by apply holds_ret|]. intros i d x HB Hi.
  eapply steady_sound; [|by apply at_own_shape|done]. apply Hk. by eexists.
Qed.

Lemma steady_find_if s i if_idx A (k : option nat -> D A) :
  is_Some (s !! i) -> steady s (k None) -> (forall p, slot s i p -> steady s (k (Some p))) ->
  steady s (find_if i if_idx ≫= k).
Proof.
  intros [x Hx] HN HS d Hd. apply holds_bind. eapply holds_find_if; [exact Hd|exact Hx|..].
  - intros _. by apply HN.
  - intros p _ Hp. by apply HS.
Qed.

Lemma sound_ctl_port {A} br_index port_index (err : A) k :
  (forall i p s, slot s i p -> steady s (k i p)) -> sound (ctl_port br_index port_index err k).
Proof.
  intros Hk. apply sound_ctl_bridge. intros i s Hi.
  apply steady_find_if; [done|apply steady_ret|]. intros p Hp. by apply Hk.
Qed.

(** A handler that makes the call [m] on bridge [i] and keeps what it keeps. *)
Definition around {A B} (m : M B) (i : nat) (h : D A) : Prop :=
  forall s d, is_Some (s !! i) ->
    holds (on_bridge i m) (fun _ d' => at_shape s d') d -> holds h (fun _ d' => at_shape s d') d.

Lemma around_same {A} (m : M A) i : around m i (on_bridge i m).
Proof. by intros s d. Qed.

Lemma around_fmap {A B} (m : M B) i (f : B -> A) : around m i (f <$> on_bridge i m).
Proof. intros s d _ H. by apply holds_fmap. Qed.

Lemma around_bind {A B} (m : M B) i (k : B -> D A) :
  (forall a s, is_Some (s !! i) -> steady s (k a)) -> around m i (on_bridge i m ≫= k).
Proof. intros Hk s d Hi H. apply holds_bind. eapply holds_mono; [exact H|]. intros a d' Hd'. by apply Hk. Qed.

(** A call on a tree or per-tree port that was just found. *)
Lemma sound_ctl_tree {A B} br_index mstid (err : A) (c : nat -> call) (m : nat -> M B) (h : nat -> nat -> D A) :
  (forall t, is_call (c t) (m t) /\ keeps_ports (c t)
     /\ forall w, tree_exists_at w t -> valid_call w (c t)) ->
  (forall i t, around (m t) i (h i t)) ->
  sound (ctl_tree br_index mstid err h).
Proof.
  intros Hc Hh. apply sound_ctl_bridge. intros i s Hi d Hd.
  destruct (shape_bridge (bridges d) s i) as [b Hb]; [apply Hd|done|].
  apply holds_bind. eapply holds_bridge; [exact Hb|].
  destruct (find_index _ (br_trees b)) as [t|] eqn:Ht; [|by apply holds_ret].
  apply find_index_Some in Ht as (tr & Ht & _). destruct (Hc t) as (H1 & H2 & H3).
  apply Hh; [done|]. eapply (holds_call (c t)); [done|done|apply Hd|exact Hb| |].
  - apply H3. by eapply lookup_lt_Some.
  - intros a d' HB Hs. split; [done|]. rewrite Hs. apply Hd.
Qed.

Lemma sound_ctl_ptp {A B} br_index port_index mstid (err : A) (c : nat -> nat -> call)
    (m : nat -> nat -> M B) (h : nat -> nat -> nat -> D A) :
  (forall p t, is_call (c p t) (m p t) /\ keeps_ports (c p t)
     /\ forall w, port_exists w p -> tree_exists_at w t -> valid_call w (c p t)) ->
  (forall i p t, around (m p t) i (h i p t)) ->
  sound (ctl_ptp br_index port_index mstid err h).
Proof.
  intros Hc Hh. apply sound_ctl_port. intros i p s Hp d Hd.
  destruct (slot_port (bridges d) s i p) as (b & prt & Hb & Hprt & Hlt); [apply Hd|done|].
  apply holds_bind. eapply holds_if; [exact Hb|exact Hprt|].
  destruct (find_index _ (prt_trees prt)) as [t|] eqn:Ht; [|by apply holds_ret].
  apply find_index_Some in Ht as (x & Ht & _). destruct (Hc p t) as (H1 & H2 & H3).
  apply Hh; [by eapply slot_bridge|]. eapply (holds_call (c p t)); [done|done|apply Hd|exact Hb| |].
  - apply H3; [exact Hlt|]. unfold tree_exists_at.
    pose proof (Forall_lookup_1 _ _ _ _ (all_live _ (proj1 Hd)) Hb) as Hlive.
    apply (live_world b d), reachable_Inv in Hlive as Hi.
    rewrite <-(inv_rectangular _ _ _ Hi Hprt). by eapply lookup_lt_Some.
  - intros a d' HB Hs. split; [done|]. rewrite Hs. apply Hd.
Qed.

(** ** Adding and deleting bridges *)

Lemma holds_delete_unlisted i n p ifaces s x d :
  at_shape s d -> s !! i = Some x -> length x.2 = (p + n)%nat ->
  holds (delete_unlisted i n p ifaces)
    (fun _ d' => exists s', at_shape s' d' /\ is_Some (s' !! i)) d.
Proof.
  revert p s x d. induction n as [|n IH]; intros p s x d Hd Hx Hlen; cbn [delete_unlisted].
  { apply holds_ret. exists s. split; [done|by eexists]. }
  assert (slot s i p) as Hp by (exists x; split; [done|lia]).
  destruct (slot_port (bridges d) s i p) as (b & prt & Hb & Hprt & _); [apply Hd|done|].
  apply holds_bind. eapply holds_if; [exact Hb|exact Hprt|].
  case_match; [apply (IH (S p) s x); [done|done|lia]|].
  apply holds_bind. eapply holds_delete_if; [done..|]. intros d' Hd'. eapply IH; [exact Hd'| |].
  - by rewrite list_lookup_alter_eq, Hx.
  - simpl. rewrite length_delete by (apply lookup_lt_is_Some; lia). lia.
Qed.

Lemma holds_add_iface i if_idx s d :
  at_shape s d -> is_Some (s !! i) ->
  holds (add_iface i if_idx) (fun _ d' => exists s', at_shape s' d' /\ is_Some (s' !! i)) d.
Proof.
  intros Hd [x Hx]. unfold add_iface. apply holds_bind.
  eapply holds_find_if; [exact Hd|exact Hx|..].
  2:{ intros p _ _. apply holds_ret. exists s. split; [done|by eexists]. }
  intros Hno. apply holds_bind. eapply holds_delete_from_others; [done..|].
  intros b d1 s1 Hd1 Hi1 Hx1. apply holds_bind.
  eapply holds_create_if; [exact Hd1|by eexists|exact Hx1|..].
  - intros d2 Hd2. apply holds_ret. exists s1. split; [done|by eexists].
  - intros d2 p Hd2 Hp. set (s2 := alter _ i s1) in *.
    eapply (holds_mono _ (fun _ d' => at_shape s2 d')).
    + apply (steady_the_if s2 i p (fun prt => flags ← ask (fun k => get_flags k (if_name (prt_sysdeps prt)));
        if 0 <=? flags then set_if_up i p (IFF_UP flags && IFF_RUNNING flags) else mret tt)); [done| |done].
      intros prt. apply steady_ask. intros flags. case_match; [by apply steady_set_if_up|apply steady_ret].
    + intros u d3 Hd3. exists s2. split; [done|]. exact (slot_bridge _ _ _ Hp).
Qed.

Lemma holds_add_ifaces i ifaces s d :
  at_shape s d -> is_Some (s !! i) -> holds (add_ifaces i ifaces) (fun _ d' => BInv (bridges d')) d.
Proof.
  revert s d. induction ifaces as [|if_idx ifaces IH]; intros s d Hd Hi; cbn [add_ifaces].
  { apply holds_ret, Hd. }
  apply holds_bind. eapply holds_mono; [by eapply holds_add_iface|].
  intros u d' (s' & Hd' & Hi'). by eapply IH.
Qed.

Lemma holds_find_or_create br_index d (Q : option nat -> daemon -> Prop) :
  BInv (bridges d) -> (forall d', BInv (bridges d') -> Q None d') ->
  (forall i s d', at_shape s d' -> is_Some (s !! i) -> Q (Some i) d') ->
  holds (find_or_create_br br_index) Q d.
Proof.
  intros HB HN HS. unfold find_or_create_br, find_br.
  apply holds_bind, holds_bind, holds_bridges, holds_ret.
  destruct (find_index _ (bridges d)) as [i|] eqn:Hf.
  - apply holds_ret. eapply HS; [by apply at_own_shape|].
    apply find_index_Some in Hf as (b & Hb & _). rewrite shape_lookup, Hb. by eexists.
  - assert (br_index ∉ (shape (bridges d)).*1) as Hno.
    { unfold shape. rewrite <-list_fmap_compose. intros (b & -> & Hin)%list_elem_of_fmap.
      pose proof (find_index_None _ _ b Hf Hin) as Hb. simpl in Hb. by rewrite Z.eqb_refl in Hb. }
    apply holds_bind. eapply holds_create_br; [by apply at_own_shape|done|..].
    + intros d' [HB' _]. by apply holds_ret, HN.
    + intros d' Hd'. set (s := shape (bridges d) ++ _) in *. set (i := length _).
      assert (is_Some (s !! i)) as Hi by (apply lookup_lt_is_Some; unfold s, i; rewrite length_app; simpl; lia).
      eapply (holds_mono _ (fun r d' => at_shape s d' /\ r = Some i)).
      * destruct (shape_bridge (bridges d') s i) as [b Hb]; [apply Hd'|done|].
        apply holds_bind. eapply holds_bridge; [exact Hb|]. apply holds_bind, holds_ask.
        intros flags d2 Heq2. apply holds_bind.
        eapply holds_mono; [|intros u d3 Hd3; apply holds_ret; split; [exact Hd3|done]].
        assert (at_shape s d2) as Hd2 by by eapply at_shape_same.
        case_match; [by apply steady_set_br_up|by apply holds_ret].
      * intros r d2 [Hd2 ->]. by eapply HS.
Qed.

Lemma sound_add_bridges brs : sound (CTL_add_bridges brs).
Proof.
  induction brs as [|[br_index ifaces] brs IH]; cbn [CTL_add_bridges]; [apply sound_ret|].
  intros d HB. apply holds_bind. apply holds_find_or_create; [done|intros; by apply holds_ret|].
  intros i s d1 Hd1 Hi. destruct (shape_bridge (bridges d1) s i) as [b Hb]; [apply Hd1|done|].
  apply holds_bind. eapply holds_bridge; [exact Hb|]. apply holds_bind.
  destruct Hi as [x Hx].
  eapply holds_mono; [eapply holds_delete_unlisted; [exact Hd1|exact Hx|]|].
  { destruct Hd1 as [_ <-]. rewrite shape_lookup, Hb in Hx. injection Hx as <-.
    simpl. unfold port_ifs. by rewrite length_map. }
  intros u d2 (s2 & Hd2 & Hi2). apply holds_bind.
  eapply holds_mono; [by eapply holds_add_ifaces|]. intros u' d3 HB3. by apply IH.
Qed.

Lemma sound_del_bridges brs : sound (CTL_del_bridges brs).
Proof.
  induction brs as [|br_index brs IH]; cbn [CTL_del_bridges]; [apply sound_ret|].
  intros d HB. apply holds_bind, holds_delete_br; [done|]. intros b d' HB'. by apply IH.
Qed.
