(* ===== verification/MstpElection.v ===== *)
(** * The election of the root port

    updtRolesTree chooses the best of the bridge's own priority vector and
    the root path priority vectors of the ports, in the lexicographic order
    of 802.1Q, and makes at most one port of a tree its root port. *)

From S2P Require Import Prelude Bytes MstpTypes MstpPriority MstpBpdu MstpMonad MstpOut MstpPort.
From S2P Require Import MstpInfo MstpRoles MstpTransitions MstpForwarding MstpRun HmacMd5.
From S2P Require Import MstpConfig MstpEvents MstpAdmin MstpVlan MstpLoops MstpSafety MstpDryRun.
From S2P Require Import MstpInv MstpRolesOk MstpInvariant MstpScenario MstpDiverge.

(** ** The choice among the candidates *)

(** The vector [v] with the port identifier [id] is at least as good as [v']
    with [id']. *)
Definition at_least (cist : bool) (v : port_priority_vector_t) (id : Z)
    (v' : port_priority_vector_t) (id' : Z) : Prop :=
  lex_le (better_key v id cist) (better_key v' id' cist).

(** Row [i] offers the vector [v] with the identifier [id]. *)
Definition offers (cist : bool) (tree : tree_t) (rows : list (port_t * per_tree_port_t)) (i : nat)
    (v : port_priority_vector_t) (id : Z) : Prop :=
  exists prt x, rows !! i = Some (prt, x) /\ root_candidate tree prt x = true
    /\ v = root_path_priority cist tree prt x /\ id = portId x.

Lemma offers_cons cist tree row rows i v id :
  offers cist tree rows i v id <-> offers cist tree (row :: rows) (S i) v id.
Proof. done. Qed.

Lemma root_step_spec cist tree bv bid broot k prt x v id root :
  root_step cist tree (bv, bid, broot) k (prt, x) = (v, id, root) ->
  at_least cist v id bv bid
  /\ (root_candidate tree prt x = true ->
      at_least cist v id (root_path_priority cist tree prt x) (portId x))
  /\ ((v, id, root) = (bv, bid, broot)
      \/ (root_candidate tree prt x = true /\ v = root_path_priority cist tree prt x
          /\ id = portId x /\ root = Some k)).
Proof.
  unfold root_step. destruct (root_candidate tree prt x).
  2:{ intros [= -> -> ->]. split; [apply lex_le_refl|]. split; [done|by left]. }
  destruct (betterorsamePriority _ bv _ bid cist) eqn:Hb; intros [= <- <- <-].
  - split; [by apply betterorsamePriority_lex|]. split; [|by right]. intros _. apply lex_le_refl.
  - split; [apply lex_le_refl|]. split; [|by left]. intros _.
    by apply betterorsamePriority_false in Hb as [Hb _].
Qed.

Lemma select_root_from_spec cist tree rows bv bid broot k v id root :
  select_root_from cist tree (bv, bid, broot) k rows = (v, id, root) ->
  at_least cist v id bv bid
  /\ (forall i v' id', offers cist tree rows i v' id' -> at_least cist v id v' id')
  /\ ((v, id, root) = (bv, bid, broot)
      \/ exists i, offers cist tree rows i v id /\ root = Some (k + i)%nat).
Proof.
  revert bv bid broot k. induction rows as [|[prt x] rows IH]; intros bv bid broot k.
  - intros [= <- <- <-]. split; [apply lex_le_refl|]. split; [|by left].
    by intros i v' id' (? & ? & ? & _).
  - cbn [select_root_from].
    destruct (root_step cist tree (bv, bid, broot) k (prt, x)) as [[v1 id1] root1] eqn:Hs.
    apply root_step_spec in Hs as (H1 & H2 & H3). intros (H4 & H5 & H6)%IH.
    split; [by eapply lex_le_trans|]. split.
    + intros [|i] v' id'; [|by intros Ho; apply (H5 i)].
      intros (prt' & x' & [= <- <-] & Hc & -> & ->). eapply lex_le_trans; [exact H4|by apply H2].
    + destruct H6 as [[= -> -> ->]|(i & Ho & ->)].
      * destruct H3 as [->|(Hc & -> & -> & ->)]; [by left|right]. exists 0%nat.
        split; [by exists prt, x|]. f_equal. lia.
      * right. exists (S i). split; [done|]. f_equal. lia.
Qed.

Lemma select_root_spec cist tree rows v id root :
  select_root cist tree rows = (v, id, root) ->
  at_least cist v id (BridgePriority tree) 0
  /\ (forall i v' id', offers cist tree rows i v' id' -> at_least cist v id v' id')
  /\ match root with
     | None => v = BridgePriority tree /\ id = 0
     | Some p => offers cist tree rows p v id
     end.
Proof.
  intros (H1 & H2 & H3)%select_root_from_spec. split; [done|]. split; [done|].
  destruct H3 as [[= -> -> ->]|(i & Ho & ->)]; [done|]. exact Ho.
Qed.

(** ** The roles of the ports *)

Lemma update_if_changed_role cist x : selectedRole (update_if_changed cist x) = selectedRole x.
Proof. unfold update_if_changed. by case_match. Qed.

(** Only the port that won the election becomes the root port, and it does
    unless its tree follows the CIST at the boundary of the region. *)
Lemma choose_role_root cist tree prt ct is_root x :
  selectedRole (choose_role cist tree prt ct is_root x) = roleRoot ->
  is_root = true /\ infoIs x = ioReceived.
Proof.
  unfold choose_role. destruct (infoIs x); [done|..];
    (destruct (_ && _ && _); [case_match; rewrite update_if_changed_role; upd_simpl;
       [done|intros Hr; bool_hyps; congruence]|]);
    rewrite ?update_if_changed_role; upd_simpl; try done.
  destruct is_root; [done|]. by repeat case_match.
Qed.

Lemma choose_role_winner cist tree prt ct x :
  infoIs x = ioReceived ->
  negb cist && bool_decide (ioReceived = infoIs ct) && negb (infoInternal prt) = false ->
  selectedRole (choose_role cist tree prt ct true x) = roleRoot.
Proof. intros Hi Hb. unfold choose_role. rewrite Hi, Hb. done. Qed.

(** ** The whole selection *)

Lemma for_each_seq_ret (I : nat -> world -> Prop) f n a w u w' :
  I a w ->
  (forall i w1 u w2, (a <= i < a + n)%nat -> I i w1 -> f i w1 = Ret u w2 -> I (S i) w2) ->
  for_each (seq a n) f w = Ret u w' -> I (a + n)%nat w'.
Proof.
  revert a w. induction n as [|n IH]; intros a w Hw Hf.
  - intros [= _ <-]. by rewrite Nat.add_0_r.
  - cbn [seq for_each]. intros (u1 & w1 & H1 & H2)%bind_inv.
    replace (a + S n)%nat with (S a + n)%nat by lia.
    apply (IH (S a) w1); [|intros i; intros; eapply Hf; [lia|done..]|done].
    eapply Hf; [lia|done..].
Qed.

(** The ports before [k] of tree [t] are root ports only if [root] says so,
    and the tree has the root priority vector [v] with [id]. *)
Definition elected (t : nat) (v : port_priority_vector_t) (id : Z) (root : option nat) (k : nat)
    (w : world) : Prop :=
  (exists tree, br_trees (br w) !! t = Some tree /\ rootPriority tree = v /\ rootPortId tree = id)
  /\ forall p x, (p < k)%nat -> lookup_ptp (br w) p t = Some x -> selectedRole x = roleRoot ->
     root = Some p.

Lemma elected_mod_ptp t v id root k q s f :
  (forall x, selectedRole (f x) = selectedRole x) ->
  stays (elected t v id root k) (mod_ptp q s f).
Proof.
  intros Hf w [] w' [Htree Hw] Heq. unfold mod_ptp, the_ptp, mbind, M_bind, deref in Heq.
  destruct (lookup_ptp (br w) q s) as [y|] eqn:Hq; [|done]. injection Heq as <-.
  split; [exact Htree|]. intros p x Hp Hx. upd_simpl in Hx.
  assert (exists x0, lookup_ptp (br w) p t = Some x0 /\ selectedRole x = selectedRole x0)
    as (x0 & H0 & ->); [|by apply Hw].
  unfold lookup_ptp, alter_ptp, alter_port in *. upd_simpl in Hx.
  destruct (decide (q = p)) as [->|Hne].
  - rewrite list_lookup_alter_eq in Hx. destruct (br_ports (br w) !! p) as [prt|]; [|done].
    simpl in *. upd_simpl in Hx. destruct (decide (s = t)) as [->|Hne].
    + rewrite list_lookup_alter_eq, Hq in Hx. injection Hx as <-. eauto.
    + rewrite list_lookup_alter_ne in Hx by done. eauto.
  - rewrite list_lookup_alter_ne in Hx by done. eauto.
Qed.

Lemma lookup_ptp_mod b q s f p t :
  p <> q -> lookup_ptp (alter_ptp q s f b) p t = lookup_ptp b p t.
Proof.
  intros Hne. unfold lookup_ptp, alter_ptp, alter_port. upd_simpl.
  by rewrite list_lookup_alter_ne by done.
Qed.

Lemma elected_set_role cist t v id root p w u w' :
  elected t v id root p w -> set_role_of cist root p t w = Ret u w' ->
  elected t v id root (S p) w'.
Proof.
  intros [Htree Hw] Heq. unfold set_role_of in Heq.
  apply bind_inv in Heq as (tree & w1 & H1 & Heq). eapply quiet_eq in H1 as ->; [|auto with quiet].
  apply bind_inv in Heq as (prt & w1 & H1 & Heq). eapply quiet_eq in H1 as ->; [|auto with quiet].
  apply bind_inv in Heq as (ct & w1 & H1 & Heq). eapply quiet_eq in H1 as ->; [|apply quiet_the_ptp].
  apply bind_inv in Heq as (x & w1 & H1 & Heq). pose proof H1 as ->%quiet_eq; [|auto with quiet].
  apply the_ptp_ret in H1. cbv zeta in Heq. apply bind_inv in Heq as (u1 & w1 & H2 & Heq).
  unfold mod_ptp, the_ptp, mbind, M_bind, deref in H2. rewrite H1 in H2. injection H2 as _ <-.
  set (x' := choose_role _ _ _ _ _ x) in *.
  assert (elected t v id root (S p) (w <| br := alter_ptp p t (fun _ => x') (br w) |>)) as Hw1.
  { split; [exact Htree|]. intros q y Hq Hy Hroot. upd_simpl in Hy.
    destruct (decide (q = p)) as [->|Hne].
    - unfold lookup_ptp, alter_ptp, alter_port in Hy, H1. upd_simpl in Hy.
      rewrite list_lookup_alter_eq in Hy. destruct (br_ports (br w) !! p) as [prt'|]; [|done].
      simpl in *. upd_simpl in Hy. rewrite list_lookup_alter_eq, H1 in Hy. injection Hy as <-.
      apply choose_role_root in Hroot as [Hroot _]. by bool_hyps.
    - rewrite lookup_ptp_mod in Hy by done. apply (Hw q y); [lia|done..]. }
  destruct (role_change_reselects cist x x'); [|by injection Heq as _ <-].
  assert (stays (elected t v id root (S p)) (reselectMSTIs p)) as Hst; [|by eapply Hst].
  unfold reselectMSTIs, for_msti_in_port. apply stays_bind; [apply stays_quiet; auto with quiet|].
  intros n. apply stays_for_each. intros s. apply elected_mod_ptp. by intros [].
Qed.

(** syncMaster and the designated vectors leave the selected roles alone. *)
Lemma elected_syncMaster t v id root k : stays (elected t v id root k) syncMaster.
Proof.
  unfold syncMaster, for_ptp_in_tree, for_port_in_bridge.
  apply stays_bind; [apply stays_quiet; auto with quiet|]. intros n. apply stays_for_each. intros s.
  apply stays_bind; [apply stays_quiet; auto with quiet|]. intros n'. apply stays_for_each. intros p.
  apply stays_bind; [apply stays_quiet; auto with quiet|]. intros prt. apply stays_if; [|apply stays_ret].
  apply elected_mod_ptp. by intros [].
Qed.

Lemma elected_set_designated t v id root k cist p : stays (elected t v id root k) (set_designated cist p t).
Proof.
  unfold set_designated. apply stays_bind; [apply stays_quiet; auto with quiet|]. intros tree.
  apply stays_bind; [apply stays_quiet; auto with quiet|]. intros prt.
  apply elected_mod_ptp. by intros [].
Qed.

Lemma num_ports_ret w n w' : num_ports w = Ret n w' -> w' = w /\ n = length (br_ports (br w)).
Proof. intros [= <- <-]. done. Qed.

Definition same_ports (n : nat) (w : world) : Prop := length (br_ports (br w)) = n.

Lemma same_ports_mod_ptp n q s f : stays (same_ports n) (mod_ptp q s f).
Proof.
  intros w [] w' Hw Heq. unfold mod_ptp, the_ptp, mbind, M_bind, deref in Heq.
  destruct (lookup_ptp (br w) q s); [|done]. injection Heq as <-.
  unfold same_ports, alter_ptp, alter_port. upd_simpl. by rewrite length_alter.
Qed.

Lemma same_ports_syncMaster n : stays (same_ports n) syncMaster.
Proof.
  unfold syncMaster, for_ptp_in_tree, for_port_in_bridge.
  apply stays_bind; [apply stays_quiet; auto with quiet|]. intros m. apply stays_for_each. intros s.
  apply stays_bind; [apply stays_quiet; auto with quiet|]. intros n'. apply stays_for_each. intros p.
  apply stays_bind; [apply stays_quiet; auto with quiet|]. intros prt. apply stays_if; [|apply stays_ret].
  apply same_ports_mod_ptp.
Qed.

Lemma same_ports_set_designated n cist p t : stays (same_ports n) (set_designated cist p t).
Proof.
  unfold set_designated. apply stays_bind; [apply stays_quiet; auto with quiet|]. intros tree.
  apply stays_bind; [apply stays_quiet; auto with quiet|]. intros prt. apply same_ports_mod_ptp.
Qed.

Lemma same_ports_set_role n cist root p t : stays (same_ports n) (set_role_of cist root p t).
Proof.
  unfold set_role_of, the_cist.
  do 4 (apply stays_bind; [apply stays_quiet; auto with quiet|]; intros ?). cbv zeta.
  apply stays_bind; [apply same_ports_mod_ptp|]. intros u.
  apply stays_if; [|apply stays_ret]. unfold reselectMSTIs, for_msti_in_port.
  apply stays_bind; [apply stays_quiet; auto with quiet|]. intros m. apply stays_for_each. intros s.
  apply same_ports_mod_ptp.
Qed.

Lemma updtRolesTree_elects t w w' :
  updtRolesTree t w = Ret tt w' ->
  exists tree rows v id root,
    br_trees (br w) !! t = Some tree /\ tree_rows (br w) t = Some rows
    /\ let cist := 0 =? tree_MSTID tree in
       at_least cist v id (BridgePriority tree) 0
       /\ (forall i v' id', offers cist tree rows i v' id' -> at_least cist v id v' id')
       /\ match root with
          | None => v = BridgePriority tree /\ id = 0
          | Some p => offers cist tree rows p v id
          end
       /\ elected t v id root (length (br_ports (br w))) w'.
Proof.
  intros Heq. unfold updtRolesTree in Heq.
  rewrite (bind_ret the_br _ w (br w) w eq_refl) in Heq.
  apply bind_inv in Heq as (tree & w1 & H1 & Heq).
  pose proof H1 as ->%quiet_eq; [|auto with quiet].
  unfold the_tree, deref in H1. destruct (br_trees (br w) !! t) as [tree'|] eqn:Htree; [|done].
  injection H1 as ->. apply bind_inv in Heq as (rows & w1 & H1 & Heq).
  unfold deref in H1. destruct (tree_rows (br w) t) as [rows'|] eqn:Hrows; [|done].
  injection H1 as -> <-. cbv zeta in Heq.
  destruct (select_root _ tree rows) as [[v id] root] eqn:Hsel.
  exists tree, rows, v, id, root. split; [done|]. split; [done|].
  apply select_root_spec in Hsel as (Hb & Ho & Hr). split; [done|]. split; [done|]. split; [done|].
  apply bind_inv in Heq as ([] & w1 & H1 & Heq).
  unfold mod_tree, the_tree, mbind at 1, M_bind at 1, deref in H1. rewrite Htree in H1.
  injection H1 as <-.
  set (n := length (br_ports (br w))). set (w1 := w <| br := _ |>) in Heq.
  assert (elected t v id root 0 w1 /\ same_ports n w1) as [He Hn].
  { split; [|done]. split; [|intros p x Hp; lia]. unfold w1, alter_tree. upd_simpl.
    rewrite list_lookup_alter_eq, Htree. simpl. by eexists. }
  apply bind_inv in Heq as ([] & w2 & H2 & Heq). unfold for_ptp_in_tree, for_port_in_bridge in H2.
  apply bind_inv in H2 as (m & w2' & [-> ->]%num_ports_ret & H2).
  assert (elected t v id root 0 w2 /\ same_ports n w2) as [He2 Hn2].
  { split.
    - eapply stays_for_each; [|exact He|exact H2]. intros p. apply elected_set_designated.
    - eapply stays_for_each; [|exact Hn|exact H2]. intros p. apply same_ports_set_designated. }
  apply bind_inv in Heq as ([] & w3 & H3 & Heq).
  assert (elected t v id root 0 w3 /\ same_ports n w3) as [He3 Hn3].
  { split.
    - eapply stays_if; [apply elected_syncMaster|apply stays_ret|exact He2|exact H3].
    - eapply stays_if; [apply same_ports_syncMaster|apply stays_ret|exact Hn2|exact H3]. }
  unfold for_ptp_in_tree, for_port_in_bridge in Heq.
  apply bind_inv in Heq as (m & w3' & [-> ->]%num_ports_ret & Heq).
  unfold same_ports in Hn3. rewrite Hn3 in Heq.
  eapply (for_each_seq_ret (elected t v id root)) in Heq; [exact Heq|done|].
  intros i w4 u w5 _ Hw4 H5. by eapply elected_set_role.
Qed.

(** C35: in every reachable state updtRolesTree returns, and elects the best vector among that of the bridge itself
    and the root path priority vectors of the ports that received their
    information from another bridge and are not restricted, in the order of
    802.1Q; it stores the winner as the root priority of the tree, and makes
    no other port a root port, so a tree has at most one. *)
Theorem root_election t w tree :
  reachable w -> br_trees (br w) !! t = Some tree ->
  exists w' rows v id root, updtRolesTree t w = Ret tt w'
    /\ tree_rows (br w) t = Some rows
    /\ let cist := 0 =? tree_MSTID tree in
       at_least cist v id (BridgePriority tree) 0
       /\ (forall i v' id', offers cist tree rows i v' id' -> at_least cist v id v' id')
       /\ match root with
          | None => v = BridgePriority tree /\ id = 0
          | Some p => offers cist tree rows p v id
          end
       /\ elected t v id root (length (br_ports (br w))) w'.
Proof.
  intros [[[] _] Hi]%reachable_Inv Ht.
  assert (returns (updtRolesTree t) (fun _ _ => True) w) as ([] & w' & Heq & _).
  { apply wp_returns. eapply wp_mono; [|done].
    apply (wp_updtRolesTree true (std_of w)); [done|done| |exact Hi].
    unfold std_of, ids_of. simpl. rewrite length_map. by eapply lookup_lt_Some. }
  destruct (updtRolesTree_elects t w w' Heq) as (tree' & rows & v & id & root & Ht' & Hrest).
  rewrite Ht in Ht'. injection Ht' as <-. by exists w', rows, v, id, root.
Qed.

Lemma root_election_witness : exists w' v id root,
  updtRolesTree 0 joined = Ret tt w' /\ elected 0 v id root (length (br_ports (br joined))) w'.
Proof.
  assert (exists tree, br_trees (br joined) !! 0%nat = Some tree) as [tree Ht]
    by (eexists; vm_compute; reflexivity).
  destruct (root_election 0 joined tree joined_reachable Ht)
    as (w' & rows & v & id & root & H & _ & _ & _ & _ & He).
  exists w', v, id, root. split; [exact H|exact He].
Defined.
