(* ===== verification/MstpTcsm.v ===== *)
(** * When the Topology Change machine returns

    The recursion of TCSM_run ends, within the depth of the model, in the
    CIST, and in an MSTI as long as no TCN and no topology change
    acknowledgement is pending on the port: the exact complement of the
    endless loop of MstpDiverge. *)

From S2P Require Import Prelude Bytes HmacMd5 MstpTypes MstpPriority MstpBpdu MstpMonad MstpOut MstpPort.
From S2P Require Import MstpInfo MstpRoles MstpTransitions MstpForwarding MstpRun MstpConfig MstpEvents.
From S2P Require Import MstpAdmin MstpVlan MstpInv MstpPortOk MstpInfoOk MstpForwardingOk MstpRunOk.
From S2P Require Import MstpInvariant MstpSafety MstpDryRun MstpScenario MstpDiverge.

(** ** The recursions of the state machines end

    A machine of mstp.c calls itself after a transition. For Port Protocol
    Migration, Port Transmit, Port Information and Port State Transition a
    rank of the state of the port decreases with every call; the constants
    that bound the depth are large enough. *)

Section termination.
Context (w : world) (Hw : Inv w) (p t : nat) (prt : port_t) (x : per_tree_port_t).
Context (Hp : br_ports (br w) !! p = Some prt) (Hx : prt_trees prt !! t = Some x).

Abbreviation g := (std_of w).

Lemma at_indices : inv g w /\ (p < g_np g)%nat /\ (t < length (g_ids g))%nat
  /\ lookup_ptp (br w) p t = Some x /\ ids_ok (g_ids g) /\ config_ok (g_cfg g) /\ plain g.
Proof.
  pose proof Hw as [[[] _] Hi]. split; [exact Hi|].
  split; [by eapply lookup_lt_Some|]. split.
  - destruct (inv_row _ _ Hi p prt Hp) as (Hids & _). rewrite <-Hids, length_map. by eapply lookup_lt_Some.
  - split; [unfold lookup_ptp; by rewrite Hp|]. done.
Qed.

Lemma returns_Inv (m : M bool) : wp true m (fun _ w' => inv g w') w -> returns m (fun _ w' => Inv w') w.
Proof.
  intros Hm. apply wp_returns. eapply wp_mono; [exact Hm|]. intros b w' Hw'.
  exact (Inv_intro _ _ _ _ (proj1 Hw) Hw').
Qed.

Lemma PPMSM_returns n dry :
  (PPMSM_depth <= n)%nat -> returns (PPMSM_runf n p dry) (fun _ w' => Inv w') w.
Proof.
  intros Hn. destruct at_indices as (Hi & Hpn & _ & _ & _ & Hcfg & _). apply returns_Inv.
  eapply (PPMSM_runf_ok true g); [done..|].
  unfold PPMSM_rank, PPMSM_depth in *. repeat case_match; lia.
Qed.

Lemma PTSM_returns n dry :
  (PTSM_depth <= n)%nat -> returns (PTSM_runf n p dry) (fun _ w' => Inv w') w.
Proof.
  intros Hn. destruct at_indices as (Hi & Hpn & _ & _ & Hids & Hcfg & Hpl). apply returns_Inv.
  eapply (PTSM_runf_ok true g); [done..|].
  destruct (inv_row _ _ Hi p prt Hp) as (_ & [Hc _ _ _ _] & _).
  unfold PTSM_rank, port_key, PTSM_depth in *. pose proof (cfg_hold_ok _ Hcfg).
  repeat case_match; lia.
Qed.

Lemma PISM_returns n dry :
  (PISM_depth <= n)%nat -> returns (PISM_runf n p t dry) (fun _ w' => Inv w') w.
Proof.
  intros Hn. destruct at_indices as (Hi & Hpn & Htn & Hl & Hids & Hcfg & Hpl). apply returns_Inv.
  eapply (PISM_runf_ok true g); [done..|].
  unfold PISM_rank, ptp_key, PISM_depth in *. repeat case_match; simpl; lia.
Qed.

Lemma PSTSM_returns n dry :
  bridgeEnabled (br w) = true -> (PSTSM_depth <= n)%nat ->
  returns (PSTSM_runf n p t dry) (fun _ w' => Inv w') w.
Proof.
  intros Hen Hn. destruct at_indices as (Hi & Hpn & Htn & Hl & Hids & Hcfg & Hpl). apply returns_Inv.
  eapply (PSTSM_runf_ok true g); [done..|].
  unfold PSTSM_rank, PSTSM_depth in *. repeat case_match; lia.
Qed.
End termination.

(** C36: in every reachable state of an enabled bridge, the Port Protocol
    Migration, Port Transmit, Port Information and Port State Transition
    machines of every port and tree return, in a state that satisfies the
    invariant, with any recursion depth from 4, 32, 10 and 4 on. *)
Theorem machines_return w p t prt x dry n :
  reachable w -> bridgeEnabled (br w) = true ->
  br_ports (br w) !! p = Some prt -> prt_trees prt !! t = Some x ->
  (32 <= n)%nat ->
  returns (PPMSM_runf n p dry) (fun _ w' => Inv w') w
  /\ returns (PTSM_runf n p dry) (fun _ w' => Inv w') w
  /\ returns (PISM_runf n p t dry) (fun _ w' => Inv w') w
  /\ returns (PSTSM_runf n p t dry) (fun _ w' => Inv w') w
  /\ returns (PPMSM_run p dry) (fun _ w' => Inv w') w
  /\ returns (PTSM_run p dry) (fun _ w' => Inv w') w
  /\ returns (PISM_run p t dry) (fun _ w' => Inv w') w
  /\ returns (PSTSM_run p t dry) (fun _ w' => Inv w') w.
Proof.
  intros Hw%reachable_Inv Hen Hp Hx Hn.
  repeat split;
    first [ by eapply PPMSM_returns; [..|unfold PPMSM_depth; lia]
          | by eapply PTSM_returns; [..|unfold PTSM_depth; lia]
          | by eapply PISM_returns; [..|unfold PISM_depth; lia]
          | by eapply PSTSM_returns; [..|unfold PSTSM_depth; lia] ].
Qed.

Lemma machines_return_witness : returns (PTSM_run 1 false) (fun _ w' => Inv w') joined.
Proof.
  eapply (machines_return joined 1 1 _ _ false 32).
  - exact joined_reachable.
  - vm_compute; reflexivity.
  - vm_compute; reflexivity.
  - vm_compute; reflexivity.
  - lia.
Defined.

(** What the machine looks at. *)
Record view := mk_view {
  v_state : TCSM_states_t;
  v_cist : bool;
  v_tcn : bool; v_ack : bool; v_tc : bool; v_prop : bool;
  v_edge : bool; v_active : bool;
  v_learn : bool; v_learning : bool; v_forward : bool }.

Definition view_of (prt : port_t) (x : per_tree_port_t) : view :=
  mk_view (TCSM_state x) (0 =? ptp_MSTID x) (rcvdTcn prt) (rcvdTcAck prt) (rcvdTc x) (tcProp x)
    (operEdge prt) (active_port x) (learn x) (learning x) (forward x).

(** The number of calls that are left. *)
Definition pending (v : view) : nat :=
  ((if v_tcn v then 3 else 0) + (if v_tc v then 2 else 0)
   + (if v_prop v then 2 else 0) + (if v_ack v then 2 else 0))%nat.
Definition active_rank (v : view) (n : nat) : nat := if v_active v && negb (v_edge v) then n else 2.

Definition TCSM_rank (v : view) : nat :=
  match v_state v with
  | TCSM_INACTIVE => if v_learn v then 3 else 0
  | TCSM_LEARNING =>
      if v_active v && v_forward v && negb (v_edge v) then 2 + pending v
      else if v_tc v || v_tcn v || v_ack v || v_prop v then 2
      else if negb (v_active v) && negb (v_learn v || v_learning v) then 1 else 0
  | TCSM_ACTIVE => active_rank v (pending v)
  | TCSM_NOTIFIED_TCN =>
      2 + active_rank v ((if v_prop v then 2 else 0) + (if v_ack v then 2 else 0))
  | TCSM_DETECTED | TCSM_NOTIFIED_TC | TCSM_PROPAGATING | TCSM_ACKNOWLEDGED =>
      1 + active_rank v (pending v)
  end.

(** No notification is pending that the machine cannot digest. *)
Definition digestible (v : view) : Prop := v_cist v = true \/ (v_tcn v = false /\ v_ack v = false).

Section tcsm.
Context (g : ghost) (Hids : ids_ok (g_ids g)).
Context (p t : nat) (Hp : (p < g_np g)%nat) (Ht : (t < length (g_ids g))%nat).

Definition sees (v : view) (w : world) : Prop :=
  exists prt x, br_ports (br w) !! p = Some prt /\ prt_trees prt !! t = Some x
    /\ view_of prt x = v.

(** ** Operations that the view does not notice *)

Lemma sees_mod_tree v s f : stays (sees v) (mod_tree s f).
Proof.
  intros w [] w' Hw Heq. unfold mod_tree, the_tree, mbind, M_bind, deref in Heq.
  destruct (br_trees (br w) !! s); [|done]. by injection Heq as <-.
Qed.

Lemma sees_mod_port v v' q f :
  (forall prt, prt_trees (f prt) = prt_trees prt) ->
  (forall prt x, q = p -> view_of prt x = v -> view_of (f prt) x = v') ->
  (q <> p -> v' = v) ->
  forall w a w', sees v w -> mod_port q f w = Ret a w' -> sees v' w'.
Proof.
  intros Ht' Hf Hne w [] w' (prt & x & Hprt & Hx & Hv) Heq.
  unfold mod_port, the_port, mbind, M_bind, deref in Heq.
  destruct (br_ports (br w) !! q) eqn:Hq; [|done]. injection Heq as <-.
  unfold sees, alter_port. upd_simpl. destruct (decide (q = p)) as [Heq|Hqp].
  - subst q. rewrite list_lookup_alter_eq, Hprt. exists (f prt), x. rewrite Ht'. auto.
  - rewrite list_lookup_alter_ne by done. rewrite Hne by done. by exists prt, x.
Qed.

Lemma sees_mod_ptp v v' q s f :
  (forall prt x, q = p -> s = t -> view_of prt x = v -> view_of prt (f x) = v') ->
  (~ (q = p /\ s = t) -> v' = v) ->
  forall w a w', sees v w -> mod_ptp q s f w = Ret a w' -> sees v' w'.
Proof.
  intros Hf Hne w [] w' (prt & x & Hprt & Hx & Hv) Heq.
  unfold mod_ptp, the_ptp, mbind, M_bind, deref in Heq.
  destruct (lookup_ptp (br w) q s) eqn:Hq; [|done]. injection Heq as <-.
  unfold sees, alter_ptp, alter_port. upd_simpl. destruct (decide (q = p)) as [->|Hqp].
  - rewrite list_lookup_alter_eq, Hprt. simpl. eexists. exists (if decide (s = t) then f x else x).
    split; [done|]. upd_simpl. destruct (decide (s = t)) as [->|Hst].
    + rewrite list_lookup_alter_eq, Hx. split; [done|]. by apply Hf.
    + rewrite list_lookup_alter_ne by done. split; [done|]. by rewrite Hne by tauto.
  - rewrite list_lookup_alter_ne by done. rewrite Hne by tauto. by exists prt, x.
Qed.

Ltac unseen :=
  repeat lazymatch goal with
  | |- forall _, _ => intros ?
  | |- stays _ (mod_tree _ _) => apply sees_mod_tree
  | |- stays _ (mod_port _ _) => unfold stays; eapply sees_mod_port; [by intros []|by intros [] [] _|done]
  | |- stays _ (mod_ptp _ _ _) =>
      unfold stays; eapply sees_mod_ptp; [first [by intros [] [] _ _ | by intros ? ? ->]|done]
  | |- stays _ (mret _) => apply stays_ret
  | |- stays _ (for_each _ _) => apply stays_for_each
  | |- stays _ (_ ≫= _) => apply stays_bind
  | |- stays _ (if _ then _ else _) => apply stays_if
  | |- stays _ _ => first [solve [auto with quiet] | apply stays_quiet; solve [auto with quiet]]
  end.

Lemma sees_set_TopologyChange v s b q : stays (sees v) (set_TopologyChange s b q).
Proof. unfold set_TopologyChange. unseen. Qed.
Lemma sees_set_newInfoXst v q s : stays (sees v) (set_newInfoXst q s).
Proof. unfold set_newInfoXst. unseen. Qed.
#[local] Hint Resolve sees_set_TopologyChange sees_set_newInfoXst : quiet.
Lemma sees_newTcWhile v q s : stays (sees v) (newTcWhile q s).
Proof. unfold newTcWhile, the_cist. unseen. Qed.

Lemma sees_setTcPropTree v : stays (sees v) (setTcPropTree p t).
Proof.
  unfold setTcPropTree, for_ptp_in_tree, for_port_in_bridge.
  apply stays_bind; [unseen|]. intros prt. apply stays_if; [unseen|].
  apply stays_bind; [unseen|]. intros n. apply stays_for_each. intros q.
  destruct (Nat.eqb_spec q p) as [->|Hne]; [unseen|].
  unfold stays. eapply sees_mod_ptp; [by intros ? ? ->|done].
Qed.

Lemma stays_emit v e : stays (sees v) (emit e).
Proof. by intros w [] w' Hw [= <-]. Qed.
Lemma stays_fault (P : world -> Prop) A : stays P (@fault A).
Proof. by intros w a w' _. Qed.
#[local] Hint Resolve sees_newTcWhile sees_setTcPropTree stays_emit stays_fault : quiet.

Lemma sees_set_fdbFlush v : stays (sees v) (set_fdbFlush p t).
Proof.
  unfold set_fdbFlush, MSTP_OUT_flush_all_fids, driver_flush_all_fids, all_fids_flushed,
    MSTP_OUT_set_ageing_time, the_cist. unseen.
Qed.

(** ** One step of an action *)

Lemma wp_sees {A B} v v' (m : M A) (k : A -> M B) Q w :
  inv g w -> sees v w -> keeps true g m ->
  (forall w a w', sees v w -> m w = Ret a w' -> sees v' w') ->
  (forall a w', inv g w' -> sees v' w' -> wp true (k a) Q w') ->
  wp true (m ≫= k) Q w.
Proof.
  intros Hw Hv Hm Hs Hk. apply wp_bind.
  destruct (proj1 (wp_returns m _ w) (Hm w Hw)) as (a & w' & Heq & Hw').
  eapply wp_eq; [exact Heq|]. apply Hk; [done|]. by eapply Hs.
Qed.

Lemma wp_sees_ptp {B} v (k : per_tree_port_t -> M B) Q w :
  inv g w -> sees v w ->
  (forall prt x, br_ports (br w) !! p = Some prt -> view_of prt x = v -> wp true (k x) Q w) ->
  wp true (the_ptp p t ≫= k) Q w.
Proof.
  intros Hw (prt & x & Hprt & Hx & Hv) Hk. apply wp_bind. eapply wp_the_ptp; [done..|].
  intros prt' x' Hprt' Hx' _ _ _. unfold lookup_ptp in Hx'. rewrite Hprt in Hx'. simpl in Hx'.
  simplify_eq. by eapply Hk.
Qed.

Lemma sees_after v v' f w a w' :
  (forall prt x, view_of prt x = v -> view_of prt (f x) = v') ->
  sees v w -> mod_ptp p t f w = Ret a w' -> sees v' w'.
Proof. intros Hf. apply sees_mod_ptp; [by eauto|tauto]. Qed.

Lemma sees_after_port v v' f w a w' :
  (forall prt, prt_trees (f prt) = prt_trees prt) ->
  (forall prt x, view_of prt x = v -> view_of (f prt) x = v') ->
  sees v w -> mod_port p f w = Ret a w' -> sees v' w'.
Proof. intros Ht' Hf. apply sees_mod_port; [done|by eauto|done]. Qed.

#[local] Hint Resolve keeps_set_fdbFlush : keeps.

(** The view after the state of the machine was set. *)
Definition in_state (st : TCSM_states_t) (v : view) : view :=
  mk_view st (v_cist v) (v_tcn v) (v_ack v) (v_tc v) (v_prop v) (v_edge v) (v_active v)
    (v_learn v) (v_learning v) (v_forward v).
(** LEARNING digests everything that is pending in the tree. *)
Definition learned (v : view) : view :=
  mk_view TCSM_LEARNING (v_cist v) (negb (v_cist v) && v_tcn v) (negb (v_cist v) && v_ack v)
    false false (v_edge v) (v_active v) (v_learn v) (v_learning v) (v_forward v).
Definition without_tc (v : view) : view :=
  mk_view (v_state v) (v_cist v) (v_tcn v) (v_ack v) false (v_prop v) (v_edge v) (v_active v)
    (v_learn v) (v_learning v) (v_forward v).
Definition digested (v : view) : view :=
  mk_view (v_state v) (v_cist v) (negb (v_cist v) && v_tcn v) (negb (v_cist v) && v_ack v)
    (v_tc v) (v_prop v) (v_edge v) (v_active v) (v_learn v) (v_learning v) (v_forward v).
Definition notified (v : view) : view :=
  mk_view TCSM_NOTIFIED_TC (v_cist v) (negb (v_cist v) && v_tcn v) (v_ack v)
    false (v_prop v) (v_edge v) (v_active v) (v_learn v) (v_learning v) (v_forward v).
Definition propagated (v : view) : view :=
  mk_view TCSM_PROPAGATING (v_cist v) (v_tcn v) (v_ack v)
    (v_tc v) false (v_edge v) (v_active v) (v_learn v) (v_learning v) (v_forward v).
Definition acknowledged (v : view) : view :=
  mk_view TCSM_ACKNOWLEDGED (v_cist v) (v_tcn v) false
    (v_tc v) (v_prop v) (v_edge v) (v_active v) (v_learn v) (v_learning v) (v_forward v).

Ltac view_tac :=
  first
  [ by intros ? ? <-
  | let prt := fresh "prt" in let x := fresh "x" in let H := fresh "H" in
    intros prt x H; lazymatch goal with v : view |- _ => destruct v end;
    unfold view_of, in_state, without_tc, digested in H; cbn -[Z.eqb] in H; injection H as; subst;
    cbv [view_of in_state without_tc digested learned notified propagated acknowledged]; cbn -[Z.eqb]; f_equal; upd_simpl; try assumption; reflexivity ].
Ltac same_tac := first [apply sees_newTcWhile | apply sees_setTcPropTree | apply sees_set_fdbFlush
  | apply sees_set_TopologyChange | apply sees_set_newInfoXst].
Ltac step v' :=
  eapply (wp_sees _ v'); [eassumption|eassumption|solve [keep]
  | first [ same_tac | (intros ? ? ?; apply sees_after; view_tac)
          | (intros ? ? ?; apply sees_after_port; [by intros []|view_tac]) ]
  | intros ? ? ? ?; cbv beta ].

Section actions.
Context (rec : M unit) (Q : unit -> world -> Prop) (v : view) (w : world).
Context (Hw : inv g w) (Hv : sees v w).

Lemma wp_to_ACTIVE :
  (forall w', inv g w' -> sees (in_state TCSM_ACTIVE v) w' -> wp true rec Q w') ->
  wp true (TCSM_to_ACTIVE rec p t) Q w.
Proof. intros Hrec. unfold TCSM_to_ACTIVE. step (in_state TCSM_ACTIVE v). by apply Hrec. Qed.

Lemma wp_to_DETECTED :
  (forall w', inv g w' -> sees (in_state TCSM_DETECTED v) w' -> wp true rec Q w') ->
  wp true (TCSM_to_DETECTED rec p t) Q w.
Proof.
  intros Hrec. unfold TCSM_to_DETECTED. do 4 step (in_state TCSM_DETECTED v). by apply Hrec.
Qed.

Lemma wp_to_NOTIFIED_TCN :
  (forall w', inv g w' -> sees (in_state TCSM_NOTIFIED_TCN v) w' -> wp true rec Q w') ->
  wp true (TCSM_to_NOTIFIED_TCN rec p t) Q w.
Proof.
  intros Hrec. unfold TCSM_to_NOTIFIED_TCN. do 2 step (in_state TCSM_NOTIFIED_TCN v). by apply Hrec.
Qed.

Lemma wp_to_PROPAGATING :
  (forall w', inv g w' -> sees (propagated v) w' -> wp true rec Q w') ->
  wp true (TCSM_to_PROPAGATING rec p t) Q w.
Proof.
  intros Hrec. unfold TCSM_to_PROPAGATING. do 3 step (in_state TCSM_PROPAGATING v).
  step (propagated v). by apply Hrec.
Qed.

Lemma wp_to_ACKNOWLEDGED :
  (forall w', inv g w' -> sees (acknowledged v) w' -> wp true rec Q w') ->
  wp true (TCSM_to_ACKNOWLEDGED rec p t) Q w.
Proof.
  intros Hrec. unfold TCSM_to_ACKNOWLEDGED. do 2 step (in_state TCSM_ACKNOWLEDGED v).
  step (acknowledged v). by apply Hrec.
Qed.

(** The members of the port are cleared for the CIST only. *)
Lemma wp_to_NOTIFIED_TC :
  (forall w', inv g w' -> sees (notified v) w' -> wp true rec Q w') ->
  wp true (TCSM_to_NOTIFIED_TC rec p t) Q w.
Proof.
  intros Hrec. unfold TCSM_to_NOTIFIED_TC. step (in_state TCSM_NOTIFIED_TC (without_tc v)).
  eapply wp_sees_ptp; [eassumption..|]. intros prt x _ Hx.
  assert ((0 =? ptp_MSTID x) = v_cist v) as -> by exact (f_equal v_cist Hx).
  eapply (wp_sees _ (notified v)); [eassumption..|case_match; keep| |].
  - clear Hx. destruct (v_cist v) eqn:Hc.
    + intros ? ? ?. apply sees_after_port; [by intros []|].
      unfold notified. rewrite Hc. view_tac.
    + intros w1 a1 w2 H1 [= _ <-]. replace (notified v) with (in_state TCSM_NOTIFIED_TC (without_tc v));
        [done|]. unfold notified, in_state, without_tc. cbn. by rewrite Hc.
  - intros ? ? ? ?. cbv beta. step (notified v). by apply Hrec.
Qed.

Lemma wp_to_LEARNING (Q' : bool -> world -> Prop) :
  (forall w', inv g w' -> sees (learned v) w' -> wp true rec (fun _ => Q' false) w') ->
  wp true (TCSM_to_LEARNING rec p t false) Q' w.
Proof.
  intros Hrec. unfold TCSM_to_LEARNING. eapply wp_sees_ptp; [eassumption..|]. intros prt x Hprt Hx.
  assert ((0 =? ptp_MSTID x) = v_cist v) as -> by exact (f_equal v_cist Hx). clear Hx.
  apply wp_bind. eapply wp_the_port; [done..|]. intros prt' _ _.
  step (in_state TCSM_LEARNING v).
  eapply (wp_sees _ (in_state TCSM_LEARNING (digested v))); [eassumption..|case_match; keep| |].
  - unfold digested. destruct (v_cist v) eqn:Hc.
    + intros ? ? ?. apply sees_after_port; [by intros []|]. view_tac.
    + intros w1 a1 w2 H1 [= _ <-]. unfold in_state in *. cbn in *. by rewrite <-Hc.
  - intros ? w1 ? ?. cbv beta. step (learned v).
    apply wp_bind. eapply wp_mono; [by apply Hrec|]. intros u w3 HQ. by apply wp_ret.
Qed.

Lemma wp_to_INACTIVE :
  (forall w', inv g w' -> sees (in_state TCSM_INACTIVE v) w' -> wp true rec Q w') ->
  wp true (TCSM_to_INACTIVE rec p t false) Q w.
Proof.
  intros Hrec. unfold TCSM_to_INACTIVE. do 4 step (in_state TCSM_INACTIVE v).
  eapply wp_sees_ptp; [eassumption..|]. intros prt x _ _.
  eapply (wp_sees _ (in_state TCSM_INACTIVE v)); [eassumption..|case_match; keep| |].
  - apply stays_if; [|apply stays_ret]. intros ? ? ?. apply sees_after_port; [by intros []|]. view_tac.
  - intros ? ? ? ?. by apply Hrec.
Qed.
End actions.

(** ** The run *)

Ltac rank_tac :=
  unfold digestible, TCSM_rank, active_rank, pending, in_state, learned, notified, propagated,
    acknowledged in *;
  lazymatch goal with v : view |- _ => destruct v; cbn in * end;
  lazymatch goal with H : _ \/ _ |- _ => destruct H as [?|[? ?]] end; subst; bool_hyps; subst;
  cbn in *; repeat case_match; bool_hyps; subst; cbn in *; first [tauto | lia | intuition (congruence || lia)].

Lemma TCSM_runf_ok n v w dry :
  inv g w -> sees v w -> digestible v -> (TCSM_rank v < n)%nat ->
  wp true (TCSM_runf n p t dry) (fun _ w' => inv g w') w.
Proof.
  revert v w dry. induction n as [|n IH]; intros v w dry Hw Hv Hd Hn; [lia|].
  cbn [TCSM_runf]. pose proof Hv as (prt & x & Hprt & Hx & Hview).
  apply wp_bind. eapply wp_the_port; [done..|]. intros prt' Hprt' _. simplify_eq.
  apply wp_bind. eapply wp_the_ptp; [done..|]. intros prt' x' Hprt' Hx' _ _ _.
  unfold lookup_ptp in Hx'. rewrite Hprt in Hx'. simpl in Hx'. simplify_eq.
  set (v := view_of prt x) in *.
  assert (forall v' w', inv g w' -> sees v' w' -> digestible v' -> (TCSM_rank v' < n)%nat ->
    wp true (TCSM_runf n p t false ;; mret tt) (fun _ w' => inv g w') w') as Hrec.
  { intros v' w' Hw' Hv' Hd' Hn'. apply wp_bind. eapply wp_mono; [by eapply IH|]. done. }
  change (TCSM_state x) with (v_state v). change (learn x) with (v_learn v).
  change (learning x) with (v_learning v). change (forward x) with (v_forward v).
  change (active_port x) with (v_active v). change (rcvdTc x) with (v_tc v).
  change (tcProp x) with (v_prop v). change (operEdge prt) with (v_edge v).
  change (rcvdTcn prt) with (v_tcn v). change (rcvdTcAck prt) with (v_ack v).
  clearbody v. clear Hprt Hx.
  destruct (v_state v) eqn:Hst; repeat case_match; try (by apply wp_ret).
  all: try (apply (wp_transition true g); [done|done|]).
  all: try (apply wp_bind; eapply wp_to_LEARNING; [eassumption..|]; intros w' Hw' Hv';
    eapply wp_mono; [eapply Hrec; [eassumption..|rank_tac|rank_tac]|intros ? ? ?; by apply wp_ret]).
  all: try (first [ eapply wp_to_ACTIVE | eapply wp_to_DETECTED | eapply wp_to_NOTIFIED_TCN
    | eapply wp_to_NOTIFIED_TC | eapply wp_to_PROPAGATING | eapply wp_to_ACKNOWLEDGED
    | eapply wp_to_INACTIVE ]; [eassumption..|]; intros w' Hw' Hv';
    (eapply Hrec; [eassumption..|rank_tac|rank_tac])).
  destruct dry.
  - unfold TCSM_to_LEARNING. apply wp_bind. eapply wp_the_ptp; [done..|]. intros ? ? _ _ _ _ _.
    apply wp_bind. eapply wp_the_port; [done..|]. intros ? _ _. repeat case_match; by apply wp_ret.
  - eapply wp_to_LEARNING; [eassumption..|]. intros w' Hw' Hv'. eapply Hrec; [eassumption..|rank_tac|rank_tac].
Qed.
End tcsm.

Lemma TCSM_rank_depth v : (TCSM_rank v < TCSM_depth)%nat.
Proof.
  unfold TCSM_rank, active_rank, pending, TCSM_depth. destruct (v_state v); repeat case_match; lia.
Qed.

(** C37: in a reachable state, a run of the Topology Change machine of a port
    returns, within the depth of the model, for the CIST, and for an MSTI as
    long as the port has no pending TCN and no pending acknowledgement (the
    case in which it does not return is the one of [MstpDiverge]). *)
Theorem topology_change_returns w p t prt x dry :
  reachable w -> br_ports (br w) !! p = Some prt -> prt_trees prt !! t = Some x ->
  ptp_MSTID x = 0 \/ (rcvdTcn prt = false /\ rcvdTcAck prt = false) ->
  returns (TCSM_run p t dry) (fun _ w' => Inv w') w.
Proof.
  intros Hw%reachable_Inv Hp Hx Hd.
  destruct (at_indices w Hw p t prt x Hp Hx) as (Hi & Hpn & Htn & _ & Hids & _ & _).
  apply (returns_Inv w Hw). eapply (TCSM_runf_ok (std_of w) Hids p t Hpn Htn _ (view_of prt x)).
  - exact Hi.
  - by exists prt, x.
  - unfold digestible, view_of. simpl. destruct Hd as [->|Hd]; [by left|by right].
  - apply TCSM_rank_depth.
Qed.

Lemma topology_change_returns_witness : returns (TCSM_run 1 1 false) (fun _ w' => Inv w') joined.
Proof.
  eapply (topology_change_returns joined 1 1).
  - exact joined_reachable.
  - vm_compute; reflexivity.
  - vm_compute; reflexivity.
  - right. split; vm_compute; reflexivity.
Defined.
