(* ===== verification/MstpPortState.v ===== *)
(** * Port State Transition refines its specification

    The machine of clause 13.35, with its recursive calls and its commands to
    the kernel, leads in one run to the state that learn and forward ask for,
    and changes nothing else that the role machines decide. *)

From S2P Require Import Prelude Bytes MstpTypes MstpPriority MstpBpdu MstpMonad MstpOut MstpPort.
From S2P Require Import MstpInfo MstpRoles MstpTransitions MstpForwarding MstpRun HmacMd5.
From S2P Require Import MstpConfig MstpEvents MstpAdmin MstpVlan MstpInv MstpForwardingOk MstpRunOk.
From S2P Require Import MstpInvariant MstpSafety MstpDryRun MstpScenario MstpTcsm.

(** The specification: what a port may do with frames. *)
Definition target (learn forward : bool) : PSTSM_states_t :=
  if negb learn then PSTSM_DISCARDING else if forward then PSTSM_FORWARDING else PSTSM_LEARNING.

Section refinement.
Context (g : ghost) (Hids : ids_ok (g_ids g)).
Context (p t : nat) (Hp : (p < g_np g)%nat) (Ht : (t < length (g_ids g))%nat).
Context (Hcoh : g_coh g p t).

(** The port is in state [s], and the role machines' decisions are those of [x]. *)
Definition settled_in (s : PSTSM_states_t) (x : per_tree_port_t) (w : world) : Prop :=
  inv g w /\ exists x', lookup_ptp (br w) p t = Some x'
    /\ PSTSM_state x' = s /\ learn x' = learn x /\ forward x' = forward x.

Lemma settled_here s x w x' :
  inv (with_here g p t) w -> lookup_ptp (br w) p t = Some x' -> PSTSM_state x' = s ->
  learn x' = learn x -> forward x' = forward x -> settled_in s x w.
Proof.
  intros Hw Hx Hs Hl Hf. split; [by eapply inv_with_here_inv|]. by exists x'.
Qed.

Ltac leave_here :=
  eapply wp_leave_state; [eassumption..| | | |];
  [ intros g' d y Hyok Hno; split; [by upd_simpl|]; destruct Hyok; constructor; ok_tac
  | intros y; by upd_simpl
  | intros s; upd_simpl; try done | ].

Lemma PSTSM_settles n w x :
  inv g w -> lookup_ptp (br w) p t = Some x -> (forward x = true -> learn x = true) ->
  (PSTSM_rank x < n)%nat ->
  wp true (PSTSM_runf n p t false) (fun b w' => b = false /\ settled_in (target (learn x) (forward x)) x w') w.
Proof.
  revert w x. induction n as [|n IH]; intros w x Hw Hx Hfl Hn; [lia|].
  cbn [PSTSM_runf]. apply wp_bind. eapply wp_the_ptp; [done..|].
  intros prt x' Hprt Hx' _ Hok _. rewrite Hx in Hx'. injection Hx' as <-.
  assert (forall w' x', inv (with_here g p t) w' -> lookup_ptp (br w') p t = Some x' ->
      (PSTSM_rank x' < n)%nat -> learn x' = learn x -> forward x' = forward x ->
      wp true (PSTSM_runf n p t false ;; mret tt)
        (fun _ w' => settled_in (target (learn x) (forward x)) x w') w') as Hrec.
  { intros w' x' Hw' Hx' Hn' Hl Hf. apply wp_bind. eapply wp_mono.
    - apply (IH w' x'); [by eapply inv_with_here_inv|done| |done]. by rewrite Hl, Hf.
    - intros b w2 [_ [Hw2 (x2 & Hx2 & Hs2 & Hl2 & Hf2)]]. apply wp_ret. split; [done|].
      exists x2. rewrite Hs2, Hl2, Hf2, Hl, Hf. done. }
  pose proof (ok_pst _ _ _ _ _ Hok Hcoh) as Hpst.
  assert (settled_in (PSTSM_state x) x w) as Hstay by (split; [done|by exists x]).
  unfold PSTSM_rank in Hn. unfold target in *.
  destruct (PSTSM_state x) eqn:Hst; destruct (learn x) eqn:Hl; destruct (forward x) eqn:Hf;
    cbn [negb] in *; try (specialize (Hfl eq_refl); discriminate); try (apply wp_ret; split; done);
    unfold transition; apply wp_bind;
    (eapply (wp_mono _ _ (fun _ w' => settled_in _ x w')); [|by intros u w' Hw'; apply wp_ret]).
  1,2: eapply (wp_enter_state true g p t Hp Ht PSTSM_LEARNING); [done..|];
    intros w1 Hw1; apply wp_bind; leave_here; [by destruct Hpst|];
    intros w2 x2 Hw2 Hx2 Hs2 Hl2 Hf2; eapply Hrec; [done..| |congruence|congruence];
    unfold PSTSM_rank; rewrite Hs2, Hl2, Hl; lia.
  - eapply (wp_enter_state true g p t Hp Ht PSTSM_FORWARDING); [done..|].
    intros w1 Hw1. leave_here; [by destruct Hpst|].
    intros w2 x2 Hw2 Hx2 Hs2 Hl2 Hf2. by eapply settled_here.
  - eapply (wp_enter_state true g p t Hp Ht PSTSM_DISCARDING); [done..|].
    intros w1 Hw1. apply wp_bind. leave_here.
    intros w2 x2 Hw2 Hx2 Hs2 Hl2 Hf2. eapply Hrec; [done..| |congruence|congruence].
    unfold PSTSM_rank. rewrite Hs2, Hl2, Hl. lia.
  - eapply (wp_enter_state true g p t Hp Ht PSTSM_DISCARDING); [done..|].
    intros w1 Hw1. apply wp_bind. leave_here.
    intros w2 x2 Hw2 Hx2 Hs2 Hl2 Hf2. eapply Hrec; [done..| |congruence|congruence].
    unfold PSTSM_rank. rewrite Hs2, Hl2, Hl. lia.
  - eapply (wp_enter_state true g p t Hp Ht PSTSM_DISCARDING); [done..|].
    intros w1 Hw1. apply wp_bind. leave_here.
    intros w2 x2 Hw2 Hx2 Hs2 Hl2 Hf2. eapply Hrec; [done..| |congruence|congruence].
    unfold PSTSM_rank. rewrite Hs2, Hl2, Hl. lia.
Qed.
End refinement.

(** In a reachable state of an enabled bridge, a run of the Port State
    Transition machine of a port ends, whatever state it starts in, in the
    state that the specification [target] gives for learn and forward; the
    kernel has been told that state (unless the port is being deleted), and
    learn and forward are as before. *)
Theorem PSTSM_refines w p t prt x :
  reachable w -> bridgeEnabled (br w) = true ->
  br_ports (br w) !! p = Some prt -> prt_trees prt !! t = Some x ->
  exists w' prt' x', PSTSM_run p t false w = Ret false w'
    /\ br_ports (br w') !! p = Some prt' /\ prt_trees prt' !! t = Some x'
    /\ PSTSM_state x' = target (learn x) (forward x)
    /\ learn x' = learn x /\ forward x' = forward x
    /\ (deleted prt' = false -> ptp_state x' = kernel_state (target (learn x) (forward x)))
    /\ learning x' = learn x /\ forwarding x' = forward x.
Proof.
  intros Hw%reachable_Inv Hen Hp Hx.
  destruct (at_indices w Hw p t prt x Hp Hx) as (Hi & Hpn & Htn & Hl & Hids & Hcfg & Hpl).
  assert (forward x = true -> learn x = true) as Hfl.
  { destruct (inv_row _ _ Hi p prt Hp) as (_ & _ & Hok). apply (ok_prt _ _ _ _ _ (Hok t x Hx)). }
  assert (g_coh (std_of w) p t) as Hcoh by exact Hen.
  assert (PSTSM_rank x < PSTSM_depth)%nat as Hn
    by (unfold PSTSM_rank, PSTSM_depth; repeat case_match; lia).
  destruct (proj1 (wp_returns _ _ _) (PSTSM_settles (std_of w) p t Hpn Htn Hcoh PSTSM_depth w x
    Hi Hl Hfl Hn)) as (b & w' & Heq & -> & Hi' & x' & Hx' & Hs & Hl' & Hf').
  destruct (lookup_ptp_split _ _ _ _ Hx') as (prt' & Hp' & Ht').
  exists w', prt', x'. do 6 (split; [done|]).
  destruct (inv_row _ _ Hi' p prt' Hp') as (_ & _ & Hok). specialize (Hok t x' Ht').
  pose proof (ok_kernel _ _ _ _ _ Hok Hcoh) as Hk. pose proof (ok_pst _ _ _ _ _ Hok Hcoh) as Hpst.
  rewrite Hs in Hk, Hpst. split; [done|]. unfold target in Hpst.
  destruct (learn x), (forward x); try (specialize (Hfl eq_refl); discriminate);
    by destruct Hpst as [-> ->].
Qed.

Lemma PSTSM_refines_witness : exists w', PSTSM_run 1 1 false joined = Ret false w'.
Proof.
  destruct (PSTSM_refines joined 1 1 (default (calloc_port eth2) (br_ports (br joined) !! 1%nat))
    (default calloc_ptp (lookup_ptp (br joined) 1 1))) as (w' & prt' & x' & H & _).
  - exact joined_reachable.
  - vm_compute; reflexivity.
  - vm_compute; reflexivity.
  - vm_compute; reflexivity.
  - exists w'. exact H.
Defined.
