(* ===== verification/MstpOps.v ===== *)
(** * The functional behaviour of single operations

    Comparison of vectors, path costs, identifiers, the tick of the timers,
    and the handling of received messages before the machines see them. *)

From S2P Require Import Prelude Bytes MstpTypes MstpPriority MstpBpdu MstpMonad MstpOut MstpPort.
From S2P Require Import MstpInfo MstpRoles MstpTransitions MstpForwarding MstpRun HmacMd5.
From S2P Require Import MstpConfig MstpEvents MstpAdmin MstpVlan MstpLoops MstpInv MstpInvariant.
From S2P Require Import MstpPortOk MstpEventsOk MstpSafety MstpDryRun MstpDiverge MstpElection.
From S2P Require Import MstpScenario.

(** ** Priority vectors *)

(** The function betterorsamePriority decides the lexicographic order on the
    components of 802.1Q 13.10 (with the root and the external cost only for
    the CIST); this order is total, transitive and antisymmetric, so that the
    bridges of a network agree on which information is best. *)
Theorem priority_vector_order v1 p1 v2 p2 v3 p3 cist :
  (betterorsamePriority v1 v2 p1 p2 cist = true
     <-> lex_le (better_key v1 p1 cist) (better_key v2 p2 cist))
  /\ (betterorsamePriority v1 v2 p1 p2 cist = true
      \/ betterorsamePriority v2 v1 p2 p1 cist = true)
  /\ (betterorsamePriority v1 v2 p1 p2 cist = true ->
      betterorsamePriority v2 v3 p2 p3 cist = true ->
      betterorsamePriority v1 v3 p1 p3 cist = true)
  /\ (betterorsamePriority v1 v2 p1 p2 cist = true ->
      betterorsamePriority v2 v1 p2 p1 cist = true ->
      better_key v1 p1 cist = better_key v2 p2 cist).
Proof.
  rewrite !betterorsamePriority_lex. split; [done|]. split; [apply lex_le_total|].
  split; [apply lex_le_trans|apply lex_le_antisymm].
Qed.

(** ** Path costs *)

(** The path cost of a port is between 1 and MAX_PATH_COST for every
    value of the speed, decreases with the speed, and is the one of table
    13-4 of 802.1Q for the usual speeds. *)
Theorem path_cost_bounds s1 s2 :
  1 <= compute_pcost s1 <= MAX_PATH_COST
  /\ (s1 <= s2 -> compute_pcost s2 <= compute_pcost s1)
  /\ compute_pcost 10 = 2000000 /\ compute_pcost 100 = 200000
  /\ compute_pcost 1000 = 20000 /\ compute_pcost 10000 = 2000.
Proof.
  assert (forall s, 0 < s -> s < 20000000 -> 1 <= 20000000 / s <= 20000000) as Hdiv.
  { intros s H0 H1. split.
    - apply Z.div_le_lower_bound; lia.
    - apply Z.div_le_upper_bound; lia. }
  unfold compute_pcost, MAX_PATH_COST. split; [|split; [|done]].
  - destruct (0 <? s1) eqn:H0; [|lia]. destruct (s1 <? 20000000) eqn:H1; [|lia].
    bool_hyps. specialize (Hdiv s1). lia.
  - intros Hs. destruct (0 <? s1) eqn:H0, (0 <? s2) eqn:H0', (s1 <? 20000000) eqn:H1,
      (s2 <? 20000000) eqn:H1'; bool_hyps; try lia;
      pose proof (Hdiv s1); pose proof (Hdiv s2); try lia.
    apply Z.div_le_compat_l; lia.
Qed.

(** ** Identifiers *)

Lemma land_shiftl_low x w n : 0 <= w -> n < w -> Z.testbit (Z.shiftl x w) n = false.
Proof. intros Hw Hn. apply Z.shiftl_spec_low. done. Qed.

Lemma testbit_F0 n : 0 <= n -> Z.testbit 0xF0 n = (4 <=? n) && (n <? 8).
Proof.
  intros Hn. destruct (decide (n < 8)) as [Hlt|Hge].
  - assert (n = 0 \/ n = 1 \/ n = 2 \/ n = 3 \/ n = 4 \/ n = 5 \/ n = 6 \/ n = 7) as H by lia.
    by destruct H as [->|[->|[->|[->|[->|[->|[->| ->]]]]]]].
  - replace (n <? 8) with false by (symmetry; apply Z.ltb_ge; lia). rewrite andb_false_r.
    apply Z.bits_above_log2; [done|]. change (Z.log2 0xF0) with 7. lia.
Qed.

(** SET_PRIORITY_IN_IDENTIFIER stores the four bits of the priority in
    the first octet of a bridge or port identifier, where
    GET_PRIORITY_FROM_IDENTIFIER finds them, and leaves all other bits (the
    system identifier extension, the address or port number) alone. *)
Theorem identifier_priority w pri id :
  w = 16 \/ w = 64 -> 0 <= pri < 256 -> 0 <= id < 2 ^ w ->
  GET_PRIORITY_FROM_IDENTIFIER w (SET_PRIORITY_IN_IDENTIFIER w pri id) = Z.land pri 0xF0
  /\ Z.land (SET_PRIORITY_IN_IDENTIFIER w pri id) (Z.ones (w - 4)) = Z.land id (Z.ones (w - 4))
  /\ 0 <= SET_PRIORITY_IN_IDENTIFIER w pri id < 2 ^ w.
Proof.
  intros Hw Hpri Hid. assert (8 <= w) as Hw8 by lia.
  assert (forall n, 0 <= n -> Z.testbit (SET_PRIORITY_IN_IDENTIFIER w pri id) n
    = if n <? w - 4 then Z.testbit id n
      else if n <? w then Z.testbit pri (n - (w - 8)) else false) as Hbit.
  { intros n Hn. unfold SET_PRIORITY_IN_IDENTIFIER.
    rewrite Z.lor_spec, Z.land_spec, Z.shiftl_spec, Z.land_spec by done.
    destruct (n <? w - 4) eqn:H1; bool_hyps.
    - rewrite Z.ones_spec_low, andb_true_r by lia.
      destruct (decide (n - (w - 8) < 0)); [by rewrite (Z.testbit_neg_r pri), orb_false_r by done|].
      rewrite (testbit_F0 (n - (w - 8))) by lia.
      replace (4 <=? n - (w - 8)) with false by (symmetry; apply Z.leb_gt; lia).
      by rewrite andb_false_r, orb_false_r.
    - rewrite Z.ones_spec_high, andb_false_r, orb_false_l, (testbit_F0 (n - (w - 8))) by lia.
      replace (4 <=? n - (w - 8)) with true by (symmetry; apply Z.leb_le; lia).
      rewrite andb_true_l. destruct (n <? w) eqn:H2; bool_hyps.
      + replace (n - (w - 8) <? 8) with true by (symmetry; apply Z.ltb_lt; lia). by rewrite andb_true_r.
      + replace (n - (w - 8) <? 8) with false by (symmetry; apply Z.ltb_ge; lia). by rewrite andb_false_r. }
  split; [|split].
  - apply Z.bits_inj'. intros n Hn. unfold GET_PRIORITY_FROM_IDENTIFIER.
    rewrite !Z.land_spec, Z.shiftr_spec, Hbit, testbit_F0 by lia.
    destruct (4 <=? n) eqn:H4, (n <? 8) eqn:H8; simpl; rewrite ?andb_false_r; try done. bool_hyps.
    replace (n + (w - 8) <? w - 4) with false by (symmetry; apply Z.ltb_ge; lia).
    replace (n + (w - 8) <? w) with true by (symmetry; apply Z.ltb_lt; lia).
    do 2 f_equal. lia.
  - apply Z.bits_inj'. intros n Hn. rewrite !Z.land_spec, Hbit by done.
    destruct (n <? w - 4) eqn:H1; [done|]. bool_hyps.
    by rewrite Z.ones_spec_high, !andb_false_r by lia.
  - assert (0 <= SET_PRIORITY_IN_IDENTIFIER w pri id) as H0.
    { unfold SET_PRIORITY_IN_IDENTIFIER. apply Z.lor_nonneg. split.
      - apply Z.land_nonneg. left; lia.
      - apply Z.shiftl_nonneg, Z.land_nonneg. left; lia. }
    split; [done|]. destruct (decide (SET_PRIORITY_IN_IDENTIFIER w pri id = 0)) as [->|Hne];
      [apply Z.pow_pos_nonneg; lia|].
    apply Z.log2_lt_pow2; [lia|]. apply Z.nle_gt. intros Hle.
    assert (Z.testbit (SET_PRIORITY_IN_IDENTIFIER w pri id)
      (Z.log2 (SET_PRIORITY_IN_IDENTIFIER w pri id)) = true) as Hb by (apply Z.bit_log2; lia).
    rewrite Hbit in Hb by lia.
    destruct (_ <? w - 4) eqn:H1; [bool_hyps; lia|]. destruct (_ <? w) eqn:H2; [bool_hyps; lia|done].
Qed.

Lemma identifier_priority_witness :
  GET_PRIORITY_FROM_IDENTIFIER 64 (SET_PRIORITY_IN_IDENTIFIER 64 0x70 0x8005001122334455) = 0x70
  /\ SET_PRIORITY_IN_IDENTIFIER 64 0x70 0x8005001122334455 = 0x7005001122334455.
Proof.
  split; [|vm_compute; reflexivity].
  exact (proj1 (identifier_priority 64 0x70 0x8005001122334455 ltac:(lia) ltac:(lia) ltac:(lia))).
Defined.

(** ** The tick *)

Definition tick_port (prt : port_t) : port_t := prt
  <| helloWhen := dec (helloWhen prt) |>
  <| mdelayWhile := dec (mdelayWhile prt) |>
  <| edgeDelayWhile := dec (edgeDelayWhile prt) |>
  <| txCount := dec (txCount prt) |>
  <| brAssuRcvdInfoWhile := dec (brAssuRcvdInfoWhile prt) |>.

Definition tick_ptp (x : per_tree_port_t) : per_tree_port_t := x
  <| fdWhile := dec (fdWhile x) |>
  <| rrWhile := dec (rrWhile x) |>
  <| rbWhile := dec (rbWhile x) |>
  <| tcWhile := dec (tcWhile x) |>
  <| rcvdInfoWhile := dec (rcvdInfoWhile x) |>.

(** [ports_are l]: the ports of the bridge are exactly [l]. *)
Definition ports_are (l : list port_t) (w : world) : Prop := br_ports (br w) = l.

Definition row_alter (p t : nat) (f : per_tree_port_t -> per_tree_port_t) : list port_t -> list port_t :=
  alter (fun prt => prt <| prt_trees := alter f t (prt_trees prt) |>) p.

Lemma mod_ptp_ports p t f w u w' :
  mod_ptp p t f w = Ret u w' -> ports_are (row_alter p t f (br_ports (br w))) w'.
Proof.
  unfold mod_ptp, the_ptp, mbind, M_bind, deref. destruct (lookup_ptp (br w) p t); [|done].
  intros [= _ <-]. unfold ports_are, alter_ptp, alter_port. by upd_simpl.
Qed.

Lemma row_alter_compose p t f g l :
  row_alter p t f (row_alter p t g l) = row_alter p t (fun x => f (g x)) l.
Proof.
  unfold row_alter. apply list_eq. intros q. destruct (decide (p = q)) as [->|Hne].
  - rewrite !list_lookup_alter_eq. destruct (l !! q) as [prt|]; [|done]. simpl. upd_simpl.
    rewrite set_prt_trees_twice. do 2 f_equal. apply list_eq. intros s.
    destruct (decide (t = s)) as [->|Hne].
    + rewrite !list_lookup_alter_eq. by destruct (prt_trees prt !! s).
    + by rewrite !list_lookup_alter_ne.
  - by rewrite !list_lookup_alter_ne.
Qed.

Lemma row_alter_at p t f g l prt x :
  l !! p = Some prt -> prt_trees prt !! t = Some x -> f x = g x -> row_alter p t f l = row_alter p t g l.
Proof.
  intros Hp Hx Hf. unfold row_alter. apply list_eq. intros q. destruct (decide (p = q)) as [->|Hne].
  - rewrite !list_lookup_alter_eq, Hp. simpl. do 2 f_equal. apply list_eq. intros s.
    destruct (decide (t = s)) as [->|Hne].
    + rewrite !list_lookup_alter_eq, Hx. simpl. by rewrite Hf.
    + by rewrite !list_lookup_alter_ne.
  - by rewrite !list_lookup_alter_ne.
Qed.

Lemma mod_tree_ports l t f : stays (ports_are l) (mod_tree t f).
Proof.
  intros w u w' Hw. unfold mod_tree, the_tree, mbind, M_bind, deref.
  destruct (br_trees (br w) !! t); [|done]. by intros [= _ <-].
Qed.

Lemma set_TopologyChange_ports l t hint p : stays (ports_are l) (set_TopologyChange t hint p).
Proof.
  unfold set_TopologyChange.
  repeat lazymatch goal with
  | |- forall _, _ => intros ?
  | |- stays _ (mod_tree _ _) => apply mod_tree_ports
  | |- stays _ (mret _) => apply stays_ret
  | |- stays _ (_ ≫= _) => apply stays_bind
  | |- stays _ (if _ then _ else _) => apply stays_if
  | |- stays _ _ => apply stays_quiet; solve [auto with quiet]
  end.
Qed.

(** One per-tree port: its assignments together are [tick_ptp]. *)
Definition tick_body (p t : nat) : M unit :=
  mod_ptp p t (fun x => x
    <| fdWhile := dec (fdWhile x) |>
    <| rrWhile := dec (rrWhile x) |>
    <| rbWhile := dec (rbWhile x) |>) ;;
  x ← the_ptp p t;
  (if negb (tcWhile x =? 0) then
     mod_ptp p t (fun x => x <| tcWhile := tcWhile x - 1 |>) ;;
     (if tcWhile x - 1 =? 0 then set_TopologyChange t false p else mret tt)
   else mret tt) ;;
  mod_ptp p t (fun x => x <| rcvdInfoWhile := dec (rcvdInfoWhile x) |>).

Lemma lookup_ptp_row w p t f l x :
  ports_are (row_alter p t f l) w -> (forall prt, l !! p = Some prt -> prt_trees prt !! t = Some x) ->
  is_Some (l !! p) -> lookup_ptp (br w) p t = Some (f x).
Proof.
  intros Hw Hx [prt Hp]. unfold lookup_ptp. rewrite Hw. unfold row_alter.
  rewrite list_lookup_alter_eq, Hp. simpl. upd_simpl. by rewrite list_lookup_alter_eq, (Hx prt Hp).
Qed.

Lemma tick_body_ports p t w u w' prt x :
  br_ports (br w) !! p = Some prt -> prt_trees prt !! t = Some x ->
  tick_body p t w = Ret u w' -> ports_are (row_alter p t tick_ptp (br_ports (br w))) w'.
Proof.
  intros Hp Hx (u1 & w1 & H1 & (y & w2 & H2 & (u3 & w3 & H3 & H4)%bind_inv)%bind_inv)%bind_inv.
  apply mod_ptp_ports in H1. pose proof H2 as ->%quiet_eq; [|auto with quiet]. apply the_ptp_ret in H2.
  rewrite (lookup_ptp_row _ _ _ _ _ x H1) in H2; [|by intros; simplify_eq|by eexists].
  injection H2 as <-. upd_simpl in H3.
  assert (ports_are (if tcWhile x =? 0 then br_ports (br w1)
    else row_alter p t (fun x => x <| tcWhile := tcWhile x - 1 |>) (br_ports (br w1))) w3) as Hw3.
  { destruct (tcWhile x =? 0); simpl in H3; [by injection H3 as _ <-|].
    apply bind_inv in H3 as (u4 & w4 & H5 & H6). apply mod_ptp_ports in H5.
    eapply (stays_if _ _ _ _ (set_TopologyChange_ports _ t false p)); [apply stays_ret|exact H5|exact H6]. }
  apply mod_ptp_ports in H4. unfold ports_are in *. rewrite H4, Hw3, H1.
  destruct (tcWhile x =? 0) eqn:Htc; rewrite !row_alter_compose;
    apply (row_alter_at _ _ _ _ _ prt x Hp Hx); unfold tick_ptp, dec; upd_simpl;
    bool_hyps; destruct x; simpl in *; subst; try done.
  replace (tcWhile =? 0) with false by (symmetry; by apply Z.eqb_neq). done.
Qed.

(** The per-tree ports before [k] have been ticked. *)
Lemma alter_first_row p k (f : per_tree_port_t -> per_tree_port_t) l :
  row_alter p k f (alter (fun prt => prt <| prt_trees := alter_first k f (prt_trees prt) |>) p l)
  = alter (fun prt => prt <| prt_trees := alter_first (S k) f (prt_trees prt) |>) p l.
Proof.
  unfold row_alter. apply list_eq. intros q. destruct (decide (p = q)) as [->|Hne].
  - rewrite !list_lookup_alter_eq. destruct (l !! q) as [prt|]; [|done]. simpl. upd_simpl.
    by rewrite set_prt_trees_twice, alter_first_S.
  - by rewrite !list_lookup_alter_ne.
Qed.

Lemma tick_ports p w w' prt :
  br_ports (br w) !! p = Some prt -> PTSM_tick p w = Ret tt w' ->
  br_ports (br w')
  = <[p := (tick_port prt) <| prt_trees := map tick_ptp (prt_trees prt) |>]> (br_ports (br w)).
Proof.
  intros Hp Heq. unfold PTSM_tick in Heq. apply bind_inv in Heq as ([] & w1 & H1 & Heq).
  rewrite mod_port_eq in H1 by (by eapply lookup_lt_Some). injection H1 as <-.
  set (l := alter tick_port p (br_ports (br w))).
  change (for_ptp_in_port p (tick_body p) (with_br w (alter_port p tick_port (br w))) = Ret tt w') in Heq.
  unfold for_ptp_in_port in Heq. apply bind_inv in Heq as (n & w2 & H2 & Heq).
  assert (l !! p = Some (tick_port prt)) as Hl by (unfold l; by rewrite list_lookup_alter_eq, Hp).
  apply bind_inv in H2 as (prt2 & w3 & H3 & [= <- <-]). pose proof H3 as ->%quiet_eq; [|auto with quiet].
  apply the_port_ret in H3. unfold with_br, alter_port in H3. upd_simpl in H3. fold l in H3.
  rewrite Hl in H3. injection H3 as <-.
  apply (for_each_seq_ret (fun k => ports_are (alter (fun prt =>
    prt <| prt_trees := alter_first k tick_ptp (prt_trees prt) |>) p l))) in Heq.
  - unfold ports_are in Heq. rewrite Heq. apply list_eq. intros q.
    destruct (decide (p = q)) as [<-|Hne].
    + rewrite list_lookup_alter_eq, Hl, list_lookup_insert_eq by (by eapply lookup_lt_Some).
      simpl. f_equal. rewrite alter_first_all by (by simpl). done.
    + unfold l. by rewrite !list_lookup_alter_ne, list_lookup_insert_ne by done.
  - unfold ports_are, with_br, alter_port. upd_simpl. fold l. symmetry.
    apply (alter_id _ p l (tick_port prt)); [done|]. rewrite alter_first_0. apply set_prt_trees_id.
  - intros k w1 u w2 Hk Hw1 Hb.
    assert (is_Some (prt_trees prt !! k)) as [x Hx] by (apply lookup_lt_is_Some; simpl in Hk; lia).
    eapply tick_body_ports in Hb; [| |].
    + unfold ports_are in *. rewrite Hb, Hw1. apply alter_first_row.
    + rewrite Hw1, list_lookup_alter_eq, Hl. done.
    + upd_simpl. rewrite lookup_alter_first. unfold tick_port. upd_simpl. rewrite Hx. done.
Qed.

(** A tick of a port of a reachable bridge returns, decrements each of its timers and those of its
    per-tree ports that is running and leaves the others at
    zero; no other
    port, and no other member of the port, changes. *)
Theorem tick_spec p w prt :
  reachable w -> br_ports (br w) !! p = Some prt ->
  exists w', PTSM_tick p w = Ret tt w'
    /\ br_ports (br w')
       = <[p := (tick_port prt) <| prt_trees := map tick_ptp (prt_trees prt) |>]> (br_ports (br w)).
Proof.
  intros [[[] _] Hi]%reachable_Inv Hp.
  assert (returns (PTSM_tick p) (fun _ _ => True) w) as ([] & w' & Heq & _).
  { apply wp_returns. eapply wp_mono; [|done].
    apply (keeps_PTSM_tick true (std_of w)); [done| |exact Hi]. by eapply lookup_lt_Some. }
  exists w'. split; [exact Heq|by apply tick_ports].
Qed.

Lemma tick_spec_witness : exists w' prt,
  br_ports (br joined) !! 0%nat = Some prt /\ PTSM_tick 0 joined = Ret tt w'
  /\ br_ports (br w') = <[0%nat := (tick_port prt) <| prt_trees := map tick_ptp (prt_trees prt) |>]>
                          (br_ports (br joined)).
Proof.
  assert (exists prt, br_ports (br joined) !! 0%nat = Some prt) as [prt Hp]
    by (eexists; vm_compute; reflexivity).
  destruct (tick_spec 0 joined prt joined_reachable Hp) as (w' & H1 & H2).
  exists w', prt. split; [exact Hp|]. split; [exact H1|exact H2].
Defined.

(** ** Received messages *)

Lemma alter_port_compose p f g b : alter_port p f (alter_port p g b) = alter_port p (fun x => f (g x)) b.
Proof.
  unfold alter_port. upd_simpl. rewrite set_ports_twice. f_equal. apply list_eq. intros q.
  destruct (decide (p = q)) as [->|Hne].
  - rewrite !list_lookup_alter_eq. by destruct (br_ports b !! q).
  - by rewrite !list_lookup_alter_ne.
Qed.

Lemma mod_port_bind {A} w p f prt (k : unit -> M A) :
  br_ports (br w) !! p = Some prt ->
  (mod_port p f ≫= k) w = k tt (with_br w (alter_port p f (br w))).
Proof. intros Hp. apply bind_ret, mod_port_eq. by eapply lookup_lt_Some. Qed.

Lemma the_port_bind {A} w p f prt (k : port_t -> M A) :
  br_ports (br w) !! p = Some prt ->
  (the_port p ≫= k) (with_br w (alter_port p f (br w)))
  = k (f prt) (with_br w (alter_port p f (br w))).
Proof.
  intros Hp. apply bind_ret. unfold the_port, deref, with_br, alter_port. upd_simpl.
  by rewrite list_lookup_alter_eq, Hp.
Qed.

Definition count_rx (prt : port_t) : port_t := prt <| num_rx_bpdu := u32 (num_rx_bpdu prt + 1) |>.
Definition with_port (w : world) (p : nat) (f : port_t -> port_t) : world :=
  with_br w (alter_port p f (br w)).

(** A message received on a port with BPDU guard shuts the interface down
    and sets the error flag; on a port with the BPDU filter it is counted as
    filtered; on a disabled bridge, while the previous message is still
    unread, or when it is malformed it is only counted. In none of these
    cases do the state machines run. *)
Theorem rx_dropped p buf size w prt :
  br_ports (br w) !! p = Some prt ->
  if BpduGuardPort prt then
    MSTP_IN_rx_bpdu p buf size w
    = Ret tt ((with_port w p (fun x => (count_rx x) <| BpduGuardError := true |>))
                <| out := out w ++ [Ev_if_shutdown (if_name (prt_sysdeps prt))] |>)
  else if bpduFilterPort prt then
    MSTP_IN_rx_bpdu p buf size w
    = Ret tt (with_port w p (fun x => (count_rx x)
        <| num_rx_bpdu_filtered := u32 (num_rx_bpdu_filtered (count_rx x) + 1) |>))
  else if negb (bridgeEnabled (br w)) || rcvdBpdu prt
          || bool_decide (rx_validate (decode_bpdu buf) size = None) then
    MSTP_IN_rx_bpdu p buf size w = Ret tt (with_port w p count_rx)
  else True.
Proof.
  intros Hp. unfold MSTP_IN_rx_bpdu. cbv zeta.
  assert (forall A (k : bridge_t -> M A), (the_br ≫= k) w = k (br w) w) as Hbr by done.
  rewrite !Hbr, !(mod_port_bind _ _ _ prt) by done.
  rewrite !(the_port_bind _ _ _ prt) by done. upd_simpl.
  assert (br_ports (br (with_port w p count_rx)) !! p = Some (count_rx prt)) as Hp'.
  { unfold with_port, with_br, alter_port. upd_simpl. by rewrite list_lookup_alter_eq, Hp. }
  destruct (BpduGuardPort prt); [|destruct (bpduFilterPort prt)].
  - rewrite (mod_port_bind _ _ _ (count_rx prt)) by exact Hp'. unfold with_br. upd_simpl.
    rewrite alter_port_compose. unfold MSTP_OUT_shutdown_port, with_port, with_br.
    unfold mbind, M_bind, the_port, deref, alter_port. upd_simpl.
    rewrite list_lookup_alter_eq, Hp. simpl. unfold emit. upd_simpl. done.
  - rewrite mod_port_eq by (by eapply lookup_lt_Some). unfold with_port, with_br. upd_simpl.
    by rewrite alter_port_compose.
  - destruct (bridgeEnabled (br w)); [|done]. destruct (rcvdBpdu prt); [done|].
    destruct (rx_validate _ size); [done|]. done.
Qed.

Lemma rx_dropped_witness : MSTP_IN_rx_bpdu 0 [0; 1; 2] 3 joined = Ret tt (with_port joined 0 count_rx).
Proof.
  assert (exists prt, br_ports (br joined) !! 0%nat = Some prt /\ BpduGuardPort prt = false
    /\ bpduFilterPort prt = false /\ rcvdBpdu prt = false) as (prt & Hp & Hg & Hf & Hr).
  { eexists. split; [vm_compute; reflexivity|]. vm_compute; auto. }
  pose proof (rx_dropped 0 [0; 1; 2] 3 joined prt Hp) as H. rewrite Hg, Hf, Hr in H.
  replace (_ || _) with true in H by (vm_compute; reflexivity). exact H.
Defined.
