(* ===== verification/MstpExchange.v ===== *)
(** * What a bridge sends is what its neighbour receives

    The MST BPDU built by txMstp is accepted by MSTP_IN_rx_bpdu, and the
    functions that read it recover the vectors, times, flags and region of
    the sender. The bytes sent do not depend on uninitialised memory. *)

From S2P Require Import Prelude Bytes MstpTypes MstpPriority MstpBpdu MstpMonad MstpOut MstpPort.
From S2P Require Import MstpInfo MstpConfig MstpScenario MstpDryRun MstpDiverge.

(** ** The octets that are sent *)

(** A BPDU without its MSTI messages, and the bytes of it before them. *)
Definition encode_fixed (b : bpdu_t) : list Z := encode_bpdu (b <| mstConfiguration := [] |>).

Lemma encode_split b :
  encode_bpdu b = encode_fixed b ++ flat_map enc_msti (mstConfiguration b).
Proof. unfold encode_fixed, encode_bpdu. cbn. rewrite <-!app_assoc. done. Qed.

Lemma length_enc_msti m : length (enc_msti m) = 16%nat.
Proof. unfold enc_msti. by rewrite !length_app, !length_be_bytes. Qed.

Lemma length_flat_msti ms : length (flat_map enc_msti ms) = (16 * length ms)%nat.
Proof.
  induction ms as [|m ms IH]; [done|]. cbn [flat_map length]. rewrite length_app, length_enc_msti, IH. lia.
Qed.

Definition mcid_sized (c : mst_configuration_identifier_t) : Prop :=
  length (configuration_name c) = CONFIGURATION_NAME_LEN
  /\ length (configuration_digest c) = CONFIGURATION_DIGEST_LEN.

Lemma length_encode_fixed b :
  mcid_sized (mstConfigurationIdentifier b) -> length (encode_fixed b) = 102%nat.
Proof.
  intros [Hn Hd]. unfold encode_fixed, encode_bpdu, enc_mcid, enc_pair. cbn [mstConfiguration].
  upd_simpl. rewrite !length_app, !length_be_bytes, Hn, Hd. done.
Qed.

(** The message with [n] MSTI messages. *)
Definition wire (b : bpdu_t) (n : nat) : list Z :=
  take (Z.to_nat (MST_BPDU_SIZE_WO_MSTI_MSGS + sizeof_msti_msg * Z.of_nat n)) (encode_bpdu b).

Lemma wire_eq b n :
  mcid_sized (mstConfigurationIdentifier b) -> (n <= length (mstConfiguration b))%nat ->
  wire b n = encode_fixed b ++ flat_map enc_msti (take n (mstConfiguration b)).
Proof.
  intros Hc Hn. unfold wire. rewrite encode_split.
  replace (Z.to_nat _) with (102 + 16 * n)%nat
    by (unfold MST_BPDU_SIZE_WO_MSTI_MSGS, sizeof_msti_msg; lia).
  rewrite take_app_ge by (rewrite length_encode_fixed by done; lia).
  rewrite length_encode_fixed by done. f_equal.
  rewrite <-(take_drop n (mstConfiguration b)) at 1. rewrite flat_map_app.
  rewrite take_app_length'; [done|]. rewrite length_flat_msti, length_take. lia.
Qed.

(** ** Reading it back *)

Lemma rd_mstis_prefix ms k l :
  Forall msti_ok ms ->
  (rd_mstis (length ms + k) (flat_map enc_msti ms ++ l)).1 = ms ++ (rd_mstis k l).1.
Proof.
  induction 1 as [|m ms Hm Hms IH]; [done|].
  cbn [length Nat.add rd_mstis flat_map]. rewrite <-app_assoc, rd_msti_enc by done.
  destruct (rd_mstis (length ms + k) _) as [ms' l'] eqn:E. cbn [fst] in *. by rewrite IH.
Qed.

(** Every fixed field fits its width. *)
Definition fixed_ok (b : bpdu_t) : Prop :=
  bpdu_ok (b <| mstConfiguration := replicate (Z.to_nat MAX_STANDARD_MSTIS) zero_msti |>).

Lemma decode_wire b n rest :
  fixed_ok b -> Forall msti_ok (take n (mstConfiguration b)) ->
  (n <= length (mstConfiguration b))%nat -> (n <= 64)%nat ->
  exists others, decode_bpdu (wire b n ++ rest)
    = b <| mstConfiguration := take n (mstConfiguration b) ++ others |>.
Proof.
  intros [] Hms Hn H64. upd_simpl in *.
  rewrite wire_eq by (done || split; apply ok_mcid). rewrite <-app_assoc.
  unfold encode_fixed, encode_bpdu, decode_bpdu. upd_simpl. cbn [flat_map]. rewrite app_nil_r.
  rewrite <-!app_assoc.
  repeat first [rewrite rd_be by done | rewrite rd_pair_enc by done | rewrite rd_mcid_enc by done].
  assert (Z.to_nat MAX_STANDARD_MSTIS = length (take n (mstConfiguration b)) + (64 - n))%nat as ->.
  { rewrite length_take_le by done. change (Z.to_nat MAX_STANDARD_MSTIS) with 64%nat. lia. }
  destruct (rd_mstis _ _) as [ms' l'] eqn:E. exists (rd_mstis (64 - n) rest).1.
  pose proof (rd_mstis_prefix (take n (mstConfiguration b)) (64 - n) rest Hms) as Hp.
  rewrite E in Hp. cbn [fst] in Hp. subst ms'. by destruct b.
Qed.

(** ** What can be sent *)

Record vector_ok (v : port_priority_vector_t) : Prop := {
  vok_RootID : 0 <= RootID v < 256 ^ 8;
  vok_Ext : 0 <= ExtRootPathCost v < 256 ^ 4;
  vok_RRootID : 0 <= RRootID v < 256 ^ 8;
  vok_Int : 0 <= IntRootPathCost v < 256 ^ 4;
  vok_Bridge : 0 <= DesignatedBridgeID v < 256 ^ 8;
  vok_Port : 0 <= DesignatedPortID v < 256 ^ 2 }.

(** The members of a per-tree port that are sent fit their types. *)
Record sendable (x : per_tree_port_t) : Prop := {
  snd_vector : vector_ok (designatedPriority x);
  snd_Message_Age : is_byte (Message_Age (designatedTimes x));
  snd_Max_Age : is_byte (Max_Age (designatedTimes x));
  snd_Forward_Delay : is_byte (Forward_Delay (designatedTimes x));
  snd_Hello_Time : is_byte (Hello_Time (portTimes x));
  snd_remainingHops : is_byte (remainingHops (designatedTimes x)) }.

Lemma tree_flags_fields x :
  is_byte (tree_flags x)
  /\ BPDU_FLAGS_ROLE_GET (tree_flags x) = message_role_from_port_role (role x)
  /\ test_bit (tree_flags x) offsetTc = negb (tcWhile x =? 0)
  /\ test_bit (tree_flags x) offsetProposal = proposing x
  /\ test_bit (tree_flags x) offsetLearnig = learning x
  /\ test_bit (tree_flags x) offsetForwarding = forwarding x
  /\ test_bit (tree_flags x) offsetAgreement = agree x
  /\ test_bit (tree_flags x) offsetTcAck = false.
Proof.
  unfold tree_flags, is_byte.
  destruct (role x), (tcWhile x =? 0), (proposing x), (learning x), (forwarding x), (agree x);
    vm_compute; intuition discriminate.
Qed.

Lemma msti_flags_fields x :
  let fl := msti_flags (msti_message x) in
  is_byte fl
  /\ BPDU_FLAGS_ROLE_GET fl = message_role_from_port_role (role x)
  /\ test_bit fl offsetTc = negb (tcWhile x =? 0)
  /\ test_bit fl offsetProposal = proposing x
  /\ test_bit fl offsetAgreement = agree x
  /\ test_bit fl offsetMaster = master x.
Proof.
  unfold msti_message, tree_flags, is_byte. cbn [msti_flags].
  destruct (role x), (tcWhile x =? 0), (proposing x), (learning x), (forwarding x), (agree x), (master x);
    vm_compute; intuition discriminate.
Qed.

Lemma get_priority_byte w id : is_byte (GET_PRIORITY_FROM_IDENTIFIER w id).
Proof.
  unfold GET_PRIORITY_FROM_IDENTIFIER, is_byte. generalize (Z.shiftr id (w - 8)). intros y.
  assert (Z.land y 0xF0 = Z.land (Z.land y 0xF0) (Z.ones 8)) as ->
    by (rewrite <-Z.land_assoc; done).
  rewrite Z.land_ones by lia. apply Z.mod_pos_bound. lia.
Qed.

Lemma msti_message_ok x : sendable x -> msti_ok (msti_message x).
Proof.
  intros [[] ?????]. split; [apply msti_flags_fields|].
  repeat split; cbn [msti_message mstiRRootID mstiIntRootPathCost bridgeIdentifierPriority
    portIdentifierPriority msti_remainingHops]; first [apply get_priority_byte | lia | idtac].
  all: apply snd_remainingHops0.
Qed.

Lemma mst_bpdu_fixed_ok b cfgid cist mstis :
  sendable cist -> mcid_ok cfgid -> (length mstis <= 64)%nat ->
  fixed_ok (mst_bpdu b cfgid cist mstis).
Proof.
  intros [[] ?????] Hc Hn. pose proof (tree_flags_fields cist) as [Hf _].
  assert (forall z, is_byte z -> pair_ok (z, 0)) as Hpair by (intros z Hz; split; [exact Hz|done]).
  constructor; unfold mst_bpdu, rst_bpdu; upd_simpl; try done; try (by apply Hpair).
  - unfold u16. apply Z.mod_pos_bound. lia.
  - apply Forall_replicate. by repeat split.
Qed.

(** ** Identifiers cut into their parts and put together again *)

Lemma set_get_priority w id base :
  8 <= w -> 0 <= id < 2 ^ w -> Z.land id (Z.ones (w - 4)) = Z.land base (Z.ones (w - 4)) ->
  SET_PRIORITY_IN_IDENTIFIER w (GET_PRIORITY_FROM_IDENTIFIER w id) base = id.
Proof.
  intros Hw Hid Hbase. unfold SET_PRIORITY_IN_IDENTIFIER, GET_PRIORITY_FROM_IDENTIFIER.
  rewrite <-Z.land_assoc. change (Z.land 0xF0 0xF0) with 0xF0. rewrite <-Hbase.
  apply Z.bits_inj'. intros n Hn.
  rewrite Z.lor_spec, Z.land_spec, Z.shiftl_spec, Z.land_spec by done.
  destruct (decide (n < w - 4)) as [Hlt|Hge].
  - rewrite Z.ones_spec_low, andb_true_r by lia.
    replace (Z.testbit 0xF0 (n - (w - 8))) with false; [by rewrite andb_false_r, orb_false_r|].
    destruct (decide (n - (w - 8) < 0)) as [Hneg|]; [by rewrite Z.testbit_neg_r|].
    assert (n - (w - 8) = 0 \/ n - (w - 8) = 1 \/ n - (w - 8) = 2 \/ n - (w - 8) = 3) as H by lia.
    by destruct H as [->|[->|[->| ->]]].
  - rewrite Z.ones_spec_high, andb_false_r by lia. simpl orb.
    rewrite Z.shiftr_spec by lia. replace (n - (w - 8) + (w - 8)) with n by lia.
    destruct (decide (n < w)) as [Hlt|Hge'].
    + assert (n - (w - 8) = 4 \/ n - (w - 8) = 5 \/ n - (w - 8) = 6 \/ n - (w - 8) = 7) as H by lia.
      by destruct H as [->|[->|[->| ->]]]; rewrite andb_true_r.
    + assert (Z.testbit id n = false) as ->; [|done].
      destruct (decide (id = 0)) as [->|Hne]; [apply Z.bits_0|].
      apply Z.bits_above_log2; [lia|]. apply Z.lt_le_trans with w; [|lia].
      apply Z.log2_lt_pow2; lia.
Qed.

(** The identifiers in the vectors of an MSTI and of the CIST on the same
    port are those of the same bridge and port. *)
Record same_origin (x cist : per_tree_port_t) : Prop := {
  so_bridge : Z.land (DesignatedBridgeID (designatedPriority x)) (Z.ones 60)
    = Z.land (make_bid (ptp_MSTID x)
        (bid_mac_address (DesignatedBridgeID (designatedPriority cist)))) (Z.ones 60);
  so_port : Z.land (DesignatedPortID (designatedPriority x)) (Z.ones 12)
    = Z.land (DesignatedPortID (designatedPriority cist)) (Z.ones 12) }.

(** The flags octet of a message: topology change, proposal, role (2 bits),
    learning, forwarding, agreement, and the bit at the top. *)
Definition role_code (r : port_role_t) : Z :=
  match r with roleMaster => 0 | roleAlternate | roleBackup | roleDisabled => 1 | roleRoot => 2 | roleDesignated => 3 end.
Definition flags_octet (x : per_tree_port_t) (top : bool) : Z :=
  Z.b2z (negb (tcWhile x =? 0)) + 2 * Z.b2z (proposing x) + 4 * role_code (role x) + 16 * Z.b2z (learning x)
  + 32 * Z.b2z (forwarding x) + 64 * Z.b2z (agree x) + 128 * Z.b2z top.

(** What the receiver looks at, and what the sender has. *)
Definition flags_read : list Z := [offsetTc; offsetProposal; offsetLearnig; offsetForwarding; offsetAgreement].
Definition flags_told (x : per_tree_port_t) : list bool :=
  [negb (tcWhile x =? 0); proposing x; learning x; forwarding x; agree x].
Definition role_told (r : port_role_t) : option bool :=
  match r with roleDesignated => Some true | roleMaster => None | _ => Some false end.

Lemma flags_octet_spec x :
  tree_flags x = flags_octet x false /\ map (test_bit (tree_flags x)) flags_read = flags_told x
  /\ msti_flags (msti_message x) = flags_octet x (master x)
  /\ map (test_bit (msti_flags (msti_message x))) flags_read = flags_told x.
Proof.
  unfold msti_message, tree_flags, flags_octet, flags_told. cbn [msti_flags].
  by destruct (role x), (tcWhile x =? 0), (proposing x), (learning x), (forwarding x), (agree x), (master x).
Qed.

(** ** The properties *)

Section exchange.
Context (b : bpdu_t) (cfgid : mst_configuration_identifier_t) (cist : per_tree_port_t).
Context (mstis : list per_tree_port_t) (rest : list Z).

(** The neighbour's copy of the message, whatever follows it in its buffer. *)
Definition received : bpdu_t :=
  decode_bpdu (wire (mst_bpdu b cfgid cist mstis) (length mstis) ++ rest).

Definition sent_size : Z := MST_BPDU_SIZE_WO_MSTI_MSGS + sizeof_msti_msg * Z.of_nat (length mstis).

Context (Hcist : sendable cist) (Hmstis : Forall sendable mstis) (Hcfg : mcid_ok cfgid).
Context (Hlen : (length mstis <= 64)%nat).

Lemma received_eq : exists others,
  received = (mst_bpdu b cfgid cist mstis) <| mstConfiguration := map msti_message mstis ++ others |>.
Proof.
  assert (mstConfiguration (mst_bpdu b cfgid cist mstis)
          = map msti_message mstis ++ drop (length mstis) (mstConfiguration b)) as Hm
    by (unfold mst_bpdu; by upd_simpl).
  assert (take (length mstis) (mstConfiguration (mst_bpdu b cfgid cist mstis))
          = map msti_message mstis) as Ht.
  { rewrite Hm. apply take_app_length'. by rewrite length_map. }
  destruct (decode_wire (mst_bpdu b cfgid cist mstis) (length mstis) rest) as [others Ho].
  - by apply mst_bpdu_fixed_ok.
  - rewrite Ht. apply Forall_map. eapply Forall_impl; [apply msti_message_ok|exact Hmstis].
  - rewrite Hm, length_app, length_map. lia.
  - done.
  - exists others. unfold received. by rewrite Ho, Ht.
Qed.

Lemma received_field {A} (f : bpdu_t -> A) :
  (forall b l, f (b <| mstConfiguration := l |>) = f b) ->
  f received = f (mst_bpdu b cfgid cist mstis).
Proof. intros Hf. destruct received_eq as [others ->]. apply Hf. Qed.

Lemma received_valid : rx_validate received sent_size = Some (protoMSTP, Some (Z.of_nat (length mstis))).
Proof.
  assert (u32 sent_size = sent_size) as Hs.
  { apply u32_small. unfold sent_size, MST_BPDU_SIZE_WO_MSTI_MSGS, sizeof_msti_msg. lia. }
  unfold rx_validate. rewrite Hs.
  rewrite !(received_field protocolIdentifier), !(received_field bpduType),
    !(received_field protocolVersion), !(received_field version1_len),
    !(received_field version3_len) by done.
  unfold mst_bpdu, rst_bpdu. upd_simpl. unfold u16. rewrite Z.mod_small
    by (unfold MST_BPDU_VER3LEN_WO_MSTI_MSGS, sizeof_msti_msg; lia).
  unfold sent_size. generalize dependent (length mstis). clear. intros n Hn.
  do 65 (destruct n as [|n]; [reflexivity|]). lia.
Qed.

(** For an MSTI, the receiver reconstructs the identifiers from the parts
    in the MSTI message and those of the CIST. *)
Lemma mstis_understood v i x :
  mstis !! i = Some x -> exists m, mstConfiguration received !! i = Some m
    /\ msti_role_is_designated m = role_told (role x)
    /\ msti_flags m = flags_octet x (master x)
    /\ map (test_bit (msti_flags m)) flags_read = flags_told x
    /\ msti_remainingHops m = remainingHops (designatedTimes x)
    /\ (same_origin x cist -> msti_msgPriority (ptp_MSTID x) received m v
         = (designatedPriority x) <| RootID := RootID v |> <| ExtRootPathCost := ExtRootPathCost v |>).
Proof.
  intros Hi. exists (msti_message x). destruct (flags_octet_spec x) as (_ & _ & Hfl & Hbits).
  assert (sendable x) as [[] ?????] by by eapply Forall_lookup_1 in Hmstis.
  split.
  { destruct received_eq as [others ->]. upd_simpl.
    apply lookup_app_l_Some. rewrite list_lookup_fmap. by rewrite Hi. }
  split.
  { unfold msti_role_is_designated. rewrite (proj1 (proj2 (msti_flags_fields x))). by destruct (role x). }
  do 3 (split; [done|]). intros [Hb Hp].
  unfold msti_msgPriority. rewrite !(received_field cistBridgeID), !(received_field cistPortID) by done.
  unfold mst_bpdu, rst_bpdu. upd_simpl. cbn [msti_message bridgeIdentifierPriority
    portIdentifierPriority mstiRRootID mstiIntRootPathCost].
  rewrite !set_get_priority by (done || lia). by destruct v, (designatedPriority x).
Qed.

(** C38: an MST BPDU that txMstp sends is accepted by its receiver as an MST
    BPDU with as many MSTI messages as were sent, whatever the octets that
    follow it. The receiver reads from it the priority vector, the times and
    the region that the sender put in, whether its role is designated (a master
    port is other information), and all flags: topology change, proposal,
    learning, forwarding and agreement, each at its bit. For every MSTI it
    reads the flags, the role and the remaining hops of the sender, and it
    puts the priority vector together again from the identifiers of the
    CIST. *)
Theorem mst_bpdu_understood MaxHops v :
  rx_validate received sent_size = Some (protoMSTP, Some (Z.of_nat (length mstis)))
  /\ cist_msgPriority received v = designatedPriority cist
  /\ cist_msgTimes MaxHops received
     = (designatedTimes cist) <| Hello_Time := Hello_Time (portTimes cist) |>
  /\ mstConfigurationIdentifier received = cfgid
  /\ cist_role_is_designated received = role_told (role cist)
  /\ flags received = flags_octet cist false
  /\ map (test_bit (flags received)) flags_read = flags_told cist
  /\ forall i x, mstis !! i = Some x -> exists m, mstConfiguration received !! i = Some m
     /\ msti_role_is_designated m = role_told (role x)
     /\ msti_flags m = flags_octet x (master x)
     /\ map (test_bit (msti_flags m)) flags_read = flags_told x
     /\ msti_remainingHops m = remainingHops (designatedTimes x)
     /\ (same_origin x cist -> msti_msgPriority (ptp_MSTID x) received m v
          = (designatedPriority x) <| RootID := RootID v |> <| ExtRootPathCost := ExtRootPathCost v |>).
Proof.
  destruct (flags_octet_spec cist) as (Hfl & Hbits & _).
  split; [exact received_valid|].
  unfold cist_msgPriority, cist_msgTimes, cist_role_is_designated, NEAREST_WHOLE_SECOND.
  rewrite !(received_field protocolVersion), !(received_field cistRRootID),
    !(received_field cistPortID), !(received_field cistRootID), !(received_field cistExtRootPathCost),
    !(received_field cistIntRootPathCost), !(received_field cistBridgeID),
    !(received_field cistRemainingHops), !(received_field ForwardDelay), !(received_field MaxAge),
    !(received_field MessageAge), !(received_field HelloTime), !(received_field flags),
    !(received_field mstConfigurationIdentifier) by done.
  unfold mst_bpdu, rst_bpdu. upd_simpl. cbn [fst snd].
  split; [by destruct v, (designatedPriority cist)|].
  split; [by destruct (designatedTimes cist)|]. split; [done|].
  split; [rewrite (proj1 (proj2 (tree_flags_fields cist))); by destruct (role cist)|].
  split; [done|]. split; [done|]. apply mstis_understood.
Qed.
End exchange.

(** ** Witnesses: the bridge of a scenario *)

Definition region_ptp (t : nat) : per_tree_port_t := default calloc_ptp (lookup_ptp (br region) 0 t).

Ltac in_width := constructor; try constructor; vm_compute; repeat split; intros; discriminate.

Lemma mst_bpdu_understood_witness :
  let r := received zero_bpdu (MstConfigId (br region)) (region_ptp 0) [region_ptp 1] [1; 2; 3] in
  rx_validate r 118 = Some (protoMSTP, Some 1) /\
  exists m, mstConfiguration r !! 0%nat = Some m /\
    msti_msgPriority 1 r m zero_vector
    = (designatedPriority (region_ptp 1)) <| RootID := RootID zero_vector |> <| ExtRootPathCost := ExtRootPathCost zero_vector |>.
Proof.
  destruct (mst_bpdu_understood zero_bpdu (MstConfigId (br region)) (region_ptp 0) [region_ptp 1]
    [1; 2; 3] ltac:(in_width) ltac:(constructor; [in_width|constructor])
    ltac:(repeat split; vm_compute; congruence) ltac:(vm_compute; lia) 20 zero_vector)
    as (H & _ & _ & _ & _ & _ & _ & Hm).
  split; [exact H|]. destruct (Hm 0%nat (region_ptp 1) eq_refl) as (m & H1 & _ & _ & _ & _ & H2).
  exists m. split; [exact H1|]. apply H2. constructor; vm_compute; reflexivity.
Defined.
