(* ===== verification/MstpNoLeak.v ===== *)
(** * No uninitialised memory is sent

    txConfig, txMstp and txTcn build their message in a local variable that
    is not initialised. Every octet that they hand to the kernel is one they
    have written: the outcome does not depend on what the variable holds. *)

From S2P Require Import Prelude Bytes MstpTypes MstpPriority MstpBpdu MstpMonad MstpOut MstpPort.
From S2P Require Import MstpInfo MstpConfig MstpScenario MstpDryRun MstpDiverge MstpExchange.

(** The same outcome over other contents of the local variable. *)
Definition on_stack {A} (s : bpdu_t) (o : outcome A) : outcome A :=
  match o with
  | Ret a w => Ret a (w <| stack_bpdu := s |>)
  | Fault => Fault
  | Fuel => Fuel
  end.

Definition stack_blind {A} (m : M A) (w : world) (s : bpdu_t) : Prop :=
  m (w <| stack_bpdu := s |>) = on_stack s (m w).

Lemma blind_bind {A B} (m : M A) (k : A -> M B) w s :
  stack_blind m w s -> (forall a w', m w = Ret a w' -> stack_blind (k a) w' s) ->
  stack_blind (m ≫= k) w s.
Proof.
  unfold stack_blind, mbind, M_bind. intros -> Hk. destruct (m w) as [a w'| |]; [|done..].
  simpl. by apply Hk.
Qed.

Lemma blind_the_port p w s : stack_blind (the_port p) w s.
Proof. unfold stack_blind, the_port, deref. upd_simpl. by destruct (br_ports (br w) !! p). Qed.

Lemma blind_the_ptp p t w s : stack_blind (the_ptp p t) w s.
Proof. unfold stack_blind, the_ptp, deref. upd_simpl. by destruct (lookup_ptp (br w) p t). Qed.

Lemma blind_the_br w s : stack_blind the_br w s.
Proof. by unfold stack_blind, the_br. Qed.

Lemma blind_mod_port p f w s : stack_blind (mod_port p f) w s.
Proof.
  apply blind_bind; [apply blind_the_port|]. intros prt w' _. unfold stack_blind, mod_br. upd_simpl.
  by destruct w'.
Qed.

Lemma blind_emit e w s : stack_blind (emit e) w s.
Proof. unfold stack_blind, emit. upd_simpl. by destruct w. Qed.

(** ** The octets written *)

Definition is_tcn (b : bpdu_t) : bool :=
  ((protocolVersion b =? protoSTP) && (bpduType b =? bpduTypeTCN)) || test_bit (flags b) offsetTc.

Lemma tx_blind p b b' size w s :
  is_tcn b = is_tcn b' ->
  take (Z.to_nat size) (encode_bpdu b) = take (Z.to_nat size) (encode_bpdu b') ->
  MSTP_OUT_tx_bpdu p b (size) (w <| stack_bpdu := s |>) = on_stack s (MSTP_OUT_tx_bpdu p b' size w).
Proof.
  intros Ht He. transitivity (on_stack s (MSTP_OUT_tx_bpdu p b size w)).
  - apply blind_bind; [apply blind_mod_port|]. intros u w1 _.
    apply blind_bind; [destruct (_ || _); [apply blind_mod_port|done]|]. intros u2 w2 _.
    apply blind_bind; [apply blind_the_port|]. intros prt w3 _. apply blind_emit.
  - f_equal. unfold MSTP_OUT_tx_bpdu, tx_frame. fold (is_tcn b) (is_tcn b'). by rewrite Ht, He.
Qed.

Lemma take_front {A} n (l l1 l2 : list A) : length l = n -> take n (l ++ l1) = take n (l ++ l2).
Proof. intros Hl. by rewrite !take_app_length'. Qed.

Definition head_octets (b : bpdu_t) : list Z :=
  be_bytes 2 (protocolIdentifier b) ++ be_bytes 1 (protocolVersion b) ++ be_bytes 1 (bpduType b).
Definition config_octets (b : bpdu_t) : list Z :=
  head_octets b ++ be_bytes 1 (flags b) ++ be_bytes 8 (cistRootID b)
  ++ be_bytes 4 (cistExtRootPathCost b) ++ be_bytes 8 (cistRRootID b) ++ be_bytes 2 (cistPortID b)
  ++ enc_pair (MessageAge b) ++ enc_pair (MaxAge b) ++ enc_pair (HelloTime b)
  ++ enc_pair (ForwardDelay b).

Lemma encode_head b : exists l, encode_bpdu b = head_octets b ++ l.
Proof. unfold encode_bpdu, head_octets. eexists. rewrite <-!app_assoc. reflexivity. Qed.

Lemma encode_config b : exists l, encode_bpdu b = config_octets b ++ be_bytes 1 (version1_len b) ++ l.
Proof. unfold encode_bpdu, config_octets, head_octets. eexists. rewrite <-!app_assoc. reflexivity. Qed.

Lemma length_head_octets b : length (head_octets b) = 4%nat.
Proof. unfold head_octets. by rewrite !length_app, !length_be_bytes. Qed.
Lemma length_config_octets b : length (config_octets b) = 35%nat.
Proof.
  unfold config_octets, enc_pair. by rewrite !length_app, length_head_octets, !length_be_bytes.
Qed.

Lemma tcn_octets b b' :
  take (Z.to_nat TCN_BPDU_SIZE) (encode_bpdu (tcn_bpdu b))
  = take (Z.to_nat TCN_BPDU_SIZE) (encode_bpdu (tcn_bpdu b')).
Proof.
  destruct (encode_head (tcn_bpdu b)) as [l ->]. destruct (encode_head (tcn_bpdu b')) as [l' ->].
  replace (head_octets (tcn_bpdu b)) with (head_octets (tcn_bpdu b')).
  - apply take_front, length_head_octets.
  - unfold head_octets, tcn_bpdu. by upd_simpl.
Qed.

Lemma config_bpdu_octets b b' ack cist :
  take (Z.to_nat CONFIG_BPDU_SIZE) (encode_bpdu (config_bpdu b ack cist))
  = take (Z.to_nat CONFIG_BPDU_SIZE) (encode_bpdu (config_bpdu b' ack cist)).
Proof.
  destruct (encode_config (config_bpdu b ack cist)) as [l ->].
  destruct (encode_config (config_bpdu b' ack cist)) as [l' ->].
  replace (config_octets (config_bpdu b ack cist)) with (config_octets (config_bpdu b' ack cist)).
  - apply take_front, length_config_octets.
  - unfold config_octets, head_octets, config_bpdu. by upd_simpl.
Qed.

Lemma rst_bpdu_octets b b' cist :
  let rst b := (rst_bpdu b cist) <| protocolVersion := protoRSTP |> in
  take (Z.to_nat RST_BPDU_SIZE) (encode_bpdu (rst b))
  = take (Z.to_nat RST_BPDU_SIZE) (encode_bpdu (rst b')).
Proof.
  cbv zeta. destruct (encode_config ((rst_bpdu b cist) <| protocolVersion := protoRSTP |>)) as [l ->].
  destruct (encode_config ((rst_bpdu b' cist) <| protocolVersion := protoRSTP |>)) as [l' ->].
  rewrite !app_assoc.
  replace (config_octets ((rst_bpdu b cist) <| protocolVersion := protoRSTP |>))
    with (config_octets ((rst_bpdu b' cist) <| protocolVersion := protoRSTP |>)).
  - unfold rst_bpdu at 2 4. upd_simpl. apply take_front.
    by rewrite length_app, length_config_octets, length_be_bytes.
  - unfold config_octets, head_octets, rst_bpdu. by upd_simpl.
Qed.

Lemma mst_bpdu_octets b b' cfgid cist mstis :
  mcid_sized cfgid ->
  wire (mst_bpdu b cfgid cist mstis) (length mstis) = wire (mst_bpdu b' cfgid cist mstis) (length mstis).
Proof.
  intros Hc.
  assert (forall b, mstConfiguration (mst_bpdu b cfgid cist mstis)
    = map msti_message mstis ++ drop (length mstis) (mstConfiguration b)) as Hm
    by (intros; unfold mst_bpdu; by upd_simpl).
  assert (forall b, mcid_sized (mstConfigurationIdentifier (mst_bpdu b cfgid cist mstis))) as Hs
    by (intros; unfold mst_bpdu; by upd_simpl).
  rewrite !wire_eq by (done || rewrite Hm, length_app, length_map; lia).
  rewrite !Hm, !take_app_length' by (by rewrite length_map). f_equal.
Qed.

(** ** The properties *)

(** C39: what txConfig, txMstp and txTcn do (the frame they send, the counters
    they change, whether they fail) is the same whatever the uninitialised
    local variable they build the message in holds, so no octet of the stack
    of the daemon leaks to the network. *)
Theorem tx_does_not_leak p w s :
  mcid_sized (MstConfigId (br w)) ->
  txConfig p (w <| stack_bpdu := s |>) = on_stack s (txConfig p w)
  /\ txTcn p (w <| stack_bpdu := s |>) = on_stack s (txTcn p w)
  /\ txMstp p (w <| stack_bpdu := s |>) = on_stack s (txMstp p w).
Proof.
  intros Hc. split; [|split].
  - apply blind_bind; [apply blind_the_port|]. intros prt w1 _.
    apply blind_bind; [apply blind_the_ptp|]. intros cist w2 _.
    destruct (tx_suppressed prt cist); [done|]. apply tx_blind; [|apply config_bpdu_octets].
    unfold is_tcn, config_bpdu. by upd_simpl.
  - apply blind_bind; [apply blind_the_port|]. intros prt w1 _.
    apply blind_bind; [apply blind_the_ptp|]. intros cist w2 _.
    destruct (tx_suppressed prt cist); [done|]. apply tx_blind; [|apply tcn_octets].
    unfold is_tcn, tcn_bpdu. by upd_simpl.
  - apply blind_bind; [apply blind_the_br|]. intros b w1 [= <- <-].
    apply blind_bind; [apply blind_the_port|]. intros prt w1 _.
    apply blind_bind; [apply blind_the_ptp|]. intros cist w2 _.
    destruct (tx_suppressed prt cist); [done|].
    destruct (ForceProtocolVersion (br w) <? protoMSTP) eqn:Hv.
    + unfold stack_blind. unfold mbind, M_bind. cbn.
      apply tx_blind; [|apply rst_bpdu_octets]. unfold is_tcn, rst_bpdu. by upd_simpl.
    + unfold stack_blind. unfold mbind, M_bind. cbn.
      destruct (MAX_STANDARD_MSTIS <? _); [done|].
      apply tx_blind; [|by apply mst_bpdu_octets]. unfold is_tcn, mst_bpdu, rst_bpdu. by upd_simpl.
Qed.

Lemma tx_does_not_leak_witness :
  txMstp 0 (joined <| stack_bpdu := neighbour_bpdu 0 |>) = on_stack (neighbour_bpdu 0) (txMstp 0 joined).
Proof.
  apply (tx_does_not_leak 0 joined (neighbour_bpdu 0)). split; vm_compute; reflexivity.
Defined.
