(* ===== verification/Daemon.v ===== *)
(** * The whole daemon

    The life of mstpd: it starts without bridges, and then any sequence of
    kernel notifications, packets, seconds and commands happens to it. *)

From S2P Require Import Prelude Bytes MstpTypes MstpPriority MstpBpdu MstpMonad MstpOut MstpPort.
From S2P Require Import MstpInfo MstpRoles MstpTransitions MstpForwarding MstpRun HmacMd5.
From S2P Require Import MstpConfig MstpEvents MstpAdmin MstpVlan MstpInv MstpInvariant MstpLoops.
From S2P Require Import MstpEventsOk MstpTreesOk MstpSafety MstpDryRun MstpDiverge MstpFrame.
From S2P Require Import Bridges BridgesOk MstpExchange MstpScenario.

(** ** Events *)
Inductive devent :=
  | E_notify (br_index if_idx : Z) (newlink : bool) (flags : Z)
  | E_packet (if_idx : Z) (data : list Z) (len : Z)
  | E_second
  | E_fini
  | E_add_bridges (brs : list (Z * list Z))
  | E_del_bridges (brs : list Z)
  | E_set_debug_level (level : Z)
  | E_get_cist_bridge_status (b : Z)
  | E_get_msti_bridge_status (b mstid : Z)
  | E_set_cist_bridge_config (b : Z) (cfg : CIST_BridgeConfig)
  | E_set_msti_bridge_config (b mstid pri : Z)
  | E_get_cist_port_status (b p : Z)
  | E_get_msti_port_status (b p mstid : Z)
  | E_set_cist_port_config (b p : Z) (cfg : CIST_PortConfig)
  | E_set_msti_port_config (b p mstid : Z) (cfg : MSTI_PortConfig)
  | E_port_mcheck (b p : Z)
  | E_get_mstilist (b : Z)
  | E_create_msti (b mstid : Z)
  | E_delete_msti (b mstid : Z)
  | E_get_mstconfid (b : Z)
  | E_set_mstconfid (b revision : Z) (name : list Z)
  | E_get_vids2fids (b : Z)
  | E_get_fids2mstids (b : Z)
  | E_set_vid2fid (b vid fid : Z)
  | E_set_fid2mstid (b fid mstid : Z)
  | E_set_vids2fids (b : Z) (l : list Z)
  | E_set_fids2mstids (b : Z) (l : list Z)
  | E_bridge_is_added (b : Z)
  | E_bridge_port_is_added (b p : Z).

Definition ignore {A} (m : D A) : D unit := m ≫= fun _ => mret tt.

Definition handle (e : devent) : D unit :=
  match e with
  | E_notify b i newlink flags => ignore (bridge_notify b i newlink flags)
  | E_packet i data len => bridge_bpdu_rcv i data len
  | E_second => bridge_one_second
  | E_fini => ignore bridge_track_fini
  | E_add_bridges brs => ignore (CTL_add_bridges brs)
  | E_del_bridges brs => ignore (CTL_del_bridges brs)
  | E_set_debug_level level => ignore (CTL_set_debug_level level)
  | E_get_cist_bridge_status b => ignore (CTL_get_cist_bridge_status b)
  | E_get_msti_bridge_status b mstid => ignore (CTL_get_msti_bridge_status b mstid)
  | E_set_cist_bridge_config b cfg => ignore (CTL_set_cist_bridge_config b cfg)
  | E_set_msti_bridge_config b mstid pri => ignore (CTL_set_msti_bridge_config b mstid pri)
  | E_get_cist_port_status b p => ignore (CTL_get_cist_port_status b p)
  | E_get_msti_port_status b p mstid => ignore (CTL_get_msti_port_status b p mstid)
  | E_set_cist_port_config b p cfg => ignore (CTL_set_cist_port_config b p cfg)
  | E_set_msti_port_config b p mstid cfg => ignore (CTL_set_msti_port_config b p mstid cfg)
  | E_port_mcheck b p => ignore (CTL_port_mcheck b p)
  | E_get_mstilist b => ignore (CTL_get_mstilist b)
  | E_create_msti b mstid => ignore (CTL_create_msti b mstid)
  | E_delete_msti b mstid => ignore (CTL_delete_msti b mstid)
  | E_get_mstconfid b => ignore (CTL_get_mstconfid b)
  | E_set_mstconfid b revision name => ignore (CTL_set_mstconfid b revision name)
  | E_get_vids2fids b => ignore (CTL_get_vids2fids b)
  | E_get_fids2mstids b => ignore (CTL_get_fids2mstids b)
  | E_set_vid2fid b vid fid => ignore (CTL_set_vid2fid b vid fid)
  | E_set_fid2mstid b fid mstid => ignore (CTL_set_fid2mstid b fid mstid)
  | E_set_vids2fids b l => ignore (CTL_set_vids2fids b l)
  | E_set_fids2mstids b l => ignore (CTL_set_fids2mstids b l)
  | E_bridge_is_added b => ignore (CTL_bridge_is_added b)
  | E_bridge_port_is_added b p => ignore (CTL_bridge_port_is_added b p)
  end.

(** The arguments are of the C types: unsigned numbers, arrays of the
    declared sizes. *)
Definition well_formed (e : devent) : Prop :=
  match e with
  | E_set_vid2fid _ _ fid => 0 <= fid
  | E_set_fid2mstid _ fid _ => 0 <= fid
  | E_set_vids2fids _ l => (Z.to_nat (MAX_VID + 1) <= length l)%nat /\ Forall (fun fid => 0 <= fid) l
  | E_set_fids2mstids _ l => (Z.to_nat (MAX_FID + 1) <= length l)%nat
  | _ => True
  end.

Inductive running : daemon -> Prop :=
  | run_start d : bridges d = [] -> running d
  | run_event d e d' : running d -> well_formed e -> handle e d = Done tt d' -> running d'.

Lemma sound_ignore {A} (m : D A) : sound m -> sound (ignore m).
Proof. intros Hm. apply sound_bind; [done|]. intros a. apply sound_ret. Qed.

(** A command that is one call about the whole bridge. *)
Lemma sound_ctl_call {A B} br_index (err : A) c (m : M B) h :
  is_call c m -> keeps_ports c -> (forall w, valid_call w c) ->
  (forall i, around m i (h i)) -> sound (ctl_bridge br_index err h).
Proof.
  intros Hc Hk Hv Hh. apply sound_ctl_bridge. intros i s Hi d Hd. apply Hh; [done|].
  eapply (steady_call s c); [done..|by intros|exact Hd].
Qed.

Lemma sound_ctl_port_call {A B} br_index port_index (err : A) (c : nat -> call) (m : nat -> M B) h :
  (forall p, is_call (c p) (m p) /\ keeps_ports (c p) /\ forall w, port_exists w p -> valid_call w (c p)) ->
  (forall i p, around (m p) i (h i p)) -> sound (ctl_port br_index port_index err h).
Proof.
  intros Hc Hh. apply sound_ctl_port. intros i p s Hp d Hd. apply Hh; [by eapply slot_bridge|].
  destruct (Hc p) as (H1 & H2 & H3).
  eapply (steady_call s (c p)); [done|done|by eapply slot_bridge| |exact Hd].
  intros b d' Hd' Hb. apply H3. by eapply valid_port.
Qed.

Lemma sound_ctl_read {A} br_index (err : A) (f : bridge_t -> A) :
  sound (ctl_bridge br_index err (fun i => b ← the_bridge i; mret (f b))).
Proof.
  apply sound_ctl_bridge. intros i s Hi. apply steady_the_bridge; [done|]. intros b. apply steady_ret.
Qed.

Lemma sound_driver_call {A} br_index c (m : M bool) (f : bridge_t -> bool) (err : A) (g : bool -> A) :
  is_call c m -> keeps_ports c -> (forall w, valid_call w c) ->
  sound (ctl_bridge br_index err (fun i => b ← the_bridge i;
    if negb (f b) then mret err else g <$> on_bridge i m)).
Proof.
  intros Hc Hk Hv. apply sound_ctl_bridge. intros i s Hi. apply steady_the_bridge; [done|]. intros b.
  destruct (negb (f b)); [apply steady_ret|]. intros d Hd. apply holds_fmap.
  eapply (steady_call s c); [done..|by intros|exact Hd].
Qed.

Ltac is_call_tac := first [by apply is_call_discard | by apply is_call_unit].
Ltac call_tac :=
  intros; split; [is_call_tac|split; [done|by intros]].
Ltac around_tac :=
  intros; first
  [ apply around_same | apply around_fmap
  | apply around_bind; intros; first [apply steady_ret | apply steady_the_bridge; [done|intros; apply steady_ret]] ].

Lemma sound_handle e : well_formed e -> sound (handle e).
Proof.
  intros Hwf. destruct e; simpl in Hwf; unfold handle; try apply sound_ignore.
  - apply sound_bridge_notify.
  - apply sound_bpdu_rcv.
  - apply sound_one_second.
  - apply sound_fini.
  - apply sound_add_bridges.
  - apply sound_del_bridges.
  - by intros d HB.
  - eapply (sound_ctl_call _ _ C_get_cist_bridge_status); [is_call_tac|done|done|around_tac].
  - eapply (sound_ctl_tree _ _ _ C_get_msti_bridge_status MSTP_IN_get_msti_bridge_status);
      [call_tac|around_tac].
  - eapply (sound_ctl_call _ _ (C_set_cist_bridge_config cfg)); [is_call_tac|done|done|around_tac].
  - eapply (sound_ctl_tree _ _ _ (fun t => C_set_msti_bridge_config t pri)
      (fun t => MSTP_IN_set_msti_bridge_config t pri)); [call_tac|around_tac].
  - eapply (sound_ctl_port_call _ _ _ C_get_cist_port_status MSTP_IN_get_cist_port_status);
      [call_tac|around_tac].
  - eapply (sound_ctl_ptp _ _ _ _ C_get_msti_port_status MSTP_IN_get_msti_port_status);
      [call_tac|around_tac].
  - eapply (sound_ctl_port_call _ _ _ (fun p => C_set_cist_port_config p cfg)
      (fun p => MSTP_IN_set_cist_port_config p cfg)); [call_tac|around_tac].
  - eapply (sound_ctl_ptp _ _ _ _ (fun p t => C_set_msti_port_config p t cfg)
      (fun p t => MSTP_IN_set_msti_port_config p t cfg)); [call_tac|around_tac].
  - eapply (sound_ctl_port_call _ _ _ C_port_mcheck MSTP_IN_port_mcheck); [call_tac|around_tac].
  - eapply (sound_ctl_call _ _ C_get_mstilist); [is_call_tac|done|done|around_tac].
  - eapply (sound_driver_call _ (C_create_msti mstid)); [is_call_tac|done|done].
  - eapply (sound_driver_call _ (C_delete_msti mstid)); [is_call_tac|done|done].
  - apply (sound_ctl_read b None (fun b => Some (MstConfigId b))).
  - eapply (sound_ctl_call _ _ (C_set_mst_config_id revision name)); [is_call_tac|done|done|around_tac].
  - apply (sound_ctl_read b None (fun b => Some (vid2fid b))).
  - apply (sound_ctl_read b None (fun b => Some (fid2mstid b))).
  - eapply (sound_ctl_call _ _ (C_set_vid2fid vid fid)); [is_call_tac|done|done|around_tac].
  - eapply (sound_ctl_call _ _ (C_set_fid2mstid fid mstid)); [is_call_tac|done|done|around_tac].
  - eapply (sound_ctl_call _ _ (C_set_all_vids2fids l)); [is_call_tac|done|done|around_tac].
  - eapply (sound_ctl_call _ _ (C_set_all_fids2mstids l)); [is_call_tac|done|done|around_tac].
  - apply sound_find_br; intros; by apply holds_ret.
  - apply sound_find_br; [intros; by apply holds_ret|]. intros i d x HB Hi.
    eapply steady_sound; [|by apply at_own_shape|done]. apply steady_find_if; [by eexists|apply steady_ret|].
    intros q _. apply steady_ret.
Qed.

Lemma running_BInv d : running d -> BInv (bridges d).
Proof.
  induction 1 as [d Hd|d e d' _ IH Hwf Heq].
  - rewrite Hd. constructor; [constructor|]. split; apply NoDup_nil_2.
  - pose proof (sound_handle e Hwf d IH) as H. unfold holds in H. by rewrite Heq in H.
Qed.

(** ** Safety and composition *)

(** C2: whatever the kernel answers and whatever notifications, packets,
    seconds and commands arrive, mstpd never uses an invalid pointer: the
    handlers of bridge_track.c call the protocol engine only in ways that it
    can bear. *)
Theorem daemon_never_crashes d e : running d -> well_formed e -> handle e d <> Crash.
Proof.
  intros Hd%running_BInv He Heq. pose proof (sound_handle e He d Hd) as H.
  unfold holds in H. by rewrite Heq in H.
Qed.

(** C3: every bridge of the running daemon is in a state that the protocol
    engine reaches by its own calls, so all that holds of reachable bridges
    holds of each bridge of the daemon, however their events interleave. *)
Theorem daemon_refines_engine d i b :
  running d -> bridges d !! i = Some b -> reachable (world_of b d).
Proof.
  intros [Hl _]%running_BInv Hb. apply live_world. by eapply Forall_lookup_1.
Qed.

Lemma unique_owner s i j x y p q if_idx :
  unique s -> s !! i = Some x -> s !! j = Some y ->
  x.2 !! p = Some if_idx -> y.2 !! q = Some if_idx -> i = j /\ p = q.
Proof.
  intros Hu Hi Hj Hp Hq. pose proof (not_owned_drop s i x p if_idx Hu Hi Hp) as Hno.
  destruct (decide (i = j)) as [<-|Hne].
  - split; [done|]. simplify_eq. destruct (decide (p = q)) as [|Hpq]; [done|]. exfalso. apply Hno.
    apply owned_lookup. exists i, (drop_if p x). rewrite list_lookup_alter_eq, Hi. split; [done|].
    simpl. apply list_elem_of_lookup. destruct (decide (q < p)%nat).
    + exists q. by rewrite list_lookup_delete_lt.
    + exists (q - 1)%nat. rewrite list_lookup_delete_ge by lia. by replace (S (q - 1)) with q by lia.
  - exfalso. apply Hno, owned_lookup. exists j, y. rewrite list_lookup_alter_ne by done.
    split; [done|]. by eapply list_elem_of_lookup_2.
Qed.

Lemma shape_of d i b : bridges d !! i = Some b ->
  shape (bridges d) !! i = Some (br_if_index (br_sysdeps b), port_ifs b).
Proof. intros Hb. by rewrite shape_lookup, Hb. Qed.

Lemma port_ifs_of b p prt : br_ports b !! p = Some prt -> port_ifs b !! p = Some (if_index (prt_sysdeps prt)).
Proof. intros Hp. unfold port_ifs. by rewrite list_lookup_fmap, Hp. Qed.

(** C4: the daemon has at most one bridge for each bridge interface, and every
    interface is a port of at most one bridge, once: notifications that were
    missed never leave an interface in two places. *)
Theorem one_owner d i j b c p q prt qrt :
  running d -> bridges d !! i = Some b -> bridges d !! j = Some c ->
  (br_if_index (br_sysdeps b) = br_if_index (br_sysdeps c) -> i = j)
  /\ (br_ports b !! p = Some prt -> br_ports c !! q = Some qrt ->
      if_index (prt_sysdeps prt) = if_index (prt_sysdeps qrt) -> i = j /\ p = q).
Proof.
  intros [_ Hu]%running_BInv Hb Hc. apply shape_of in Hb, Hc. split.
  - intros Heq. destruct Hu as [Hnd _]. eapply NoDup_lookup; [exact Hnd|..];
      rewrite list_lookup_fmap; [by rewrite Hb|by rewrite Hc; simpl; rewrite Heq].
  - intros Hp%port_ifs_of Hq%port_ifs_of Heq. rewrite <-Heq in Hq.
    by eapply (unique_owner _ i j _ _ p q _ Hu Hb Hc).
Qed.

(** ** Packets *)

Lemma bind_done {A B} (m : D A) (k : A -> D B) d a d' : m d = Done a d' -> (m ≫= k) d = k a d'.
Proof. intros Hm. unfold mbind, D_bind. by rewrite Hm. Qed.

(** A packet that carries a BPDU: the group address of bridges, any source, a
    length of 802.3 that fits the packet, the LLC header of the spanning tree
    protocol (both access points 0x42, an unnumbered frame), and a message of
    [size] octets at the start of [rest]. *)
Definition stp_packet (data rest : list Z) (size : Z) : Prop :=
  exists src hi lo control,
    data = [0x01; 0x80; 0xC2; 0x00; 0x00; 0x00] ++ src ++ [hi; lo; 0x42; 0x42; control] ++ rest
    /\ length src = 6%nat /\ hi * 256 + lo = size + 3 /\ control mod 4 = 3
    /\ 0 <= size <= 1497 /\ size <= Z.of_nat (length rest) /\ rest <> [].

Lemma land_3 c : (Z.land c 3 =? 3) = true <-> c mod 4 = 3.
Proof.
  change 3 with (Z.ones 2) at 1. rewrite Z.land_ones by lia. apply Z.eqb_eq.
Qed.

Lemma nth_octets (l : list Z) n k : (n + k <= length l)%nat ->
  take k (drop n l) = map (fun i => nth i l 0) (seq n k).
Proof.
  revert n. induction k as [|k IH]; intros n Hl; [done|]. simpl.
  destruct (lookup_lt_is_Some_2 l n) as [x Hx]; [lia|].
  rewrite (drop_S _ _ _ Hx). simpl. rewrite IH by lia. f_equal.
  symmetry. by apply nth_lookup_Some.
Qed.

(** The checks of the code are those of an STP packet. *)
Lemma llc_payload_spec data size :
  Z.of_nat (length data) < 2 ^ 31 ->
  llc_payload_length data (Z.of_nat (length data)) = Some size
  <-> stp_packet data (drop sizeof_llc_header data) size.
Proof.
  intros Hlen. unfold llc_payload_length, stp_packet, u32, LLC_PDU_LEN_U, ETH_HLEN, ETH_DATA_LEN,
    LLC_PDU_TYPE_U, LLC_SAP_BSPAN, sizeof_llc_header, octet.
  assert (len8023 data = nth 12 data 0 * 256 + nth 13 data 0) as ->.
  { unfold len8023, octet. rewrite !be_val_cons. cbn. lia. }
  split.
  - intros Heq. repeat (case_match; [done|]). injection Heq as <-. bool_hyps.
    rewrite Z.mod_small in * by lia. rewrite Z.mod_small in * by lia.
    exists (take 6 (drop 6 data)), (nth 12 data 0), (nth 13 data 0), (nth 16 data 0).
    split.
    { change [0x01; 0x80; 0xC2; 0x00; 0x00; 0x00] with (be_bytes 6 bridge_group_address).
      assert (take 5 (drop 12 data) = [nth 12 data 0; nth 13 data 0; 0x42; 0x42; nth 16 data 0]) as <-.
      { rewrite nth_octets by lia. cbn [map seq]. congruence. }
      match goal with Hg : take 6 data = _ |- _ => rewrite <-Hg end.
      rewrite <-(take_drop 6 data) at 1. f_equal.
      rewrite <-(take_drop 6 (drop 6 data)) at 1. f_equal.
      rewrite drop_drop. rewrite <-(take_drop 5 (drop (6 + 6) data)) at 1. f_equal. by rewrite drop_drop. }
    split; [rewrite length_take, length_drop; lia|]. split; [lia|].
    split; [by apply land_3, Z.eqb_eq|]. rewrite length_drop. split; [lia|]. split; [lia|].
    intros Hnil%(f_equal length). rewrite length_drop in Hnil. simpl in Hnil. lia.
  - intros (src & hi & lo & control & Hdata & Hsrc & Hl & Hc & Hs & Hrest & Hne).
    set (rest := drop 17 data) in *. clearbody rest. rewrite Hdata in *. clear Hdata.
    destruct src as [|s0 [|s1 [|s2 [|s3 [|s4 [|s5 [|? ?]]]]]]]; try discriminate Hsrc.
    cbn [app nth take length] in *. rewrite Z.mod_small by lia. rewrite Z.mod_small by lia.
    assert (rest <> [] -> (0 < length rest)%nat) as Hpos by (destruct rest; [done|simpl; lia]).
    specialize (Hpos Hne).
    replace (Z.of_nat 17 <? _) with true by (symmetry; apply Z.ltb_lt; lia).
    cbn [negb]. rewrite bool_decide_true by reflexivity. cbn [negb].
    rewrite Hl. replace (size + 3 <=? 1500) with true by (symmetry; apply Z.leb_le; lia).
    replace (size + 3 <=? _) with true by (symmetry; apply Z.leb_le; lia).
    replace (3 <=? size + 3) with true by (symmetry; apply Z.leb_le; lia).
    rewrite (proj2 (land_3 control) Hc). cbn. f_equal. lia.
Qed.

(** The packet belongs to a port that is up. *)
Definition for_port (d : daemon) (if_idx : Z) (i p : nat) : Prop :=
  exists b prt, bridges d !! i = Some b /\ br_ports b !! p = Some prt
    /\ if_index (prt_sysdeps prt) = if_idx /\ if_up (prt_sysdeps prt) = true.

Lemma find_port_from_exists if_idx bs k b p prt n :
  bs !! k = Some b -> br_ports b !! p = Some prt -> if_index (prt_sysdeps prt) = if_idx ->
  exists j q, find_port_from n if_idx bs = Some (j, q).
Proof.
  revert k n. induction bs as [|b' bs IH]; intros k n Hb Hp Hi; [done|]. cbn [find_port_from].
  destruct (find_index (has_index if_idx) (br_ports b')) as [q|] eqn:Hq; [eauto|].
  destruct k as [|k]; [|by apply (IH k)]. injection Hb as ->. exfalso.
  pose proof (find_index_None _ _ prt Hq (list_elem_of_lookup_2 _ _ _ Hp)) as Hno. unfold has_index in Hno.
  by rewrite Hi, Z.eqb_refl in Hno.
Qed.

Lemma port_at_found d if_idx i p b prt :
  find_port_from 0 if_idx (bridges d) = Some (i, p) ->
  bridges d !! i = Some b -> br_ports b !! p = Some prt ->
  forall data len, bridge_bpdu_rcv if_idx data len d =
    (if negb (if_up (prt_sysdeps prt)) then mret tt
     else match llc_payload_length data len with
          | None => mret tt
          | Some size => on_bridge i (MSTP_IN_rx_bpdu p (drop sizeof_llc_header data) size)
          end) d.
Proof.
  intros Hf Hb Hp data len. unfold bridge_bpdu_rcv.
  rewrite (bind_done the_bridges _ d (bridges d) d) by done. rewrite Hf.
  by rewrite (bind_done _ _ d prt d) by (unfold the_if; simpl; rewrite Hb; simpl; by rewrite Hp).
Qed.

(** An interface belongs to one port, so the first one found is that port. *)
Lemma port_found d if_idx i p :
  running d -> for_port d if_idx i p ->
  forall data len, bridge_bpdu_rcv if_idx data len d =
    match llc_payload_length data len with
    | None => Done tt d
    | Some size => on_bridge i (MSTP_IN_rx_bpdu p (drop sizeof_llc_header data) size) d
    end.
Proof.
  intros [_ Hu]%running_BInv (b & prt & Hb & Hp & Hi & Hup) data len.
  destruct (find_port_from_exists if_idx _ i b p prt 0 Hb Hp Hi) as (j & q & Hf).
  pose proof Hf as (k & c & qrt & -> & Hc & Hq & Hj)%find_port_from_spec.
  destruct (unique_owner _ i k _ _ p q if_idx Hu (shape_of _ _ _ Hb) (shape_of _ _ _ Hc)) as [<- <-].
  { rewrite <-Hi. by apply port_ifs_of. } { rewrite <-Hj. by apply port_ifs_of. }
  rewrite (port_at_found d if_idx i p b prt Hf Hb Hp), Hup. cbn [negb]. by case_match.
Qed.

Lemma bridge_bpdu_rcv_cases if_idx data len d :
  bridge_bpdu_rcv if_idx data len d = Done tt d
  \/ exists i p size, for_port d if_idx i p /\ llc_payload_length data len = Some size
     /\ bridge_bpdu_rcv if_idx data len d
        = on_bridge i (MSTP_IN_rx_bpdu p (drop sizeof_llc_header data) size) d.
Proof.
  destruct (find_port_from 0 if_idx (bridges d)) as [[i p]|] eqn:Hf.
  - pose proof Hf as (k & b & prt & -> & Hb & Hp & Hi)%find_port_from_spec.
    rewrite (port_at_found d if_idx _ p b prt Hf Hb Hp).
    destruct (if_up (prt_sysdeps prt)) eqn:Hup; cbn [negb]; [|by left].
    destruct (llc_payload_length data len) as [size|] eqn:Hs; [|by left].
    right. exists k, p, size. split; [by exists b, prt|]. done.
  - left. unfold bridge_bpdu_rcv. rewrite (bind_done the_bridges _ d (bridges d) d) by done.
    by rewrite Hf.
Qed.

(** The octets of the receive buffer behind the packet are not looked at. *)
Lemma llc_payload_left data left :
  llc_payload_length (data ++ left) (Z.of_nat (length data)) = llc_payload_length data (Z.of_nat (length data))
  \/ 2 ^ 31 <= Z.of_nat (length data).
Proof.
  destruct (Z.le_gt_cases (2 ^ 31) (Z.of_nat (length data))) as [Hl|Hl]; [by right|left].
  unfold llc_payload_length, sizeof_llc_header, u32. rewrite (Z.mod_small (Z.of_nat (length data))) by lia.
  destruct (Z.ltb_spec (Z.of_nat 17) (Z.of_nat (length data))) as [Hlt|Hlt]; cbn [negb]; [|done].
  assert (forall i, (i < 17)%nat -> octet (data ++ left) i = octet data i) as Ho
    by (intros i Hi; unfold octet; apply app_nth1; lia).
  unfold len8023. rewrite !Ho by lia. by rewrite take_app_le by lia.
Qed.

(** C7: a packet reaches the engine exactly when it arrives on an interface
    that is up and a port of a bridge, and is an STP packet: its destination
    is the group address of bridges, its length field lies within the packet
    and the limits of 802.3, and its LLC header has the access points of the
    spanning tree protocol and an unnumbered control field. Then the engine
    gets the message, which lies within the packet, for that port; every other
    packet changes nothing. What an earlier packet has left in the buffer
    behind this one does not matter for it. *)
Theorem packet_filter if_idx data left d :
  running d -> Z.of_nat (length data) < 2 ^ 31 ->
  (forall i p rest size, for_port d if_idx i p -> stp_packet data rest size ->
     bridge_bpdu_rcv if_idx (data ++ left) (Z.of_nat (length data)) d
     = on_bridge i (MSTP_IN_rx_bpdu p (rest ++ left) size) d)
  /\ ((forall i p rest size, for_port d if_idx i p -> ~ stp_packet data rest size) ->
      bridge_bpdu_rcv if_idx (data ++ left) (Z.of_nat (length data)) d = Done tt d).
Proof.
  intros Hrun Hlen. assert (llc_payload_length (data ++ left) (Z.of_nat (length data))
    = llc_payload_length data (Z.of_nat (length data))) as Hleft by (destruct (llc_payload_left data left); [done|lia]).
  split.
  - intros i p rest size Hport Hpkt. rewrite (port_found d if_idx i p Hrun Hport), Hleft.
    assert (rest ++ left = drop sizeof_llc_header (data ++ left)) as ->.
    { destruct Hpkt as (src & hi & lo & c & -> & Hsrc & _).
      destruct src as [|? [|? [|? [|? [|? [|? [|? ?]]]]]]]; try discriminate Hsrc. reflexivity. }
    assert (stp_packet data (drop sizeof_llc_header data) size) as Hpkt'.
    { destruct Hpkt as (src & hi & lo & c & -> & Hsrc & H).
      destruct src as [|? [|? [|? [|? [|? [|? [|? ?]]]]]]]; try discriminate Hsrc.
      by eexists _, hi, lo, c. }
    by rewrite (proj2 (llc_payload_spec data size Hlen) Hpkt').
  - intros Hno. destruct (bridge_bpdu_rcv_cases if_idx (data ++ left) (Z.of_nat (length data)) d)
      as [Heq|(i & p & size & Hport & Hs & _)]; [done|].
    exfalso. apply (Hno i p (drop sizeof_llc_header data) size Hport). rewrite Hleft in Hs. by apply llc_payload_spec.
Qed.

(** What MSTP_OUT_tx_bpdu sends is accepted by the bridge_bpdu_rcv of
    another bridge, with exactly the octets of the message. *)
Theorem frame_accepted src_mac b size :
  0 < size <= 1497 -> (Z.to_nat size <= length (encode_bpdu b))%nat ->
  let frame := tx_frame src_mac b size in
  llc_payload_length frame (Z.of_nat (length frame)) = Some size
  /\ drop sizeof_llc_header frame = take (Z.to_nat size) (encode_bpdu b).
Proof.
  intros Hsize Hlen frame.
  assert (length frame = 17 + Z.to_nat size)%nat as Hl.
  { unfold frame, tx_frame, llc_header. rewrite !length_app, !length_be_bytes, length_take. lia. }
  assert (0 <= size + 3 < 65536) as Hu by lia.
  assert (len8023 frame = size + 3) as Hl8.
  { transitivity (be_val (be_bytes 2 (u16 (size + LLC_PDU_LEN_U)))).
    - reflexivity.
    - rewrite be_val_be_bytes. unfold u16, LLC_PDU_LEN_U. change (256 ^ Z.of_nat 2) with 65536.
      change (2 ^ 16) with 65536. rewrite Z.mod_mod by lia. by apply Z.mod_small. }
  split; [|done]. unfold llc_payload_length. rewrite Hl, Hl8.
  replace (bool_decide (take 6 frame = be_bytes 6 bridge_group_address)) with true
    by (symmetry; by apply bool_decide_eq_true).
  replace ((octet frame 14 =? LLC_SAP_BSPAN) && (octet frame 15 =? LLC_SAP_BSPAN)
     && (Z.land (octet frame 16) 3 =? LLC_PDU_TYPE_U)) with true by done.
  unfold u32, ETH_HLEN, ETH_DATA_LEN, LLC_PDU_LEN_U, sizeof_llc_header.
  rewrite !Z.mod_small by lia.
  replace (Z.of_nat 17 <? Z.of_nat (17 + Z.to_nat size)) with true by (symmetry; apply Z.ltb_lt; lia).
  replace (size + 3 <=? 1500) with true by (symmetry; apply Z.leb_le; lia).
  replace (size + 3 <=? Z.of_nat (17 + Z.to_nat size) - 14) with true by (symmetry; apply Z.leb_le; lia).
  replace (3 <=? size + 3) with true by (symmetry; apply Z.leb_le; lia).
  simpl. f_equal. lia.
Qed.

(** ** Unknown objects *)

Definition no_bridge (d : daemon) (br_index : Z) : Prop :=
  find_index (fun b => br_if_index (br_sysdeps b) =? br_index) (bridges d) = None.
Definition no_port (d : daemon) (br_index port_index : Z) : Prop :=
  forall b, b ∈ bridges d -> br_if_index (br_sysdeps b) = br_index ->
  forall prt, prt ∈ br_ports b -> if_index (prt_sysdeps prt) <> port_index.

Lemma ctl_bridge_unknown {A} d br_index (err : A) k :
  no_bridge d br_index -> ctl_bridge br_index err k d = Done err d.
Proof.
  intros Hno. unfold ctl_bridge, find_br.
  rewrite (bind_done _ _ d None d); [done|]. unfold no_bridge in Hno.
  rewrite (bind_done the_bridges _ d (bridges d) d) by done. by rewrite Hno.
Qed.

Lemma find_index_none {A} f (l : list A) : (forall x, x ∈ l -> f x = false) -> find_index f l = None.
Proof.
  induction l as [|x l IH]; intros Hf; [done|]. simpl. rewrite Hf by by left.
  rewrite IH; [done|]. intros y Hy. apply Hf. by right.
Qed.

Lemma ctl_port_unknown {A} d br_index port_index (err : A) k :
  no_port d br_index port_index -> ctl_port br_index port_index err k d = Done err d.
Proof.
  intros Hno. unfold ctl_port, ctl_bridge, find_br.
  destruct (find_index (fun b => br_if_index (br_sysdeps b) =? br_index) (bridges d)) as [i|] eqn:Hf.
  2:{ exact (ctl_bridge_unknown d br_index err _ Hf). }
  apply find_index_Some in Hf as Hb. destruct Hb as (b & Hb & Heq). bool_hyps.
  rewrite (bind_done _ _ d (Some i) d)
    by (rewrite (bind_done the_bridges _ d (bridges d) d) by done; by rewrite Hf).
  rewrite (bind_done _ _ d None d); [done|]. unfold find_if.
  rewrite (bind_done _ _ d b d) by (unfold the_bridge; by rewrite Hb).
  rewrite find_index_none; [done|]. intros prt Hprt. apply Z.eqb_neq.
  eapply Hno; [by eapply list_elem_of_lookup_2|exact Heq|exact Hprt].
Qed.

(** A command for a bridge that the daemon does not have, and a command
    for an interface that is not a port of the bridge, answer -1 (a query:
    nothing) and change nothing; a notification about a slave of an unknown
    bridge answers -2 and changes nothing. *)
Theorem unknown_objects_refused d br_index port_index mstid :
  (no_bridge d br_index ->
    (forall cfg, CTL_set_cist_bridge_config br_index cfg d = Done (-1) d)
    /\ (forall pri, CTL_set_msti_bridge_config br_index mstid pri d = Done (-1) d)
    /\ CTL_create_msti br_index mstid d = Done (-1) d
    /\ CTL_delete_msti br_index mstid d = Done (-1) d
    /\ (forall revision name, CTL_set_mstconfid br_index revision name d = Done (-1) d)
    /\ (forall vid fid, CTL_set_vid2fid br_index vid fid d = Done (-1) d)
    /\ (forall fid, CTL_set_fid2mstid br_index fid mstid d = Done (-1) d)
    /\ (forall l, CTL_set_vids2fids br_index l d = Done (-1) d)
    /\ (forall l, CTL_set_fids2mstids br_index l d = Done (-1) d)
    /\ CTL_get_cist_bridge_status br_index d = Done None d
    /\ CTL_get_mstilist br_index d = Done None d
    /\ forall if_idx newlink flags, 0 <= br_index -> br_index <> if_idx ->
       bridge_notify br_index if_idx newlink flags d = Done (-2) d)
  /\ (no_port d br_index port_index ->
    (forall cfg, CTL_set_cist_port_config br_index port_index cfg d = Done (-1) d)
    /\ (forall cfg, CTL_set_msti_port_config br_index port_index mstid cfg d = Done (-1) d)
    /\ CTL_port_mcheck br_index port_index d = Done (-1) d
    /\ CTL_get_cist_port_status br_index port_index d = Done None d
    /\ CTL_get_msti_port_status br_index port_index mstid d = Done None d).
Proof.
  split.
  - intros Hno. repeat split; intros; try (by apply ctl_bridge_unknown).
    unfold bridge_notify. cbv zeta.
    replace ((0 <=? br_index) && negb (br_index =? if_idx)) with true.
    + exact (ctl_bridge_unknown d br_index (-2) _ Hno).
    + symmetry. apply andb_true_intro. split; [by apply Z.leb_le|]. by apply negb_true_iff, Z.eqb_neq.
  - intros Hno. repeat split; intros; by apply ctl_port_unknown.
Qed.

(** ** Links *)

(** What a notification has achieved when it answers 0. *)
Definition linked (br_index if_idx : Z) (newlink : bool) (d : daemon) : Prop :=
  if newlink then exists i x, shape (bridges d) !! i = Some (br_index, x) /\ if_idx ∈ x
  else if_idx ∉ owned (shape (bridges d)).

Lemma holds_answer (m : D unit) (Q : Z -> daemon -> Prop) s d :
  steady s m -> at_shape s d -> (forall d', at_shape s d' -> Q 0 d') -> holds (m ;; mret 0) Q d.
Proof.
  intros Hm Hd HQ. apply holds_bind. eapply holds_mono; [by apply Hm|].
  intros u d' Hd'. by apply holds_ret, HQ.
Qed.

Lemma notify_slave_links s i x br_index if_idx newlink running d :
  at_shape s d -> s !! i = Some (br_index, x) ->
  holds (notify_slave i if_idx newlink running) (fun r d' => r = 0 -> linked br_index if_idx newlink d') d.
Proof.
  intros Hd Hi. unfold notify_slave. apply holds_bind. eapply holds_find_if; [exact Hd|exact Hi|..].
  - intros Hno. destruct newlink; [|by apply holds_ret]. apply holds_bind.
    eapply holds_delete_from_others; [done..|]. intros b d1 s1 Hd1 Hi1 Hx1. apply holds_bind.
    eapply holds_create_if; [exact Hd1|by eexists|exact Hx1|intros; by apply holds_ret|].
    intros d2 p Hd2 Hp. eapply holds_answer; [by apply steady_set_if_up|exact Hd2|].
    intros d3 [_ Hs3] _. exists i, (x ++ [if_idx]). rewrite Hs3, list_lookup_alter_eq, Hi1.
    split; [done|]. apply elem_of_app. right. by apply list_elem_of_singleton.
  - intros p Hx Hp. destruct newlink.
    + eapply holds_answer; [by apply steady_set_if_up|exact Hd|]. intros d1 [_ Hs1] _.
      exists i, x. rewrite Hs1. split; [exact Hi|]. by eapply list_elem_of_lookup_2.
    + apply holds_bind. eapply holds_delete_if; [done..|]. intros d1 [_ Hs1]. apply holds_ret. intros _.
      unfold linked. rewrite Hs1. eapply not_owned_drop; [|exact Hi|exact Hx].
      destruct Hd as [[_ Hu] <-]. exact Hu.
Qed.

(** C6: when bridge_notify answers 0 to a notification about a slave of a
    bridge, the interface is a port of that bridge after a new link, and of
    no bridge after a deleted link. *)
Theorem links_are_tracked d br_index if_idx newlink flags d' :
  running d -> 0 <= br_index -> br_index <> if_idx ->
  bridge_notify br_index if_idx newlink flags d = Done 0 d' ->
  linked br_index if_idx newlink d'.
Proof.
  intros Hd%running_BInv Hpos Hne Heq.
  enough (holds (bridge_notify br_index if_idx newlink flags)
    (fun r d' => r = 0 -> linked br_index if_idx newlink d') d) as H
    by (unfold holds in H; rewrite Heq in H; by apply H).
  clear Heq d'. unfold bridge_notify. cbv zeta.
  replace ((0 <=? br_index) && negb (br_index =? if_idx)) with true
    by (symmetry; apply andb_true_intro; split; [by apply Z.leb_le|by apply negb_true_iff, Z.eqb_neq]).
  unfold find_br. apply holds_bind, holds_bind, holds_bridges, holds_ret.
  destruct (find_index _ (bridges d)) as [i|] eqn:Hf; [|by apply holds_ret].
  apply find_index_Some in Hf as (b & Hb & Hidx). bool_hyps.
  pose proof (shape_of d i b Hb) as Hi. rewrite Hidx in Hi.
  assert (at_shape (shape (bridges d)) d) as Hs by done. revert Hs Hi. generalize (shape (bridges d)).
  intros s Hs Hi. apply holds_bind. eapply holds_bridge; [exact Hb|]. apply holds_bind, holds_ask.
  intros br_flags d1 Heq1. assert (at_shape s d1) as Hd1 by by eapply at_shape_same.
  apply holds_bind. apply (holds_mono _ (fun _ d2 => at_shape s d2)).
  - case_match; [by eapply steady_set_br_up|by apply holds_ret].
  - intros u d2 Hd2. by eapply notify_slave_links.
Qed.

(** ** A scenario *)

(** A kernel with the bridges br0 (3) and br1 (4) and the interfaces eth1 (7)
    and eth2 (8), all up. *)
Definition small_kernel : kernel_t :=
  {| index_to_name := fun i => if i =? 3 then Some "br0" else if i =? 4 then Some "br1"
       else if i =? 7 then Some "eth1" else if i =? 8 then Some "eth2" else None;
     get_hwaddr := fun name => Some (0x001122334400 + Z.of_nat (String.length name)
       + match String.get 3 name with Some c => Z.of_nat (Ascii.nat_of_ascii c) | None => 0 end);
     get_bridge_portno := fun _ => 1;
     get_flags := fun _ => 0x41;
     ethtool_get_speed_duplex := fun _ => Some (1000, 1) |}.

Definition started : daemon := mk_daemon [] [] (fun _ => 100%nat) 0 zero_bpdu (fun _ => small_kernel) 0 0.

Definition after (e : devent) (d : daemon) : daemon :=
  match handle e d with Done _ d' => d' | _ => d end.
Definition is_done {A} (r : result A) : bool := match r with Done _ _ => true | _ => false end.

Lemma running_after e d : running d -> well_formed e -> is_done (handle e d) = true -> running (after e d).
Proof.
  intros Hd He Hdone. unfold after. destruct (handle e d) as [[] d'| |] eqn:Heq; [|done..].
  by apply (run_event d e d').
Qed.

Definition bridged : daemon := after (E_add_bridges [(3, [7])]) started.

Lemma bridged_running : running bridged.
Proof. apply running_after; [by apply run_start|exact I|vm_compute; reflexivity]. Qed.

Lemma daemon_never_crashes_witness : handle (E_create_msti 3 1) bridged <> Crash.
Proof. exact (daemon_never_crashes bridged (E_create_msti 3 1) bridged_running I). Defined.

Lemma daemon_refines_engine_witness : exists b,
  bridges bridged !! 0%nat = Some b /\ reachable (world_of b bridged).
Proof.
  destruct (bridges bridged !! 0%nat) as [b|] eqn:Hb; [|revert Hb; vm_compute; discriminate].
  exists b. split; [reflexivity|]. exact (daemon_refines_engine bridged 0 b bridged_running Hb).
Defined.

(** The second bridge takes an interface of the first one. *)
Definition moved : daemon := after (E_add_bridges [(3, [7; 8]); (4, [7])]) started.

Lemma moved_running : running moved.
Proof. apply running_after; [by apply run_start|exact I|vm_compute; reflexivity]. Qed.

Lemma moved_shape : shape (bridges moved) = [(3, [8]); (4, [7])].
Proof. vm_compute. reflexivity. Qed.

Lemma one_owner_witness : exists b c prt qrt,
  bridges moved !! 0%nat = Some b /\ bridges moved !! 1%nat = Some c
  /\ br_ports b !! 0%nat = Some prt /\ br_ports c !! 0%nat = Some qrt
  /\ if_index (prt_sysdeps prt) <> if_index (prt_sysdeps qrt).
Proof.
  destruct (bridges moved !! 0%nat) as [b|] eqn:Hb; [|revert Hb; vm_compute; discriminate].
  destruct (bridges moved !! 1%nat) as [c|] eqn:Hc; [|revert Hc; vm_compute; discriminate].
  destruct (br_ports b !! 0%nat) as [prt|] eqn:Hp.
  2:{ apply shape_of in Hb. rewrite moved_shape in Hb. injection Hb as _ Hb.
      unfold port_ifs in Hb. destruct (br_ports b); [discriminate Hb|discriminate Hp]. }
  destruct (br_ports c !! 0%nat) as [qrt|] eqn:Hq.
  2:{ apply shape_of in Hc. rewrite moved_shape in Hc. injection Hc as _ Hc.
      unfold port_ifs in Hc. destruct (br_ports c); [discriminate Hc|discriminate Hq]. }
  exists b, c, prt, qrt. split; [reflexivity|]. split; [reflexivity|].
  split; [exact Hp|]. split; [exact Hq|].
  intros Heq.
  destruct (proj2 (one_owner moved 0 1 b c 0 0 prt qrt moved_running Hb Hc) Hp Hq Heq) as [Hij _].
  discriminate Hij.
Defined.

Definition hello_frame : list Z := tx_frame 0x00AABBCCDDEE (neighbour_bpdu 0x8001) RST_BPDU_SIZE.

Lemma packet_filter_witness :
  bridge_bpdu_rcv 7 (hello_frame ++ [1; 2; 3]) (Z.of_nat (length hello_frame)) bridged
  = on_bridge 0 (MSTP_IN_rx_bpdu 0 (drop 17 hello_frame ++ [1; 2; 3]) RST_BPDU_SIZE) bridged.
Proof.
  refine (proj1 (packet_filter 7 hello_frame [1; 2; 3] bridged bridged_running _) 0%nat 0%nat _ _ _ _).
  - vm_compute. reflexivity.
  - eexists _, _. do 2 (split; [vm_compute; reflexivity|]). split; vm_compute; reflexivity.
  - exists (be_bytes 6 0x00AABBCCDDEE), 0, 39, 3. split; [vm_compute; reflexivity|].
    split; [reflexivity|]. repeat split; try (vm_compute; congruence).
Defined.

Lemma frame_accepted_witness :
  llc_payload_length hello_frame (Z.of_nat (length hello_frame)) = Some RST_BPDU_SIZE.
Proof.
  apply (frame_accepted 0x00AABBCCDDEE (neighbour_bpdu 0x8001) RST_BPDU_SIZE).
  - unfold RST_BPDU_SIZE. lia.
  - apply Nat.leb_le. vm_compute. reflexivity.
Defined.

Lemma links_are_tracked_witness : exists d',
  bridge_notify 3 8 true 0x41 bridged = Done 0 d' /\ linked 3 8 true d'.
Proof.
  destruct (bridge_notify 3 8 true 0x41 bridged) as [r d'| |] eqn:Heq.
  - assert (r = 0) as ->.
    { apply (f_equal (fun r => match r with Done r _ => r | _ => 1 end)) in Heq.
      rewrite <-Heq. vm_compute. reflexivity. }
    exists d'. split; [reflexivity|].
    apply (links_are_tracked bridged 3 8 true 0x41 d' bridged_running); [lia|lia|exact Heq].
  - apply (f_equal is_done) in Heq. exfalso. revert Heq. vm_compute. discriminate.
  - apply (f_equal is_done) in Heq. exfalso. revert Heq. vm_compute. discriminate.
Defined.

(** ** Octets that were not received *)

(** The MSTI messages that the ports of the bridges have received. *)
Definition received_mstis (r : result unit) : list (list (list msti_configuration_message_t)) :=
  match r with
  | Done _ d => map (fun b => map (fun prt =>
      take (Z.to_nat (rcvdBpduNumOfMstis prt)) (mstConfiguration (rcvdBpduData prt))) (br_ports b)) (bridges d)
  | _ => []
  end.

(** An MST BPDU that announces one MSTI message and ends before it. *)
Definition cut_frame : list Z :=
  tx_frame 0x00AABBCCDDEE (neighbour_bpdu 0x8001) MST_BPDU_SIZE_WO_MSTI_MSGS.

(** MSTP_IN_rx_bpdu compares the number of MSTI messages with the Version 3
    Length of the message and not with the octets that arrived: what it
    records depends on what the receive buffer held before. *)
Lemma unreceived_octets_read : exists d data1 data2,
  running d
  /\ take (length cut_frame) data1 = take (length cut_frame) data2
  /\ received_mstis (bridge_bpdu_rcv 7 data1 (Z.of_nat (length cut_frame)) d)
     <> received_mstis (bridge_bpdu_rcv 7 data2 (Z.of_nat (length cut_frame)) d).
Proof.
  exists bridged, (cut_frame ++ repeat 1 64), (cut_frame ++ repeat 2 64).
  split; [exact bridged_running|]. split; [vm_compute; reflexivity|]. vm_compute. discriminate.
Qed.
