(* ===== verification/MstpTheorems.v ===== *)
(** * What the daemon guarantees

    The properties of the life of a bridge: no event makes the daemon use an
    invalid pointer, and in every reachable state the records of the daemon,
    the roles of the ports, the configuration and the digest agree. *)

From S2P Require Import Prelude Bytes MstpTypes MstpPriority MstpBpdu MstpMonad MstpOut.
From S2P Require Import MstpPort MstpInfo MstpRoles MstpTransitions MstpForwarding MstpRun.
From S2P Require Import HmacMd5 MstpConfig MstpEvents MstpAdmin MstpVlan MstpInv MstpRunOk.
From S2P Require Import MstpInvariant MstpVlanOk MstpLoops MstpEventsOk MstpTreesOk MstpSafety.
From S2P Require Import MstpScenario MstpDryRun MstpDiverge MstpFrame.
From Stdlib Require Import Sorting.Sorted.

(** ** Consequences of the invariant *)

Lemma reachable_row w p prt t x :
  reachable w -> br_ports (br w) !! p = Some prt -> prt_trees prt !! t = Some x ->
  port_ok (std_of w) p prt /\ ptp_ok (std_of w) p t (deleted prt) x
  /\ ids_of w !! t = Some (ptp_MSTID x).
Proof.
  intros Hw Hp Hx. destruct (reachable_Inv w Hw) as [_ Hi].
  destruct (inv_row _ _ Hi p prt Hp) as (Hids & Hport & Hptp).
  split; [done|]. split; [by apply Hptp|].
  replace (ids_of w) with (map ptp_MSTID (prt_trees prt)) by exact Hids.
  by rewrite list_lookup_fmap, Hx.
Qed.

(** ** Safety *)

(** C1: from every reachable state of a bridge, no event that bridge_track.c
    can deliver (a link change, a tick, a received message of any content and
    length, an administrative request, the creation or deletion of ports,
    trees and VLAN mappings) makes the daemon dereference an invalid pointer
    or leave the bounds of an array. *)
Theorem bridge_never_faults w c : reachable w -> valid_call w c -> perform c w <> Fault.
Proof.
  intros Hw Hv. eapply wp_not_fault, perform_ok; [by apply reachable_Inv|done].
Qed.

Lemma bridge_never_faults_witness : exists d,
  perform (C_rx_bpdu 0 [0; 0; 2] 4) (two_seconds d) <> Fault.
Proof.
  destruct new_bridge_reachable as [d Hd]. exists d.
  apply (bridge_never_faults (two_seconds d) (C_rx_bpdu 0 [0; 0; 2] 4)).
  - by apply two_seconds_reachable.
  - vm_compute. repeat constructor.
Defined.

(** ** Agreement of the records *)

(** What the kernel was told about a port that is not disabled is the state
    that the daemon has recorded for its CIST. *)
Lemma life_told K w p prt x :
  bridge_life K w -> br_ports (br w) !! p = Some prt -> prt_trees prt !! 0%nat = Some x ->
  ptp_state x <> BR_STATE_DISABLED -> K (index_of prt) = Some (ptp_state x).
Proof.
  intros Hl Hp Hx Hst. pose proof (life_reachable K w Hl) as Hw.
  destruct (life_shown K w Hl) as [_ Hrows]. rewrite list.Forall_lookup in Hrows.
  destruct (reachable_row w p prt 0 x Hw Hp Hx) as (_ & _ & Hid).
  destruct (reachable_Inv w Hw) as [[Hm _] _]. destruct (bo_ids _ _ Hm) as [Hhd _].
  assert (ptp_MSTID x = 0) as Hx0.
  { destruct (ids_of w) as [|i l]; [done|]. simpl in *. congruence. }
  pose proof (proj2 (Hrows p prt Hp) 0%nat x Hx Hx0) as Hd.
  destruct (K (index_of prt)); simpl in Hd; congruence.
Qed.

(** C8: while the bridge is enabled, the last state that the daemon has told
    the kernel about the interface of a port (its calls of br_set_state, the
    outputs of the daemon since the port was created) is the one of the Port
    State Transition machine of the CIST on that port; the state that the
    daemon records for the port in each tree is the one of the machine of that
    tree, and the port learns and forwards there exactly when it says so. *)
Theorem kernel_state_agrees K w p prt t x :
  bridge_life K w -> bridgeEnabled (br w) = true ->
  br_ports (br w) !! p = Some prt -> deleted prt = false -> prt_trees prt !! t = Some x ->
  (t = 0%nat -> K (if_index (prt_sysdeps prt)) = Some (kernel_state (PSTSM_state x)))
  /\ ptp_state x = kernel_state (PSTSM_state x)
  /\ (learning x = true <-> PSTSM_state x <> PSTSM_DISCARDING)
  /\ (forwarding x = true <-> ptp_state x = BR_STATE_FORWARDING).
Proof.
  intros Hl Hen Hp Hd Hx. pose proof (life_reachable K w Hl) as Hw.
  destruct (reachable_row w p prt t x Hw Hp Hx) as (_ & Hok & _). rewrite Hd in Hok.
  assert (g_coh (std_of w) p t) as Hcoh by exact Hen.
  pose proof (ok_kernel _ _ _ _ _ Hok Hcoh eq_refl) as Hk.
  pose proof (ok_pst _ _ _ _ _ Hok Hcoh) as Hpst. split; [|split; [done|]].
  - intros ->. rewrite <-Hk. apply (life_told K w p prt x); [done..|].
    rewrite Hk. by destruct (PSTSM_state x).
  - rewrite Hk. destruct (PSTSM_state x), Hpst as [-> ->]; simpl; split; split; congruence.
Qed.

Lemma kernel_state_agrees_witness : exists d K x,
  lookup_ptp (br (two_seconds d)) 0 0 = Some x /\ K 7 = Some (kernel_state (PSTSM_state x)).
Proof.
  destruct new_bridge_lives as [d Hd]. exists d. destruct (two_seconds_lives d Hd) as [K HK].
  exists K. eexists. split; [vm_compute; reflexivity|].
  pose proof (fun prt x => kernel_state_agrees K (two_seconds d) 0 prt 0 x HK) as Hall.
  edestruct Hall as (H & _); [vm_compute; reflexivity..|]. exact (H eq_refl).
Defined.

(** The role of a port and the state of its Port Role Transitions machine
    belong together; a disabled, alternate or backup port is told neither to
    learn nor to forward, and a port is never told to forward without
    learning. *)
Theorem blocked_roles w p prt t x :
  reachable w -> br_ports (br w) !! p = Some prt -> prt_trees prt !! t = Some x ->
  prt_ok (PRTSM_state x) (role x) (learn x) (forward x)
  /\ (role x = roleDisabled \/ role x = roleAlternate \/ role x = roleBackup ->
      learn x = false /\ forward x = false)
  /\ (forward x = true -> learn x = true).
Proof.
  intros Hw Hp Hx. destruct (reachable_row w p prt t x Hw Hp Hx) as (_ & Hok & _).
  pose proof (ok_prt _ _ _ _ _ Hok) as Hprt. split; [done|].
  destruct Hprt as [Hfl Hst].
  assert (learn x = false -> learn x = false /\ forward x = false) as Hlearn.
  { intros Hl. split; [done|]. destruct (forward x); [|done]. symmetry. rewrite <-Hl. by apply Hfl. }
  split; [|done]. intros Hrole. apply Hlearn.
  destruct (PRTSM_state x); intuition congruence.
Qed.

Lemma blocked_roles_witness : exists d x,
  lookup_ptp (br (one_port d)) 0 0 = Some x
  /\ prt_ok (PRTSM_state x) (role x) (learn x) (forward x).
Proof.
  destruct new_bridge_reachable as [d Hd]. exists d. eexists. split; [vm_compute; reflexivity|].
  eapply (blocked_roles (one_port d) 0 _ 0 _).
  - by apply one_port_reachable.
  - vm_compute; reflexivity.
  - vm_compute; reflexivity.
Defined.

(** ** The configuration *)

Lemma config_ok_strip b : config_ok (strip b) -> config_ok b.
Proof. intros []. by constructor. Qed.

(** C29: in every reachable state the parameters of the bridge are in the
    ranges of 802.1Q, whatever was requested, and every port counts at most
    Transmit_Hold_Count messages per second, hence at most ten. *)
Theorem transmit_limit w p prt :
  reachable w -> br_ports (br w) !! p = Some prt ->
  config_ok (br w) /\ 0 <= txCount prt <= Transmit_Hold_Count (br w) /\ txCount prt <= 10.
Proof.
  intros Hw Hp. destruct (reachable_Inv w Hw) as [[[Hcfg] _] Hi].
  apply config_ok_strip in Hcfg.
  destruct (inv_row _ _ Hi p prt Hp) as (_ & Hport & _).
  pose proof (ok_hold _ _ _ Hport) as Hhold.
  change (0 <= txCount prt <= Transmit_Hold_Count (br w)) in Hhold.
  pose proof (cfg_hold_ok _ Hcfg). split; [done|]. lia.
Qed.

Lemma transmit_limit_witness : exists d prt,
  br_ports (br (two_seconds d)) !! 0%nat = Some prt /\ txCount prt <= 10.
Proof.
  destruct new_bridge_reachable as [d Hd]. exists d. eexists. split; [vm_compute; reflexivity|].
  eapply (transmit_limit (two_seconds d) 0 _).
  - by apply two_seconds_reachable.
  - vm_compute; reflexivity.
Defined.

(** C28: in every reachable state each VLAN is mapped to an existing spanning
    tree, and the configuration digest that the bridge sends to its
    neighbours is the digest of this mapping. *)
Theorem digest_current w :
  reachable w ->
  exists table, vid2mstid_table (br w) = Some table
    /\ length table = 4096%nat
    /\ Forall (fun id => id ∈ map tree_MSTID (br_trees (br w))) table
    /\ configuration_digest (MstConfigId (br w)) = config_digest table.
Proof.
  intros Hw. destruct (reachable_Inv w Hw) as [[Hm Hd] Hi].
  destruct (mapM_vid2mstid_some _ _ Hm) as [l Hl].
  exists (0 :: l ++ [0]). split; [|split; [|split]].
  - unfold vid2mstid_table. change (mapM (vid2mstid (br w)) all_vids = Some l) in Hl. by rewrite Hl.
  - apply mapM_Some in Hl. simpl. apply Forall2_length in Hl. by rewrite length_app, <-Hl.
  - assert (0 ∈ ids_of w) as H0.
    { destruct (bo_ids _ _ Hm) as [Hhd _]. destruct (ids_of w); [done|].
      injection Hhd as ->. apply list_elem_of_here. }
    constructor; [done|]. apply Forall_app. split; [|by repeat constructor].
    apply mapM_Some in Hl. apply Forall_lookup. intros i id Hi'.
    destruct (Forall2_lookup_r _ _ _ _ _ Hl Hi') as (vid & Hvid & Hv).
    apply list_elem_of_lookup_2 in Hvid.
    destruct (vid2mstid_some _ _ vid Hm Hvid) as (id' & Hid' & Hin). simplify_eq. done.
  - apply Hd. unfold vid2mstid_table. by rewrite Hl.
Qed.

Lemma digest_current_witness : exists d table,
  vid2mstid_table (br (two_seconds d)) = Some table.
Proof.
  destruct new_bridge_reachable as [d Hd]. exists d.
  destruct (digest_current (two_seconds d) (two_seconds_reachable d Hd)) as (table & H & _).
  exists table. exact H.
Defined.

(** C30: the trees of a reachable bridge are the CIST and at most 63 MSTIs in
    the order of their identifiers, and every port has exactly one per-tree
    port for each of them, in the same order. *)
Theorem trees_and_ports_match w :
  reachable w ->
  let ids := map tree_MSTID (br_trees (br w)) in
  head ids = Some 0 /\ StronglySorted Z.lt ids /\ (length ids <= 64)%nat
  /\ Forall (fun id => 0 <= id <= MAX_MSTID) ids
  /\ forall p prt, br_ports (br w) !! p = Some prt -> map ptp_MSTID (prt_trees prt) = ids.
Proof.
  intros Hw. destruct (reachable_Inv w Hw) as [[Hm _] Hi].
  destruct (bo_ids _ _ Hm) as (Hhd & _ & Hlen).
  split; [done|]. split; [apply (bo_sorted _ _ Hm)|]. split; [done|].
  split; [apply (bo_range _ _ Hm)|].
  intros p prt Hp. apply (inv_row _ _ Hi p prt Hp).
Qed.

Lemma trees_and_ports_match_witness : exists d,
  StronglySorted Z.lt (map tree_MSTID (br_trees (br (two_seconds d)))).
Proof.
  destruct new_bridge_reachable as [d Hd]. exists d.
  apply (trees_and_ports_match (two_seconds d) (two_seconds_reachable d Hd)).
Defined.

(** The parameters of 802.1D 17.14 and 802.1Q 13.23: each that is given is in
    its range, and the times that will be in use are compatible. *)
Definition within (lo hi : Z) (o : option Z) : Prop := forall v, o = Some v -> lo <= v <= hi.
Record good_parameters (b : bridge_t) (cfg : CIST_BridgeConfig) : Prop := {
  good_age : within 6 40 (cfg_bridge_max_age cfg);
  good_delay : within 4 30 (cfg_bridge_forward_delay cfg);
  good_times : cfg_bridge_max_age cfg <> None \/ cfg_bridge_forward_delay cfg <> None ->
    2 * (default (br_Forward_Delay b) (cfg_bridge_forward_delay cfg) - 1)
      >= default (br_Max_Age b) (cfg_bridge_max_age cfg);
  good_version : forall v, cfg_protocol_version cfg = Some v -> v = 0 \/ v = 2 \/ v = 3;
  good_hold : within 1 10 (cfg_tx_hold_count cfg);
  good_hops : within 6 40 (cfg_max_hops cfg);
  good_hello : within 1 10 (cfg_bridge_hello_time cfg);
  good_ageing : within 10 1000000 (cfg_bridge_ageing_time cfg) }.

Lemma in_range_within lo hi o : in_range lo hi o = true <-> within lo hi o.
Proof.
  unfold in_range, within. destruct o as [v|]; simpl; [|naive_solver].
  rewrite andb_true_iff, !Z.leb_le. split; [by intros [? ?] ? [= <-]|naive_solver].
Qed.

Lemma bridge_config_valid_good b cfg : bridge_config_valid b cfg = true <-> good_parameters b cfg.
Proof.
  unfold bridge_config_valid. rewrite !andb_true_iff, !in_range_within.
  assert ((negb (is_set (cfg_bridge_max_age cfg) || is_set (cfg_bridge_forward_delay cfg))
      || (default (br_Max_Age b) (cfg_bridge_max_age cfg)
          <=? 2 * (default (br_Forward_Delay b) (cfg_bridge_forward_delay cfg) - 1))) = true
    <-> (cfg_bridge_max_age cfg <> None \/ cfg_bridge_forward_delay cfg <> None ->
         2 * (default (br_Forward_Delay b) (cfg_bridge_forward_delay cfg) - 1)
           >= default (br_Max_Age b) (cfg_bridge_max_age cfg))) as ->.
  { rewrite orb_true_iff, negb_true_iff, orb_false_iff, Z.leb_le.
    destruct (cfg_bridge_max_age cfg), (cfg_bridge_forward_delay cfg); simpl; intuition (lia || congruence). }
  assert (match cfg_protocol_version cfg with
     | Some v => (v =? protoSTP) || (v =? protoRSTP) || (v =? protoMSTP)
     | None => true
     end = true <-> forall v, cfg_protocol_version cfg = Some v -> v = 0 \/ v = 2 \/ v = 3) as ->.
  { unfold protoSTP, protoRSTP, protoMSTP. destruct (cfg_protocol_version cfg) as [v|]; [|naive_solver].
    rewrite !orb_true_iff, !Z.eqb_eq. naive_solver. }
  split; [intros; constructor; tauto|intros []; tauto].
Qed.

(** C32: a request to change the parameters of the bridge with any value out
    of its range, or with 2 * (Forward Delay - 1 s) < Max Age, is refused
    with -1 and changes nothing; every other request never faults and, when
    the machines that it runs return, answers 0 and the parameters that it
    names have the requested values, the others their old ones. *)
Theorem set_bridge_config_spec cfg w :
  reachable w ->
  (~ good_parameters (br w) cfg -> MSTP_IN_set_cist_bridge_config cfg w = Ret (-1) w)
  /\ (good_parameters (br w) cfg ->
      wp false (MSTP_IN_set_cist_bridge_config cfg)
        (fun r w' => r = 0 /\ params_set (br w) cfg (br w')) w).
Proof.
  intros Hw. rewrite <-bridge_config_valid_good. split.
  - intros Hv%not_true_is_false. by apply invalid_bridge_config.
  - intros Hv. eapply wp_mono; [exact (set_cist_bridge_config_ok cfg w (reachable_Inv w Hw) Hv)|].
    intros r w' (-> & _ & Hs). split; [done|].
    apply params_set_strip. rewrite Hs. apply params_set_of_strip, reconfigured_params.
Qed.

Definition only_max_age (v : Z) : CIST_BridgeConfig :=
  {| cfg_bridge_max_age := Some v; cfg_bridge_forward_delay := None; cfg_protocol_version := None;
     cfg_tx_hold_count := None; cfg_max_hops := None; cfg_bridge_hello_time := None;
     cfg_bridge_ageing_time := None |}.

Lemma set_bridge_config_spec_witness : exists d,
  MSTP_IN_set_cist_bridge_config (only_max_age 29) (one_port d) = Ret (-1) (one_port d).
Proof.
  destruct new_bridge_reachable as [d Hd]. exists d.
  refine (proj1 (set_bridge_config_spec (only_max_age 29) (one_port d) (one_port_reachable d Hd)) _).
  intros Hg%bridge_config_valid_good. revert Hg. vm_compute. discriminate.
Defined.

(** Deleting a bridge always finishes, whatever its ports and trees, and
    frees them all without sending anything. *)
Theorem delete_bridge_empties w :
  exists w', MSTP_IN_delete_bridge w = Ret tt w'
    /\ br_ports (br w') = [] /\ br_trees (br w') = [] /\ bridgeEnabled (br w') = false
    /\ out w' = out w.
Proof. eexists. split; [apply delete_bridge_eq|]. done. Qed.

(** ** Quiescent bridges *)

(** C5: once the machines of an enabled bridge have settled, every port whose
    role is disabled, alternate or backup is blocking, a port forwards only if
    its role machine has allowed it, and a port whose role has been selected
    plays that role; and for the CIST this state is the last one that the
    daemon has told the kernel about the interface of the port. So the ports
    that the spanning tree excludes carry no traffic. *)
Theorem settled_bridge_blocks K w p prt t x :
  bridge_life K w -> bridgeEnabled (br w) = true -> quiescent w ->
  br_ports (br w) !! p = Some prt -> deleted prt = false -> prt_trees prt !! t = Some x ->
  (role x = roleDisabled \/ role x = roleAlternate \/ role x = roleBackup ->
     ptp_state x = BR_STATE_BLOCKING)
  /\ (ptp_state x = BR_STATE_FORWARDING <-> forward x = true)
  /\ (ptp_state x = BR_STATE_LEARNING <-> learn x = true /\ forward x = false)
  /\ (selected x = true -> updtInfo x = false -> role x = selectedRole x)
  /\ (t = 0%nat -> K (if_index (prt_sysdeps prt)) = Some (ptp_state x)).
Proof.
  intros Hlife Hen Hq Hp Hd Hx. pose proof (life_reachable K w Hlife) as Hw.
  destruct (reachable_row w p prt t x Hw Hp Hx) as (_ & Hok & _).
  rewrite Hd in Hok. assert (g_coh (std_of w) p t) as Hcoh by exact Hen.
  assert (t = 0%nat -> K (if_index (prt_sysdeps prt)) = Some (ptp_state x)) as Htold.
  { intros ->. apply (life_told K w p prt x); [done..|].
    rewrite (ok_kernel _ _ _ _ _ Hok Hcoh eq_refl). by destruct (PSTSM_state x). }
  rewrite (ok_kernel _ _ _ _ _ Hok Hcoh eq_refl) in *.
  assert (lookup_ptp (br w) p t = Some x) as Hl by (unfold lookup_ptp; by rewrite Hp).
  pose proof (quiescent_PSTSM w p t x Hq Hl) as Hst.
  pose proof (quiescent_PRTSM w p t x Hq Hl) as Hrole.
  destruct (ok_prt _ _ _ _ _ Hok) as [Hfl Hprt].
  assert (role x = roleDisabled \/ role x = roleAlternate \/ role x = roleBackup ->
    learn x = false) as Hlearn by (destruct (PRTSM_state x); intuition congruence).
  unfold pst_settled in Hst. split; [|split; [|split; [|split]]]; [| | |exact Hrole|exact Htold].
  - intros Hr. destruct (PSTSM_state x); [done| |].
    + destruct Hst. rewrite Hlearn in H by done. done.
    + specialize (Hfl Hst). rewrite Hlearn in Hfl by done. done.
  - destruct (PSTSM_state x); simpl; [|intuition congruence|done].
    split; [done|]. intros Hf. specialize (Hfl Hf). congruence.
  - destruct (PSTSM_state x); simpl; [intuition congruence|done|intuition congruence].
Qed.

Lemma settled_bridge_blocks_witness : exists d K x,
  lookup_ptp (br (looped d)) 1 0 = Some x /\ role x = roleBackup
  /\ ptp_state x = BR_STATE_BLOCKING /\ K 8 = Some BR_STATE_BLOCKING.
Proof.
  destruct new_bridge_lives as [d Hd]. exists d. destruct (looped_lives d Hd) as [K HK].
  exists K. eexists. split; [vm_compute; reflexivity|]. split; [reflexivity|].
  split; [reflexivity|].
  pose proof (fun prt x => settled_bridge_blocks K (looped d) 1 prt 0 x HK) as Hall.
  edestruct Hall as (_ & _ & _ & _ & H); [vm_compute; reflexivity..|]. exact (H eq_refl).
Defined.

(** C31: a dry run of all the machines changes nothing; when it reports that
    there is nothing to do, the actual run changes nothing either, unless a
    topology change notification or its acknowledgment is still unread. *)
Theorem dry_run_is_exact w b w' :
  br_state_machines_run_once true w = Ret b w' ->
  w' = w /\ (b = false -> no_tcn w -> br_state_machines_run_once false w = Ret false w).
Proof.
  intros H. assert (w' = w) as -> by by eapply quiet_eq, H; apply quiet_dry_run.
  split; [done|]. intros -> Htcn. by apply (agree_run_once w Htcn w).
Qed.

Lemma dry_run_is_exact_witness : exists b,
  br_state_machines_run_once true (one_port []) = Ret b (one_port [])
  /\ one_port [] = one_port [].
Proof.
  exists false. 
  assert (br_state_machines_run_once true (one_port []) = Ret false (one_port [])) as H
    by (vm_compute; reflexivity).
  split; [exact H|]. exact (proj1 (dry_run_is_exact _ _ _ H)).
Defined.

(** Br_state_machines_run makes passes over the machines until nothing
    is left to do or its second is over; on a bridge that is quiescent, or
    disabled, it makes none. *)
Theorem run_until_quiescent w w' :
  bridgeEnabled (br w) = true -> br_state_machines_run w = Ret tt w' ->
  exists k, passes k (w <| runs := S (runs w) |>) w'
    /\ (quiescent w' \/ k = S (clock w (runs w))).
Proof.
  intros Hen H. apply run_loop_passes. unfold br_state_machines_run in H.
  unfold mbind, M_bind in H. cbn in H. by rewrite Hen in H.
Qed.

Lemma run_until_quiescent_witness :
  exists k w', passes k ((one_port []) <| runs := S (runs (one_port [])) |>) w'.
Proof.
  assert (exists w', br_state_machines_run (one_port []) = Ret tt w') as [w' H].
  { eexists. vm_compute. reflexivity. }
  destruct (run_until_quiescent (one_port []) w') as (k & Hk & _).
  - vm_compute; reflexivity.
  - exact H.
  - exists k, w'. exact Hk.
Defined.
