(* ===== verification/CLib.v ===== *)
(** * The C library functions that the packages use

    C strings are lists of octets without the terminating 0; an array of char
    is a list of octets in which a string ends at the first 0. Numbers are
    parsed by [strtoul]; unsigned long has 32 bits on the processors of these
    devices. Floating point is IEEE 754 in round-to-nearest, computed by the
    Standard Library's [SpecFloat]. *)

From Stdlib Require Import SpecFloat.
From S2P Require Import Prelude.

(** ** Strings *)

Definition str (s : string) : list Z :=
  map (fun c => Z.of_nat (Ascii.nat_of_ascii c)) (String.list_ascii_of_string s).

(** The string in an array: [None] when the array holds no 0, and reading it
    runs past its end. *)
Fixpoint c_string (a : list Z) : option (list Z) :=
  match a with
  | [] => None
  | c :: a => if c =? 0 then Some [] else cons c <$> c_string a
  end.

(** strncpy into an array of [n] octets: no 0 is written when the string has
    [n] octets or more. *)
Definition strncpy_array (n : nat) (s : list Z) : list Z := take n (s ++ replicate n 0).

(** Whether strcmp finds the string equal to the one in an array. *)
Fixpoint strcmp_array (s a : list Z) : option bool :=
  match a, s with
  | [], _ => None
  | c :: _, [] => Some (c =? 0)
  | c :: a, x :: s =>
      if negb (c =? x) then Some false else if c =? 0 then Some true else strcmp_array s a
  end.

Definition strcmp_eq (s t : list Z) : bool := bool_decide (s = t).

(** The first character [c], other than 0. *)
Fixpoint strchr (s : list Z) (c : Z) : option (list Z) :=
  match s with
  | [] => None
  | x :: s' => if x =? c then Some s else strchr s' c
  end.

(** ** Flags *)

(** e & m, e |= m and e &= ~m *)
Definition has (e m : Z) : bool := negb (Z.land e m =? 0).
Definition raise (m e : Z) : Z := Z.lor e m.
Definition clear (m e : Z) : Z := Z.land e (Z.lnot m).

(** ** Numbers *)

Definition isspace (c : Z) : bool := (c =? 32) || ((9 <=? c) && (c <=? 13)).

Definition digit_value (c : Z) : option Z :=
  if (48 <=? c) && (c <=? 57) then Some (c - 48)
  else if (97 <=? c) && (c <=? 122) then Some (c - 87)
  else if (65 <=? c) && (c <=? 90) then Some (c - 55)
  else None.

Definition is_digit (base c : Z) : bool :=
  match digit_value c with Some d => d <? base | None => false end.

Fixpoint skip_spaces (s : list Z) : list Z :=
  match s with
  | c :: s' => if isspace c then skip_spaces s' else s
  | [] => []
  end.

(** The value of the leading digits, and the rest. *)
Fixpoint read_digits (base acc : Z) (s : list Z) : Z * list Z :=
  match s with
  | c :: s' =>
      match digit_value c with
      | Some d => if d <? base then read_digits base (acc * base + d) s' else (acc, s)
      | None => (acc, s)
      end
  | [] => (acc, [])
  end.

(** The optional prefix of a hexadecimal number, and the base that remains. *)
Definition number_prefix (base : Z) (s : list Z) : Z * list Z :=
  match s with
  | 48 :: x :: d :: s' =>
      if ((base =? 0) || (base =? 16)) && ((x =? 120) || (x =? 88)) && is_digit 16 d
      then (16, d :: s')
      else (if base =? 0 then 8 else base, s)
  | 48 :: _ => (if base =? 0 then 8 else base, s)
  | _ => (if base =? 0 then 10 else base, s)
  end.

Definition sign_prefix (s : list Z) : bool * list Z :=
  match s with
  | 43 :: s' => (false, s')
  | 45 :: s' => (true, s')
  | _ => (false, s)
  end.

Definition ULONG_MAX : Z := 4294967295.

(** The value, whether errno is set to ERANGE, and the rest of the string;
    without digits the value is 0 and the rest is the whole string. *)
Definition strtoul (s : list Z) (base : Z) : Z * bool * list Z :=
  let '(negative, t) := sign_prefix (skip_spaces s) in
  let '(base, t) := number_prefix base t in
  match t with
  | c :: _ =>
      if is_digit base c then
        let '(v, rest) := read_digits base 0 t in
        if ULONG_MAX <? v then (ULONG_MAX, true, rest)
        else ((if negative then u32 (- v) else v), false, rest)
      else (0, false, s)
  | [] => (0, false, s)
  end.

Definition LONG_MIN : Z := -2147483648.
Definition LONG_MAX : Z := 2147483647.

(** Conversion of an unsigned long to int. *)
Definition s32 (v : Z) : Z := if v <=? LONG_MAX then v else v - 4294967296.

(** Without a prefix for other bases: only base 10 is used. *)
Definition strtol (s : list Z) (base : Z) : Z :=
  let '(negative, t) := sign_prefix (skip_spaces s) in
  let '(v, _) := read_digits base 0 t in
  Z.max LONG_MIN (Z.min LONG_MAX (if negative then - v else v)).

(** With a sign and, for base 0, a prefix. *)
Definition strtol0 (s : list Z) : Z :=
  let '(negative, t) := sign_prefix (skip_spaces s) in
  let '(base, t) := number_prefix 0 t in
  let '(v, _) := read_digits base 0 t in
  Z.max LONG_MIN (Z.min LONG_MAX (if negative then - v else v)).

(** The digits of a number, most significant first; ten for every unsigned
    long. *)
Fixpoint digits (n : nat) (v : Z) : list Z :=
  match n with
  | O => []
  | S n => if v <? 10 then [48 + v] else digits n (v / 10) ++ [48 + v mod 10]
  end.
(** "%lu" and "%ld" *)
Definition print_u (v : Z) : list Z := digits 10 (u32 v).
Definition print_d (v : Z) : list Z := if v <? 0 then 45 :: print_u (- v) else print_u v.

Example print_max : print_u ULONG_MAX = str "4294967295".
Proof. reflexivity. Qed.
Example print_min : print_d LONG_MIN = str "-2147483648".
Proof. reflexivity. Qed.
Example strtoul_hex : strtoul (str " 0x1F rest") 16 = (31, false, str " rest").
Proof. reflexivity. Qed.
Example strtoul_octal : strtoul (str "010") 0 = (8, false, []).
Proof. reflexivity. Qed.
Example strtoul_negative : strtoul (str "-1") 0 = (ULONG_MAX, false, []).
Proof. reflexivity. Qed.
Example strtoul_none : strtoul (str "0xg") 16 = (0, false, str "xg").
Proof. reflexivity. Qed.

(** ** Floating point *)

Abbreviation float := spec_float.

Definition f64_of_Z (z : Z) : float := binary_normalize 53 1024 z 0 false.
Definition f32_of_Z (z : Z) : float := binary_normalize 24 128 z 0 false.
(** The double nearest to the decimal [z / d]. *)
Definition f64_literal (z d : Z) : float := SFdiv 53 1024 (f64_of_Z z) (f64_of_Z d).
Definition f64_mul : float -> float -> float := SFmul 53 1024.
Definition f64_add : float -> float -> float := SFadd 53 1024.
Definition f32_mul : float -> float -> float := SFmul 24 128.
Definition f32_div : float -> float -> float := SFdiv 24 128.

(** Conversion of a double to float. *)
Definition f32_of_f64 (x : float) : float :=
  match x with
  | S754_finite s m e => binary_round 24 128 s m e
  | x => x
  end.

Definition is_zero (x : float) : bool := match x with S754_zero _ => true | _ => false end.

(** Truncation to an integer; [None] for infinities and NaN. *)
Definition trunc (x : float) : option Z :=
  match x with
  | S754_zero _ => Some 0
  | S754_finite s m e =>
      let v := if 0 <=? e then Z.shiftl (Z.pos m) e else Z.shiftr (Z.pos m) (- e) in
      Some (if s then - v else v)
  | _ => None
  end.

(** Conversion to uint16_t, which is undefined outside its range. *)
Definition f32_to_u16 (x : float) : option Z :=
  match trunc x with
  | Some v => if (0 <=? v) && (v <? 65536) then Some v else None
  | None => None
  end.

Example f64_tenth : f64_literal 1 10 = S754_finite false 7205759403792794 (-56).
Proof. vm_compute. reflexivity. Qed.
Example budget_65W : f32_to_u16 (f32_mul (f32_of_Z 65) (f32_of_Z 10)) = Some 650.
Proof. vm_compute. reflexivity. Qed.
