(* ===== verification/Effect.v ===== *)
(** * Programs with a state that may access memory they must not

    [ST S A]: from a state to a value and a state, or to nothing when an array
    is accessed out of its bounds or a null pointer is used. [spec t m Q s]:
    the operation [m] in state [s] ends with [Q], and with [t] it does end. *)

From S2P Require Import Prelude.

Definition ST (S A : Type) : Type := S -> option (A * S).
#[export] Instance ST_ret {S} : MRet (ST S) := fun A a s => Some (a, s).
#[export] Instance ST_bind {S} : MBind (ST S) := fun A B k m s =>
  match m s with Some (a, s') => k a s' | None => None end.
#[export] Instance ST_fmap {S} : FMap (ST S) := fun A B f m => m ≫= fun a => mret (f a).

Section operations.
Context {S : Type}.

Definition get : ST S S := fun s => Some (s, s).
Definition put (f : S -> S) : ST S unit := fun s => Some (tt, f s).
Definition overrun {A} : ST S A := fun _ => None.
Definition deref_opt {A} (o : option A) : ST S A := fun s => a ← o; Some (a, s).

Fixpoint for_each_p {A} (l : list A) (f : A -> ST S unit) : ST S unit :=
  match l with
  | [] => mret tt
  | x :: l => f x ;; for_each_p l f
  end.

Definition spec {A} (t : bool) (m : ST S A) (Q : A -> S -> Prop) (s : S) : Prop :=
  match m s with Some (a, s') => Q a s' | None => t = false end.
End operations.

(** ** Rules *)

Section rules.
Context {S : Type} (t : bool).

Lemma spec_ret {A} (a : A) (Q : A -> S -> Prop) p : Q a p -> spec t (mret a) Q p.
Proof. done. Qed.

Lemma spec_bind {A B} (m : ST S A) (k : A -> ST S B) Q p :
  spec t m (fun a => spec t (k a) Q) p -> spec t (m ≫= k) Q p.
Proof. unfold spec, mbind, ST_bind. by destruct (m p) as [[]|]. Qed.

Lemma spec_fmap {A B} (f : A -> B) (m : ST S A) (Q : B -> S -> Prop) p :
  spec t m (fun a => Q (f a)) p -> spec t (f <$> m) Q p.
Proof. intros Hm. unfold fmap, ST_fmap. by apply spec_bind. Qed.

Lemma spec_mono {A} (m : ST S A) (Q R : A -> S -> Prop) p :
  spec t m Q p -> (forall a p', Q a p' -> R a p') -> spec t m R p.
Proof. unfold spec. destruct (m p) as [[]|]; auto. Qed.

Lemma spec_and {A} (m : ST S A) (Q R : A -> S -> Prop) p :
  spec t m Q p -> spec t m R p -> spec t m (fun a p' => Q a p' /\ R a p') p.
Proof. unfold spec. by destruct (m p) as [[]|]. Qed.

Lemma spec_get (Q : S -> S -> Prop) p : Q p p -> spec t get Q p.
Proof. done. Qed.

Lemma spec_put f (Q : unit -> S -> Prop) p : Q tt (f p) -> spec t (put f) Q p.
Proof. done. Qed.

Lemma spec_overrun {A} (Q : A -> S -> Prop) p : t = false -> spec t overrun Q p.
Proof. done. Qed.

Lemma spec_deref {A} (o : option A) (Q : A -> S -> Prop) p :
  (t = true -> is_Some o) -> (forall a, o = Some a -> Q a p) -> spec t (deref_opt o) Q p.
Proof.
  unfold spec, deref_opt. destruct o as [a|]; simpl; [auto|].
  intros Hs _. destruct t; [|done]. by destruct (Hs eq_refl).
Qed.

Lemma spec_for_each {A} (l : list A) f (I : S -> Prop) p :
  I p -> (forall x p', x ∈ l -> I p' -> spec t (f x) (fun _ => I) p') ->
  spec t (for_each_p l f) (fun _ => I) p.
Proof.
  revert p. induction l as [|x l IH]; intros p Hp Hf; [by apply spec_ret|].
  simpl. apply spec_bind. eapply spec_mono; [apply Hf; [by apply list_elem_of_here|done]|].
  intros [] p' Hp'. apply IH; [done|]. intros y p'' Hy. apply Hf. by apply list_elem_of_further.
Qed.

Lemma spec_elim {A} (m : ST S A) Q p a p' : spec t m Q p -> m p = Some (a, p') -> Q a p'.
Proof. unfold spec. intros H Heq. by rewrite Heq in H. Qed.
End rules.

Lemma spec_total {S A} (m : ST S A) Q p : spec true m Q p -> exists a p', m p = Some (a, p') /\ Q a p'.
Proof. unfold spec. destruct (m p) as [[a p']|]; [eauto|done]. Qed.
