(* ===== verification/CLibOk.v ===== *)
(** * Properties of the C library functions *)

From S2P Require Import Prelude CLib.

Lemma digit_value_range c d : digit_value c = Some d -> 0 <= d < 36.
Proof. unfold digit_value. intros H. repeat case_match; simplify_eq; bool_hyps; lia. Qed.

Lemma read_digits_nonneg base acc s : 0 <= base -> 0 <= acc -> 0 <= (read_digits base acc s).1.
Proof.
  intros Hb. revert acc. induction s as [|c s IH]; intros acc Ha; simpl; [done|].
  destruct (digit_value c) as [d|] eqn:Hd; [|done]. apply digit_value_range in Hd.
  case_match; [|done]. apply IH. nia.
Qed.

Lemma number_prefix_base base s : 0 <= base -> 0 <= (number_prefix base s).1.
Proof. intros Hb. unfold number_prefix. repeat case_match; simpl; lia. Qed.

Lemma strtoul_range s base v e rest : 0 <= base -> strtoul s base = (v, e, rest) -> 0 <= v <= ULONG_MAX.
Proof.
  intros Hb. unfold strtoul. destruct (sign_prefix _) as [negative u].
  pose proof (number_prefix_base base u Hb) as Hb'. destruct (number_prefix base u) as [b w]. simpl in Hb'.
  destruct w as [|c w]; [intros [=<- <- <-]; unfold ULONG_MAX; lia|].
  destruct (is_digit b c); [|intros [=<- <- <-]; unfold ULONG_MAX; lia].
  pose proof (read_digits_nonneg b 0 (c :: w) Hb' ltac:(lia)) as Hv.
  destruct (read_digits b 0 (c :: w)) as [x r]. simpl in Hv.
  destruct (ULONG_MAX <? x) eqn:Hx; [intros [=<- <- <-]; unfold ULONG_MAX; lia|]. bool_hyps.
  intros [=<- <- <-]. destruct negative; [|done]. pose proof (u32_range (- x)). unfold ULONG_MAX. lia.
Qed.

Lemma length_strncpy_array n s : length (strncpy_array n s) = n.
Proof. unfold strncpy_array. rewrite length_take, length_app, length_replicate. lia. Qed.

(** A shorter string is terminated. *)
Lemma strncpy_array_terminated n s : (length s < n)%nat -> 0 ∈ strncpy_array n s.
Proof.
  intros Hn. unfold strncpy_array. rewrite take_app_ge by lia. apply elem_of_app. right.
  rewrite take_replicate. apply elem_of_replicate. split; [done|]. lia.
Qed.

(** A string that fills its array is not. *)
Lemma strncpy_array_filled n s : (n <= length s)%nat -> 0 ∉ s -> 0 ∉ strncpy_array n s.
Proof.
  intros Hn Hs. unfold strncpy_array. rewrite take_app_le by lia. intros Hin. apply Hs.
  apply list_elem_of_lookup in Hin as (i & Hi). apply lookup_take_Some in Hi as [Hi _].
  by eapply list_elem_of_lookup_2.
Qed.

Lemma c_string_terminated a : 0 ∈ a <-> is_Some (c_string a).
Proof.
  induction a as [|c a IH]; simpl.
  - split; [intros H; by apply not_elem_of_nil in H|by intros []].
  - destruct (Z.eqb_spec c 0) as [->|Hc].
    + split; [by eexists|]. intros _. by left.
    + rewrite elem_of_cons, fmap_is_Some, IH. split; [intros [H|H]; [by destruct Hc|done]|by right].
Qed.

Lemma strcmp_array_terminated s a : 0 ∈ a -> is_Some (strcmp_array s a).
Proof.
  revert s. induction a as [|c a IH]; intros s Hin; [by apply not_elem_of_nil in Hin|].
  destruct s as [|x s]; simpl; [by eexists|]. case_match; [by eexists|]. case_match; [by eexists|].
  apply IH. bool_hyps. apply elem_of_cons in Hin as [H1|]; [congruence|done].
Qed.

(** strcmp agrees with the string in the array. *)
Lemma strcmp_array_spec s a t : 0 ∉ s -> c_string a = Some t -> strcmp_array s a = Some (strcmp_eq s t).
Proof.
  revert s t. induction a as [|c a IH]; intros s t Hs Ht; [done|]. simpl in Ht. unfold strcmp_eq.
  destruct (Z.eqb_spec c 0) as [->|Hc].
  - simplify_eq. destruct s as [|x s]; simpl; [done|]. rewrite not_elem_of_cons in Hs.
    destruct x; [by destruct Hs|done..].
  - apply fmap_Some in Ht as (t' & Ht' & ->). destruct s as [|x s]; simpl.
    + rewrite (proj2 (Z.eqb_neq c 0) Hc). done.
    + rewrite not_elem_of_cons in Hs. destruct Hs as [_ Hs].
      destruct (Z.eqb_spec c x) as [->|Hne]; simpl.
      * rewrite (proj2 (Z.eqb_neq x 0) Hc), (IH s t' Hs Ht'). f_equal. unfold strcmp_eq.
        apply bool_decide_ext. split; [by intros ->|by intros [=]].
      * f_equal. symmetry. apply bool_decide_eq_false. by intros [=].
Qed.

(** ** Flags *)

Lemma has_raise e m m' : has (raise m e) m' = has e m' || has m m'.
Proof.
  unfold has, raise. rewrite Z.land_lor_distr_l. rewrite <- negb_andb. f_equal.
  apply eq_true_iff_eq. rewrite andb_true_iff, !Z.eqb_eq. apply Z.lor_eq_0_iff.
Qed.

Lemma has_raise_yes e m m' : has m m' = true -> has (raise m e) m' = true.
Proof. intros Hm. by rewrite has_raise, Hm, orb_true_r. Qed.

Lemma has_raise_no e m m' : has m m' = false -> has (raise m e) m' = has e m'.
Proof. intros Hm. by rewrite has_raise, Hm, orb_false_r. Qed.

Lemma has_clear_yes e m m' : Z.land (Z.lnot m) m' = 0 -> has (clear m e) m' = false.
Proof. unfold has, clear. intros Hm. by rewrite <- Z.land_assoc, Hm, Z.land_0_r. Qed.

Lemma has_clear_no e m m' : Z.land (Z.lnot m) m' = m' -> has (clear m e) m' = has e m'.
Proof. unfold has, clear. intros Hm. by rewrite <- Z.land_assoc, Hm. Qed.

(** Decides a flag of a number that operations have changed. *)
Ltac flag_steps :=
  repeat first
    [ rewrite has_raise_yes by reflexivity
    | rewrite has_raise_no by reflexivity
    | rewrite has_clear_yes by reflexivity
    | rewrite has_clear_no by reflexivity ].

Ltac flag_steps_in H :=
  repeat first
    [ rewrite has_raise_yes in H by reflexivity
    | rewrite has_raise_no in H by reflexivity
    | rewrite has_clear_yes in H by reflexivity
    | rewrite has_clear_no in H by reflexivity ].

(** ** Printed numbers *)

Definition decimal (c : Z) : Prop := 48 <= c <= 57.
(** The number that decimal digits say. *)
Definition number (s : list Z) : Z := fold_left (fun v c => v * 10 + (c - 48)) s 0.

Lemma digits_decimal n v : 0 <= v -> Forall decimal (digits n v).
Proof.
  revert v. induction n as [|n IH]; intros v Hv; cbn [digits]; [constructor|]. unfold decimal in *.
  destruct (v <? 10) eqn:H; bool_hyps.
  - repeat constructor; lia.
  - apply Forall_app. split; [apply IH; apply Z.div_pos; lia|].
    pose proof (Z.mod_pos_bound v 10). repeat constructor; lia.
Qed.

Lemma number_digits n v : 0 <= v < 10 ^ Z.of_nat n -> number (digits n v) = v.
Proof.
  revert v. induction n as [|n IH]; intros v Hv; [simpl in *; unfold number; simpl; lia|].
  cbn [digits]. unfold number in *. destruct (v <? 10) eqn:H; bool_hyps; [simpl; lia|].
  rewrite fold_left_app, IH.
  - simpl. pose proof (Z.div_mod v 10). lia.
  - rewrite Nat2Z.inj_succ, Z.pow_succ_r in Hv by lia. split; [apply Z.div_pos; lia|]. apply Z.div_lt_upper_bound; lia.
Qed.

Lemma digits_head n v : 0 < v < 10 ^ Z.of_nat n -> exists c s, digits n v = c :: s /\ c <> 48.
Proof.
  revert v. induction n as [|n IH]; intros v Hv; [simpl in Hv; lia|]. cbn [digits].
  destruct (v <? 10) eqn:H; bool_hyps; [do 2 eexists; split; [done|lia]|].
  destruct (IH (v / 10)) as (c & s & -> & Hc).
  - rewrite Nat2Z.inj_succ, Z.pow_succ_r in Hv by lia.
    split; [apply Z.div_str_pos; lia|apply Z.div_lt_upper_bound; lia].
  - simpl. eauto.
Qed.

(** An unsigned long is printed without leading zeros. *)
Lemma print_u_spec v : 0 <= v <= ULONG_MAX ->
  Forall decimal (print_u v) /\ number (print_u v) = v /\
  (v = 0 /\ print_u v = [48] \/ exists c s, print_u v = c :: s /\ c <> 48).
Proof.
  unfold ULONG_MAX, print_u. intros Hv. rewrite u32_small by lia.
  assert (0 <= v < 10 ^ Z.of_nat 10) as Hv' by (change (10 ^ Z.of_nat 10) with 10000000000; lia).
  split_and!; [apply digits_decimal; lia|by apply number_digits|].
  destruct (decide (v = 0)) as [->|]; [by left|]. right. apply digits_head. lia.
Qed.

Lemma read_digits_suffix base v s : (read_digits base v s).2 `suffix_of` s.
Proof.
  revert v. induction s as [|c s IH]; intros v; simpl; [done|]. repeat case_match; simpl; try done.
  apply suffix_cons_r, IH.
Qed.
