(* ===== verification/Poe.v ===== *)
(** * The PoE controller (realtek-poe-tfortis/src/main.c): commands and replies

    The daemon talks to the PoE microcontroller over a serial line in frames
    of 12 octets. Commands wait in a queue; the first one is with the
    controller, and its reply lets the next one go. This file has the state,
    the queue, the commands, the replies and the reading of the line.

    What the daemon writes to the line is [tx], oldest first; what it has read
    and not consumed is [rx]. Allocation succeeds. *)

From Stdlib Require Import SpecFloat.
From S2P Require Import Prelude CLib Effect.

Definition MAX_PORT : nat := 24.
Definition MAX_RETRIES : Z := 5.
Definition EBUSY : Z := 16.

(** GET_STR: a string of a table, NULL outside of it. *)
Definition GET_STR (a : Z) (b : list (option string)) : option string :=
  if (0 <=? a) && (a <? Z.of_nat (length b)) then mjoin (b !! Z.to_nat a) else None.

Definition status_table : list (option string) :=
  [Some "Disabled"; Some "Searching"; Some "Delivering power"; Some "rsvd"; Some "Fault";
   Some "Other fault"; Some "Requesting power"].

(** ** State *)

Record port_config := mk_port_config {
  name : list Z;
  valid : bool;
  enable : bool;
  priority : Z;
  power_up_mode : Z;
  power_budget : Z }.
#[export] Instance eta_port_config : Eta port_config := fun c =>
  mk_port_config (name c) (valid c) (enable c) (priority c) (power_up_mode c) (power_budget c).
#[export] Instance set_name : SetterFor name := ltac:(mk_setter).
#[export] Instance set_valid : SetterFor valid := ltac:(mk_setter).
#[export] Instance set_enable : SetterFor enable := ltac:(mk_setter).
#[export] Instance set_priority : SetterFor priority := ltac:(mk_setter).
#[export] Instance set_power_up_mode : SetterFor power_up_mode := ltac:(mk_setter).

Record config := mk_config {
  budget : float;
  budget_guard : float;
  port_count : nat;
  pse_id_set_budget_mask : Z;
  ports : list port_config }.
#[export] Instance eta_config : Eta config := fun c =>
  mk_config (budget c) (budget_guard c) (port_count c) (pse_id_set_budget_mask c) (ports c).
#[export] Instance set_budget : SetterFor budget := ltac:(mk_setter).
#[export] Instance set_budget_guard : SetterFor budget_guard := ltac:(mk_setter).
#[export] Instance set_port_count : SetterFor port_count := ltac:(mk_setter).
#[export] Instance set_mask : SetterFor pse_id_set_budget_mask := ltac:(mk_setter).
#[export] Instance set_ports : SetterFor ports := ltac:(mk_setter).

Record port_state := mk_port_state {
  status_str : option string;
  status : Z;
  status_old : Z;
  watt : float;
  voltage : float;
  current : Z;
  temperature : float;
  poe_mode : option string }.
#[export] Instance eta_port_state : Eta port_state := fun s =>
  mk_port_state (status_str s) (status s) (status_old s) (watt s) (voltage s) (current s)
    (temperature s) (poe_mode s).
#[export] Instance set_status_str : SetterFor status_str := ltac:(mk_setter).
#[export] Instance set_status : SetterFor status := ltac:(mk_setter).
#[export] Instance set_status_old : SetterFor status_old := ltac:(mk_setter).
#[export] Instance set_watt : SetterFor watt := ltac:(mk_setter).
#[export] Instance set_voltage : SetterFor voltage := ltac:(mk_setter).
#[export] Instance set_current : SetterFor current := ltac:(mk_setter).
#[export] Instance set_temperature : SetterFor temperature := ltac:(mk_setter).
#[export] Instance set_poe_mode : SetterFor poe_mode := ltac:(mk_setter).

(** [mcu_error_timeout] is whether that timer is pending. *)
Record state := mk_state {
  sys_mode : option string;
  sys_version : Z;
  sys_mcu : option string;
  sys_status : option string;
  sys_ext_version : Z;
  power_consumption : float;
  num_detected_ports : Z;
  state_ports : list port_state;
  mcu_error_timeout : bool }.
#[export] Instance eta_state : Eta state := fun s =>
  mk_state (sys_mode s) (sys_version s) (sys_mcu s) (sys_status s) (sys_ext_version s)
    (power_consumption s) (num_detected_ports s) (state_ports s) (mcu_error_timeout s).
#[export] Instance set_sys_mode : SetterFor sys_mode := ltac:(mk_setter).
#[export] Instance set_sys_version : SetterFor sys_version := ltac:(mk_setter).
#[export] Instance set_sys_mcu : SetterFor sys_mcu := ltac:(mk_setter).
#[export] Instance set_sys_status : SetterFor sys_status := ltac:(mk_setter).
#[export] Instance set_sys_ext_version : SetterFor sys_ext_version := ltac:(mk_setter).
#[export] Instance set_power_consumption : SetterFor power_consumption := ltac:(mk_setter).
#[export] Instance set_num_detected_ports : SetterFor num_detected_ports := ltac:(mk_setter).
#[export] Instance set_state_ports : SetterFor state_ports := ltac:(mk_setter).
#[export] Instance set_mcu_error_timeout : SetterFor mcu_error_timeout := ltac:(mk_setter).

Record cmd := mk_cmd { cmd_cmd : list Z; num_retries : Z }.

(** [port_log]: what state_timeout_cb reports to syslog. *)
Record poe := mk_poe {
  cmd_pending : list cmd;
  cmd_seq : Z;
  poe_state : state;
  poe_config : config;
  rx : list Z;
  tx : list (list Z);
  port_log : list (nat * option string) }.
#[export] Instance eta_poe : Eta poe := fun p =>
  mk_poe (cmd_pending p) (cmd_seq p) (poe_state p) (poe_config p) (rx p) (tx p) (port_log p).
#[export] Instance set_cmd_pending : SetterFor cmd_pending := ltac:(mk_setter).
#[export] Instance set_cmd_seq : SetterFor cmd_seq := ltac:(mk_setter).
#[export] Instance set_poe_state : SetterFor poe_state := ltac:(mk_setter).
#[export] Instance set_poe_config : SetterFor poe_config := ltac:(mk_setter).
#[export] Instance set_rx : SetterFor rx := ltac:(mk_setter).
#[export] Instance set_tx : SetterFor tx := ltac:(mk_setter).
#[export] Instance set_port_log : SetterFor port_log := ltac:(mk_setter).

(** An operation returns, or accesses an array out of its bounds. *)
Abbreviation P := (ST poe).

(** ** Command identifiers *)

Definition bcm_to_rtl_map : list Z := replicate 256 0.

Fixpoint close_map_from (n i : nat) (map : list Z) : list Z :=
  match n with
  | O => map
  | S n =>
      let cmd := nth i map 0 in
      close_map_from n (S i) (if negb (cmd =? 0) then <[Z.to_nat cmd := u8 (Z.of_nat i)]> map else map)
  end.
Definition close_map (map : list Z) : list Z := close_map_from 256 0 map.

(** main closes the map before anything else. *)
Definition bcm_to_rtl_cmd_id (rtl_cmd : Z) : Z :=
  let bcm_cmd := nth (Z.to_nat rtl_cmd) (close_map bcm_to_rtl_map) 0 in
  if negb (bcm_cmd =? 0) then bcm_cmd else rtl_cmd.
Definition rtl_to_bcm_cmd_id (cmd : Z) : Z := bcm_to_rtl_cmd_id cmd.

Definition octet (raw : list Z) (i : nat) : Z := nth i raw 0.
Definition read16_be (raw : list Z) (i : nat) : Z :=
  u16 (Z.lor (Z.shiftl (octet raw i) 8) (octet raw (S i))).
Definition write16_be (value : Z) : list Z := [u8 (Z.shiftr value 8); Z.land value 0xff].

(** ** The queue *)

Definition poe_cmd_send (c : cmd) : P Z :=
  p ← get;
  if mcu_error_timeout (poe_state p) then mret (- EBUSY)
  else put (fun p => p <| tx := tx p ++ [cmd_cmd c] |>) ;; mret 0.

Definition poe_cmd_next : P Z :=
  p ← get;
  match cmd_pending p with
  | [] => mret (-1)
  | c :: _ => poe_cmd_send c
  end.

Definition checksum (frame : list Z) : Z := u8 (foldr Z.add 0 (take 11 frame)).

(** The command padded to 12 octets, with its sequence number and checksum. *)
Definition make_frame (seq : Z) (c : list Z) : list Z :=
  let f := take 12 (c ++ replicate 12 0xff) in
  let f := <[1%nat := seq]> (<[0%nat := bcm_to_rtl_cmd_id (octet f 0)]> f) in
  <[11%nat := checksum f]> f.

Definition poe_cmd_queue (c : list Z) : P Z :=
  if (12 <? length c)%nat then overrun
  else
    p ← get;
    let seq := u8 (cmd_seq p + 1) in
    let cmd := mk_cmd (make_frame seq c) 0 in
    put (fun p => p <| cmd_seq := seq |> <| cmd_pending := cmd_pending p ++ [cmd] |>) ;;
    match cmd_pending p with [] => poe_cmd_send cmd | _ => mret 0 end.

(** ** Commands *)

Definition poet_cmd_4_port (cmd_id : Z) (port data : list Z) : P Z :=
  poe_cmd_queue [cmd_id; 0x00; octet port 0; octet data 0; octet port 1; octet data 1;
                 octet port 2; octet data 2; octet port 3; octet data 3].

Definition poe_cmd_port_enable (port enable : Z) : P Z := poe_cmd_queue [0x01; 0x00; port; enable].
Definition poe_cmd_port_mapping_enable (enable : bool) : P Z :=
  poe_cmd_queue [0x02; 0x00; Z.b2z enable].
Definition poe_cmd_port_detection_type (port type : Z) : P Z := poe_cmd_queue [0x09; 0x00; port; type].
Definition poe_cmd_port_classification (port enable : list Z) : P Z := poet_cmd_4_port 0x11 port enable.
Definition poe_cmd_port_disconnect_type (port type : Z) : P Z := poe_cmd_queue [0x0F; 0x00; port; type].
Definition poe_cmd_port_power_limit_type (port limit : list Z) : P Z := poet_cmd_4_port 0x12 port limit.
Definition poe_cmd_port_power_budget (port budget : Z) : P Z := poe_cmd_queue [0x13; 0x00; port; budget].
Definition poe_cmd_power_mgmt_mode (mode : Z) : P Z := poe_cmd_queue [0x10; 0x00; mode].

Definition poe_cmd_global_power_budget (pse : Z) (budget guard : float) : P Z :=
  b ← deref_opt (f32_to_u16 (f32_mul budget (f32_of_Z 10)));
  g ← deref_opt (f32_to_u16 (f32_mul guard (f32_of_Z 10)));
  poe_cmd_queue ([0x18; 0x00; pse] ++ write16_be b ++ write16_be g).

Definition poe_set_port_priority (port priority : list Z) : P Z := poet_cmd_4_port 0x15 port priority.
Definition poe_set_port_power_up_mode (port mode : list Z) : P Z := poet_cmd_4_port 0x1c port mode.
Definition poe_cmd_status : P Z := poe_cmd_queue [0x40].
Definition poe_cmd_power_stats : P Z := poe_cmd_queue [0x41].
Definition poe_cmd_port_config (port : Z) : P Z := poe_cmd_queue [0x48; 0x00; port].
Definition poe_cmd_port_ext_config (port : Z) : P Z := poe_cmd_queue [0x49; 0x00; port].
Definition poe_cmd_4_port_status (group : Z) : P Z := poe_cmd_queue [0x43; 0x00; group].
Definition poe_cmd_port_power_stats (port : Z) : P Z := poe_cmd_queue [0x44; 0x00; port].

(** ** Replies *)

Definition mod_state (f : state -> state) : P unit :=
  put (fun p => p <| poe_state := f (poe_state p) |>).

(** An assignment to members of state.ports[i]. *)
Definition mod_port_state (i : nat) (f : port_state -> port_state) : P unit :=
  p ← get;
  if (i <? length (state_ports (poe_state p)))%nat
  then mod_state (fun s => s <| state_ports := alter f i (state_ports s) |>)
  else overrun.

Definition sys_modes : list (option string) :=
  [Some "Semi-auto I2C"; Some "Semi-auto UART"; Some "Auto I2C"; Some "Auto UART"].
Definition sys_mcus : list (option string) :=
  [Some "GigaDevice GD32F310"; Some "GigaDevice GD32E230"; Some "GigaDevice GD32F303";
   Some "GigaDevice GD32E103"].
Definition sys_statuses : list (option string) :=
  [Some "Global Disable pin is de-asserted:No system reset from the previous query cmd:Configuration saved";
   Some "Global Disable pin is de-asserted:No system reset from the previous query cmd:Configuration Dirty";
   Some "Global Disable pin is de-asserted:System reseted:Configuration saved";
   Some "Global Disable pin is de-asserted:System reseted:Configuration Dirty";
   Some "Global Disable Pin is asserted:No system reset from the previous query cmd:Configuration saved";
   Some "Global Disable Pin is asserted:No system reset from the previous query cmd:Configuration Dirty";
   Some "Global Disable Pin is asserted:System reseted:Configuration saved";
   Some "Global Disable Pin is asserted:System reseted:Configuration Dirty"].

Definition poe_reply_status (reply : list Z) : P Z :=
  mod_state (fun s => s
    <| sys_mode := GET_STR (octet reply 2) sys_modes |>
    <| num_detected_ports := octet reply 3 |>
    <| sys_version := octet reply 7 |>
    <| sys_mcu := GET_STR (octet reply 8) sys_mcus |>
    <| sys_status := GET_STR (octet reply 9) sys_statuses |>
    <| sys_ext_version := octet reply 10 |>) ;;
  mret 0.

Definition poe_reply_power_stats (reply : list Z) : P Z :=
  mod_state (fun s => s <| power_consumption :=
    f32_of_f64 (f64_mul (f64_of_Z (read16_be reply 7)) (f64_literal 1 10)) |>) ;;
  mret 0.

Definition poe_modes : list (option string) :=
  [Some "PoE"; Some "Legacy"; Some "pre-PoE+"; Some "PoE+"].

Definition poe_reply_port_ext_config (reply : list Z) : P Z :=
  mod_port_state (Z.to_nat (octet reply 2)) (fun s => s <| poe_mode := GET_STR (octet reply 3) poe_modes |>) ;;
  mret 0.

Definition poe_reply_port_config (reply : list Z) : P Z := mret 0.

Fixpoint reply_4_port_from (n : nat) (i : Z) (reply : list Z) : P Z :=
  match n with
  | O => mret 0
  | S n =>
      let port := octet reply 2 * 4 + i in
      let pstate := octet reply (Z.to_nat (3 + i * 2)) in
      if port =? 0xff then reply_4_port_from n (i + 1) reply
      else if Z.of_nat MAX_PORT <=? port then mret (-1)
      else
        mod_port_state (Z.to_nat port) (fun s => s
          <| status_str := GET_STR (Z.land pstate 0xf) status_table |>
          <| status := Z.land pstate 0xf |>) ;;
        reply_4_port_from n (i + 1) reply
  end.
Definition poe_reply_4_port_status (reply : list Z) : P Z := reply_4_port_from 4 0 reply.

Definition reply_voltage (raw : Z) : float := f32_of_f64 (f64_mul (f64_of_Z raw) (f64_literal 6545 100000)).
Definition reply_temperature (raw : Z) : float :=
  f32_of_f64 (f64_add (f64_mul (f64_of_Z (raw - 120)) (f64_literal (-125) 100)) (f64_of_Z 125)).
Definition reply_watt (raw : Z) : float := f32_of_f64 (f64_mul (f64_of_Z raw) (f64_literal 1 10)).

Definition poe_reply_port_power_stats (reply : list Z) : P Z :=
  mod_port_state (Z.to_nat (octet reply 2)) (fun s => s
    <| voltage := reply_voltage (read16_be reply 3) |>
    <| current := read16_be reply 5 |>
    <| temperature := reply_temperature (read16_be reply 7) |>
    <| watt := reply_watt (read16_be reply 9) |>) ;;
  mret 0.

(** An array of 0x4a pointers, most of them NULL. *)
Definition reply_handler : list (option (list Z -> P Z)) :=
  replicate 0x40 None
  ++ [Some poe_reply_status; Some poe_reply_power_stats; None; Some poe_reply_4_port_status;
      Some poe_reply_port_power_stats; None; None; None; Some poe_reply_port_config;
      Some poe_reply_port_ext_config].

(** ** Reading the line *)

Definition mcu_clear_timeout : P unit := poe_cmd_next ;; mret tt.

Definition handle_poe_f0_reply (c : cmd) : P unit :=
  p ← get;
  if negb (mcu_error_timeout (poe_state p)) then
    let n := num_retries c + 1 in
    if MAX_RETRIES <? n then mret tt
    else
      mod_state (fun s => s <| mcu_error_timeout := true |>) ;;
      put (fun p => p <| cmd_pending := mk_cmd (cmd_cmd c) n :: cmd_pending p |>)
  else put (fun p => p <| cmd_pending := c :: cmd_pending p |>).

(** The handler that belongs to a reply: [None] is an access out of the
    bounds of the array. *)
Definition handler_of (id : Z) : option (list Z -> P Z) :=
  match reply_handler !! Z.to_nat id with
  | Some (Some h) => Some h
  | Some None => Some (fun _ => mret 0)
  | None => None
  end.

Definition poe_reply_consume (reply : list Z) : P Z :=
  p ← get;
  match cmd_pending p with
  | [] => mret (-1)
  | c :: rest =>
      put (fun p => p <| cmd_pending := rest |>) ;;
      if negb (octet reply 11 =? checksum reply) then mret (-1)
      else if Z.land (octet reply 0) 0xf0 =? 0xf0 then handle_poe_f0_reply c ;; mret (-1)
      else
        let cmd_id := rtl_to_bcm_cmd_id (octet (cmd_cmd c) 0) in
        let id := rtl_to_bcm_cmd_id (octet reply 0) in
        if negb (id =? cmd_id) || (Z.of_nat (length reply_handler) <? id) then mret (-1)
        else if negb (octet reply 1 =? octet (cmd_cmd c) 1) then mret (-1)
        else h ← deref_opt (handler_of id); h (<[0%nat := id]> reply)
  end.

(** The stream has read [bytes] and calls back. *)
Definition poe_stream_msg_cb (bytes : list Z) : P unit :=
  put (fun p => p <| rx := rx p ++ bytes |>) ;;
  p ← get;
  if (length (rx p) <? 12)%nat then mret tt
  else
    poe_reply_consume (take 12 (rx p)) ;;
    put (fun p => p <| rx := drop 12 (rx p) |>) ;;
    poe_cmd_next ;;
    mret tt.
