(* ===== verification/PoeDaemon.v ===== *)
(** * The PoE controller (realtek-poe-tfortis/src/main.c): the daemon

    The configuration, the commands that set the controller up, the timers
    and the methods on the bus. The configuration database is the value of
    type [uci] that an operation reads: for each of the two packages, the
    sections with their type and their options ([uci_lookup_option_string]),
    or nothing when the package cannot be loaded. strtof is a parameter. *)

From Stdlib Require Import SpecFloat.
From S2P Require Import Prelude CLib Effect Poe.

(** ** Configuration *)

Record uci_section := mk_uci_section { s_type : list Z; s_option : string -> option (list Z) }.
Record uci := mk_uci { uci_poe : option (list uci_section); uci_port : option (list uci_section) }.

Definition mod_config (f : config -> config) : P unit :=
  put (fun p => p <| poe_config := f (poe_config p) |>).

(** An assignment to members of config.ports[i]. *)
Definition mod_port_config (i : nat) (f : port_config -> port_config) : P unit :=
  p ← get;
  if (i <? length (ports (poe_config p)))%nat
  then mod_config (fun c => c <| ports := alter f i (ports c) |>)
  else overrun.

Definition strtoul_value (s : list Z) (base : Z) : Z := (strtoul s base).1.1.

Definition load_port_config (s : uci_section) : P unit :=
  match s_option s "id", s_option s "name" with
  | Some id_str, Some nm =>
      let id := strtoul_value id_str 0 in
      if (id =? 0) || (Z.of_nat MAX_PORT <? id) then mret tt
      else
        mod_config (fun c => c <| port_count := Nat.max (port_count c) (Z.to_nat id) |>) ;;
        let i := Z.to_nat (id - 1) in
        let prio := match s_option s "priority" with Some v => u8 (strtoul_value v 0) | None => 0 end in
        mod_port_config i (fun p => p
          <| name := strncpy_array 16 nm |> <| valid := true |>
          <| priority := if 3 <? prio then 3 else prio |> <| enable := true |>) ;;
        match s_option s "poe_plus" with
        | Some v => if strcmp_eq v (str "1")
                    then mod_port_config i (fun p => p <| power_up_mode := 3 |>) else mret tt
        | None => mret tt
        end
  | _, _ => mret tt
  end.

Definition load_port_state_config (s : uci_section) (port : nat) : P unit :=
  mod_port_config port (fun p => p <| enable :=
    match s_option s "poe" with Some v => strcmp_eq v (str "enable") | None => false end |>).

Definition empty_port_config : port_config := mk_port_config (replicate 16 0) false false 0 0 0.

Definition of_type (ty : string) (l : list uci_section) : list uci_section :=
  filter (fun s => strcmp_eq (s_type s) (str ty) = true) l.

Section daemon.
Context (strtof : list Z -> float).

Definition load_global_config (s : uci_section) : P unit :=
  mod_config (fun c =>
    let b := match s_option s "budget" with Some v => strtof v | None => f32_of_Z 31 end in
    c <| budget := b |>
      <| budget_guard := match s_option s "guard" with
                         | Some v => strtof v
                         | None => f32_div b (f32_of_Z 10)
                         end |>).

Definition config_load (init : bool) (u : uci) : P unit :=
  mod_config (fun c => c <| ports := replicate MAX_PORT empty_port_config |>) ;;
  (match uci_poe u with
   | Some sections =>
       (if init then for_each_p (of_type "global" sections) load_global_config else mret tt) ;;
       for_each_p (of_type "port" sections) load_port_config
   | None => mret tt
   end) ;;
  match uci_port u with
  | Some sections =>
      for_each_p (zip (of_type "lan" sections) (seq 0 (length sections)))
        (fun '(s, port) => load_port_state_config s port)
  | None => mret tt
  end.

(** The string in the file, when it can be read. *)
Definition get_board_compatible (file : option (list Z)) : option (list Z) :=
  f ← file;
  let name := take 128 f in
  Some (default name (c_string name)).

Definition config_apply_quirks (file : option (list Z)) : P unit :=
  match get_board_compatible file with
  | None => mret tt
  | Some compatible =>
      if strcmp_eq compatible (str "zyxel,gs1900-24hp-v1")
      then mod_config (fun c => c <| pse_id_set_budget_mask := 0xff |>) else mret tt
  end.

(** ** Setting the controller up *)

Definition fill_0xff (l : list Z) : list Z := l ++ replicate (4 - length l) 0xff.

(** The four commands' worth of ports that poet_setup has collected. *)
Definition poet_send_group (ids : list nat) (cfg : list port_config) : P unit :=
  let of_port (f : port_config -> Z) := fill_0xff (map (fun i => f (nth i cfg empty_port_config)) ids) in
  let port_ids := fill_0xff (map Z.of_nat ids) in
  poe_set_port_priority port_ids (of_port priority) ;;
  poe_cmd_port_classification port_ids (of_port (fun _ => 1)) ;;
  poe_cmd_port_power_limit_type port_ids (of_port (fun p => if power_budget p =? 0 then 1 else 2)) ;;
  mret tt.

(** The inner loop: from port [i] on, up to four enabled ports, and the port
    at which it stops. *)
Fixpoint collect_ports (n i okay : nat) (cfg : list port_config) : list nat * nat :=
  match n with
  | O => ([], i)
  | S n =>
      if negb (enable (nth i cfg empty_port_config)) then collect_ports n (S i) okay cfg
      else if Nat.eqb (S okay) 4 then ([i], i)
      else let '(ids, stop) := collect_ports n (S i) (S okay) cfg in (i :: ids, stop)
  end.

(** The outer loop, with a bound on the groups. *)
Fixpoint poet_setup_from (fuel i num_ports : nat) (cfg : list port_config) : P unit :=
  match fuel with
  | O => mret tt
  | S fuel =>
      let '(ids, stop) := collect_ports (num_ports - i) i 0 cfg in
      poet_send_group ids cfg ;;
      if (S stop <? num_ports)%nat then poet_setup_from fuel (S stop) num_ports cfg else mret tt
  end.
Definition poet_setup (cfg : list port_config) (num_ports : nat) : P unit :=
  poet_setup_from (S num_ports) 0 num_ports cfg.

(** config.ports[i] is read. *)
Definition the_port_config (i : nat) : P port_config :=
  p ← get; deref_opt (ports (poe_config p) !! i).

Definition poe_port_setup : P unit :=
  p ← get;
  let n := port_count (poe_config p) in
  for_each_p (seq 0 n) (fun i =>
    c ← the_port_config i;
    if negb (enable c) || (power_budget c =? 0) then mret tt
    else
      poe_cmd_port_disconnect_type (Z.of_nat i) 2 ;;
      poe_cmd_port_detection_type (Z.of_nat i) 3 ;;
      poe_cmd_port_power_budget (Z.of_nat i) (power_budget c) ;;
      mret tt) ;;
  poet_setup (ports (poe_config p)) n ;;
  for_each_p (seq 0 n) (fun i =>
    c ← the_port_config i;
    poe_cmd_port_enable (Z.of_nat i) (Z.b2z (enable c)) ;; mret tt).

Definition poe_set_power_budget : P unit :=
  p ← get;
  let c := poe_config p in
  for_each_p (seq 0 8) (fun pse =>
    if Z.land (pse_id_set_budget_mask c) (Z.shiftl 1 (Z.of_nat pse)) =? 0 then mret tt
    else poe_cmd_global_power_budget (Z.of_nat pse) (budget c) (budget_guard c) ;; mret tt).

Definition poe_initial_setup : P unit :=
  poe_cmd_status ;;
  poe_cmd_power_mgmt_mode 2 ;;
  poe_cmd_port_mapping_enable false ;;
  poe_set_power_budget ;;
  poe_port_setup.

(** ** Polling *)

Definition poll_port (i : nat) : P unit :=
  poe_cmd_port_config (Z.of_nat i) ;;
  poe_cmd_port_ext_config (Z.of_nat i) ;;
  poe_cmd_port_power_stats (Z.of_nat i) ;;
  p ← get;
  s ← deref_opt (state_ports (poe_state p) !! i);
  if negb (status s =? status_old s) then
    put (fun p => p <| port_log := port_log p ++ [(S i, status_str s)] |>) ;;
    mod_port_state i (fun s => s <| status_old := status s |>)
  else mret tt.

(** The groups of four ports: i = 0, 4, ... *)
Definition port_groups (n : nat) : list nat := seq 0 ((n + 3) / 4).

Definition poll_ports : P unit :=
  p ← get;
  let n := port_count (poe_config p) in
  for_each_p (port_groups n) (fun g => poe_cmd_4_port_status (Z.of_nat g) ;; mret tt) ;;
  for_each_p (seq 0 n) poll_port.

Definition state_timeout_cb : P unit := poe_cmd_power_stats ;; poll_ports.

(** ** Methods on the bus *)

(** What a method answers: an error, or the result of the call. *)
Inductive ubus_result := UBUS_STATUS_INVALID_ARGUMENT | Status (r : Z).

Definition ubus_poe_reload_cb (u : uci) : P ubus_result :=
  config_load false u ;; poe_port_setup ;; mret (Status 0).

(** The octets in a string of hexadecimal numbers, at most [n] of them. *)
Fixpoint parse_frame (n : nat) (frame : list Z) : option (list Z) :=
  match n, frame with
  | O, _ | _, [] => Some []
  | S n, _ =>
      let '(v, erange, next) := strtoul frame 16 in
      if erange || (length next =? length frame)%nat || (0xff <? v) then None
      else cons v <$> parse_frame n next
  end.

Definition ubus_poe_sendframe_cb (frame : option (list Z)) : P ubus_result :=
  match frame with
  | None => mret UBUS_STATUS_INVALID_ARGUMENT
  | Some frame =>
      match parse_frame 9 frame with
      | None => mret UBUS_STATUS_INVALID_ARGUMENT
      | Some cmd => Status <$> poe_cmd_queue cmd
      end
  end.

(** The first enabled port with the name, from port [i] on. A comparison
    runs past a name that fills its array. *)
Fixpoint find_port_named (n i : nat) (cfg : list port_config) (port_name : list Z) : P (option nat) :=
  match n with
  | O => mret None
  | S n =>
      port ← deref_opt (cfg !! i);
      if negb (enable port) then find_port_named n (S i) cfg port_name
      else
        same ← deref_opt (strcmp_array port_name (name port));
        if (same : bool) then mret (Some i) else find_port_named n (S i) cfg port_name
  end.

Definition ubus_poe_manage_cb (port_name : option (list Z)) (enable : option bool) : P ubus_result :=
  match port_name, enable with
  | Some port_name, Some enable =>
      p ← get;
      i ← find_port_named (port_count (poe_config p)) 0 (ports (poe_config p)) port_name;
      match i with
      | Some i => Status <$> poe_cmd_port_enable (Z.of_nat i) (Z.b2z enable)
      | None => mret UBUS_STATUS_INVALID_ARGUMENT
      end
  | _, _ => mret UBUS_STATUS_INVALID_ARGUMENT
  end.

(** The answer of the method "info". *)
Record port_info := mk_port_info {
  pi_name : list Z;
  pi_priority : Z;
  pi_mode : option string;
  pi_status : string;
  pi_consumption : option float;
  pi_temperature : option float;
  pi_current : option Z;
  pi_voltage : option float }.
Record poe_info := mk_poe_info {
  firmware : Z * Z;
  mcu : option string;
  info_budget : float;
  consumption : float;
  info_ports : list port_info }.

Definition unless_zero (x : float) : option float := if is_zero x then None else Some x.

Fixpoint info_of_ports (n i : nat) (p : poe) : option (list port_info) :=
  match n with
  | O => Some []
  | S n =>
      c ← ports (poe_config p) !! i;
      rest ← info_of_ports n (S i) p;
      if negb (valid c) then Some rest
      else
        s ← state_ports (poe_state p) !! i;
        nm ← c_string (name c);
        Some (mk_port_info nm (priority c) (poe_mode s) (default "unknown" (status_str s))
                (unless_zero (watt s)) (unless_zero (temperature s))
                (if current s =? 0 then None else Some (u16 (current s)))
                (unless_zero (voltage s)) :: rest)
  end.

Definition ubus_poe_info_cb : P poe_info :=
  p ← get;
  l ← deref_opt (info_of_ports (port_count (poe_config p)) 0 p);
  mret (mk_poe_info (sys_version (poe_state p), sys_ext_version (poe_state p)) (sys_mcu (poe_state p))
          (budget (poe_config p)) (power_consumption (poe_state p)) l).

(** ** The life of the daemon *)

Definition zero_port_state : port_state :=
  mk_port_state None 0 0 (S754_zero false) (S754_zero false) 0 (S754_zero false) None.
Definition initial : poe :=
  mk_poe [] 0
    (mk_state None 0 None None 0 (S754_zero false) 0 (replicate MAX_PORT zero_port_state) false)
    (mk_config (f32_of_Z 65) (f32_of_Z 7) 0 0x01 (replicate MAX_PORT empty_port_config)) [] [] [].

(** main, up to the event loop; the serial line can be opened. *)
Definition main (u : uci) (compatible : option (list Z)) : P unit :=
  config_load true u ;; config_apply_quirks compatible ;; poe_initial_setup.

Inductive event :=
  | E_read (bytes : list Z)
  | E_mcu_timeout
  | E_state_timeout
  | E_reload (u : uci)
  | E_sendframe (frame : option (list Z))
  | E_manage (port : option (list Z)) (enable : option bool)
  | E_info.

(** The event loop clears a timer before it calls back; a timer that is not
    pending does not expire. *)
Definition handle (e : event) : P unit :=
  match e with
  | E_read bytes => poe_stream_msg_cb bytes
  | E_mcu_timeout =>
      p ← get;
      if mcu_error_timeout (poe_state p)
      then mod_state (fun s => s <| mcu_error_timeout := false |>) ;; mcu_clear_timeout
      else mret tt
  | E_state_timeout => state_timeout_cb
  | E_reload u => ubus_poe_reload_cb u ;; mret tt
  | E_sendframe frame => ubus_poe_sendframe_cb frame ;; mret tt
  | E_manage port enable => ubus_poe_manage_cb port enable ;; mret tt
  | E_info => ubus_poe_info_cb ;; mret tt
  end.

Fixpoint handle_all (es : list event) : P unit :=
  match es with
  | [] => mret tt
  | e :: es => handle e ;; handle_all es
  end.
End daemon.
