(* ===== verification/PoeKeeps.v ===== *)
(** * The operations of the PoE daemon keep its invariant

    [calm m]: [m] keeps [base] and does nothing to the queue and the line
    but to put commands at the end. Everything except the reading of the line
    and the timer of the controller is calm. *)

From Stdlib Require Import SpecFloat.
From S2P Require Import Prelude CLib Effect CLibOk Poe PoeDaemon.

(** ** Rules for the PoE daemon, and its invariant

    [base y p]: what is
    kept by every operation; with [y] it includes what holds only when the
    surroundings behave. [queues]: operations that only put commands at the
    end of the queue. *)

(** ** Frames *)

Definition is_octet (x : Z) : Prop := 0 <= x < 256.

(** What the controller accepts: 12 octets, the last one the sum of the others. *)
Definition frame_ok (f : list Z) : Prop :=
  length f = 12%nat /\ Forall is_octet f /\ octet f 11 = checksum f.

Lemma Forall_octet_nth l i : Forall is_octet l -> is_octet (nth i l 0).
Proof.
  intros Hl. destruct (decide (i < length l)%nat).
  - by apply (proj1 (List.Forall_nth _ l) Hl).
  - rewrite nth_overflow by lia. unfold is_octet. lia.
Qed.

Lemma is_octet_u8 x : is_octet (u8 x).
Proof. apply u8_range. Qed.

Lemma octet_eq l i : octet l i = default 0 (l !! i).
Proof. apply nth_lookup. Qed.

Lemma octet_is_octet l i : Forall is_octet l -> is_octet (octet l i).
Proof. apply Forall_octet_nth. Qed.

(** The table is empty, so identifiers are sent as they are. *)
Lemma bcm_to_rtl_id x : bcm_to_rtl_cmd_id x = x.
Proof.
  unfold bcm_to_rtl_cmd_id. assert (close_map bcm_to_rtl_map = replicate 256 0) as -> by (vm_compute; done).
  rewrite nth_lookup. destruct (replicate 256 0 !! Z.to_nat x) as [y|] eqn:Hy; [|done].
  by apply lookup_replicate in Hy as [-> _].
Qed.

Lemma checksum_insert f x : checksum (<[11%nat:=x]> f) = checksum f.
Proof. unfold checksum. by rewrite take_insert_ge by lia. Qed.

Lemma make_frame_ok seq c : Forall is_octet c -> is_octet seq -> frame_ok (make_frame seq c).
Proof.
  intros Hc Hseq. unfold make_frame. set (f := take 12 (c ++ replicate 12 255)).
  assert (length f = 12%nat) as Hl by (unfold f; rewrite length_take, length_app, length_replicate; lia).
  assert (Forall is_octet f) as Hf.
  { apply Forall_take, Forall_app. split; [done|]. apply Forall_replicate. unfold is_octet. lia. }
  rewrite bcm_to_rtl_id. split; [by rewrite !length_insert|]. split.
  - repeat apply Forall_insert; try done; [by apply octet_is_octet|apply is_octet_u8].
  - rewrite checksum_insert, octet_eq, list_lookup_insert_eq by (rewrite !length_insert; lia). done.
Qed.

(** The identifier of a command is its first octet, 0xff when it has none. *)
Lemma make_frame_id seq c : octet (make_frame seq c) 0 = default 255 (c !! 0%nat).
Proof.
  unfold make_frame. set (f := take 12 (c ++ replicate 12 255)).
  assert (length f = 12%nat) as Hl by (unfold f; rewrite length_take, length_app, length_replicate; lia).
  rewrite bcm_to_rtl_id, octet_eq. do 2 rewrite list_lookup_insert_ne by done.
  rewrite list_lookup_insert_eq by lia. simpl. unfold f. rewrite octet_eq.
  by destruct c.
Qed.

Lemma make_frame_seq seq c : octet (make_frame seq c) 1 = seq.
Proof.
  unfold make_frame. set (f := take 12 (c ++ replicate 12 255)).
  assert (length f = 12%nat) as Hl by (unfold f; rewrite length_take, length_app, length_replicate; lia).
  rewrite octet_eq, list_lookup_insert_ne by done.
  by rewrite list_lookup_insert_eq by (rewrite length_insert; lia).
Qed.

(** ** The invariant *)

Definition cmd_ok (y : bool) (c : cmd) : Prop :=
  frame_ok (cmd_cmd c) /\ 0 <= num_retries c <= MAX_RETRIES
  /\ (y = true -> octet (cmd_cmd c) 0 <> 0x4a).

Definition port_ok (y : bool) (c : port_config) : Prop :=
  0 <= priority c <= 3 /\ power_budget c = 0 /\ length (name c) = 16%nat
  /\ (y = true -> 0 ∈ name c).

Record base (y : bool) (p : poe) : Prop := {
  b_queue : Forall (cmd_ok y) (cmd_pending p);
  b_tx : Forall frame_ok (tx p);
  b_ports : length (ports (poe_config p)) = MAX_PORT;
  b_port : Forall (port_ok y) (ports (poe_config p));
  b_count : (port_count (poe_config p) <= MAX_PORT)%nat;
  b_state : length (state_ports (poe_state p)) = MAX_PORT }.

(** What an operation that only queues commands does to the queue and the line. *)
Definition queues (p p' : poe) : Prop :=
  exists added,
    cmd_pending p' = cmd_pending p ++ added
    /\ Forall (fun c => num_retries c = 0) added
    /\ rx p' = rx p
    /\ mcu_error_timeout (poe_state p') = mcu_error_timeout (poe_state p)
    /\ tx p' = tx p ++ (if mcu_error_timeout (poe_state p) then []
                        else match cmd_pending p, added with
                             | [], c :: _ => [cmd_cmd c]
                             | _, _ => []
                             end).

#[export] Instance queues_preorder : PreOrder queues.
Proof.
  split.
  - intros p. exists []. rewrite app_nil_r. do 3 (split; [done|]). split; [done|].
    destruct (mcu_error_timeout (poe_state p)), (cmd_pending p); by rewrite app_nil_r.
  - intros p q r (a & Hq & Ha & Hrx & Hm & Htx) (a' & Hq' & Ha' & Hrx' & Hm' & Htx'). exists (a ++ a').
    rewrite Hq', Hq, Hrx', Hrx, Hm', Hm, Htx', Htx, Hm, Hq, !app_assoc_reverse. split; [done|].
    split; [by apply Forall_app|]. do 2 (split; [done|]). f_equal.
    destruct (mcu_error_timeout (poe_state p)), (cmd_pending p), a, a'; by simpl.
Qed.

Lemma is_octet_small x : 0 <= x < 256 -> is_octet x.
Proof. done. Qed.
Lemma is_octet_of_nat i : (i <= MAX_PORT)%nat -> is_octet (Z.of_nat i).
Proof. unfold is_octet, MAX_PORT. lia. Qed.
Lemma is_octet_b2z b : is_octet (Z.b2z b).
Proof. unfold is_octet. destruct b; simpl; lia. Qed.
Lemma write16_be_octets v : Forall is_octet (write16_be v).
Proof.
  unfold write16_be. constructor; [apply is_octet_u8|]. constructor; [|constructor].
  change 0xff with (Z.ones 8). rewrite Z.land_ones by lia. unfold is_octet.
  pose proof (Z.mod_pos_bound v (2 ^ 8) eq_refl). lia.
Qed.
Create HintDb octets.
#[export] Hint Resolve is_octet_of_nat is_octet_b2z is_octet_u8 octet_is_octet : octets.
#[export] Hint Extern 1 (is_octet _) => apply is_octet_small; lia : octets.

(** Closes the conditions of [calm_queue] for a command given octet by octet. *)
Ltac octets := repeat first [apply List.Forall_nil | apply List.Forall_cons]; auto with octets.

Section keeps.
Context (t y : bool) (Hty : t = true -> y = true).

Definition calm {A} (m : P A) : Prop :=
  forall p, base y p -> spec t m (fun _ p' => base y p' /\ queues p p') p.

Lemma calm_ret {A} (a : A) : calm (mret a).
Proof. intros p Hp. by apply spec_ret. Qed.

Lemma calm_bind {A B} (m : P A) (k : A -> P B) : calm m -> (forall a, calm (k a)) -> calm (m ≫= k).
Proof.
  intros Hm Hk p Hp. apply spec_bind. eapply spec_mono; [by apply Hm|].
  intros a p' [Hp' Hq]. eapply spec_mono; [by apply Hk|].
  intros b p'' [Hp'' Hq']. split; [done|]. by transitivity p'.
Qed.

Lemma calm_fmap {A B} (f : A -> B) (m : P A) : calm m -> calm (f <$> m).
Proof. intros Hm. unfold fmap, ST_fmap. apply calm_bind; [done|]. intros a. apply calm_ret. Qed.

Lemma calm_get {A} (k : poe -> P A) : (forall q, base y q -> calm (k q)) -> calm (get ≫= k).
Proof. intros Hk p Hp. apply spec_bind, spec_get. by apply Hk. Qed.

Lemma calm_for_each {A} (l : list A) f : (forall x, x ∈ l -> calm (f x)) -> calm (for_each_p l f).
Proof.
  intros Hf p Hp. apply (spec_for_each _ _ _ (fun p' => base y p' /\ queues p p')); [done|].
  intros x p' Hx [Hp' Hq]. eapply spec_mono; [by apply Hf|].
  intros [] p'' [Hp'' Hq']. split; [done|]. by transitivity p'.
Qed.

Lemma calm_deref {A} (o : option A) : (t = true -> is_Some o) -> calm (deref_opt o).
Proof. intros Ho p Hp. by apply spec_deref. Qed.

Lemma calm_read {A B} (o : option A) (k : A -> P B) :
  (t = true -> is_Some o) -> (forall a, o = Some a -> calm (k a)) -> calm (deref_opt o ≫= k).
Proof.
  intros Ho Hk p Hp. apply spec_bind, spec_deref; [done|]. intros a Ha. by apply Hk.
Qed.

(** Operations that leave the queue and the line alone. *)
Definition same_line (p p' : poe) : Prop :=
  cmd_pending p' = cmd_pending p /\ rx p' = rx p /\ tx p' = tx p
  /\ mcu_error_timeout (poe_state p') = mcu_error_timeout (poe_state p).

Definition still {A} (m : P A) : Prop :=
  forall p, base y p -> spec t m (fun _ p' => base y p' /\ same_line p p') p.

Lemma same_line_queues p p' : same_line p p' -> queues p p'.
Proof.
  intros (Hq & Hr & Ht & Hm). exists []. rewrite Hq, Hr, Ht, !app_nil_r. do 4 (split; [done|]).
  by destruct (mcu_error_timeout (poe_state p)), (cmd_pending p); rewrite app_nil_r.
Qed.

Lemma calm_still {A} (m : P A) : still m -> calm m.
Proof.
  intros Hm p Hp. eapply spec_mono; [by apply Hm|]. intros a p' [Hp' Hs].
  split; [done|]. by apply same_line_queues.
Qed.

Lemma still_ret {A} (a : A) : still (mret a).
Proof. intros p Hp. by apply spec_ret. Qed.

Lemma still_bind {A B} (m : P A) (k : A -> P B) : still m -> (forall a, still (k a)) -> still (m ≫= k).
Proof.
  intros Hm Hk p Hp. apply spec_bind. eapply spec_mono; [by apply Hm|].
  intros a p' [Hp' (H1 & H2 & H3 & H4)]. eapply spec_mono; [by apply Hk|].
  intros b p'' [Hp'' (H1' & H2' & H3' & H4')]. split; [done|].
  repeat split; congruence.
Qed.

Lemma still_get {A} (k : poe -> P A) : (forall q, base y q -> still (k q)) -> still (get ≫= k).
Proof. intros Hk p Hp. apply spec_bind, spec_get. by apply Hk. Qed.

Lemma still_put f : (forall p, base y p -> base y (f p) /\ same_line p (f p)) -> still (put f).
Proof. intros Hf p Hp. apply spec_put. by apply Hf. Qed.

Lemma still_mod_state f :
  (forall s, state_ports (f s) = state_ports s /\ mcu_error_timeout (f s) = mcu_error_timeout s) ->
  still (mod_state f).
Proof.
  intros Hf. apply still_put. intros p [Hq Htx Hl Hpo Hn Hs]. destruct (Hf (poe_state p)) as [Hsp Hm].
  unfold same_line. upd_simpl. split; [constructor; upd_simpl; congruence|]. by rewrite Hm.
Qed.

Lemma still_mod_port_state i f : (t = true -> (i < MAX_PORT)%nat) -> still (mod_port_state i f).
Proof.
  clear Hty. intros Hi. apply still_get. intros q Hq. case_match eqn:Hlt.
  - apply still_put. intros p [Hqu Htx Hl Hpo Hn Hs]. unfold same_line. upd_simpl.
    split; [|done]. constructor; upd_simpl; try done. by rewrite length_alter.
  - intros p _. apply spec_overrun. destruct t; [|done]. specialize (Hi eq_refl).
    apply Nat.ltb_ge in Hlt. rewrite (b_state y q Hq) in Hlt. lia.
Qed.

(** ** The queue *)

Lemma calm_queue c :
  (length c <= 12)%nat -> Forall is_octet c -> (y = true -> c !! 0%nat <> Some 0x4a) ->
  calm (poe_cmd_queue c).
Proof.
  intros Hlen Hc Hid p Hp. unfold poe_cmd_queue.
  replace (12 <? length c)%nat with false by (symmetry; apply Nat.ltb_ge; lia).
  apply spec_bind, spec_get. cbv zeta. set (fr := make_frame (u8 (cmd_seq p + 1)) c).
  apply spec_bind, spec_put.
  assert (cmd_ok y (mk_cmd fr 0)) as Hok.
  { split; [apply make_frame_ok; [done|apply is_octet_u8]|]. split; [simpl; unfold MAX_RETRIES; lia|].
    intros Hy. simpl. unfold fr. rewrite make_frame_id. specialize (Hid Hy).
    destruct (c !! 0%nat) as [z|]; simpl; [intros ->; by apply Hid|done]. }
  destruct Hp as [Hq Htx Hl Hpo Hn Hs].
  assert (Forall (cmd_ok y) (cmd_pending p ++ [mk_cmd fr 0])) as Hq'
    by (apply Forall_app; split; [done|by apply Forall_singleton]).
  destruct (cmd_pending p) as [|h l] eqn:Hpend.
  - unfold poe_cmd_send. apply spec_bind, spec_get. upd_simpl.
    destruct (mcu_error_timeout (poe_state p)) eqn:Hm.
    + apply spec_ret. split; [by constructor|]. exists [mk_cmd fr 0]. upd_simpl.
      rewrite Hpend, Hm, app_nil_r. repeat split. by apply Forall_singleton.
    + apply spec_bind, spec_put, spec_ret. split.
      * constructor; upd_simpl; try done. apply Forall_app. split; [done|]. apply Forall_singleton, Hok.
      * exists [mk_cmd fr 0]. upd_simpl. rewrite Hpend, Hm. repeat split. by apply Forall_singleton.
  - apply spec_ret. split; [by constructor|]. exists [mk_cmd fr 0]. upd_simpl.
    rewrite Hpend. repeat split; [by apply Forall_singleton|]. by destruct (mcu_error_timeout (poe_state p)); rewrite app_nil_r.
Qed.

Lemma calm_cmd_4_port id port data :
  is_octet id -> id <> 0x4a -> Forall is_octet port -> Forall is_octet data ->
  calm (poet_cmd_4_port id port data).
Proof.
  intros. apply calm_queue; [simpl; lia|by octets|]. intros _. simpl. congruence.
Qed.

Lemma calm_cmd_1 id a : is_octet id -> id <> 0x4a -> is_octet a -> calm (poe_cmd_queue [id; 0x00; a]).
Proof. intros. apply calm_queue; [simpl; lia|by octets|]. intros _. simpl. congruence. Qed.

Lemma calm_cmd_2 id a b :
  is_octet id -> id <> 0x4a -> is_octet a -> is_octet b -> calm (poe_cmd_queue [id; 0x00; a; b]).
Proof. intros. apply calm_queue; [simpl; lia|by octets|]. intros _. simpl. congruence. Qed.

Lemma calm_cmd_0 id : is_octet id -> id <> 0x4a -> calm (poe_cmd_queue [id]).
Proof. intros. apply calm_queue; [simpl; lia|by octets|]. intros _. simpl. congruence. Qed.

Lemma calm_global_power_budget pse bud guard :
  t = false -> is_octet pse -> calm (poe_cmd_global_power_budget pse bud guard).
Proof.
  intros Ht Hp. apply calm_read; [congruence|]. intros b _. apply calm_read; [congruence|]. intros g _.
  apply calm_queue; [simpl; lia| |by intros _].
  apply Forall_app. split; [by octets|]. apply Forall_app. split; apply write16_be_octets.
Qed.

(** ** The state and the configuration *)

Definition config_ok (c : config) : Prop :=
  length (ports c) = MAX_PORT /\ Forall (port_ok y) (ports c) /\ (port_count c <= MAX_PORT)%nat.

Lemma calm_mod_config f : (forall c, config_ok c -> config_ok (f c)) -> calm (mod_config f).
Proof.
  intros Hf. apply calm_still, still_put. intros p [Hq Htx Hl Hpo Hn Hs]. unfold same_line. upd_simpl.
  destruct (Hf (poe_config p) ltac:(done)) as (H1 & H2 & H3). split; [|done]. by constructor; upd_simpl.
Qed.

Lemma calm_mod_port_config i f :
  (t = true -> (i < MAX_PORT)%nat) -> (forall c, port_ok y c -> port_ok y (f c)) ->
  calm (mod_port_config i f).
Proof.
  intros Hi Hf. apply calm_get. intros q Hq. case_match eqn:Hlt.
  - apply calm_mod_config. intros c (Hl & Hpo & Hn). split; [by upd_simpl; rewrite length_alter|].
    upd_simpl. split; [|done]. apply Forall_alter; [done|]. intros x _. apply Hf.
  - intros p _. apply spec_overrun. destruct t; [|done]. specialize (Hi eq_refl).
    apply Nat.ltb_ge in Hlt. rewrite (b_ports y q Hq) in Hlt. lia.
Qed.

(** ** Loading the configuration *)

(** Names fit their array, and the second package has a section for each port
    at most. *)
Definition uci_ok (u : uci) : Prop :=
  (forall l s nm, uci_poe u = Some l -> s ∈ l -> s_option s "name" = Some nm -> (length nm < 16)%nat)
  /\ (forall l, uci_port u = Some l -> (length (of_type "lan" l) <= MAX_PORT)%nat).

Lemma port_ok_empty : port_ok y empty_port_config.
Proof.
  split; [simpl; lia|]. split; [done|]. split; [done|]. intros _. by left.
Qed.

Lemma port_ok_nth cfg i : Forall (port_ok y) cfg -> port_ok y (nth i cfg empty_port_config).
Proof.
  intros Hc. destruct (nth_in_or_default i cfg empty_port_config) as [Hin| ->]; [|apply port_ok_empty].
  rewrite List.Forall_forall in Hc. by apply Hc.
Qed.

Lemma clamp_3 x : 0 <= x -> 0 <= (if 3 <? x then 3 else x) <= 3.
Proof. intros. case_match; bool_hyps; lia. Qed.

Lemma calm_load_port_config s :
  (y = true -> forall nm, s_option s "name" = Some nm -> (length nm < 16)%nat) ->
  calm (load_port_config s).
Proof.
  intros Hs. unfold load_port_config. destruct (s_option s "id") as [id_str|]; [|apply calm_ret].
  destruct (s_option s "name") as [nm|]; [|apply calm_ret].
  unfold strtoul_value. destruct (strtoul id_str 0) as [[id e] rest] eqn:Hid. simpl.
  apply strtoul_range in Hid; [|lia]. case_match eqn:Hg; [apply calm_ret|]. bool_hyps.
  assert (Z.to_nat (id - 1) < MAX_PORT)%nat as Hi by (unfold MAX_PORT in *; lia).
  apply calm_bind; [|intros _; apply calm_bind; [|intros _]].
  - apply calm_mod_config. intros c (H1 & H2 & H3). unfold config_ok. upd_simpl.
    split; [done|]. split; [done|]. unfold MAX_PORT in *. lia.
  - apply calm_mod_port_config; [done|]. intros c (_ & Hb & _). unfold port_ok. upd_simpl.
    split; [|split; [done|]; split; [apply length_strncpy_array|]].
    + apply clamp_3. destruct (s_option s "priority"); [apply u8_range|done].
    + intros Hy. apply strncpy_array_terminated. by apply Hs.
  - case_match; [|apply calm_ret]. case_match; [|apply calm_ret].
    apply calm_mod_port_config; [done|]. intros c Hc. exact Hc.
Qed.

Lemma calm_load_port_state_config s i :
  (t = true -> (i < MAX_PORT)%nat) -> calm (load_port_state_config s i).
Proof. intros Hi. apply calm_mod_port_config; [done|]. intros c Hc. exact Hc. Qed.

Lemma elem_of_of_type ty s l : s ∈ of_type ty l -> s ∈ l.
Proof. unfold of_type. by intros [_ H]%list_elem_of_filter. Qed.

Lemma calm_config_load strtof init u : (y = true -> uci_ok u) -> calm (config_load strtof init u).
Proof.
  intros Hu. unfold config_load. apply calm_bind; [|intros _; apply calm_bind; [|intros _]].
  - apply calm_mod_config. intros c (_ & _ & H3). unfold config_ok. upd_simpl.
    split; [done|]. split; [|done]. apply Forall_replicate, port_ok_empty.
  - destruct (uci_poe u) as [l|] eqn:Hl; [|apply calm_ret]. apply calm_bind; [|intros _].
    + case_match; [|apply calm_ret]. apply calm_for_each. intros s _. apply calm_mod_config.
      intros c Hc. exact Hc.
    + apply calm_for_each. intros s Hs%elem_of_of_type. apply calm_load_port_config.
      intros Hy nm Hnm. destruct (Hu Hy) as [Hnames _]. by eapply Hnames.
  - destruct (uci_port u) as [l|] eqn:Hl; [|apply calm_ret]. apply calm_for_each.
    intros [s i] Hin. apply calm_load_port_state_config. intros Ht. destruct (Hu (Hty Ht)) as [_ Hlan].
    specialize (Hlan l Hl). apply list_elem_of_lookup in Hin as [k Hk].
    rewrite lookup_zip_with in Hk. apply bind_Some in Hk as (s' & Hs' & Hk).
    apply bind_Some in Hk as (i' & Hi' & Hk). simplify_eq. apply lookup_seq in Hi' as [-> _].
    apply lookup_lt_Some in Hs'. lia.
Qed.

Lemma calm_config_apply_quirks file : calm (config_apply_quirks file).
Proof.
  unfold config_apply_quirks. case_match; [|apply calm_ret]. case_match; [|apply calm_ret].
  apply calm_mod_config. intros c Hc. exact Hc.
Qed.

(** ** Commands for all ports *)

Lemma length_fill_0xff l : (length l <= 4)%nat -> length (fill_0xff l) = 4%nat.
Proof. intros. unfold fill_0xff. rewrite length_app, length_replicate. lia. Qed.

Lemma fill_0xff_octets l : Forall is_octet l -> Forall is_octet (fill_0xff l).
Proof.
  intros Hl. apply Forall_app. split; [done|]. apply Forall_replicate. by apply is_octet_small.
Qed.

Lemma fill_map_octets {A} (f : A -> Z) l : Forall (fun x => is_octet (f x)) l -> Forall is_octet (fill_0xff (map f l)).
Proof. intros Hl. apply fill_0xff_octets. by apply Forall_map. Qed.

Lemma calm_poet_send_group ids cfg :
  Forall (port_ok y) cfg -> Forall (fun i => i < MAX_PORT)%nat ids -> calm (poet_send_group ids cfg).
Proof.
  intros Hcfg Hids. unfold poet_send_group. cbv zeta.
  assert (forall f : nat -> Z, (forall i, is_octet (f i)) -> Forall is_octet (fill_0xff (map f ids))) as Hf.
  { intros f Hf. apply fill_map_octets, Forall_true, Hf. }
  assert (Forall is_octet (fill_0xff (map Z.of_nat ids))).
  { apply fill_map_octets. eapply Forall_impl; [|exact Hids]. simpl. intros i Hi.
    apply is_octet_of_nat. unfold MAX_PORT in *. lia. }
  repeat (apply calm_bind; [|intros _]); try apply calm_ret; apply calm_cmd_4_port; try done;
    try (by apply is_octet_small); apply Hf; intros i.
  - destruct (port_ok_nth cfg i Hcfg) as [Hp _]. apply is_octet_small. lia.
  - by apply is_octet_small.
  - case_match; by apply is_octet_small.
Qed.

Lemma collect_ports_range n i okay cfg :
  let '(ids, stop) := collect_ports n i okay cfg in
  Forall (fun j => i <= j < i + n)%nat ids /\ (i <= stop <= i + n)%nat.
Proof.
  revert i okay. induction n as [|n IH]; intros i okay; cbn [collect_ports]; [split; [done|lia]|].
  destruct (enable _); cbn [negb].
  - destruct (Nat.eqb _ 4); [split; [constructor; [lia|done]|lia]|].
    specialize (IH (S i) (S okay)). destruct (collect_ports _ _ _ _) as [ids stop].
    destruct IH as [Hids Hstop]. split; [|lia]. constructor; [lia|].
    eapply Forall_impl; [|exact Hids]. simpl. lia.
  - specialize (IH (S i) okay). destruct (collect_ports _ _ _ _) as [ids stop].
    destruct IH as [Hids Hstop]. split; [|lia]. eapply Forall_impl; [|exact Hids]. simpl. lia.
Qed.

Lemma calm_poet_setup cfg n : Forall (port_ok y) cfg -> (n <= MAX_PORT)%nat -> calm (poet_setup cfg n).
Proof.
  intros Hcfg Hn. unfold poet_setup. generalize (S n) as fuel.
  assert (0 <= n)%nat as Hi by lia. revert Hi. generalize 0%nat as i.
  intros i Hi fuel. revert i Hi. induction fuel as [|fuel IH]; intros i Hi; [apply calm_ret|].
  simpl. pose proof (collect_ports_range (n - i) i 0 cfg) as H.
  destruct (collect_ports _ _ _ _) as [ids stop]. destruct H as [Hids Hstop].
  apply calm_bind; [apply calm_poet_send_group; [done|]|intros _].
  - eapply Forall_impl; [|exact Hids]. simpl. lia.
  - case_match eqn:Hlt; [|apply calm_ret]. apply Nat.ltb_lt in Hlt. apply IH. lia.
Qed.

Lemma calm_the_port_config {A} i (k : port_config -> P A) :
  (i < MAX_PORT)%nat -> (forall c, port_ok y c -> calm (k c)) -> calm (the_port_config i ≫= k).
Proof.
  intros Hi Hk p Hp. unfold the_port_config. apply spec_bind, spec_bind, spec_get, spec_deref.
  - intros _. apply lookup_lt_is_Some. rewrite (b_ports y p Hp). done.
  - intros c Hc. apply Hk; [|done]. eapply Forall_lookup_1; [|exact Hc]. apply (b_port y p Hp).
Qed.

Lemma calm_poe_port_setup : calm poe_port_setup.
Proof.
  apply calm_get. intros q [_ _ _ Hpo Hn _]. cbv zeta.
  assert (forall i, i ∈ seq 0 (port_count (poe_config q)) -> (i < MAX_PORT)%nat) as Hseq.
  { intros i Hi. apply elem_of_seq in Hi. lia. }
  apply calm_bind; [|intros _; apply calm_bind; [by apply calm_poet_setup|intros _]]; apply calm_for_each;
    intros i Hi%Hseq; apply calm_the_port_config; try done; intros c Hc.
  - destruct Hc as (_ & Hb & _). rewrite Hb. rewrite orb_true_r. apply calm_ret.
  - apply calm_bind; [|intros _; apply calm_ret]. apply calm_cmd_2; [by apply is_octet_small|done|apply is_octet_of_nat; lia|apply is_octet_b2z].
Qed.

Lemma calm_poe_initial_setup : t = false -> calm poe_initial_setup.
Proof.
  intros Ht. unfold poe_initial_setup. repeat (apply calm_bind; [|intros _]).
  - by apply calm_cmd_0; [apply is_octet_small|].
  - by apply calm_cmd_1; [apply is_octet_small| |apply is_octet_small].
  - apply calm_cmd_1; [by apply is_octet_small|done|apply (is_octet_b2z false)].
  - apply calm_get. intros q _. cbv zeta. apply calm_for_each. intros i Hi%elem_of_seq.
    case_match; [apply calm_ret|]. apply calm_bind; [|intros _; apply calm_ret].
    apply calm_global_power_budget; [done|]. apply is_octet_small. lia.
  - apply calm_poe_port_setup.
Qed.

Lemma calm_main strtof u file : t = false -> (y = true -> uci_ok u) -> calm (main strtof u file).
Proof.
  intros Ht Hu. apply calm_bind; [by apply calm_config_load|intros _].
  apply calm_bind; [apply calm_config_apply_quirks|intros _]. by apply calm_poe_initial_setup.
Qed.

(** ** Polling and methods *)

Lemma calm_poll_port i : (i < MAX_PORT)%nat -> calm (poll_port i).
Proof.
  intros Hi. assert (is_octet (Z.of_nat i)) by (apply is_octet_of_nat; lia).
  unfold poll_port. do 3 (apply calm_bind; [by apply calm_cmd_1; [apply is_octet_small| |]|intros _]).
  intros p Hp. apply spec_bind, spec_get, spec_bind, spec_deref.
  - intros _. apply lookup_lt_is_Some. by rewrite (b_state y p Hp).
  - intros s Hs. revert p Hp Hs. intros p Hp _. revert p Hp.
    change (calm (if negb (status s =? status_old s) then
      put (fun p => p <| port_log := port_log p ++ [(S i, status_str s)] |>) ;;
      mod_port_state i (fun s => s <| status_old := status s |>) else mret tt)).
    case_match; [|apply calm_ret]. apply calm_still, still_bind; [|intros _; by apply still_mod_port_state].
    apply still_put. intros p [Hq Htx Hl Hpo Hn Hsp]. unfold same_line. upd_simpl. split; [|done]. by constructor; upd_simpl.
Qed.

Lemma calm_poll_ports : calm poll_ports.
Proof.
  apply calm_get. intros q [_ _ _ _ Hn _]. cbv zeta. apply calm_bind; [|intros _].
  - apply calm_for_each. intros g Hg%elem_of_seq. apply calm_bind; [|intros _; apply calm_ret].
    apply calm_cmd_1; [by apply is_octet_small|done|]. apply is_octet_of_nat.
    assert ((port_count (poe_config q) + 3) / 4 <= (MAX_PORT + 3) / 4)%nat
      by (apply Nat.Div0.div_le_mono; lia).
    change ((MAX_PORT + 3) / 4)%nat with 6%nat in *. unfold MAX_PORT. lia.
  - apply calm_for_each. intros i Hi%elem_of_seq. apply calm_poll_port. lia.
Qed.

Lemma calm_power_stats : calm poe_cmd_power_stats.
Proof. by apply calm_cmd_0; [apply is_octet_small|]. Qed.

Lemma calm_state_timeout : calm state_timeout_cb.
Proof. apply calm_bind; [apply calm_power_stats|intros _; apply calm_poll_ports]. Qed.

Lemma calm_reload strtof u : (y = true -> uci_ok u) -> calm (ubus_poe_reload_cb strtof u).
Proof.
  intros Hu. apply calm_bind; [by apply calm_config_load|intros _].
  apply calm_bind; [apply calm_poe_port_setup|intros _]. apply calm_ret.
Qed.

Lemma parse_frame_octets n frame l : parse_frame n frame = Some l -> Forall is_octet l /\ (length l <= n)%nat.
Proof.
  revert frame l. induction n as [|n IH]; intros frame l; simpl.
  - intros [=<-]. by split.
  - destruct frame as [|c frame]; [intros [=<-]; split; [done|simpl; lia]|].
    destruct (strtoul (c :: frame) 16) as [[v e] next] eqn:Hv. apply strtoul_range in Hv; [|lia].
    case_match eqn:Hg; [done|]. intros Heq. apply fmap_Some in Heq as (l' & Hl' & ->). apply orb_false_iff in Hg as [_ Hg].
    apply Z.ltb_ge in Hg. apply IH in Hl' as [Hoct Hlen]. split; [|simpl; lia].
    constructor; [|done]. unfold is_octet. lia.
Qed.

Lemma calm_sendframe frame :
  (y = true -> forall f l, frame = Some f -> parse_frame 9 f <> Some (0x4a :: l)) ->
  calm (ubus_poe_sendframe_cb frame).
Proof.
  intros Hy. unfold ubus_poe_sendframe_cb. destruct frame as [f|]; [|apply calm_ret].
  destruct (parse_frame 9 f) as [l|] eqn:Hl; [|apply calm_ret]. apply calm_fmap.
  pose proof (parse_frame_octets _ _ _ Hl) as [Ho Hlen]. apply calm_queue; [lia|done|].
  intros Hy'. specialize (Hy Hy' f). destruct l as [|x l]; [done|]. intros [=->]. by apply (Hy l eq_refl).
Qed.

Lemma spec_find_port n i cfg nm p :
  (t = true -> (i + n <= length cfg)%nat /\ Forall (port_ok y) cfg) ->
  spec t (find_port_named n i cfg nm)
    (fun r p' => p' = p /\ match r with Some j => (i <= j < i + n)%nat | None => True end) p.
Proof.
  revert i. induction n as [|n IH]; intros i Ht; [by apply spec_ret|].
  simpl. apply spec_bind, spec_deref.
  { intros Ht'. apply lookup_lt_is_Some. destruct (Ht Ht') as [H _]. lia. }
  intros c Hc. assert (t = true -> (S i + n <= length cfg)%nat /\ Forall (port_ok y) cfg) as Ht'.
  { intros H. destruct (Ht H). split; [lia|done]. }
  assert (spec t (find_port_named n (S i) cfg nm)
    (fun r p' => p' = p /\ match r with Some j => (i <= j < i + S n)%nat | None => True end) p) as Hrec.
  { eapply spec_mono; [by apply IH|]. intros r p' [-> Hr]. split; [done|]. destruct r; [lia|done]. }
  case_match; [exact Hrec|]. apply spec_bind, spec_deref.
  - intros H'. destruct (Ht H') as [_ Hok]. apply strcmp_array_terminated.
    assert (port_ok y c) as (_ & _ & _ & Hz) by by eapply Forall_lookup_1. by apply Hz, Hty.
  - intros same _. destruct same; [|exact Hrec]. apply spec_ret. split; [done|]. lia.
Qed.

Lemma calm_manage nm e : calm (ubus_poe_manage_cb nm e).
Proof.
  unfold ubus_poe_manage_cb. destruct nm as [nm|]; [|apply calm_ret]. destruct e as [e|]; [|apply calm_ret].
  intros p Hp. pose proof Hp as [_ _ Hl Hpo Hn _]. apply spec_bind, spec_get, spec_bind.
  eapply spec_mono; [apply spec_find_port|].
  - intros _. split; [lia|done].
  - intros r p' [-> Hr]. destruct r as [i|]; [|by apply calm_ret]. apply calm_fmap; [|done].
    apply calm_cmd_2; [by apply is_octet_small|done|apply is_octet_of_nat; lia|apply is_octet_b2z].
Qed.

Lemma info_of_ports_some n i p :
  base true p -> (i + n <= MAX_PORT)%nat -> is_Some (info_of_ports n i p).
Proof.
  intros Hp. revert i. induction n as [|n IH]; intros i Hi; simpl; [by eexists|].
  destruct (lookup_lt_is_Some_2 (ports (poe_config p)) i) as [c Hc]; [rewrite (b_ports _ p Hp); lia|].
  rewrite Hc. simpl. destruct (IH (S i)) as [rest Hrest]; [lia|]. rewrite Hrest. simpl.
  case_match; [by eexists|].
  destruct (lookup_lt_is_Some_2 (state_ports (poe_state p)) i) as [s Hs]; [rewrite (b_state _ p Hp); lia|].
  rewrite Hs. simpl. assert (port_ok true c) as (_ & _ & _ & Hz)
    by (eapply Forall_lookup_1; [apply (b_port _ p Hp)|exact Hc]).
  destruct (proj1 (c_string_terminated (name c)) (Hz eq_refl)) as [nm Hnm]. rewrite Hnm. by eexists.
Qed.

Lemma calm_info : calm ubus_poe_info_cb.
Proof.
  intros p Hp. apply spec_bind, spec_get, spec_bind, spec_deref.
  - intros Ht. specialize (Hty Ht). subst y. apply info_of_ports_some; [done|]. apply (b_count _ p Hp).
  - intros l _. by apply calm_ret.
Qed.
End keeps.
