(* ===== verification/PoeProtocol.v ===== *)
(** * The PoE daemon implements stop-and-wait

    The abstract protocol: a queue of commands, of which the first is with
    the controller, and a pause after a rejected command. [line_step] says
    what each event does to it. The daemon refines it: what it writes to the
    line is what the protocol sends. *)

From Stdlib Require Import SpecFloat.
From S2P Require Import Prelude CLib Effect CLibOk Poe PoeDaemon PoeKeeps.

(** ** The protocol *)

Record line := mk_line { queue : list cmd; pause : bool; sent : list (list Z) }.

Definition line_of (p : poe) : line :=
  mk_line (cmd_pending p) (mcu_error_timeout (poe_state p)) (tx p).

(** The first command goes to the controller. *)
Definition send_first (l : line) : line :=
  match queue l, pause l with
  | c :: _, false => mk_line (queue l) false (sent l ++ [cmd_cmd c])
  | _, _ => l
  end.

Definition enqueue (cs : list cmd) (l : line) : line :=
  let l' := mk_line (queue l ++ cs) (pause l) (sent l) in
  match queue l with [] => send_first l' | _ => l' end.

Definition intact (reply : list Z) : bool := octet reply 11 =? checksum reply.
Definition rejects (reply : list Z) : bool := Z.land (octet reply 0) 0xf0 =? 0xf0.

(** A reply ends the first command. When it says that the controller rejects
    the command, the command stays for MAX_RETRIES more attempts. *)
Definition settle (reply : list Z) (l : line) : line :=
  match queue l with
  | [] => l
  | c :: rest =>
      if negb (intact reply) || negb (rejects reply) then mk_line rest (pause l) (sent l)
      else if pause l then l
      else if MAX_RETRIES <=? num_retries c then mk_line rest false (sent l)
      else mk_line (mk_cmd (cmd_cmd c) (num_retries c + 1) :: rest) true (sent l)
  end.

(** What an event does to the line; [buffered] is what has been read so far. *)
Inductive line_step (buffered : list Z) : event -> line -> line -> Prop :=
  | step_partial bytes l :
      (length (buffered ++ bytes) < 12)%nat -> line_step buffered (E_read bytes) l l
  | step_reply bytes l :
      (12 <= length (buffered ++ bytes))%nat ->
      line_step buffered (E_read bytes) l (send_first (settle (take 12 (buffered ++ bytes)) l))
  | step_timer l :
      pause l = true -> line_step buffered E_mcu_timeout l (send_first (mk_line (queue l) false (sent l)))
  | step_no_timer l :
      pause l = false -> line_step buffered E_mcu_timeout l l
  | step_commands e cs l :
      match e with E_read _ | E_mcu_timeout => False | _ => True end ->
      Forall (fun c => num_retries c = 0) cs ->
      line_step buffered e l (enqueue cs l).

Lemma queues_enqueue p p' : queues p p' ->
  exists cs, line_of p' = enqueue cs (line_of p) /\ Forall (fun c => num_retries c = 0) cs.
Proof.
  intros (cs & Hq & Hcs & _ & Hm & Ht). exists cs. split; [|done]. unfold line_of, enqueue, send_first. simpl.
  rewrite Hq, Hm, Ht.
  destruct (mcu_error_timeout (poe_state p)), (cmd_pending p), cs; simpl; by rewrite ?app_nil_r.
Qed.

(** ** What is expected of the surroundings *)

(** The controller names existing ports. *)
Definition reply_sane (reply : list Z) : Prop :=
  octet reply 0 = 0x44 \/ octet reply 0 = 0x49 -> octet reply 2 < Z.of_nat MAX_PORT.

Definition expected (p : poe) (e : event) : Prop :=
  match e with
  | E_read bytes => reply_sane (take 12 (rx p ++ bytes))
  | E_reload u => uci_ok u
  | E_sendframe (Some f) => forall l, parse_frame 9 f <> Some (0x4a :: l)
  | _ => True
  end.

(** A reply that belongs to the command. *)
Definition answers (c : cmd) (reply : list Z) : Prop :=
  intact reply = true /\ octet reply 0 = octet (cmd_cmd c) 0 /\ octet reply 1 = octet (cmd_cmd c) 1.

Section reading.
Context (t y : bool) (Hty : t = true -> y = true).

Lemma handler_table id h :
  handler_of id = Some h ->
  h = (fun _ => mret 0) \/ id = 0x40 /\ h = poe_reply_status \/ id = 0x41 /\ h = poe_reply_power_stats
  \/ id = 0x43 /\ h = poe_reply_4_port_status \/ id = 0x44 /\ h = poe_reply_port_power_stats
  \/ id = 0x48 /\ h = poe_reply_port_config \/ id = 0x49 /\ h = poe_reply_port_ext_config.
Proof.
  unfold handler_of, reply_handler. destruct (decide (Z.to_nat id < 0x40)%nat) as [Hlt|Hge].
  - rewrite lookup_app_l by (rewrite length_replicate; lia). rewrite lookup_replicate_2 by lia.
    intros [=<-]. by left.
  - rewrite lookup_app_r by (rewrite length_replicate; lia). rewrite length_replicate.
    assert (exists k, Z.to_nat id = (0x40 + k)%nat) as [k Hk] by (exists (Z.to_nat id - 0x40)%nat; lia).
    rewrite Hk. replace (0x40 + k - 0x40)%nat with k by lia. assert (id = 0x40 + Z.of_nat k) as -> by lia.
    clear Hk Hge. do 10 (destruct k as [|k]; [simpl; intros [=<-]; auto 20|]). done.
Qed.

Lemma still_reply_4_port n i reply : still t y (reply_4_port_from n i reply).
Proof.
  revert i. induction n as [|n IH]; intros i; cbn [reply_4_port_from]; [apply still_ret|].
  case_match; [apply IH|]. case_match; [apply still_ret|]. bool_hyps.
  apply still_bind; [apply still_mod_port_state; intros _; unfold MAX_PORT in *; lia|intros _; apply IH].
Qed.

Lemma still_handler id h reply :
  handler_of id = Some h -> octet reply 0 = id -> (t = true -> reply_sane reply) -> still t y (h reply).
Proof.
  intros Hh Hid Hsane.
  assert (id = 0x44 \/ id = 0x49 -> t = true -> (Z.to_nat (octet reply 2) < MAX_PORT)%nat) as Hport.
  { intros Hor Ht. specialize (Hsane Ht). unfold reply_sane in Hsane. rewrite Hid in Hsane.
    specialize (Hsane Hor). unfold MAX_PORT in *. lia. }
  apply handler_table in Hh as [->|[[_ ->]|[[_ ->]|[[_ ->]|[[-> ->]|[[_ ->]|[-> ->]]]]]]].
  - apply still_ret.
  - apply still_bind; [by apply still_mod_state|intros _; apply still_ret].
  - apply still_bind; [by apply still_mod_state|intros _; apply still_ret].
  - apply still_reply_4_port.
  - apply still_bind; [apply still_mod_port_state; auto|intros _; apply still_ret].
  - apply still_ret.
  - apply still_bind; [apply still_mod_port_state; auto|intros _; apply still_ret].
Qed.

(** Every identifier up to the size of the array, exclusive, has a handler. *)
Lemma handler_of_some id : id < 0x4a -> is_Some (handler_of id).
Proof.
  intros Hid. unfold handler_of. destruct (lookup_lt_is_Some_2 reply_handler (Z.to_nat id)) as [o Ho].
  - change (length reply_handler) with 74%nat. lia.
  - rewrite Ho. destruct o; by eexists.
Qed.

(** The effect of a reply on everything but the line. *)
Definition settled (reply : list Z) (p p' : poe) : Prop :=
  base y p' /\ line_of p' = settle reply (line_of p) /\ rx p' = rx p
  /\ ((poe_state p') <| mcu_error_timeout := false |> = (poe_state p) <| mcu_error_timeout := false |>
      \/ exists c rest, cmd_pending p = c :: rest /\ answers c reply).

Lemma settle_drop reply p c rest :
  cmd_pending p = c :: rest -> intact reply = false \/ rejects reply = false ->
  settle reply (line_of p) = mk_line rest (pause (line_of p)) (tx p).
Proof. intros Hq H. unfold settle, line_of. simpl. rewrite Hq.
  destruct H as [H|H]; rewrite H; simpl; [done|]. by destruct (intact reply).
Qed.

Lemma base_rest p c rest : base y p -> cmd_pending p = c :: rest -> base y (p <| cmd_pending := rest |>).
Proof.
  intros [Hq Htx Hl Hpo Hn Hs] Heq. rewrite Heq in Hq. apply list.Forall_cons in Hq as [_ Hq].
  by constructor; upd_simpl.
Qed.

Lemma spec_f0_reply p c rest reply :
  base y p -> cmd_pending p = c :: rest -> intact reply = true -> rejects reply = true ->
  spec t (handle_poe_f0_reply c) (fun _ => settled reply p) (p <| cmd_pending := rest |>).
Proof.
  intros Hp Heq Hint Hrej. pose proof Hp as [Hq Htx Hl Hpo Hn Hs]. rewrite Heq in Hq.
  apply list.Forall_cons in Hq as [(Hf & Hr & Hid) Hq].
  unfold handle_poe_f0_reply. apply spec_bind, spec_get. upd_simpl. cbv zeta.
  unfold settled, settle, line_of. rewrite Heq, Hint, Hrej. simpl.
  destruct (mcu_error_timeout (poe_state p)) eqn:Hm; simpl.
  - apply spec_put. upd_simpl. rewrite Hm. split; [|by auto].
    constructor; upd_simpl; try done. by constructor.
  - replace (MAX_RETRIES <? num_retries c + 1) with (MAX_RETRIES <=? num_retries c)
      by (apply eq_true_iff_eq; rewrite Z.leb_le, Z.ltb_lt; lia).
    destruct (MAX_RETRIES <=? num_retries c) eqn:Hn'; bool_hyps.
    + apply spec_ret. upd_simpl. rewrite Hm. split; [by eapply base_rest|]. auto.
    + apply spec_bind, spec_put, spec_put. upd_simpl. split; [|auto].
      constructor; upd_simpl; try done. constructor; [|done]. split; [done|]. simpl. split; [lia|done].
Qed.

Lemma spec_reply_consume p reply :
  base y p -> (t = true -> reply_sane reply) ->
  spec t (poe_reply_consume reply) (fun _ => settled reply p) p.
Proof.
  intros Hp Hsane. unfold poe_reply_consume. apply spec_bind, spec_get.
  destruct (cmd_pending p) as [|c rest] eqn:Heq.
  { apply spec_ret. unfold settled, settle, line_of. simpl. rewrite Heq. simpl. auto. }
  apply spec_bind, spec_put. pose proof (base_rest p c rest Hp Heq) as Hrest.
  assert (intact reply = false \/ rejects reply = false ->
    settled reply p (p <| cmd_pending := rest |>)) as Hdrop.
  { intros Hor. split; [done|]. split; [by rewrite (settle_drop reply p c rest Heq Hor)|].
    split; [done|]. by left. }
  destruct (octet reply 11 =? checksum reply) eqn:Hint; cbn [negb].
  2:{ apply spec_ret. apply Hdrop. by left. }
  destruct (Z.land (octet reply 0) 0xf0 =? 0xf0) eqn:Hrej.
  { apply spec_bind. eapply spec_mono; [by apply (spec_f0_reply p c rest reply)|].
    intros [] p' Hp'. by apply spec_ret. }
  assert (rejects reply = false) as Hno by done. assert (intact reply = true) as Hyes by done.
  unfold rtl_to_bcm_cmd_id. rewrite !bcm_to_rtl_id.
  destruct (negb (octet reply 0 =? octet (cmd_cmd c) 0) || (Z.of_nat (length reply_handler) <? octet reply 0))
    eqn:Hg.
  { apply spec_ret. apply Hdrop. by right. }
  destruct (octet reply 1 =? octet (cmd_cmd c) 1) eqn:Hseq; cbn [negb].
  2:{ apply spec_ret. apply Hdrop. by right. }
  bool_hyps. change (Z.of_nat (length reply_handler)) with 0x4a in *.
  pose proof (b_queue _ _ Hp) as Hq. rewrite Heq in Hq. apply list.Forall_cons in Hq as [(_ & _ & Hid) _].
  apply spec_bind, spec_deref.
  { intros Ht. apply handler_of_some. specialize (Hid (Hty Ht)). lia. }
  intros h Hh.
  assert (<[0%nat:=octet reply 0]> reply = reply) as ->.
  { destruct reply; [|done]. done. }
  eapply spec_mono; [apply (still_handler _ _ reply Hh eq_refl Hsane); exact Hrest|].
  intros a p' [Hp' (Hq' & Hrx & Htx & Hm)]. split; [done|]. split.
  - rewrite (settle_drop reply p c rest Heq) by (by right). unfold line_of. rewrite Hq', Htx, Hm. done.
  - split; [done|]. right. by exists c, rest.
Qed.

Lemma spec_send_first {A} (p : poe) (a : A) :
  base y p ->
  spec t (poe_cmd_next ;; mret a)
    (fun _ p' => base y p' /\ line_of p' = send_first (line_of p) /\ rx p' = rx p
                 /\ poe_state p' = poe_state p /\ poe_config p' = poe_config p) p.
Proof.
  intros Hp. pose proof Hp as [Hq Htx Hl Hpo Hn Hs]. unfold poe_cmd_next, poe_cmd_send, send_first, line_of.
  simpl. apply spec_bind, spec_bind, spec_get. destruct (cmd_pending p) as [|c rest] eqn:Heq.
  { apply spec_ret, spec_ret. by rewrite Heq. }
  apply spec_bind, spec_get. apply list.Forall_cons in Hq as [(Hf & _) _].
  destruct (mcu_error_timeout (poe_state p)) eqn:Hm.
  { apply spec_ret, spec_ret. by rewrite Heq, Hm. }
  apply spec_bind, spec_put, spec_ret, spec_ret. upd_simpl. rewrite ?Heq, ?Hm. split; [|done].
  constructor; upd_simpl; try done; [by rewrite Heq; pose proof (b_queue _ _ Hp) as Hb; rewrite Heq in Hb|].
  apply Forall_app. split; [done|]. by apply Forall_singleton.
Qed.

Lemma spec_read p bytes :
  base y p -> (t = true -> reply_sane (take 12 (rx p ++ bytes))) ->
  spec t (poe_stream_msg_cb bytes)
    (fun _ p' => base y p' /\ line_step (rx p) (E_read bytes) (line_of p) (line_of p')
       /\ ((poe_state p') <| mcu_error_timeout := false |> = (poe_state p) <| mcu_error_timeout := false |>
           \/ exists c rest, cmd_pending p = c :: rest /\ answers c (take 12 (rx p ++ bytes)))) p.
Proof.
  intros Hp Hsane. unfold poe_stream_msg_cb. apply spec_bind, spec_put, spec_bind, spec_get. upd_simpl.
  assert (base y (p <| rx := rx p ++ bytes |>)) as Hp1 by (destruct Hp; by constructor; upd_simpl).
  destruct (length (rx p ++ bytes) <? 12)%nat eqn:Hlen.
  { apply Nat.ltb_lt in Hlen. apply spec_ret. split; [done|]. upd_simpl. split; [|by left].
    by apply step_partial. }
  apply Nat.ltb_ge in Hlen. set (reply := take 12 (rx p ++ bytes)) in *.
  apply spec_bind. eapply spec_mono; [by apply spec_reply_consume|].
  intros r p2 (Hp2 & Hl2 & Hrx2 & Hst2). apply spec_bind, spec_put.
  assert (base y (p2 <| rx := drop 12 (rx p2) |>)) as Hp3 by (destruct Hp2; by constructor; upd_simpl).
  eapply spec_mono; [by apply (spec_send_first (p2 <| rx := drop 12 (rx p2) |>) tt)|].
  intros [] p4 (Hp4 & Hl4 & _ & Hst4 & _). split; [done|]. upd_simpl in Hst4. rewrite Hst4.
  split; [|exact Hst2]. change (line_of (p2 <| rx := drop 12 (rx p2) |>)) with (line_of p2) in Hl4.
  rewrite Hl4, Hl2. by apply step_reply.
Qed.

Lemma spec_timer p :
  base y p ->
  spec t (handle (fun _ => S754_nan) E_mcu_timeout)
    (fun _ p' => base y p' /\ line_step (rx p) E_mcu_timeout (line_of p) (line_of p')) p.
Proof.
  intros Hp. simpl. apply spec_bind, spec_get. destruct (mcu_error_timeout (poe_state p)) eqn:Hm.
  - apply spec_bind, spec_put. pose proof Hp as [Hq Htx Hl Hpo Hn Hs].
    set (p1 := p <| poe_state := (poe_state p) <| mcu_error_timeout := false |> |>).
    assert (base y p1) as Hp1 by (unfold p1; by constructor; upd_simpl).
    eapply spec_mono; [by apply (spec_send_first p1 tt)|]. intros [] p' (Hp' & Hl' & _).
    split; [done|]. rewrite Hl'. by apply (step_timer _ (line_of p)).
  - apply spec_ret. split; [done|]. by apply step_no_timer.
Qed.

Lemma spec_calm {A} (m : P A) e p :
  calm t y m -> base y p -> match e with E_read _ | E_mcu_timeout => False | _ => True end ->
  spec t (m ;; mret tt) (fun _ p' => base y p' /\ line_step (rx p) e (line_of p) (line_of p')) p.
Proof.
  intros Hm Hp He. apply spec_bind. eapply spec_mono; [by apply Hm|]. intros a p' [Hp' Hq].
  apply spec_ret. split; [done|]. apply queues_enqueue in Hq as (cs & -> & Hcs). by apply step_commands.
Qed.

(** Every event, in one statement. *)
Lemma spec_handle strtof e p :
  base y p -> (y = true -> expected p e) ->
  spec t (handle strtof e) (fun _ p' => base y p' /\ line_step (rx p) e (line_of p) (line_of p')) p.
Proof.
  intros Hp He. destruct e as [bytes| | |u|frame|nm e|].
  - eapply spec_mono; [apply spec_read; [done|]|].
    + intros Ht. by apply He, Hty.
    + by intros a p' (Hp' & Hl & _).
  - exact (spec_timer p Hp).
  - eapply spec_mono; [by apply calm_state_timeout|]. intros [] p' [Hp' Hq]. split; [done|].
    apply queues_enqueue in Hq as (cs & -> & Hcs). by apply step_commands.
  - apply spec_calm; [|done..]. by apply calm_reload.
  - apply spec_calm; [|done..]. apply calm_sendframe. intros Hy f l ->. by apply He.
  - apply spec_calm; [|done..]. by apply calm_manage.
  - apply spec_calm; [|done..]. by apply calm_info.
Qed.
End reading.
