(* ===== verification/PoeOk.v ===== *)
(** * What the PoE daemon guarantees

    The life of the daemon: main, and then any sequence of events. [life
    careful]: with [careful] the controller, the configuration and the users
    of the bus do what is [expected] of them. [recorded p h]: the life with
    the commands [h] that were put into the queue; [ledger] relates them to
    what was transmitted. *)

From Stdlib Require Import SpecFloat.
From S2P Require Import Prelude CLib Effect CLibOk Poe PoeDaemon PoeKeeps PoeProtocol.

Section life.
Context (strtof : list Z -> float).

Inductive life (careful : bool) : poe -> Prop :=
  | life_main u file p :
      (careful = true -> uci_ok u) -> main strtof u file initial = Some (tt, p) -> life careful p
  | life_event p e p' :
      life careful p -> (careful = true -> expected p e) ->
      handle strtof e p = Some (tt, p') -> life careful p'.

Lemma base_initial y : base y initial.
Proof.
  constructor; [constructor|constructor|done|apply Forall_replicate, port_ok_empty| |done].
  simpl. unfold MAX_PORT. lia.
Qed.

(** The first command has been sent, unless there is a pause. *)
Definition in_flight (l : line) : Prop :=
  pause l = false -> match queue l with c :: _ => list.last (sent l) = Some (cmd_cmd c) | [] => True end.

Lemma in_flight_send_first l : in_flight (send_first l).
Proof.
  unfold in_flight, send_first. destruct (queue l) as [|c q] eqn:Hq; [by rewrite Hq|].
  destruct (pause l) eqn:Hp; [by rewrite Hp|]. intros _. simpl. apply list.last_snoc.
Qed.

Lemma in_flight_enqueue cs l : in_flight l -> in_flight (enqueue cs l).
Proof.
  unfold enqueue. destruct (queue l) as [|c q] eqn:Hq; [intros _; apply in_flight_send_first|].
  unfold in_flight. by rewrite Hq.
Qed.

Lemma in_flight_step buffered e l l' : line_step buffered e l l' -> in_flight l -> in_flight l'.
Proof.
  intros [| | | |] Hl; try done; [apply in_flight_send_first..|]. by apply in_flight_enqueue.
Qed.

Lemma life_invariant y p : life y p -> base y p /\ in_flight (line_of p).
Proof.
  induction 1 as [u file p Hu Hmain|p e p' _ [IH Hin] He Heq].
  - pose proof (calm_main false y ltac:(done) strtof u file eq_refl Hu initial (base_initial y)) as H.
    apply (spec_elim _ _ _ _ _ _ H) in Hmain as [Hp Hq]. split; [done|].
    apply queues_enqueue in Hq as (cs & -> & _). by apply in_flight_enqueue.
  - pose proof (spec_handle false y ltac:(done) strtof e p IH He) as H.
    apply (spec_elim _ _ _ _ _ _ H) in Heq as [Hp Hs]. split; [done|]. by eapply in_flight_step.
Qed.

(** ** The properties *)

(** C10: while the controller names existing ports, the configuration has
    names and sections that fit, and no user of the bus sends the unknown
    command 0x4a with "sendframe", no event makes the PoE daemon access an
    array out of its bounds. *)
Theorem poe_never_overruns p e :
  life true p -> expected p e -> exists p', handle strtof e p = Some (tt, p').
Proof.
  intros [Hp _]%life_invariant He.
  destruct (spec_total _ _ _ (spec_handle true true ltac:(done) strtof e p Hp (fun _ => He)))
    as ([] & p' & Heq & _). by exists p'.
Qed.

(** C9: the queue, the pause after a rejection and the frames on the serial
    line behave as the stop-and-wait protocol, whatever the controller, the
    configuration and the users of the bus do. *)
Theorem poe_refines_stop_and_wait p e p' :
  life false p -> handle strtof e p = Some (tt, p') ->
  line_step (rx p) e (line_of p) (line_of p').
Proof.
  intros [Hp _]%life_invariant Heq.
  by apply (spec_elim _ _ _ _ _ _ (spec_handle false false ltac:(done) strtof e p Hp ltac:(done))) in Heq as [_ H].
Qed.

(** ** How often a command is transmitted *)

(** The octets of the wire: the commands [h] in their order, each as often as
    [counts] says. *)
Definition transmitted (h : list (list Z)) (counts : list nat) : list (list Z) :=
  flat_map (fun x => replicate x.2 x.1) (zip h counts).

Lemma transmitted_snoc h counts f n :
  h !! length counts = Some f ->
  transmitted h (counts ++ [n]) = transmitted h counts ++ replicate n f.
Proof.
  unfold transmitted. revert h. induction counts as [|m counts IH]; intros [|g h] Hf; try done.
  - injection Hf as ->. simpl. rewrite zip_with_nil_r. by rewrite app_nil_r.
  - simpl in *. by rewrite IH, app_assoc.
Qed.

Lemma transmitted_longer h h' counts :
  (length counts <= length h)%nat -> transmitted (h ++ h') counts = transmitted h counts.
Proof.
  intros Hl. unfold transmitted. f_equal. revert h Hl.
  induction counts as [|n counts IH]; intros [|f h] Hl; simpl in *; [by destruct h'|done|lia|].
  f_equal. apply IH. lia.
Qed.

(** [ledger h extra l]: the commands [h] were put into the queue so far; all
    but those of the queue are finished, and the first of the queue has been
    transmitted once for each of its retries and [extra] times more. *)
Definition ledger (h : list (list Z)) (extra : nat) (l : line) : Prop :=
  exists fin : list nat,
    drop (length fin) h = map cmd_cmd (queue l) /\ (length fin <= length h)%nat
    /\ Forall (fun n => Z.of_nat n <= MAX_RETRIES + 1) fin
    /\ Forall (fun c => num_retries c = 0) (tail (queue l))
    /\ match queue l with
       | [] => sent l = transmitted h fin
       | c :: _ => 0 <= num_retries c <= MAX_RETRIES
           /\ sent l = transmitted h (fin ++ [Z.to_nat (num_retries c) + extra])%nat
       end.

Definition on_wire (l : line) : nat := if pause l then 0 else 1.

Lemma head_of_queue h k c q : drop k h = map cmd_cmd (c :: q) ->
  h !! k = Some (cmd_cmd c) /\ drop (S k) h = map cmd_cmd q.
Proof.
  intros Hd. split.
  - rewrite <-(Nat.add_0_r k), <-lookup_drop, Hd. done.
  - rewrite <-Nat.add_1_r, <-drop_drop, Hd. done.
Qed.

Lemma ledger_send h l : ledger h 0 l -> ledger h (on_wire (send_first l)) (send_first l).
Proof.
  intros (fin & Hd & Hl & Hfin & Htl & Hs). unfold send_first, on_wire.
  destruct (queue l) as [|c q] eqn:Hq.
  - exists fin. rewrite Hq. done.
  - destruct (pause l) eqn:Hp; exists fin; simpl; rewrite ?Hq, ?Hp; [done|].
    destruct Hs as [Hr Hs]. destruct (head_of_queue _ _ _ _ Hd) as [Hf _].
    do 4 (split; [done|]). split; [done|]. rewrite Hs. rewrite !(transmitted_snoc _ _ _ _ Hf), <-app_assoc.
    f_equal. change [cmd_cmd c] with (replicate 1 (cmd_cmd c)). rewrite <-replicate_add. f_equal. lia.
Qed.

(** The first command is finished. *)
Lemma ledger_pop h l c rest pau :
  queue l = c :: rest -> ledger h (on_wire l) l -> ledger h 0 (mk_line rest pau (sent l)).
Proof.
  intros Hq (fin & Hd & Hl & Hfin & Htl & Hs). rewrite Hq in *. destruct Hs as [Hr Hs].
  destruct (head_of_queue _ _ _ _ Hd) as [Hf Hd'].
  set (n := (Z.to_nat (num_retries c) + on_wire l)%nat) in *.
  exists (fin ++ [n]). simpl. rewrite length_app, Nat.add_1_r. apply lookup_lt_Some in Hf as Hlt.
  split; [done|]. split; [lia|]. split.
  { apply Forall_app. split; [done|]. apply Forall_singleton. unfold n, on_wire. case_match; lia. }
  destruct rest as [|c' rest]; [done|]. simpl in Htl. apply list.Forall_cons in Htl as [Hc' Htl].
  split; [done|]. split; [rewrite Hc'; unfold MAX_RETRIES; lia|].
  destruct (head_of_queue _ _ _ _ Hd') as [Hf' _].
  rewrite Hc', (transmitted_snoc _ _ (cmd_cmd c')), app_nil_r, Hs; [done|].
  by rewrite length_app, Nat.add_1_r.
Qed.

Lemma ledger_settle h reply l :
  ledger h (on_wire l) l -> ledger h (if pause l then on_wire (settle reply l) else 0) (settle reply l).
Proof.
  intros Hl. unfold settle. destruct (queue l) as [|c rest] eqn:Hq.
  { destruct Hl as (fin & H). exists fin. rewrite Hq in *. by destruct (pause l). }
  destruct (negb (intact reply) || negb (rejects reply)).
  { replace (if pause l then on_wire (mk_line rest (pause l) (sent l)) else 0%nat) with 0%nat
      by (unfold on_wire; simpl; by destruct (pause l)).
    by eapply ledger_pop. }
  destruct (pause l) eqn:Hp; [done|].
  destruct (MAX_RETRIES <=? num_retries c) eqn:Hmax; [by eapply ledger_pop|]. bool_hyps.
  destruct Hl as (fin & Hd & Hlen & Hfin & Htl & Hs). rewrite Hq in *. exists fin. simpl.
  destruct Hs as [Hr Hs]. do 4 (split; [done|]). split; [lia|].
  rewrite Hs. unfold on_wire. rewrite Hp. do 3 f_equal. lia.
Qed.

Lemma ledger_enqueue h cs l :
  Forall (fun c => num_retries c = 0) cs -> ledger h (on_wire l) l ->
  ledger (h ++ map cmd_cmd cs) (on_wire (enqueue cs l)) (enqueue cs l).
Proof.
  intros Hcs (fin & Hd & Hl & Hfin & Htl & Hs). unfold enqueue.
  assert (drop (length fin) (h ++ map cmd_cmd cs) = map cmd_cmd (queue l ++ cs)) as Hd'
    by (rewrite drop_app_le, Hd, map_app by done; done).
  destruct (queue l) as [|c q] eqn:Hq.
  - apply ledger_send. exists fin. simpl in *. rewrite length_app. split; [done|]. split; [lia|].
    split; [done|]. destruct cs as [|c cs]; [by rewrite app_nil_r|].
    apply list.Forall_cons in Hcs as [Hc Hcs]. split; [done|].
    split; [rewrite Hc; unfold MAX_RETRIES; lia|].
    destruct (head_of_queue _ _ _ _ Hd') as [Hf _].
    by rewrite Hc, (transmitted_snoc _ _ _ _ Hf), app_nil_r, transmitted_longer.
  - exists fin. simpl in *. rewrite length_app. split; [done|]. split; [lia|]. split; [done|].
    split; [by apply Forall_app|]. destruct Hs as [Hr Hs]. split; [done|].
    rewrite Hs, transmitted_longer; [done|]. rewrite length_app.
    destruct (head_of_queue _ _ _ _ Hd) as [Hf%lookup_lt_Some _]. simpl. lia.
Qed.

(** What an event puts into the queue. *)
Definition queued_by (e : event) (p p' : poe) : list (list Z) :=
  match e with
  | E_read _ | E_mcu_timeout => []
  | _ => map cmd_cmd (drop (length (cmd_pending p)) (cmd_pending p'))
  end.

Lemma ledger_step h e p p' :
  line_step (rx p) e (line_of p) (line_of p') ->
  ledger h (on_wire (line_of p)) (line_of p) ->
  ledger (h ++ queued_by e p p') (on_wire (line_of p')) (line_of p').
Proof.
  intros Hs Hl. remember (line_of p) as l eqn:El. remember (line_of p') as l' eqn:El'.
  destruct Hs as [bytes l Hlen|bytes l Hlen|l Hp|l Hp|e cs l He Hcs]; simpl; rewrite ?app_nil_r; try done.
  - apply (ledger_settle _ (take 12 (rx p ++ bytes))) in Hl. unfold send_first.
    destruct (pause l) eqn:Hp; [|by apply ledger_send].
    assert (pause (settle (take 12 (rx p ++ bytes)) l) = true) as Hp'
      by (unfold settle; rewrite Hp; by repeat case_match).
    rewrite Hp'. by destruct (queue _).
  - apply ledger_send. unfold on_wire in Hl. rewrite Hp in Hl. exact Hl.
  - replace (queued_by e p p') with (map cmd_cmd cs); [by apply ledger_enqueue|].
    assert (cmd_pending p' = cmd_pending p ++ cs) as Hq.
    { change (queue (line_of p') = queue (line_of p) ++ cs). rewrite <-El', <-El.
      unfold enqueue, send_first. destruct (queue l) eqn:Hq; simpl; [|done].
      by destruct cs, (pause l). }
    unfold queued_by. rewrite Hq, drop_app_length. by destruct e.
Qed.

(** The daemon with the commands that were put into its queue so far, in
    their order. *)
Inductive recorded : poe -> list (list Z) -> Prop :=
  | rec_main u file p :
      main strtof u file initial = Some (tt, p) -> recorded p (map cmd_cmd (cmd_pending p))
  | rec_event p h e p' :
      recorded p h -> handle strtof e p = Some (tt, p') -> recorded p' (h ++ queued_by e p p').

Lemma recorded_life p h : recorded p h -> life false p.
Proof. induction 1; [by eapply life_main|by eapply life_event]. Qed.

Lemma life_recorded p : life false p -> exists h, recorded p h.
Proof.
  induction 1 as [u file p _ Hm|p e p' _ [h Hh] _ He]; eexists; [by eapply rec_main|by eapply rec_event].
Qed.

Lemma recorded_ledger p h :
  recorded p h -> ledger h (on_wire (line_of p)) (line_of p) /\ Forall frame_ok h.
Proof.
  assert (forall q, life false q -> Forall frame_ok (map cmd_cmd (cmd_pending q))) as Hframes.
  { intros q [Hq _]%life_invariant. apply Forall_map.
    eapply list.Forall_impl; [exact (b_queue _ _ Hq)|]. by intros c [? _]. }
  induction 1 as [u file p Hm|p h e p' Hr [Hl Hh] He].
  - split; [|apply Hframes; by eapply life_main].
    pose proof (calm_main false false ltac:(done) strtof u file eq_refl ltac:(done) initial (base_initial false)) as H.
    apply (spec_elim _ _ _ _ _ _ H) in Hm as [Hp Hq]. apply queues_enqueue in Hq as (cs & Hl & Hcs).
    assert (cmd_pending p = cs) as ->.
    { change (queue (line_of p) = cs). rewrite Hl. unfold enqueue, send_first. by destruct cs. }
    rewrite Hl. change (map cmd_cmd cs) with ([] ++ map cmd_cmd cs). apply ledger_enqueue; [done|].
    exists []. repeat split; simpl; auto.
  - pose proof (recorded_life p h Hr) as Hlife. split.
    + apply ledger_step; [|done]. apply life_invariant in Hlife as [Hp _].
      by apply (spec_elim _ _ _ _ _ _ (spec_handle false false ltac:(done) strtof e p Hp ltac:(done))) in He as [_ H].
    + apply Forall_app. split; [done|].
      assert (life false p') as Hp' by by eapply life_event. apply Hframes in Hp'.
      unfold queued_by. destruct e; try apply list.Forall_nil_2; rewrite <-skipn_map; by apply Forall_drop.
Qed.

(** 12 octets, of which the last is the sum of the others. *)
Definition valid_frame (f : list Z) : Prop :=
  exists a0 a1 a2 a3 a4 a5 a6 a7 a8 a9 a10,
    f = [a0; a1; a2; a3; a4; a5; a6; a7; a8; a9; a10;
         (a0 + a1 + a2 + a3 + a4 + a5 + a6 + a7 + a8 + a9 + a10) mod 256]
    /\ Forall (fun a => 0 <= a < 256) f.

Lemma frame_ok_valid f : frame_ok f -> valid_frame f.
Proof.
  intros (Hl & Ho & Hc).
  destruct f as [|a0 [|a1 [|a2 [|a3 [|a4 [|a5 [|a6 [|a7 [|a8 [|a9 [|a10 [|a11 [|? ?]]]]]]]]]]]]];
    try discriminate Hl.
  exists a0, a1, a2, a3, a4, a5, a6, a7, a8, a9, a10. split; [|done].
  replace a11 with ((a0 + a1 + a2 + a3 + a4 + a5 + a6 + a7 + a8 + a9 + a10) mod 256); [done|].
  change a11 with (octet [a0; a1; a2; a3; a4; a5; a6; a7; a8; a9; a10; a11] 11). rewrite Hc.
  unfold checksum, u8. change (2 ^ 8) with 256. f_equal. cbn [take foldr]. lia.
Qed.

(** C11: let [h] be the commands that were put into the queue so far. Each is
    12 octets, the last of which is the sum of the other eleven; what is on the
    line is these commands in their order, each one transmitted some times in
    a row, at most once and MAX_RETRIES = 5 times again; and unless there is a
    pause the last frame is that of the first waiting command. *)
Theorem poe_frames_valid p h :
  recorded p h ->
  Forall valid_frame h
  /\ (exists counts, tx p = transmitted h counts /\ (length counts <= length h)%nat
        /\ Forall (fun n => (n <= 1 + 5)%nat) counts)
  /\ (mcu_error_timeout (poe_state p) = false ->
      forall c rest, cmd_pending p = c :: rest -> list.last (tx p) = Some (cmd_cmd c)).
Proof.
  intros Hr. pose proof (recorded_ledger p h Hr) as [(fin & Hd & Hl & Hfin & _ & Hs) Hh].
  pose proof (life_invariant _ _ (recorded_life p h Hr)) as [_ Hin].
  split; [eapply list.Forall_impl; [exact Hh|]; apply frame_ok_valid|]. split.
  - assert (Forall (fun n => (n <= 1 + 5)%nat) fin) as Hfin'
      by (eapply list.Forall_impl; [exact Hfin|]; simpl; unfold MAX_RETRIES; intros n; lia).
    simpl in Hd, Hs. destruct (cmd_pending p) as [|c q] eqn:Hq.
    + by exists fin.
    + destruct Hs as [Hn Hs]. eexists. split; [exact Hs|]. rewrite length_app.
      destruct (head_of_queue _ _ _ _ Hd) as [Hf%lookup_lt_Some _]. split; [simpl; lia|].
      apply Forall_app. split; [done|]. apply Forall_singleton. unfold on_wire, MAX_RETRIES in *.
      destruct (pause (line_of p)); lia.
  - intros Hm c rest Hq. unfold in_flight, line_of in Hin. simpl in Hin. specialize (Hin Hm).
    by rewrite Hq in Hin.
Qed.

(** What the daemon knows about the controller and the ports changes only
    by a reply with a correct checksum and with the identifier and the
    sequence number of the command that is with the controller. *)
Theorem only_answers_count p bytes p' :
  life false p -> handle strtof (E_read bytes) p = Some (tt, p') ->
  (poe_state p') <| mcu_error_timeout := false |> = (poe_state p) <| mcu_error_timeout := false |>
  \/ exists c rest, cmd_pending p = c :: rest /\ answers c (take 12 (rx p ++ bytes)).
Proof.
  intros [Hp _]%life_invariant Heq.
  by apply (spec_elim _ _ _ _ _ _ (spec_read false false ltac:(done) p bytes Hp ltac:(done))) in Heq as (_ & _ & H).
Qed.

(** ** A lost reply *)

Definition is_read (e : event) : bool := match e with E_read _ => true | _ => false end.
Definition is_poll (e : event) : bool := match e with E_state_timeout => true | _ => false end.
Definition polls (es : list event) : nat := length (filter (fun e => is_poll e = true) es).

Lemma queue_adds_one c p r p' : poe_cmd_queue c p = Some (r, p') -> length (cmd_pending p') = S (length (cmd_pending p)).
Proof.
  unfold poe_cmd_queue. case_match; [done|]. unfold poe_cmd_send, mbind, ST_bind, get, put. cbn -[make_frame].
  case_match eqn:Hq; cbn -[make_frame]; [case_match|]; intros [= _ <-]; upd_simpl;
    rewrite ?Hq; simpl; rewrite ?length_app; simpl; lia.
Qed.

(** While a command waits for its reply, other events only make the queue longer. *)
Lemma waiting_step p e p' :
  life false p -> cmd_pending p <> [] -> mcu_error_timeout (poe_state p) = false -> is_read e = false ->
  handle strtof e p = Some (tt, p') ->
  tx p' = tx p /\ cmd_pending p' <> [] /\ mcu_error_timeout (poe_state p') = false
  /\ (length (cmd_pending p) + polls [e] <= length (cmd_pending p'))%nat.
Proof.
  intros Hp Hne Hm He Heq. pose proof (proj1 (life_invariant _ _ Hp)) as Hb.
  pose proof (spec_elim _ _ _ _ _ _ (spec_handle false false ltac:(done) strtof e p Hb ltac:(done)) Heq) as [_ Hs].
  assert (exists cs, line_of p' = mk_line (cmd_pending p ++ cs) false (tx p)) as [cs Hl].
  { assert (line_of p = mk_line (cmd_pending p) false (tx p)) as Hl0 by (unfold line_of; by rewrite Hm).
    revert Hs. generalize (line_of p') as l'. rewrite Hl0. intros l' Hs.
    inversion Hs; subst; simpl in *; try done.
    - exists []. by rewrite app_nil_r.
    - exists cs. unfold enqueue. simpl. by destruct (cmd_pending p). }
  unfold line_of in Hl. injection Hl as Hq Hm' Htx. split; [done|]. rewrite Hq. split.
  { intros H%app_eq_nil. by destruct H. }
  split; [done|]. rewrite <-Hq. destruct e; try (unfold polls; simpl; rewrite Hq, length_app; lia).
  simpl in Heq. unfold state_timeout_cb in Heq.
  assert (spec false (poe_cmd_power_stats ;; poll_ports)
    (fun _ p' => (S (length (cmd_pending p)) <= length (cmd_pending p'))%nat) p) as H.
  { apply spec_bind. unfold spec at 1. destruct (poe_cmd_power_stats p) as [[r p1]|] eqn:H1; [|done].
    pose proof (calm_power_stats false false p Hb) as Hc. unfold spec in Hc. rewrite H1 in Hc.
    destruct Hc as [Hb1 _]. apply queue_adds_one in H1. eapply spec_mono; [by apply calm_poll_ports|].
    intros [] p2 [_ (added & -> & _ & _)]. rewrite length_app. lia. }
  apply (spec_elim _ _ _ _ _ _ H) in Heq. unfold polls. simpl. lia.
Qed.

(** C40: a reply that never comes stalls the daemon for good: while nothing is
    read from the line no event transmits anything again, and every poll makes
    the queue longer. *)
Theorem lost_reply_stalls p es p' :
  life false p -> cmd_pending p <> [] -> mcu_error_timeout (poe_state p) = false ->
  Forall (fun e => is_read e = false) es -> handle_all strtof es p = Some (tt, p') ->
  tx p' = tx p /\ (length (cmd_pending p) + polls es <= length (cmd_pending p'))%nat.
Proof.
  revert p. induction es as [|e es IH]; intros p Hp Hne Hm Hes; [intros [= <-]; unfold polls; simpl; split; [done|lia]|].
  apply list.Forall_cons in Hes as [He Hes]. simpl. unfold mbind, ST_bind.
  destruct (handle strtof e p) as [[[] p1]|] eqn:Heq; [|done]. intros Hrest.
  destruct (waiting_step p e p1 Hp Hne Hm He Heq) as (Htx & Hne1 & Hm1 & Hlen).
  destruct (IH p1) as [Htx' Hlen']; try done; [by eapply life_event|].
  split; [congruence|]. change (polls (e :: es)) with (polls ([e] ++ es)). unfold polls in *.
  rewrite list.filter_app, length_app. lia.
Qed.

(** No port ever has a power budget of its own. *)
Lemma power_budget_never_set p : life false p -> Forall (fun c => power_budget c = 0) (ports (poe_config p)).
Proof.
  intros [Hp _]%life_invariant. eapply Forall_impl; [|apply (b_port _ _ Hp)]. by intros c (_ & H & _).
Qed.
End life.

(** ** A scenario *)

Definition sample_section (ty : string) (l : list (string * list Z)) : uci_section :=
  mk_uci_section (str ty) (fun o => snd <$> find (fun x => String.eqb (fst x) o) l).

Definition sample_uci (name1 : string) : uci :=
  mk_uci
    (Some [sample_section "global" [("budget", str "65")];
           sample_section "port" [("id", str "1"); ("name", str name1); ("priority", str "2")];
           sample_section "port" [("id", str "2"); ("name", str "lan2")]])
    (Some [sample_section "lan" [("poe", str "enable")]; sample_section "lan" [("poe", str "disable")]]).

(** The conversion of the budget in the scenario. *)
Definition sample_strtof (s : list Z) : float := f32_of_Z (strtoul_value s 10).

Definition booted_with (u : uci) : poe :=
  match main sample_strtof u None initial with Some (_, p) => p | None => initial end.
Definition booted : poe := booted_with (sample_uci "lan1").

Definition after (e : event) (p : poe) : poe :=
  match handle sample_strtof e p with Some (_, p') => p' | None => p end.

Lemma sample_uci_ok : uci_ok (sample_uci "lan1").
Proof.
  split.
  - intros l s nm [= <-] Hs. repeat (apply elem_of_cons in Hs as [-> | Hs]); [| | |by apply not_elem_of_nil in Hs];
      simpl; intros [= <-]; simpl; lia.
  - intros l [= <-]. apply Nat.leb_le. reflexivity.
Qed.

Lemma booted_life careful : life sample_strtof careful booted.
Proof.
  apply (life_main _ _ (sample_uci "lan1") None); [intros _; exact sample_uci_ok|]. vm_compute. reflexivity.
Qed.

Lemma life_after careful e p :
  life sample_strtof careful p -> (careful = true -> expected p e) ->
  is_Some (handle sample_strtof e p) -> life sample_strtof careful (after e p).
Proof.
  intros Hp He [[[] p'] Heq]. unfold after. rewrite Heq. by eapply life_event.
Qed.

Lemma poe_never_overruns_witness : exists p', handle sample_strtof E_state_timeout booted = Some (tt, p').
Proof. exact (poe_never_overruns sample_strtof booted E_state_timeout (booted_life true) I). Defined.

Lemma poe_refines_stop_and_wait_witness :
  line_step [] E_state_timeout (line_of booted) (line_of (after E_state_timeout booted)).
Proof.
  apply (poe_refines_stop_and_wait sample_strtof booted E_state_timeout _ (booted_life false)).
  vm_compute. reflexivity.
Defined.

Lemma poe_frames_valid_witness : exists counts,
  tx booted = transmitted (map cmd_cmd (cmd_pending booted)) counts
  /\ Forall (fun n => (n <= 1 + 5)%nat) counts.
Proof.
  destruct (poe_frames_valid sample_strtof booted (map cmd_cmd (cmd_pending booted)))
    as (_ & (counts & Htx & _ & Hc) & _).
  - apply (rec_main _ (sample_uci "lan1") None). vm_compute. reflexivity.
  - exists counts. split; [exact Htx|exact Hc].
Defined.

(** A reply of the controller to the first command of the queue. *)
Definition reply_to (p : poe) (data : list Z) : list Z :=
  match cmd_pending p with
  | c :: _ =>
      let f := take 11 ([octet (cmd_cmd c) 0; octet (cmd_cmd c) 1] ++ data ++ replicate 9 0) in
      f ++ [checksum f]
  | [] => []
  end.

Lemma only_answers_count_witness : exists c rest,
  cmd_pending booted = c :: rest /\ answers c (reply_to booted [3; 8]).
Proof.
  destruct (only_answers_count sample_strtof booted (reply_to booted [3; 8])
    (after (E_read (reply_to booted [3; 8])) booted) (booted_life false)) as [H|(c & rest & Hq & Ha)].
  - vm_compute. reflexivity.
  - exfalso. apply (f_equal num_detected_ports) in H. revert H. vm_compute. discriminate.
  - exists c, rest. split; [exact Hq|]. exact Ha.
Defined.

Lemma lost_reply_stalls_witness : exists p',
  handle_all sample_strtof [E_state_timeout; E_mcu_timeout; E_state_timeout] booted = Some (tt, p')
  /\ tx p' = tx booted.
Proof.
  destruct (handle_all sample_strtof [E_state_timeout; E_mcu_timeout; E_state_timeout] booted)
    as [[[] p']|] eqn:Heq.
  - exists p'. split; [reflexivity|].
    apply (lost_reply_stalls sample_strtof booted [E_state_timeout; E_mcu_timeout; E_state_timeout] p'
             (booted_life false)); [vm_compute; discriminate|vm_compute; reflexivity| |exact Heq].
    repeat constructor.
  - exfalso. revert Heq. vm_compute. discriminate.
Defined.

(** ** Accesses out of bounds *)

Definition answered (p : poe) : poe := after (E_read (reply_to p [])) p.

Lemma answered_life p :
  life sample_strtof false p -> is_Some (handle sample_strtof (E_read (reply_to p [])) p) ->
  life sample_strtof false (answered p).
Proof. intros Hp. by apply life_after. Qed.

Definition idle : poe := Nat.iter 9 answered booted.

Lemma idle_life : life sample_strtof false idle.
Proof.
  unfold idle. simpl.
  do 9 (apply answered_life; [|vm_compute; eexists; reflexivity]). apply booted_life.
Qed.

(** A reply about the power of a port that the daemon does not have is written
    behind the array of ports. *)
Lemma unknown_port_overruns : exists p bytes,
  life sample_strtof false p /\ handle sample_strtof (E_read bytes) p = None.
Proof.
  set (p := after (E_sendframe (Some (str "44 00 c8"))) idle).
  exists p, (reply_to p [200]). split.
  - apply life_after; [apply idle_life|done|]. vm_compute. eexists. reflexivity.
  - vm_compute. reflexivity.
Qed.

(** The check of the identifier lets 0x4a pass, one more than the table has. *)
Lemma unknown_command_overruns : exists p bytes,
  life sample_strtof false p /\ handle sample_strtof (E_read bytes) p = None.
Proof.
  set (p := after (E_sendframe (Some (str "4a"))) idle).
  exists p, (reply_to p []). split.
  - apply life_after; [apply idle_life|done|]. vm_compute. eexists. reflexivity.
  - vm_compute. reflexivity.
Qed.

(** A name of 16 octets is stored without its end. *)
Lemma long_name_overruns : exists p nm,
  life sample_strtof false p /\ handle sample_strtof (E_manage (Some nm) (Some true)) p = None.
Proof.
  exists (booted_with (sample_uci "lan1-office-east")), (str "lan1-office-east"). split.
  - apply (life_main _ _ (sample_uci "lan1-office-east") None); [done|]. vm_compute. reflexivity.
  - vm_compute. reflexivity.
Qed.

(** ** Setting up the ports, and frames written by hand

    poet_setup packs the enabled ports into groups of four; the commands it
    queues name each of them exactly once. The method "sendframe" reads back
    the octets that are written as hexadecimal numbers. *)

(** ** Commands in the queue *)

(** The command [c] with some sequence number and its checksum, not yet retried. *)
Definition queued_as (c : list Z) (q : cmd) : Prop :=
  exists seq, cmd_cmd q = make_frame seq c /\ num_retries q = 0.

(** The operation returns and queues exactly the commands [cs], in this order. *)
Definition queues_commands {A} (m : P A) (cs : list (list Z)) : Prop :=
  forall p, exists a p' added,
    m p = Some (a, p') /\ cmd_pending p' = cmd_pending p ++ added /\ Forall2 queued_as cs added.

Lemma commands_ret {A} (a : A) : queues_commands (mret a) [].
Proof. intros p. exists a, p, []. by rewrite app_nil_r. Qed.

Lemma commands_bind {A B} (m : P A) (k : A -> P B) cs ds :
  queues_commands m cs -> (forall a, queues_commands (k a) ds) -> queues_commands (m ≫= k) (cs ++ ds).
Proof.
  intros Hm Hk p. destruct (Hm p) as (a & p1 & added & H1 & Hq & Hf).
  destruct (Hk a p1) as (b & p2 & added' & H2 & Hq' & Hf'). exists b, p2, (added ++ added').
  unfold mbind, ST_bind. rewrite H1. split; [done|]. rewrite Hq', Hq, app_assoc. split; [done|].
  by apply Forall2_app.
Qed.

Lemma commands_queue c : (length c <= 12)%nat -> queues_commands (poe_cmd_queue c) [c].
Proof.
  intros Hc p. unfold poe_cmd_queue.
  replace (12 <? length c)%nat with false by (symmetry; apply Nat.ltb_ge; lia).
  unfold poe_cmd_send, mbind, ST_bind, get, put. cbn -[make_frame].
  case_match eqn:Hq; cbn -[make_frame]; [case_match|]; do 3 eexists;
    (split; [done|]; upd_simpl; rewrite ?Hq; split; [done|]; constructor; [by eexists|done]).
Qed.

(** ** The ports of poet_setup *)

Definition group_commands (cfg : list port_config) (ids : list nat) : list (list Z) :=
  let four (f : port_config -> Z) := fill_0xff (map (fun i => f (nth i cfg empty_port_config)) ids) in
  let command (id : Z) (data : list Z) :=
    let ports := fill_0xff (map Z.of_nat ids) in
    [id; 0; octet ports 0; octet data 0; octet ports 1; octet data 1;
     octet ports 2; octet data 2; octet ports 3; octet data 3] in
  [command 0x15 (four priority); command 0x11 (four (fun _ => 1));
   command 0x12 (four (fun c => if power_budget c =? 0 then 1 else 2))].

Lemma commands_send_group ids cfg : queues_commands (poet_send_group ids cfg) (group_commands cfg ids).
Proof.
  unfold poet_send_group, group_commands. cbv zeta.
  do 3 (apply (commands_bind _ _ [_]); [by apply commands_queue; simpl; lia|intros _]). apply commands_ret.
Qed.

Definition enabled_ports (cfg : list port_config) (i n : nat) : list nat :=
  filter (fun j => enable (nth j cfg empty_port_config) = true) (seq i n).

Lemma enabled_ports_S cfg i n :
  enabled_ports cfg i (S n)
  = (if enable (nth i cfg empty_port_config) then [i] else []) ++ enabled_ports cfg (S i) n.
Proof.
  unfold enabled_ports. cbn [seq]. rewrite filter_cons. case_decide as H.
  - by rewrite H.
  - apply not_true_is_false in H. by rewrite H.
Qed.

Lemma collect_ports_enabled n i okay cfg :
  (okay < 4)%nat ->
  let '(ids, stop) := collect_ports n i okay cfg in
  ids ++ enabled_ports cfg (S stop) (i + n - S stop) = enabled_ports cfg i n
  /\ (length ids + okay <= 4)%nat /\ (i <= stop <= i + n)%nat.
Proof.
  revert i okay. induction n as [|n IH]; intros i okay Hok; cbn [collect_ports].
  { split; [by replace (i + 0 - S i)%nat with 0%nat by lia|]. simpl. lia. }
  rewrite enabled_ports_S. destruct (enable (nth i cfg empty_port_config)) eqn:He; cbn [negb].
  - destruct (Nat.eqb (S okay) 4) eqn:H4.
    + split; [by replace (i + S n - S i)%nat with n by lia|]. simpl. lia.
    + apply Nat.eqb_neq in H4. specialize (IH (S i) (S okay) ltac:(lia)).
      destruct (collect_ports n (S i) (S okay) cfg) as [ids stop]. destruct IH as (Hids & Hlen & Hstop).
      replace (i + S n - S stop)%nat with (S i + n - S stop)%nat by lia.
      split; [by rewrite <-Hids|]. simpl. lia.
  - specialize (IH (S i) okay Hok). destruct (collect_ports n (S i) okay cfg) as [ids stop].
    destruct IH as (Hids & Hlen & Hstop). replace (i + S n - S stop)%nat with (S i + n - S stop)%nat by lia.
    split; [done|]. lia.
Qed.

Lemma commands_poet_setup_from cfg n fuel i :
  (i <= n)%nat -> (n - i < fuel)%nat ->
  exists groups, concat groups = enabled_ports cfg i (n - i) /\ Forall (fun g => length g <= 4)%nat groups
    /\ queues_commands (poet_setup_from fuel i n cfg) (concat (map (group_commands cfg) groups)).
Proof.
  revert i. induction fuel as [|fuel IH]; intros i Hi Hfuel; [lia|]. cbn [poet_setup_from].
  pose proof (collect_ports_enabled (n - i) i 0 cfg ltac:(lia)) as H.
  destruct (collect_ports (n - i) i 0 cfg) as [ids stop]. destruct H as (Hids & Hlen & Hstop).
  replace (i + (n - i) - S stop)%nat with (n - S stop)%nat in Hids by lia.
  destruct (S stop <? n)%nat eqn:Hlt; [apply Nat.ltb_lt in Hlt|apply Nat.ltb_ge in Hlt].
  - destruct (IH (S stop)) as (groups & Hg & Hl & Hq); [lia..|]. exists (ids :: groups). cbn [map concat].
    rewrite Hg, Hids. split; [done|]. split; [constructor; [lia|done]|].
    apply commands_bind; [apply commands_send_group|by intros _].
  - exists [ids]. cbn [map concat]. rewrite (app_nil_r ids). replace (n - S stop)%nat with 0%nat in Hids by lia.
    rewrite app_nil_r in Hids. split; [done|]. split; [constructor; [lia|done]|].
    apply commands_bind; [apply commands_send_group|intros _; apply commands_ret].
Qed.

(** Poet_setup ends, and the commands that it queues are those of groups
    of at most four ports in which every enabled port occurs exactly once, in
    order, with its own priority and limit; no other port is named. *)
Theorem every_port_set_up cfg n p :
  exists r p' groups added,
    poet_setup cfg n p = Some (r, p')
    /\ concat groups = enabled_ports cfg 0 n /\ Forall (fun g => length g <= 4)%nat groups
    /\ cmd_pending p' = cmd_pending p ++ added
    /\ Forall2 queued_as (concat (map (group_commands cfg) groups)) added.
Proof.
  destruct (commands_poet_setup_from cfg n (S n) 0) as (groups & Hg & Hl & Hq); [lia..|].
  rewrite Nat.sub_0_r in Hg. destruct (Hq p) as (r & p' & added & Heq & Hadd & Hf).
  by exists r, p', groups, added.
Qed.

(** ** Frames written by hand *)

Definition hex_digit (d : Z) : Z := if d <? 10 then 48 + d else 87 + d.

(** printf(" %02x"). *)
Definition hex_octet (b : Z) : list Z := [32; hex_digit (b / 16); hex_digit (b mod 16)].
Definition hex_string (l : list Z) : list Z := concat (map hex_octet l).

Lemma hex_digit_value d : 0 <= d < 16 -> digit_value (hex_digit d) = Some d.
Proof.
  intros Hd. unfold hex_digit. destruct (d <? 10) eqn:H; bool_hyps; unfold digit_value.
  - replace ((48 <=? 48 + d) && (48 + d <=? 57)) with true by (symmetry; apply andb_true_iff; split; lia).
    f_equal. lia.
  - replace (87 + d <=? 57) with false by (symmetry; apply Z.leb_gt; lia). rewrite andb_false_r.
    replace ((97 <=? 87 + d) && (87 + d <=? 122)) with true by (symmetry; apply andb_true_iff; split; lia).
    f_equal. lia.
Qed.

Lemma hex_digit_range d : 0 <= d < 16 -> 48 <= hex_digit d <= 57 \/ 97 <= hex_digit d <= 102.
Proof. intros Hd. unfold hex_digit. case_match; bool_hyps; lia. Qed.

(** A hexadecimal digit is not taken for a space, a sign or a prefix. *)
Lemma hex_no_prefix h rest :
  0 <= h < 16 -> match rest with x :: _ => x <> 120 /\ x <> 88 | [] => True end ->
  skip_spaces (32 :: hex_digit h :: rest) = hex_digit h :: rest
  /\ sign_prefix (hex_digit h :: rest) = (false, hex_digit h :: rest)
  /\ number_prefix 16 (hex_digit h :: rest) = (16, hex_digit h :: rest).
Proof.
  intros Hh Hrest. pose proof (hex_digit_range h Hh) as Hr. revert Hr. generalize (hex_digit h) as c. intros c Hr.
  split.
  - simpl. unfold isspace. replace (c =? 32) with false by (symmetry; apply Z.eqb_neq; lia).
    replace (c <=? 13) with false by (symmetry; apply Z.leb_gt; lia). by rewrite andb_false_r.
  - destruct (Z.eq_dec c 48) as [->|Hc].
    + split; [done|]. destruct rest as [|x [|d rest]]; [done|done|]. simpl. destruct Hrest as [H1 H2].
      replace (x =? 120) with false by (symmetry; by apply Z.eqb_neq).
      by replace (x =? 88) with false by (symmetry; by apply Z.eqb_neq).
    + unfold sign_prefix, number_prefix. repeat case_match; try done; lia.
Qed.

Definition ends_number (rest : list Z) : Prop := match rest with c :: _ => c = 32 | [] => True end.

Lemma strtoul_hex_octet b rest :
  is_octet b -> ends_number rest -> strtoul (hex_octet b ++ rest) 16 = (b, false, rest).
Proof.
  intros Hb Hrest. assert (0 <= b / 16 < 16) as Hhi.
  { unfold is_octet in Hb. split; [apply Z.div_pos; lia|apply Z.div_lt_upper_bound; lia]. }
  pose proof (Z.mod_pos_bound b 16 eq_refl) as Hlo.
  destruct (hex_no_prefix (b / 16) (hex_digit (b mod 16) :: rest) Hhi) as (Hsp & Hsg & Hpr).
  { pose proof (hex_digit_range (b mod 16) Hlo). lia. }
  unfold strtoul, hex_octet. cbn [app]. rewrite Hsp, Hsg, Hpr. unfold is_digit.
  rewrite (hex_digit_value _ Hhi). replace (b / 16 <? 16) with true by (symmetry; apply Z.ltb_lt; lia).
  cbn [read_digits]. rewrite (hex_digit_value _ Hhi), (hex_digit_value _ Hlo).
  replace (b / 16 <? 16) with true by (symmetry; apply Z.ltb_lt; lia).
  replace (b mod 16 <? 16) with true by (symmetry; apply Z.ltb_lt; lia).
  replace ((0 * 16 + b / 16) * 16 + b mod 16) with b by (rewrite (Z.div_mod b 16) at 1; lia).
  assert (read_digits 16 b rest = (b, rest)) as ->.
  { destruct rest as [|c rest]; [done|]. simpl in Hrest. by subst c. }
  replace (ULONG_MAX <? b) with false; [done|]. symmetry. apply Z.ltb_ge. unfold ULONG_MAX, is_octet in *. lia.
Qed.

Lemma hex_string_ends l : ends_number (hex_string l).
Proof. by destruct l. Qed.

Lemma parse_frame_hex n l : Forall is_octet l -> (length l <= n)%nat -> parse_frame n (hex_string l) = Some l.
Proof.
  revert n. induction l as [|b l IH]; intros n Hl Hn; [by destruct n|].
  apply list.Forall_cons in Hl as [Hb Hl]. destruct n as [|n]; [simpl in Hn; lia|].
  change (hex_string (b :: l)) with (hex_octet b ++ hex_string l). cbn [parse_frame].
  rewrite (strtoul_hex_octet b _ Hb (hex_string_ends l)).
  replace (255 <? b) with false by (symmetry; apply Z.ltb_ge; unfold is_octet in Hb; lia).
  replace (length (hex_string l) =? length (hex_octet b ++ hex_string l))%nat with false
    by (symmetry; apply Nat.eqb_neq; rewrite length_app; simpl; lia).
  cbn [orb]. rewrite IH; [done|done|]. simpl in Hn. lia.
Qed.

(** Up to nine octets that are written as hexadecimal numbers for the
    method "sendframe" are queued as exactly that command. *)
Theorem sendframe_roundtrip l p :
  Forall is_octet l -> (length l <= 9)%nat ->
  exists r p' q,
    ubus_poe_sendframe_cb (Some (hex_string l)) p = Some (Status r, p')
    /\ cmd_pending p' = cmd_pending p ++ [q] /\ queued_as l q.
Proof.
  intros Hl Hn. unfold ubus_poe_sendframe_cb. rewrite parse_frame_hex by done.
  destruct (commands_queue l ltac:(lia) p) as (r & p' & added & Heq & Hq & Hf).
  apply Forall2_cons_inv_l in Hf as (q & added' & Hq' & Hnil & ->). inversion Hnil; subst.
  exists r, p', q. split; [|done]. unfold fmap, ST_fmap, mbind, ST_bind. by rewrite Heq.
Qed.

Lemma sendframe_roundtrip_witness : exists r p' q,
  ubus_poe_sendframe_cb (Some (str " 40 00 ff")) initial = Some (Status r, p')
  /\ cmd_pending p' = [q] /\ queued_as [0x40; 0x00; 0xff] q.
Proof.
  destruct (sendframe_roundtrip [0x40; 0x00; 0xff] initial) as (r & p' & q & Heq & Hq & Hf).
  - repeat constructor; unfold is_octet; lia.
  - simpl. lia.
  - exists r, p', q. split; [exact Heq|]. split; [exact Hq|exact Hf].
Defined.
