(* ===== verification/Autorestart.v ===== *)
(** * autorestartd (tf_ar_poe/src/autorestartd): ports and their tests

    The daemon watches the device on each port by a test (link, ping or
    speed) and switches the PoE of the port off and on when the test fails too
    often. This file has the state, the tests and the actions of
    port_module.c, and the helpers of utils_module.c.

    Three threads work on the same array of ports. What they ask their
    surroundings (the clock, files, commands, the network) is a stream of the
    state: [env k] is what the k-th question finds. Command lines for the
    shell and log messages are left out. [None] is undefined behaviour: an
    access outside an array or through a null pointer. *)

From S2P Require Import Prelude CLib Effect.

Definition NUM_PORTS : nat := 8.
Definition MIN_SPEED : Z := 10.
Definition MAX_SPEED : Z := 1000000.

(** ** Data *)

Inductive bool_t := disable | enable | max_bool.
Inductive TYPE_OF_TEST_t := test_disable | test_link | test_ping | test_speed | test_max.
Inductive AR_STATE := IDLE_STATE | REGULAR_STATE | REBOOT_STATE.
Inductive REBOOT_STATE_e :=
  | REBOOT_STATE_IDLE | REBOOT_STATE_INIT | REBOOT_STATE_POE_DOWN | REBOOT_STATE_POE_UP.
#[export] Instance bool_t_eq_dec : EqDecision bool_t := ltac:(solve_decision).
#[export] Instance TYPE_OF_TEST_t_eq_dec : EqDecision TYPE_OF_TEST_t := ltac:(solve_decision).
#[export] Instance AR_STATE_eq_dec : EqDecision AR_STATE := ltac:(solve_decision).
#[export] Instance REBOOT_STATE_e_eq_dec : EqDecision REBOOT_STATE_e := ltac:(solve_decision).

(** error_code_t *)
Definition ERR_PORT_DISABLE : Z := 0x1.
Definition ERR_TEST_TYPE : Z := 0x2.
Definition ERR_TEST_LINK : Z := 0x4.
Definition ERR_TEST_PING : Z := 0x8.
Definition ERR_TEST_SPEED : Z := 0x10.
Definition ERR_TEST_DISABLE : Z := 0x40.
Definition ERR_POE_DOWN : Z := 0x80.
Definition ERR_NULL_OBJ : Z := 0x200.
Definition ERR_IP_NOT_VALID : Z := 0x1000.
Definition ERR_PoE_DISABLE : Z := 0x2000.
Definition ERR_TIME_NOT_VALID : Z := 0x4000.
Definition ERR_SPEED_VALUE : Z := 0x8000.
Definition ERR_OK : Z := 0x10000.
Definition ERR_PORT_SHUTDOWN : Z := 0x20000.
Definition ERR_MANUAL_REBOOT : Z := 0x40000.
Definition ERR_REBOOTING : Z := 0x80000.

(** AR_EVENT and REBOOT_EVENT_e *)
Definition TEST_OK : Z := 0x1.
Definition AUTO_RESTART : Z := 0x2.
Definition MANUAL_RESTART : Z := 0x4.
Definition REBOOT_EVENT_START : Z := 0x1.
Definition REBOOT_EVENT_TIMER_STOP : Z := 0x2.

Record time_h_m := mk_time_h_m {
  tstatus : bool_t; time_H : Z; time_M : Z; targetTime : Z; remainTime : Z }.
#[export] Instance eta_time_h_m : Eta time_h_m := fun a =>
  mk_time_h_m (tstatus a) (time_H a) (time_M a) (targetTime a) (remainTime a).
#[export] Instance set_tstatus : SetterFor tstatus := ltac:(mk_setter).
#[export] Instance set_time_H : SetterFor time_H := ltac:(mk_setter).
#[export] Instance set_time_M : SetterFor time_M := ltac:(mk_setter).
#[export] Instance set_targetTime : SetterFor targetTime := ltac:(mk_setter).
#[export] Instance set_remainTime : SetterFor remainTime := ltac:(mk_setter).

(** timeAlarm[time_up] and timeAlarm[time_down] are two members; the members
    for transmitted octets, which are never used, are left out. *)
Record port_config_info_t := mk_port_config_info_t {
  host : list Z;
  alarm_up : time_h_m;
  alarm_down : time_h_m;
  min_speed : Z;
  max_speed : Z;
  reply_time : Z;
  rx_byte_prev : Z;
  rx_byte_current : Z;
  rx_delta_byte : Z;
  rx_speed_Kbit : Z;
  time_current : Z;
  time_prev : Z;
  alarm : bool_t;
  portNum : Z;
  test : TYPE_OF_TEST_t;
  cfg_poe_state : Z;
  timeStr : list Z }.
#[export] Instance eta_port_config_info_t : Eta port_config_info_t := fun c =>
  mk_port_config_info_t (host c) (alarm_up c) (alarm_down c) (min_speed c) (max_speed c) (reply_time c)
    (rx_byte_prev c) (rx_byte_current c) (rx_delta_byte c) (rx_speed_Kbit c) (time_current c)
    (time_prev c) (alarm c) (portNum c) (test c) (cfg_poe_state c) (timeStr c).
#[export] Instance set_host : SetterFor host := ltac:(mk_setter).
#[export] Instance set_alarm_up : SetterFor alarm_up := ltac:(mk_setter).
#[export] Instance set_alarm_down : SetterFor alarm_down := ltac:(mk_setter).
#[export] Instance set_min_speed : SetterFor min_speed := ltac:(mk_setter).
#[export] Instance set_max_speed : SetterFor max_speed := ltac:(mk_setter).
#[export] Instance set_reply_time : SetterFor reply_time := ltac:(mk_setter).
#[export] Instance set_rx_byte_prev : SetterFor rx_byte_prev := ltac:(mk_setter).
#[export] Instance set_rx_byte_current : SetterFor rx_byte_current := ltac:(mk_setter).
#[export] Instance set_rx_delta_byte : SetterFor rx_delta_byte := ltac:(mk_setter).
#[export] Instance set_rx_speed_Kbit : SetterFor rx_speed_Kbit := ltac:(mk_setter).
#[export] Instance set_time_current : SetterFor time_current := ltac:(mk_setter).
#[export] Instance set_time_prev : SetterFor time_prev := ltac:(mk_setter).
#[export] Instance set_alarm : SetterFor alarm := ltac:(mk_setter).
#[export] Instance set_portNum : SetterFor portNum := ltac:(mk_setter).
#[export] Instance set_test : SetterFor test := ltac:(mk_setter).
#[export] Instance set_cfg_poe_state : SetterFor cfg_poe_state := ltac:(mk_setter).
#[export] Instance set_timeStr : SetterFor timeStr := ltac:(mk_setter).

Record port_reset_info_t := mk_port_reset_info_t {
  resetCount : Z; totalResetCount : Z; errorTestCount : Z;
  errorCode : Z; event : Z; ar_state : AR_STATE }.
#[export] Instance eta_port_reset_info_t : Eta port_reset_info_t := fun r =>
  mk_port_reset_info_t (resetCount r) (totalResetCount r) (errorTestCount r) (errorCode r) (event r)
    (ar_state r).
#[export] Instance set_resetCount : SetterFor resetCount := ltac:(mk_setter).
#[export] Instance set_totalResetCount : SetterFor totalResetCount := ltac:(mk_setter).
#[export] Instance set_errorTestCount : SetterFor errorTestCount := ltac:(mk_setter).
#[export] Instance set_errorCode : SetterFor errorCode := ltac:(mk_setter).
#[export] Instance set_event : SetterFor event := ltac:(mk_setter).
#[export] Instance set_ar_state : SetterFor ar_state := ltac:(mk_setter).

Record port_reboot_info_t := mk_port_reboot_info_t {
  rebootState : REBOOT_STATE_e; rebootEvent : Z; rebootDelay : Z; rebootTimeStart : Z }.
#[export] Instance eta_port_reboot_info_t : Eta port_reboot_info_t := fun r =>
  mk_port_reboot_info_t (rebootState r) (rebootEvent r) (rebootDelay r) (rebootTimeStart r).
#[export] Instance set_rebootState : SetterFor rebootState := ltac:(mk_setter).
#[export] Instance set_rebootEvent : SetterFor rebootEvent := ltac:(mk_setter).
#[export] Instance set_rebootTimeStart : SetterFor rebootTimeStart := ltac:(mk_setter).

Record portInfo_t := mk_portInfo_t {
  portConfigInfo : port_config_info_t;
  portResetInfo : port_reset_info_t;
  port_state : bool_t;
  poe_state : bool_t;
  portRebootInfo : port_reboot_info_t }.
#[export] Instance eta_portInfo_t : Eta portInfo_t := fun p =>
  mk_portInfo_t (portConfigInfo p) (portResetInfo p) (port_state p) (poe_state p) (portRebootInfo p).
#[export] Instance set_portConfigInfo : SetterFor portConfigInfo := ltac:(mk_setter).
#[export] Instance set_portResetInfo : SetterFor portResetInfo := ltac:(mk_setter).
#[export] Instance set_port_state : SetterFor port_state := ltac:(mk_setter).
#[export] Instance set_poe_state : SetterFor poe_state := ltac:(mk_setter).
#[export] Instance set_portRebootInfo : SetterFor portRebootInfo := ltac:(mk_setter).

(** The parameters of the daemon. *)
Record config_t := mk_config_t { TEST_DELAY : Z; TEST_NUM : Z; MAX_RESET : Z; MAIN_TIME : Z }.

(** What a client is told about a port. *)
Record resetPort_t := mk_resetPort_t {
  r_errorCode : Z; r_status : Z; r_portNum : Z; r_resetCount : Z; r_testType : TYPE_OF_TEST_t;
  r_timeStr : list Z }.
#[export] Instance eta_resetPort_t : Eta resetPort_t := fun r =>
  mk_resetPort_t (r_errorCode r) (r_status r) (r_portNum r) (r_resetCount r) (r_testType r) (r_timeStr r).
#[export] Instance set_r_status : SetterFor r_status := ltac:(mk_setter).

(** ** The daemon and its surroundings *)

Record tm := mk_tm { tm_sec : Z; tm_min : Z; tm_hour : Z; tm_mday : Z; tm_mon : Z; tm_year : Z }.
#[export] Instance eta_tm : Eta tm := fun t =>
  mk_tm (tm_sec t) (tm_min t) (tm_hour t) (tm_mday t) (tm_mon t) (tm_year t).
#[export] Instance set_tm_sec : SetterFor tm_sec := ltac:(mk_setter).
#[export] Instance set_tm_min : SetterFor tm_min := ltac:(mk_setter).
#[export] Instance set_tm_hour : SetterFor tm_hour := ltac:(mk_setter).
#[export] Instance set_tm_mday : SetterFor tm_mday := ltac:(mk_setter).

(** What a question finds: the clock, a file, the output of a command ([None]
    when it cannot be opened), the time of the answer to ping ([None]: there is
    none), and the contents of an uninitialised variable. *)
Record env_t := mk_env {
  time : Z;
  file : option (list Z);
  shell : option (list Z);
  ping : option Z;
  junk : Z;
  junk_text : list Z }.

Inductive output :=
  | Poe_down (port : Z)
  | Poe_up (port : Z)
  | Sent (status : list resetPort_t).

Record ard := mk_ard {
  portInfoArr : list portInfo_t;
  configOptions : config_t;
  resetPortBuf : list resetPort_t;
  isRecivedMsg : bool;
  globalDebugMode : bool;
  outs : list output;
  env : nat -> env_t;
  asked : nat }.
#[export] Instance eta_ard : Eta ard := fun d =>
  mk_ard (portInfoArr d) (configOptions d) (resetPortBuf d) (isRecivedMsg d) (globalDebugMode d) (outs d) (env d) (asked d).
#[export] Instance set_portInfoArr : SetterFor portInfoArr := ltac:(mk_setter).
#[export] Instance set_configOptions : SetterFor configOptions := ltac:(mk_setter).
#[export] Instance set_resetPortBuf : SetterFor resetPortBuf := ltac:(mk_setter).
#[export] Instance set_isRecivedMsg : SetterFor isRecivedMsg := ltac:(mk_setter).
#[export] Instance set_outs : SetterFor outs := ltac:(mk_setter).
#[export] Instance set_env : SetterFor env := ltac:(mk_setter).
#[export] Instance set_asked : SetterFor asked := ltac:(mk_setter).

Abbreviation AR := (ST ard).

Definition ask {A} (q : env_t -> A) : AR A := fun d =>
  Some (q (env d (asked d)), d <| asked := S (asked d) |>).
Definition emit (o : output) : AR unit := put (fun d => d <| outs := outs d ++ [o] |>).

Definition the_port (i : nat) : AR portInfo_t := d ← get; deref_opt (portInfoArr d !! i).
Definition mod_port (i : nat) (f : portInfo_t -> portInfo_t) : AR unit :=
  the_port i ;; put (fun d => d <| portInfoArr := alter f i (portInfoArr d) |>).
Definition mod_config (i : nat) (f : port_config_info_t -> port_config_info_t) : AR unit :=
  mod_port i (fun p => p <| portConfigInfo := f (portConfigInfo p) |>).
Definition mod_reset (i : nat) (f : port_reset_info_t -> port_reset_info_t) : AR unit :=
  mod_port i (fun p => p <| portResetInfo := f (portResetInfo p) |>).
Definition mod_reboot (i : nat) (f : port_reboot_info_t -> port_reboot_info_t) : AR unit :=
  mod_port i (fun p => p <| portRebootInfo := f (portRebootInfo p) |>).
Definition mod_error (i : nat) (f : Z -> Z) : AR unit :=
  mod_reset i (fun r => r <| errorCode := f (errorCode r) |>).

(** errorCode &= ~ERR_OK; errorCode |= e *)
Definition fails (e : Z) (c : Z) : Z := raise e (clear ERR_OK c).

(** The functions that take a port number ignore numbers of no port. *)
Definition with_port (n : Z) (f : nat -> AR unit) : AR unit :=
  if (0 <? n) && (n <=? Z.of_nat NUM_PORTS) then f (Z.to_nat (n - 1)) else mret tt.

(** ** Text *)

Fixpoint is_prefix (p s : list Z) : bool :=
  match p, s with
  | [], _ => true
  | x :: p, y :: s => (x =? y) && is_prefix p s
  | _ :: _, [] => false
  end.

Fixpoint strstr (s name : list Z) : option (list Z) :=
  if is_prefix name s then Some s else match s with [] => None | _ :: s' => strstr s' name end.

(** At most [n] characters before the next quote. *)
Fixpoint until_quote (n : nat) (s : list Z) : list Z :=
  match n, s with
  | S n, c :: s => if c =? 34 then [] else c :: until_quote n s
  | _, _ => []
  end.

(** [value] is what the array holds before. *)
Definition getValueFromJson (json name value : list Z) : option (list Z) :=
  match strstr json name with
  | None => Some value
  | Some p =>
      p ← strchr p 58;
      p ← strchr p 34;
      Some (match until_quote 9 (tail p) with [] => value | v => v end)
  end.

(** The first line, as fgets reads it into an array of [n] characters. *)
Fixpoint first_line (n : nat) (s : list Z) : list Z :=
  match n, s with
  | S (S n as m), c :: s => c :: (if c =? 10 then [] else first_line m s)
  | _, _ => []
  end.

(** strcpy into an array of [n] characters. *)
Definition strcpy_array (n : nat) (s : list Z) : AR (list Z) :=
  if (length s <? n)%nat then mret s else overrun.

(** The output of a command, collected in an array of 256 characters. *)
Definition read_shell : AR (list Z) :=
  o ← ask shell; text ← deref_opt o; strcpy_array 256 text.

(** What the JSON library finds at "values" and an option of it. *)
Inductive json_answer := Missing | Not_a_string | Text (s : list Z).

(** "%d": the number and the rest. *)
Definition scan_int (s : list Z) : option (Z * list Z) :=
  let '(negative, t) := sign_prefix (skip_spaces s) in
  match t with
  | c :: _ =>
      if is_digit 10 c then
        let '(v, rest) := read_digits 10 0 t in Some ((if negative then - v else v), rest)
      else None
  | [] => None
  end.

(** The hour and the minute of "%d:%d". *)
Definition isValidTime (s : list Z) : option (Z * Z) :=
  '(hour, s) ← scan_int s;
  match s with
  | 58 :: s =>
      '(minute, _) ← scan_int s;
      if (hour <? 0) || (23 <? hour) || (minute <? 0) || (59 <? minute) then None
      else Some (hour, minute)
  | _ => None
  end.

(** One to three decimal digits, and the rest. *)
Fixpoint digits_upto (n : nat) (s : list Z) : nat * list Z :=
  match n, s with
  | S n, c :: s' =>
      if is_digit 10 c then let '(k, r) := digits_upto n s' in (S k, r) else (0%nat, s)
  | _, _ => (0%nat, s)
  end.

(** The expression ^([0-9]{1,3}\.){3}[0-9]{1,3}$ of checkValidIp. *)
Fixpoint ip_groups (n : nat) (s : list Z) : bool :=
  let '(k, r) := digits_upto 3 s in
  match n, k with
  | _, O => false
  | O, _ => bool_decide (r = [])
  | S n, _ => match r with 46 :: r => ip_groups n r | _ => false end
  end.

(** ERR_OK of utils_module.c is 0. *)
Definition checkValidIp (ip : list Z) : Z := if ip_groups 3 ip then 0 else ERR_IP_NOT_VALID.

Definition two_digits (x : Z) : list Z := [48 + x / 10 mod 10; 48 + x mod 10].
Definition monthTable : list (list Z) :=
  [10] :: map str ["January"; "February"; "March"; "April"; "May"; "June"; "Julie"; "August"; "September";
                   "October"; "November"; "December"].

(** "%04d" for a number below 100000. *)
Definition four_digits (x : Z) : list Z :=
  (if x <? 10000 then [] else [48 + x / 10000]) ++ two_digits (x / 100 mod 100) ++ two_digits (x mod 100).

Definition testTable : list (string * TYPE_OF_TEST_t) :=
  [("disable", test_disable); ("link", test_link); ("ping", test_ping); ("speed", test_speed)].
Definition boolTable : list (string * bool_t) := [("disable", disable); ("enable", enable)].

Definition find_word {A} (s : list Z) (l : list (string * A)) (none : A) : A :=
  match find (fun x => strcmp_eq s (str x.1)) l with Some (_, a) => a | None => none end.
Definition getCmdKey (s : list Z) : TYPE_OF_TEST_t := find_word s testTable test_max.
Definition getAlarmSate (s : list Z) : bool_t := find_word s boolTable max_bool.

Section port_module.
Context (localtime : Z -> tm) (mktime : tm -> Z) (json_values : list Z -> string -> json_answer).

(** "HH:MM:SS, Month-Year" *)
Definition getTimeDate : AR (list Z) :=
  now ← ask time;
  let t := localtime now in
  month ← deref_opt (monthTable !! Z.to_nat (tm_mon t + 1));
  mret (two_digits (tm_hour t) ++ [58] ++ two_digits (tm_min t) ++ [58] ++ two_digits (tm_sec t)
        ++ [44; 32] ++ month ++ [45] ++ four_digits (u16 (tm_year t) + 1900)).

(** The string of the option, copied into an array of [n] characters. *)
Definition getData_formJson (n : nat) (json : list Z) (key : string) : AR (option (list Z)) :=
  match json_values json key with
  | Missing => mret None
  | Not_a_string => overrun
  | Text s => Some <$> strcpy_array n s
  end.

(** ** Configuration of a port *)

Definition port_setHostParam (i : nat) (h : list Z) : AR Z :=
  h ← strcpy_array 16 h;
  mod_config i (fun c => c <| host := h |>) ;;
  mret (checkValidIp h).

Definition port_setSpeedParam (i : nat) (max min : Z) : AR Z :=
  if max <? min then mret ERR_SPEED_VALUE
  else if (max <? MIN_SPEED) || (MAX_SPEED <? max) then mret ERR_SPEED_VALUE
  else
    mod_config i (fun c => c <| max_speed := max |>) ;;
    if (min <? MIN_SPEED) || (MAX_SPEED <? min) then mret ERR_SPEED_VALUE
    else mod_config i (fun c => c <| min_speed := min |>) ;; mret ERR_OK.

(** The next time at which the clock shows [hour]:[minute]. *)
Definition alarm_target (now hour minute : Z) : Z :=
  let t := (localtime now) <| tm_hour := hour |> <| tm_min := minute |> <| tm_sec := 0 |> in
  let target := u32 (mktime t) in
  if target <=? now then u32 (mktime (t <| tm_mday := tm_mday t + 1 |>)) else target.

Definition set_alarm_time (now hour minute : Z) (a : time_h_m) : time_h_m :=
  a <| time_H := hour |> <| time_M := minute |> <| targetTime := alarm_target now hour minute |>.

Definition port_setTimeParam (i : nat) (timeUp timeDown : list Z) : AR Z :=
  now ← ask time;
  match isValidTime timeUp with
  | None => mret (Z.lor (Z.lor ERR_OK ERR_TIME_NOT_VALID) (if isValidTime timeDown then 0 else ERR_TIME_NOT_VALID))
  | Some (h, m) =>
      mod_config i (fun c => c <| alarm_up := set_alarm_time now h m (alarm_up c) |>) ;;
      match isValidTime timeDown with
      | None => mret (Z.lor ERR_OK ERR_TIME_NOT_VALID)
      | Some (h, m) =>
          mod_config i (fun c => c <| alarm_down := set_alarm_time now h m (alarm_down c) |>) ;;
          mret ERR_OK
      end
  end.

Definition setLink : AR Z := mret ERR_OK.

Definition setHost (i : nat) (json : list Z) : AR Z :=
  h ← getData_formJson 16 json "host";
  match h with None => mret ERR_IP_NOT_VALID | Some h => port_setHostParam i h end.

(** errorCode is not initialised. *)
Definition setSpeed (i : nat) (json : list Z) : AR Z :=
  e ← ask junk;
  max ← getData_formJson 64 json "max_speed";
  min ← getData_formJson 64 json "min_speed";
  let speed (s : option (list Z)) := match s with Some s => u16 (strtol s 10) | None => 0 end in
  let e := match max, min with Some _, Some _ => e | _, _ => ERR_SPEED_VALUE end in
  if e =? ERR_SPEED_VALUE then mret e else port_setSpeedParam i (speed max) (speed min).

Definition setTestConfig (i : nat) (t : TYPE_OF_TEST_t) (json : list Z) : AR Z :=
  match t with
  | test_disable => mret ERR_PORT_DISABLE
  | test_link => setLink
  | test_ping => setHost i json
  | test_speed => setSpeed i json
  | test_max => overrun
  end.

Definition setTime (i : nat) (json : list Z) : AR Z :=
  up ← getData_formJson 64 json "timeUp";
  up' ← match up with Some s => strcpy_array 5 s | None => mret [] end;
  down ← getData_formJson 64 json "timeDown";
  down' ← match down with Some s => strcpy_array 5 s | None => mret [] end;
  match up, down with
  | Some _, Some _ => port_setTimeParam i up' down'
  | _, _ => mret (Z.lor ERR_OK ERR_TIME_NOT_VALID)
  end.

Definition set_errorHandler (i : nat) : AR unit :=
  p ← the_port i;
  let e := errorCode (portResetInfo p) in
  if has e ERR_IP_NOT_VALID || has e ERR_TIME_NOT_VALID || has e ERR_SPEED_VALUE || has e ERR_PORT_DISABLE
  then mod_config i (fun c => c <| test := test_disable |>) else mret tt.

Definition no_alarm (h m : Z) (a : time_h_m) : time_h_m :=
  a <| tstatus := disable |> <| time_H := h |> <| time_M := m |>.

Definition setConfigZeroValue (i : nat) (isReboot : bool) : AR unit :=
  now ← ask time;
  mod_config i (fun c => c
    <| min_speed := 0 |> <| max_speed := 0 |> <| rx_delta_byte := 0 |> <| rx_byte_current := 0 |>
    <| rx_byte_prev := 0 |> <| rx_speed_Kbit := 0 |> <| time_current := u32 now |>) ;;
  if isReboot then mret tt
  else mod_config i (fun c => c
         <| host := str "0.0.0.0" |> <| alarm_down := no_alarm 25 61 (alarm_down c) |>
         <| alarm_up := no_alarm 27 62 (alarm_up c) |> <| timeStr := [] |>).

Definition setResetZeroValue (i : nat) (isReboot : bool) : AR unit :=
  mod_reset i (fun r => r
    <| errorCode := ERR_OK |>
    <| totalResetCount := if isReboot then totalResetCount r else 0 |>
    <| resetCount := 0 |> <| errorTestCount := 0 |> <| ar_state := REGULAR_STATE |> <| event := 0 |>).

Definition getPortParam (i : nat) (isReboot : bool) : AR unit :=
  mod_config i (fun c => c <| portNum := Z.of_nat i + 1 |>) ;;
  json ← read_shell;
  state ← deref_opt (getValueFromJson json (str "state") []);
  alrm ← deref_opt (getValueFromJson json (str "alarm") []);
  let typeOfTest := getCmdKey state in
  mod_config i (fun c => c <| test := test_disable |> <| alarm := getAlarmSate alrm |>) ;;
  setConfigZeroValue i isReboot ;;
  setResetZeroValue i isReboot ;;
  (match typeOfTest with
   | test_max => mod_error i (fails ERR_TEST_TYPE)
   | test_disable => mod_error i (fails ERR_TEST_DISABLE)
   | _ =>
       mod_config i (fun c => c <| test := typeOfTest |>) ;;
       e ← setTestConfig i typeOfTest json;
       mod_error i (fun _ => e)
   end) ;;
  p ← the_port i;
  (if bool_decide (alarm (portConfigInfo p) = enable) then
     e ← setTime i json;
     if has e ERR_NULL_OBJ then mod_config i (fun c => c <| alarm := disable |>) else mret tt
   else mret tt) ;;
  set_errorHandler i.

Definition getPortsParam : AR unit := for_each_p (seq 0 NUM_PORTS) (fun i => getPortParam i false).

Definition rebootParamInit : AR unit :=
  for_each_p (seq 0 NUM_PORTS) (fun i =>
    mod_reboot i (fun _ => mk_port_reboot_info_t REBOOT_STATE_IDLE 0 15 0)).

(** ** Configuration of the daemon *)

(** The number of an option, read from the output of ubus. *)
Definition option_value (json : list Z) (name : string) : AR Z :=
  value_str ← ask junk_text;
  value_str ← deref_opt (getValueFromJson json (str name) value_str);
  mret (u8 (strtol value_str 10)).

Definition at_most_60 (x default : Z) : Z := if 60 <? x then default else x.

(** The part of getConfig after the command is in its array. *)
Definition getConfig_values : AR unit :=
  res ← read_shell;
  delay ← option_value res "test_delay";
  num ← option_value res "test_num";
  max ← option_value res "max_reset";
  put (fun d => d <| configOptions :=
    mk_config_t (at_most_60 delay 3) (at_most_60 num 10) (at_most_60 max 3) (MAIN_TIME (configOptions d)) |>).

(** A double quote is written as a backquote. *)
Definition with_quotes (s : string) : list Z := map (fun c => if c =? 96 then 34 else c) (str s).

Definition str_ubusCall : list Z :=
  with_quotes "ubus call uci get '{`config`:`tf_autorestart`, `section`:`ar_demon`}'".

Definition getConfig : AR unit := strcpy_array 64 str_ubusCall ;; getConfig_values.

Definition runTimer : AR unit :=
  now ← ask time;
  put (fun d => d <| configOptions :=
    mk_config_t (TEST_DELAY (configOptions d)) (TEST_NUM (configOptions d)) (MAX_RESET (configOptions d))
      (u8 (now + TEST_DELAY (configOptions d))) |>).

Definition ar_mainInit : AR unit := getConfig ;; getPortsParam ;; rebootParamInit ;; runTimer.
End port_module.
