(* ===== verification/AutorestartDaemon.v ===== *)
(** * autorestartd (tf_ar_poe/src/autorestartd): the three threads

    The tests of a port (port_module.c and test_module.c), the restart of a
    port and the alarms (events_module.c) and the commands of clients
    (client_module.c). [step] is one visit of a thread to a port; the threads
    take them in any order. Inside of a visit a thread is not interrupted. *)

From S2P Require Import Prelude CLib Effect Autorestart.

(** CMD_TYPE_e *)
Definition cmd_idle : Z := 0.
Definition cmd_status : Z := 1.
Definition cmd_reboot : Z := 2.
Definition cmd_error : Z := 3.

Section daemon.
Context (localtime : Z -> tm) (mktime : tm -> Z) (json_values : list Z -> string -> json_answer).

(** ** The tests *)

Definition port_runTestDisable (portNum : Z) : AR unit :=
  with_port portNum (fun i => mod_error i (fails ERR_TEST_DISABLE)).

(** A test that passes brings an idle port back. *)
Definition test_passes (i : nat) : AR unit :=
  p ← the_port i;
  if bool_decide (ar_state (portResetInfo p) = IDLE_STATE)
  then mod_reset i (fun r => r <| event := raise TEST_OK (event r) |>) else mret tt.

Definition port_runTestLink (portNum : Z) : AR unit :=
  with_port portNum (fun i =>
    f ← ask file;
    text ← deref_opt f;
    mod_error i (fun e => raise ERR_OK (clear ERR_TEST_LINK e)) ;;
    if negb (strcmp_eq (first_line 64 text) (str "up" ++ [10])) then mod_error i (fails ERR_TEST_LINK)
    else
      p ← the_port i;
      if bool_decide (test (portConfigInfo p) = test_link) then test_passes i else mret tt).

Definition port_runTestPing (portNum : Z) : AR unit :=
  with_port portNum (fun i =>
    p ← the_port i;
    r ← if has (errorCode (portResetInfo p)) ERR_TEST_LINK then mret None else ask ping;
    mod_config i (fun c => c <| reply_time := default 0 r |>) ;;
    match r with
    | None => mod_error i (fails ERR_TEST_PING)
    | Some _ => mod_error i (fun _ => ERR_OK) ;; test_passes i
    end).

(** The received octets and the time since the last test: the counter of the
    interface is converted to int32_t and to uint32_t. *)
Definition read_speed (i : nat) : AR (Z * Z) :=
  o ← ask shell;
  text ← deref_opt o;
  mod_error i (fun e => raise ERR_OK (clear ERR_TEST_SPEED e)) ;;
  mod_config i (fun c => c <| rx_byte_current := u32 (strtol (first_line 64 text) 10) |>) ;;
  mod_config i (fun c => c <| rx_delta_byte := u32 (rx_byte_current c - rx_byte_prev c) |>
                           <| rx_byte_prev := rx_byte_current c |>) ;;
  now ← ask time;
  mod_config i (fun c => c <| time_current := u32 now |>) ;;
  p ← the_port i;
  let delta_time := u32 (time_current (portConfigInfo p) - time_prev (portConfigInfo p)) in
  mod_config i (fun c => c <| time_prev := time_current c |>) ;;
  mret (delta_time, u32 (rx_delta_byte (portConfigInfo p) * 8)).

Definition port_runTestSpeed (portNum : Z) : AR unit :=
  with_port portNum (fun i =>
    p ← the_port i;
    '(delta_time, rx_delta_bit) ←
      if has (errorCode (portResetInfo p)) ERR_TEST_LINK then mret (0, 0) else read_speed i;
    speed ←
      (if delta_time =? 0 then mod_error i (fails ERR_TEST_SPEED) ;; mret rx_delta_bit
       else
         let speed := rx_delta_bit / delta_time / 1000 in
         p ← the_port i;
         (if (speed <? min_speed (portConfigInfo p)) || (max_speed (portConfigInfo p) <? speed)
          then mod_error i (fails ERR_TEST_SPEED) else test_passes i) ;;
         mret speed);
    mod_config i (fun c => c <| rx_speed_Kbit := speed |>)).

Definition port_timeAlarm (a : time_h_m) : AR time_h_m :=
  ask time ;;
  now ← ask time;
  let t := localtime now in
  if targetTime a <=? now then
    mret (a <| targetTime := u32 (mktime (t <| tm_mday := tm_mday t + 1 |>)) |>
            <| remainTime := 0 |> <| tstatus := enable |>)
  else mret (a <| remainTime := u32 (targetTime a - now) |>).

Definition port_runTestTime (portNum : Z) : AR unit :=
  with_port portNum (fun i =>
    p ← the_port i;
    up ← port_timeAlarm (alarm_up (portConfigInfo p));
    mod_config i (fun c => c <| alarm_up := up |>) ;;
    down ← port_timeAlarm (alarm_down (portConfigInfo p));
    mod_config i (fun c => c <| alarm_down := down |>)).

(** ** The port and its power *)

Definition port_out_of_work (i : nat) (e : Z) : AR unit :=
  mod_error i (fails e) ;; mod_reset i (fun r => r <| ar_state := IDLE_STATE |>).

Definition get_PortAndPoeState (portNum : Z) : AR unit :=
  with_port portNum (fun i =>
    res ← read_shell;
    state_str ← getData_formJson json_values 32 res "state";
    poe_str ← getData_formJson json_values 32 res "poe";
    let is_enable (s : option (list Z)) := strcmp_eq (default [] s) (str "enable") in
    (if is_enable state_str then mod_port i (fun p => p <| port_state := enable |>)
     else mod_port i (fun p => p <| port_state := disable |>) ;; port_out_of_work i ERR_PORT_DISABLE) ;;
    (if is_enable poe_str then mod_port i (fun p => p <| poe_state := enable |>)
     else mod_port i (fun p => p <| poe_state := disable |>) ;; port_out_of_work i ERR_PoE_DISABLE)).

(** The port number is written as one digit of a table of nine. *)
Definition poe_Control (port : Z) (up : bool) : AR unit :=
  if 8 <? port then overrun else emit (if up then Poe_up port else Poe_down port).

Definition stamp (i : nat) : AR unit :=
  t ← getTimeDate localtime;
  t ← strcpy_array 32 t;
  mod_config i (fun c => c <| timeStr := t |>).

Definition autoResetHandler (portNum maxReset : Z) : AR unit :=
  with_port portNum (fun i =>
    stamp i ;;
    mod_error i (clear ERR_OK) ;;
    p ← the_port i;
    if maxReset <=? resetCount (portResetInfo p) then
      mod_error i (fun e => raise ERR_PORT_SHUTDOWN (clear ERR_REBOOTING e)) ;;
      mod_reboot i (fun r => r <| rebootState := REBOOT_STATE_IDLE |>) ;;
      mod_reset i (fun r => r <| ar_state := IDLE_STATE |>) ;;
      set_errorHandler i
    else
      mod_reset i (fun r => r
        <| errorTestCount := 0 |> <| resetCount := u8 (resetCount r + 1) |>
        <| totalResetCount := u8 (totalResetCount r + 1) |>) ;;
      mod_error i (raise ERR_REBOOTING) ;;
      mod_reboot i (fun r => r <| rebootState := REBOOT_STATE_INIT |>)).

Definition manualResetHandler (portNum : Z) : AR unit :=
  with_port portNum (fun i =>
    stamp i ;;
    mod_error i (fun e => raise ERR_MANUAL_REBOOT (clear ERR_PORT_SHUTDOWN (clear ERR_OK e))) ;;
    mod_reset i (fun r => r
      <| totalResetCount := u8 (totalResetCount r + 1) |> <| resetCount := 0 |> <| errorTestCount := 0 |>) ;;
    mod_reboot i (fun r => r <| rebootState := REBOOT_STATE_INIT |>)).

(** ** Events *)

Definition clear_event (i : nat) (e : Z) : AR unit :=
  mod_reset i (fun r => r <| event := clear e (event r) |>).

Definition powered (p : portInfo_t) : bool :=
  bool_decide (port_state p = enable) && bool_decide (poe_state p = enable).

Definition reboot_idle (i : nat) : AR unit :=
  p ← the_port i;
  let portNum := portNum (portConfigInfo p) in
  d ← get;
  (if has (event (portResetInfo p)) AUTO_RESTART
   then clear_event i AUTO_RESTART ;; autoResetHandler portNum (MAX_RESET (configOptions d)) else mret tt) ;;
  p ← the_port i;
  if has (event (portResetInfo p)) MANUAL_RESTART && powered p
  then manualResetHandler portNum ;; clear_event i MANUAL_RESTART else mret tt.

Definition reboot_down (i : nat) : AR unit :=
  p ← the_port i;
  (if has (rebootEvent (portRebootInfo p)) REBOOT_EVENT_START then
     mod_reboot i (fun r => r <| rebootEvent := clear REBOOT_EVENT_START (rebootEvent r) |>) ;;
     poe_Control (portNum (portConfigInfo p)) false ;;
     now ← ask time;
     mod_reboot i (fun r => r <| rebootTimeStart := u32 (rebootDelay r + now) |>)
   else mret tt) ;;
  now ← ask time;
  mod_reboot i (fun r =>
    if rebootTimeStart r <=? now then r <| rebootEvent := raise REBOOT_EVENT_TIMER_STOP (rebootEvent r) |>
    else r) ;;
  p ← the_port i;
  if has (rebootEvent (portRebootInfo p)) REBOOT_EVENT_TIMER_STOP
  then mod_reboot i (fun r => r <| rebootState := REBOOT_STATE_POE_UP |>) else mret tt.

Definition reboot_up (i : nat) : AR unit :=
  mod_reboot i (fun r => r <| rebootEvent := clear REBOOT_EVENT_TIMER_STOP (rebootEvent r) |>) ;;
  p ← the_port i;
  let portNum := portNum (portConfigInfo p) in
  (if powered p then poe_Control portNum true else mret tt) ;;
  mod_reset i (fun r => r <| ar_state := REGULAR_STATE |>) ;;
  mod_reboot i (fun r => r <| rebootState := REBOOT_STATE_IDLE |>) ;;
  mod_error i (fun e => clear ERR_MANUAL_REBOOT (clear ERR_REBOOTING e)) ;;
  if has (event (portResetInfo p)) MANUAL_RESTART then
    clear_event i MANUAL_RESTART ;;
    mod_error i (clear ERR_PORT_SHUTDOWN) ;;
    getPortParam localtime mktime json_values (Z.to_nat (u8 (portNum - 1))) true
  else mret tt.

Definition rebootHandler (i : nat) : AR unit :=
  p ← the_port i;
  match rebootState (portRebootInfo p) with
  | REBOOT_STATE_IDLE => reboot_idle i
  | REBOOT_STATE_INIT =>
      mod_reboot i (fun r => r <| rebootState := REBOOT_STATE_POE_DOWN |>
                               <| rebootEvent := raise REBOOT_EVENT_START (rebootEvent r) |>)
  | REBOOT_STATE_POE_DOWN => reboot_down i
  | REBOOT_STATE_POE_UP => reboot_up i
  end.

(** Errors for which the port is not restarted. *)
Definition exempt (e : Z) : bool :=
  has e ERR_PORT_DISABLE || has e ERR_TEST_DISABLE || has e ERR_PORT_SHUTDOWN || has e ERR_POE_DOWN
  || has e ERR_PoE_DISABLE.
Definition test_failed (e : Z) : bool :=
  has e ERR_TEST_LINK || has e ERR_TEST_SPEED || has e ERR_TEST_PING.

Definition count_success (r : port_reset_info_t) : port_reset_info_t :=
  let n := if 0 <? errorTestCount r then errorTestCount r - 1 else errorTestCount r in
  if n =? 0 then
    r <| errorTestCount := n |> <| errorCode := clear ERR_PORT_SHUTDOWN (errorCode r) |> <| resetCount := 0 |>
  else r <| errorTestCount := n |>.

Definition count_failure (limit : Z) (r : port_reset_info_t) : port_reset_info_t :=
  let n := u8 (errorTestCount r + 1) in
  let r := r <| errorTestCount := n |> in
  if (limit <=? n) && negb (bool_decide (ar_state r = REBOOT_STATE))
  then r <| event := raise AUTO_RESTART (event r) |> <| ar_state := REBOOT_STATE |> else r.

Definition test_ErrorHandler (i : nat) : AR unit :=
  d ← get;
  mod_reset i (fun r => if has (errorCode r) ERR_OK then count_success r else r) ;;
  mod_reset i (fun r =>
    if negb (exempt (errorCode r)) && test_failed (errorCode r)
    then count_failure (TEST_NUM (configOptions d)) r else r).

Definition alarmHandler (i : nat) : AR unit :=
  p ← the_port i;
  let portNum := portNum (portConfigInfo p) in
  port_runTestTime portNum ;;
  p ← the_port i;
  if bool_decide (ar_state (portResetInfo p) = REBOOT_STATE) then mret tt
  else
    (if bool_decide (tstatus (alarm_down (portConfigInfo p)) = enable) then
       mod_config i (fun c => c <| alarm_down := (alarm_down c) <| tstatus := disable |> |>) ;;
       mod_error i (raise ERR_POE_DOWN) ;;
       poe_Control portNum false ;;
       mod_reset i (fun r => r <| totalResetCount := u8 (totalResetCount r + 1) |>) ;;
       mod_config i (fun c => c <| cfg_poe_state := 0 |>) ;;
       stamp i
     else mret tt) ;;
    if bool_decide (tstatus (alarm_up (portConfigInfo p)) = enable) then
      mod_config i (fun c => c <| alarm_up := (alarm_up c) <| tstatus := disable |> |>) ;;
      poe_Control portNum true ;;
      mod_error i (clear ERR_POE_DOWN) ;;
      mod_config i (fun c => c <| cfg_poe_state := 1 |>)
    else mret tt.

(** One round of the loop of eventsHandler. *)
Definition events_of_port (i : nat) : AR unit :=
  p ← the_port i;
  (match ar_state (portResetInfo p) with
   | REGULAR_STATE => test_ErrorHandler i
   | REBOOT_STATE => rebootHandler i
   | IDLE_STATE =>
       if has (event (portResetInfo p)) TEST_OK then
         clear_event i TEST_OK ;;
         mod_reset i (fun r => r <| ar_state := REGULAR_STATE |>) ;;
         mod_error i (clear ERR_PORT_SHUTDOWN)
       else mret tt
   end) ;;
  p ← the_port i;
  if bool_decide (alarm (portConfigInfo p) = enable) then alarmHandler i else mret tt.

(** printResult only prints and resets isRecivedMsg. *)
Definition print_if_debug : AR unit :=
  put (fun d => if globalDebugMode d then d <| isRecivedMsg := false |> else d).

Definition eventsHandler : AR unit := for_each_p (seq 0 NUM_PORTS) events_of_port ;; print_if_debug.

(** ** Tests of all ports *)

(** The parts of the threads for tests. *)
Inductive test_part := Disable | Link | Ping | Speed.

Definition runTest (t : TYPE_OF_TEST_t) : option (list test_part) :=
  match t with
  | test_disable => Some [Disable]
  | test_link => Some [Link]
  | test_ping => Some [Link; Ping]
  | test_speed => Some [Link; Speed]
  | test_max => None
  end.

Definition run_part (i : nat) (t : test_part) : AR unit :=
  p ← the_port i;
  let portNum := portNum (portConfigInfo p) in
  match t with
  | Disable => port_runTestDisable portNum
  | Link => port_runTestLink portNum
  | Ping => port_runTestPing portNum
  | Speed => port_runTestSpeed portNum
  end.

(** The ports are tested in threads of their own; here one after the other. *)
Definition test_port (i : nat) : AR unit :=
  get_PortAndPoeState (Z.of_nat i + 1) ;;
  p ← the_port i;
  parts ← deref_opt (runTest (test (portConfigInfo p)));
  for_each_p parts (run_part i).

Definition test_main : AR unit := for_each_p (seq 0 NUM_PORTS) test_port.

(** ** Clients *)

(** [port] is a uint8_t, and the arrays are indexed by [port - 1]. *)
Definition the_index (port : Z) : AR nat :=
  if (1 <=? port) && (port <=? Z.of_nat NUM_PORTS) then mret (Z.to_nat (port - 1)) else overrun.

Definition reset_answer (status : Z) (p : portInfo_t) : resetPort_t :=
  mk_resetPort_t (errorCode (portResetInfo p)) status (portNum (portConfigInfo p))
    (totalResetCount (portResetInfo p)) (test (portConfigInfo p)) (timeStr (portConfigInfo p)).

Definition d_sendCmd : AR unit := d ← get; emit (Sent (resetPortBuf d)).

Definition cmd_sendStatus : AR unit :=
  put (fun d => d <| resetPortBuf := map (reset_answer 0) (portInfoArr d) |>) ;; d_sendCmd.

Definition cmd_rebootHandler (port : Z) : AR unit :=
  i ← the_index port;
  p ← the_port i;
  status ←
    (if negb (bool_decide (ar_state (portResetInfo p) = REBOOT_STATE)) then
       if bool_decide (poe_state p = enable) && bool_decide (port_state p = enable) then
         mod_reset i (fun r => r <| ar_state := REBOOT_STATE |> <| event := raise MANUAL_RESTART (event r) |>) ;;
         mret 1
       else mret 3
     else clear_event i MANUAL_RESTART ;; mret 2);
  p ← the_port i;
  put (fun d => d <| resetPortBuf := <[i := reset_answer status p]> (resetPortBuf d) |>) ;;
  d_sendCmd.

(** A message of five octets: the command, a 32-bit number in the octet order of
    the processor, and the port. [None]: nothing is read. *)
Definition clientHandler (msg : option (Z * Z)) : AR unit :=
  put (fun d => d <| isRecivedMsg := false |>) ;;
  match msg with
  | None => mret tt
  | Some (cmdType, port) =>
      put (fun d => d <| isRecivedMsg := true |>) ;;
      if cmdType =? cmd_status then cmd_sendStatus
      else if cmdType =? cmd_reboot then cmd_rebootHandler port
      else if (cmdType =? cmd_idle) || (cmdType =? cmd_error) then mret tt
      else overrun
  end.

(** ** Steps *)

Inductive visit :=
  | V_state (i : nat)
  | V_test (i : nat) (t : test_part)
  | V_events (i : nat)
  | V_print
  | V_client (msg : option (Z * Z)).

Definition visit_of (v : visit) : AR unit :=
  match v with
  | V_state i => get_PortAndPoeState (Z.of_nat i + 1)
  | V_test i t => run_part i t
  | V_events i => events_of_port i
  | V_print => print_if_debug
  | V_client msg => clientHandler msg
  end.

(** A visit, with what its questions find. *)
Definition step (v : visit * (nat -> env_t)) : AR unit :=
  put (fun d => d <| env := v.2 |> <| asked := 0%nat |>) ;; visit_of v.1.

Definition run (l : list (visit * (nat -> env_t))) : AR unit := for_each_p l step.
End daemon.
