(* ===== verification/AutorestartRules.v ===== *)
(** * Rules for the autorestart daemon

    Flags of an error code or of an event, and the rules by which the
    operations on one port are run. While a thread visits a port, everything
    but this port, the output and the number of questions stays: that is the
    [frame] of the visit. [at_port t f m Q p os k]: [m], on the port in state
    [p] and after the output [os], ends with [Q], and with [t] it does end. *)

From S2P Require Import Prelude CLib CLibOk Effect Autorestart AutorestartDaemon.

(** ** Flags *)

(** Decides a flag of an error code that an operation has changed. *)
Ltac flag := unfold fails; flag_steps.
Ltac flag_in H := unfold fails in H; flag_steps_in H.

(** ** Visits of a port *)

Record frame := mk_frame {
  f_port : nat;
  f_arr : list portInfo_t;
  f_config : config_t;
  f_buf : list resetPort_t;
  f_recv : bool;
  f_debug : bool;
  f_out : list output;
  f_env : nat -> env_t }.

Definition frame_ok (f : frame) : Prop := (f_port f < length (f_arr f))%nat.

Definition plug (f : frame) (p : portInfo_t) (os : list output) (k : nat) : ard :=
  mk_ard (<[f_port f := p]> (f_arr f)) (f_config f) (f_buf f) (f_recv f) (f_debug f) (f_out f ++ os)
    (f_env f) k.

Definition at_port {A} (t : bool) (f : frame) (m : AR A)
    (Q : A -> portInfo_t -> list output -> nat -> Prop) (p : portInfo_t) (os : list output) (k : nat) : Prop :=
  spec t m (fun a d => exists p' os' k', d = plug f p' os' k' /\ Q a p' os' k') (plug f p os k).

Section at_port.
Context (t : bool) (f : frame) (Hf : frame_ok f).
Implicit Types (p : portInfo_t) (os : list output) (k : nat).
Local Abbreviation i := (f_port f).

Lemma at_ret {A} (a : A) Q p os k : Q a p os k -> at_port t f (mret a) Q p os k.
Proof. intros HQ. apply spec_ret. eauto. Qed.

Lemma at_bind {A B} (m : AR A) (g : A -> AR B) Q p os k :
  at_port t f m (fun a => at_port t f (g a) Q) p os k -> at_port t f (m ≫= g) Q p os k.
Proof.
  unfold at_port. intros Hm. apply spec_bind. eapply spec_mono; [exact Hm|].
  intros a d (p' & os' & k' & -> & HQ). exact HQ.
Qed.

Lemma at_fmap {A B} (g : A -> B) (m : AR A) Q p os k :
  at_port t f m (fun a => Q (g a)) p os k -> at_port t f (g <$> m) Q p os k.
Proof.
  unfold at_port. intros Hm. apply spec_fmap. eapply spec_mono; [exact Hm|].
  intros a d (p' & os' & k' & -> & HQ). eauto 10.
Qed.

Lemma at_mono {A} (m : AR A) (Q R : A -> portInfo_t -> list output -> nat -> Prop) p os k :
  at_port t f m Q p os k -> (forall a p' os' k', Q a p' os' k' -> R a p' os' k') -> at_port t f m R p os k.
Proof.
  unfold at_port. intros Hm HQR. eapply spec_mono; [exact Hm|].
  intros a d (p' & os' & k' & -> & HQ). eauto 10.
Qed.

Lemma plug_inj p os k p' os' k' : plug f p os k = plug f p' os' k' -> p = p' /\ os = os' /\ k = k'.
Proof.
  unfold plug. intros [= Hp Hos Hk]. apply (f_equal (fun l => l !! i)) in Hp.
  rewrite !list_lookup_insert_eq in Hp by done. injection Hp as ->. by apply app_inv_head in Hos as ->.
Qed.

Lemma at_and {A} (m : AR A) (Q R : A -> portInfo_t -> list output -> nat -> Prop) p os k :
  at_port t f m Q p os k -> at_port t f m R p os k ->
  at_port t f m (fun a p' os' k' => Q a p' os' k' /\ R a p' os' k') p os k.
Proof.
  unfold at_port. intros HQ HR. eapply spec_mono; [apply (spec_and _ _ _ _ _ HQ HR)|].
  intros a d [(p1 & os1 & k1 & -> & HQ1) (p2 & os2 & k2 & Heq & HR2)].
  apply plug_inj in Heq as (<- & <- & <-). eauto 10.
Qed.

Lemma at_get {B} (g : ard -> AR B) Q p os k :
  at_port t f (g (plug f p os k)) Q p os k -> at_port t f (get ≫= g) Q p os k.
Proof. done. Qed.

Lemma at_the_port Q p os k : Q p p os k -> at_port t f (the_port i) Q p os k.
Proof.
  intros HQ. unfold at_port, the_port. apply spec_bind, spec_get, spec_deref.
  - intros _. unfold plug. simpl. rewrite list_lookup_insert_eq by done. by eexists.
  - intros a. unfold plug. simpl. rewrite list_lookup_insert_eq by done. intros [= <-]. eauto 10.
Qed.

Lemma at_mod_port g Q p os k : Q tt (g p) os k -> at_port t f (mod_port i g) Q p os k.
Proof.
  intros HQ. unfold mod_port. apply at_bind, at_the_port, spec_put. exists (g p), os, k. split; [|done].
  unfold plug, set_field, set_portInfoArr. simpl. f_equal.
  apply list_eq. intros j. destruct (decide (i = j)) as [<-|Hj].
  - by rewrite list_lookup_alter_eq, !list_lookup_insert_eq by done.
  - by rewrite list_lookup_alter_ne, !list_lookup_insert_ne by done.
Qed.

Lemma at_ask {A} (q : env_t -> A) Q p os k :
  Q (q (f_env f k)) p os (S k) -> at_port t f (ask q) Q p os k.
Proof. intros HQ. unfold at_port, ask, spec. simpl. eauto 10. Qed.

Lemma at_emit o Q p os k : Q tt p (os ++ [o]) k -> at_port t f (emit o) Q p os k.
Proof.
  intros HQ. unfold emit. apply spec_put. exists p, (os ++ [o]), k. split; [|done].
  unfold plug, set_field, set_outs. simpl. by rewrite app_assoc.
Qed.

Lemma at_overrun {A} (Q : A -> portInfo_t -> list output -> nat -> Prop) p os k :
  t = false -> at_port t f overrun Q p os k.
Proof. apply spec_overrun. Qed.

Lemma at_deref {A} (o : option A) (Q : A -> portInfo_t -> list output -> nat -> Prop) p os k :
  (t = true -> is_Some o) -> (forall a, o = Some a -> Q a p os k) -> at_port t f (deref_opt o) Q p os k.
Proof. intros Ho HQ. apply spec_deref; eauto 10. Qed.

Lemma at_strcpy n s (Q : list Z -> portInfo_t -> list output -> nat -> Prop) p os k :
  (t = true -> (length s < n)%nat) -> ((length s < n)%nat -> Q s p os k) ->
  at_port t f (strcpy_array n s) Q p os k.
Proof.
  intros Hs HQ. unfold strcpy_array. destruct (length s <? n)%nat eqn:Hl.
  - apply at_ret, HQ. by apply Nat.ltb_lt.
  - apply at_overrun. destruct t; [|done]. specialize (Hs eq_refl). apply Nat.ltb_ge in Hl. lia.
Qed.

Lemma at_with n (g : nat -> AR unit) Q p os k :
  (i < NUM_PORTS)%nat -> n = Z.of_nat i + 1 -> at_port t f (g i) Q p os k -> at_port t f (with_port n g) Q p os k.
Proof.
  intros Hi -> Hg. unfold with_port, NUM_PORTS in *.
  replace ((0 <? Z.of_nat i + 1) && (Z.of_nat i + 1 <=? Z.of_nat 8)) with true
    by (symmetry; apply andb_true_iff; split; [apply Z.ltb_lt|apply Z.leb_le]; lia).
  by replace (Z.to_nat (Z.of_nat i + 1 - 1)) with i by lia.
Qed.

Lemma at_poe n (b : bool) (Q : unit -> portInfo_t -> list output -> nat -> Prop) p os k :
  (i < NUM_PORTS)%nat -> n = Z.of_nat i + 1 ->
  Q tt p (os ++ [if b then Poe_up n else Poe_down n]) k -> at_port t f (poe_Control n b) Q p os k.
Proof.
  intros Hi -> HQ. unfold poe_Control, NUM_PORTS in *.
  replace (8 <? Z.of_nat i + 1) with false by (symmetry; apply Z.ltb_ge; lia). by apply at_emit.
Qed.

End at_port.

(** ** Runs that end: any text, any answer *)

Lemma at_read_shell f (Q : list Z -> portInfo_t -> list output -> nat -> Prop) p os k :
  (forall text, Q text p os (S k)) -> at_port false f read_shell Q p os k.
Proof.
  intros HQ. apply at_bind, at_ask, at_bind, at_deref; [done|]. intros text _. by apply at_strcpy.
Qed.

Lemma at_getData json_values f n text key Q p os k :
  (forall o, Q o p os k) -> at_port false f (getData_formJson json_values n text key) Q p os k.
Proof.
  intros HQ. unfold getData_formJson. case_match; [by apply at_ret|by apply at_overrun|].
  by apply at_fmap, at_strcpy.
Qed.

Lemma at_stamp localtime f Q p os k : frame_ok f ->
  (forall s, Q tt (p <| portConfigInfo := (portConfigInfo p) <| timeStr := s |> |>) os (S k)) ->
  at_port false f (stamp localtime (f_port f)) Q p os k.
Proof.
  intros Hf HQ. unfold stamp, getTimeDate. apply at_bind, at_bind, at_ask. cbv zeta. apply at_bind, at_deref; [done|].
  intros month _. apply at_ret, at_bind, at_strcpy; [done|]. intros _. by apply at_mod_port.
Qed.

(** One step through an operation on a port. *)
Ltac walk_step :=
  lazymatch goal with
  | |- at_port _ _ (mret _) _ _ _ _ => apply at_ret
  | |- at_port _ _ (the_port _) _ _ _ _ => apply at_the_port; [assumption|]
  | |- at_port _ _ (mod_port _ _) _ _ _ _ => apply at_mod_port; [assumption|]
  | |- at_port _ _ (mod_config _ _) _ _ _ _ => apply at_mod_port; [assumption|]
  | |- at_port _ _ (mod_reset _ _) _ _ _ _ => apply at_mod_port; [assumption|]
  | |- at_port _ _ (mod_reboot _ _) _ _ _ _ => apply at_mod_port; [assumption|]
  | |- at_port _ _ (mod_error _ _) _ _ _ _ => apply at_mod_port; [assumption|]
  | |- at_port _ _ (clear_event _ _) _ _ _ _ => apply at_mod_port; [assumption|]
  | |- at_port _ _ (ask _) _ _ _ _ => apply at_ask
  | |- at_port ?t ?f (poe_Control ?n ?b) _ _ _ _ => apply (at_poe t f n b); [assumption|reflexivity|]
  | |- at_port _ _ (get ≫= _) _ _ _ _ => apply at_get
  | |- at_port false _ (deref_opt _) _ _ _ _ => apply at_deref; [done|intros ? ?]
  | |- at_port _ _ (_ ≫= _) _ _ _ _ => apply at_bind
  | |- at_port _ _ (_ <$> _) _ _ _ _ => apply at_fmap
  | |- at_port _ _ (let x := _ in _) _ _ _ _ => cbv zeta
  | |- at_port _ _ (if ?b then _ else _) _ _ _ _ => destruct b eqn:?; try discriminate
  end; cbv beta iota.
Ltac walk := repeat walk_step.

(** The same on a port that is given by its fields: they are computed after
    each step, so that terms do not grow. *)
Ltac fields :=
  cbv beta iota delta [set_field
    set_host set_alarm_up set_alarm_down set_min_speed set_max_speed set_reply_time set_rx_byte_prev
    set_rx_byte_current set_rx_delta_byte set_rx_speed_Kbit set_time_current set_time_prev set_alarm set_portNum
    set_test set_cfg_poe_state set_timeStr set_resetCount set_totalResetCount set_errorTestCount set_errorCode
    set_event set_ar_state set_rebootState set_rebootEvent set_rebootTimeStart set_portConfigInfo
    set_portResetInfo set_port_state set_poe_state set_portRebootInfo
    host alarm_up alarm_down min_speed max_speed reply_time rx_byte_prev rx_byte_current rx_delta_byte
    rx_speed_Kbit time_current time_prev alarm portNum test cfg_poe_state timeStr resetCount totalResetCount
    errorTestCount errorCode event ar_state rebootState rebootEvent rebootDelay rebootTimeStart portConfigInfo
    portResetInfo port_state poe_state portRebootInfo].
Ltac split_port :=
  match goal with
  | |- at_port _ _ _ _ ?p _ _ => match p with context [if ?b then _ else _] => destruct b eqn:? end
  end.
Ltac walk_fields := fields; repeat (first [split_port | walk_step]; fields).
