(* ===== verification/AutorestartSafe.v ===== *)
(** * The autorestart daemon: no visit leaves its arrays

    [port_ok] and [ard_ok] are what every operation keeps; [sane] is what the
    surroundings must answer for a visit to stay inside of the arrays, and
    [visit_safe] says that this is enough. *)

From S2P Require Import Prelude CLib Effect Autorestart AutorestartDaemon AutorestartRules.

(** ** What every operation keeps *)

Definition counts_ok (r : port_reset_info_t) : Prop :=
  0 <= resetCount r < 256 /\ 0 <= totalResetCount r < 256 /\ 0 <= errorTestCount r < 256.
Definition config_ok (i : nat) (c : port_config_info_t) : Prop :=
  portNum c = Z.of_nat i + 1 /\ test c <> test_max /\ (length (host c) < 16)%nat /\ (length (timeStr c) < 32)%nat.
Definition port_ok (i : nat) (p : portInfo_t) : Prop :=
  config_ok i (portConfigInfo p) /\ counts_ok (portResetInfo p).

(** Power is switched on this port only. *)
Definition about (i : nat) (o : output) : Prop :=
  match o with Poe_down n | Poe_up n => n = Z.of_nat i + 1 | Sent _ => True end.

Record ard_ok (d : ard) : Prop := mk_ard_ok {
  ok_length : length (portInfoArr d) = NUM_PORTS;
  ok_ports : forall i p, portInfoArr d !! i = Some p -> port_ok i p;
  ok_buf : length (resetPortBuf d) = NUM_PORTS }.

(** ** What the surroundings answer *)

Section surroundings.
Context (json_values : list Z -> string -> json_answer).

Definition option_fits (text : list Z) (key : string) (n : nat) : Prop :=
  match json_values text key with
  | Missing => True
  | Not_a_string => False
  | Text s => (length s < n)%nat
  end.

Definition state_fits (text : list Z) : Prop :=
  (length text < 256)%nat /\ option_fits text "state" 32 /\ option_fits text "poe" 32.

Definition config_fits (text : list Z) : Prop :=
  (length text < 256)%nat /\
  is_Some (getValueFromJson text (str "state") []) /\ is_Some (getValueFromJson text (str "alarm") []) /\
  option_fits text "host" 16 /\ option_fits text "max_speed" 64 /\ option_fits text "min_speed" 64 /\
  option_fits text "timeUp" 5 /\ option_fits text "timeDown" 5.

Definition answers_with (P : list Z -> Prop) (o : option (list Z)) : Prop :=
  exists text, o = Some text /\ P text.

Definition of_a_port (v : visit) : Prop :=
  match v with V_state i | V_test i _ | V_events i => (i < NUM_PORTS)%nat | _ => True end.

Definition sane (v : visit * (nat -> env_t)) : Prop :=
  of_a_port v.1 /\
  match v.1 with
  | V_state _ => forall k, answers_with state_fits (shell (v.2 k))
  | V_test _ Link => forall k, is_Some (file (v.2 k))
  | V_test _ Speed => forall k, is_Some (shell (v.2 k))
  | V_events _ => forall k, answers_with config_fits (shell (v.2 k))
  | V_client (Some (c, port)) => 0 <= c <= 3 /\ (c = cmd_reboot -> 1 <= port <= 8)
  | _ => True
  end.
End surroundings.

(** ** Operations that keep the port *)

Section safe.
Context (t : bool) (f : frame) (Hf : frame_ok f) (Hn : (f_port f < NUM_PORTS)%nat).
Local Abbreviation i := (f_port f).

Definition kept (p : portInfo_t) (os : list output) : Prop := port_ok i p /\ Forall (about i) os.
Definition safe {A} (m : AR A) : Prop :=
  forall p os k, kept p os -> at_port t f m (fun _ p' os' _ => kept p' os') p os k.

Lemma safe_ret {A} (a : A) : safe (mret a).
Proof. intros p os k Hk. by apply at_ret. Qed.

Lemma safe_bind {A B} (m : AR A) (g : A -> AR B) : safe m -> (forall a, safe (g a)) -> safe (m ≫= g).
Proof.
  intros Hm Hg p os k Hk. apply at_bind. eapply at_mono; [by apply Hm|].
  intros a p' os' k' Hk'. by apply Hg.
Qed.

Lemma safe_fmap {A B} (g : A -> B) (m : AR A) : safe m -> safe (g <$> m).
Proof. intros Hm p os k Hk. apply at_fmap. by apply Hm. Qed.

Lemma safe_port {B} (g : portInfo_t -> AR B) : (forall p, port_ok i p -> safe (g p)) -> safe (the_port i ≫= g).
Proof. intros Hg p os k Hk. apply at_bind, at_the_port; [done|]. apply Hg; [apply Hk|done]. Qed.

Lemma safe_get {B} (g : ard -> AR B) : (forall d, safe (g d)) -> safe (get ≫= g).
Proof. intros Hg p os k Hk. apply at_get. by apply Hg. Qed.

Lemma safe_mod_port g : (forall p, port_ok i p -> port_ok i (g p)) -> safe (mod_port i g).
Proof. intros Hg p os k [Hp Hos]. apply at_mod_port; [done|]. split; auto. Qed.

Lemma safe_mod_config g : (forall c, config_ok i c -> config_ok i (g c)) -> safe (mod_config i g).
Proof. intros Hg. apply safe_mod_port. intros p [Hc Hr]. split; upd_simpl; auto. Qed.

Lemma safe_mod_reset g : (forall r, counts_ok r -> counts_ok (g r)) -> safe (mod_reset i g).
Proof. intros Hg. apply safe_mod_port. intros p [Hc Hr]. split; upd_simpl; auto. Qed.

Lemma safe_mod_reboot g : safe (mod_reboot i g).
Proof. apply safe_mod_port. intros p [Hc Hr]. split; upd_simpl; auto. Qed.

Lemma safe_mod_error g : safe (mod_error i g).
Proof. apply safe_mod_reset. intros r Hr. unfold counts_ok. by upd_simpl. Qed.

Lemma safe_ask {A B} (q : env_t -> A) (g : A -> AR B) :
  (forall k, safe (g (q (f_env f k)))) -> safe (ask q ≫= g).
Proof. intros Hg p os k Hk. apply at_bind, at_ask. by apply Hg. Qed.

Lemma safe_ask_last {A} (q : env_t -> A) : safe (ask q).
Proof. intros p os k Hk. by apply at_ask. Qed.

Lemma safe_deref {A B} (o : option A) (g : A -> AR B) :
  (t = true -> is_Some o) -> (forall a, o = Some a -> safe (g a)) -> safe (deref_opt o ≫= g).
Proof.
  intros Ho Hg p os k Hk. apply at_bind, at_deref; [done|]. intros a Ha. by apply Hg.
Qed.

Lemma safe_strcpy {B} n s (g : list Z -> AR B) :
  (t = true -> (length s < n)%nat) -> ((length s < n)%nat -> safe (g s)) -> safe (strcpy_array n s ≫= g).
Proof. intros Hs Hg p os k Hk. apply at_bind, at_strcpy; [done|]. intros Hl. by apply Hg. Qed.

Lemma safe_strcpy_last n s : (t = true -> (length s < n)%nat) -> safe (strcpy_array n s).
Proof. intros Hs p os k Hk. by apply at_strcpy. Qed.

Lemma safe_poe_Control b : safe (poe_Control (Z.of_nat i + 1) b).
Proof.
  intros p os k [Hp Hos]. apply at_poe; [done..|]. split; [done|].
  apply Forall_app_2; [done|]. apply Forall_singleton. by destruct b.
Qed.

Lemma safe_with_port n g : n = Z.of_nat i + 1 -> safe (g i) -> safe (with_port n g).
Proof.
  intros Hi Hg p os k Hk. apply at_with; [done..|]. by apply Hg.
Qed.
End safe.

Create HintDb ar_kept.
#[export] Hint Resolve safe_ret safe_mod_error safe_mod_reboot safe_poe_Control safe_ask_last : ar_kept.

(** What is to be shown for a record that is updated. *)
Ltac kept_record :=
  intros ?; unfold counts_ok, config_ok; upd_simpl; intros; destruct_and?; split_and?; first [done | lia | apply u8_range | by auto | by simpl; lia].

Ltac keep_step :=
  lazymatch goal with
  | |- safe _ _ (the_port _ ≫= _) => apply safe_port; [assumption|intros ? ?]
  | |- safe _ _ (get ≫= _) => apply safe_get; intros ?
  | |- safe _ _ (ask _ ≫= _) => apply safe_ask; intros ?
  | |- safe _ _ (_ ≫= _) => apply safe_bind; [|intros ?]
  | |- safe _ _ (_ <$> _) => apply safe_fmap
  | |- safe _ _ (mod_reset _ _) => apply safe_mod_reset; [assumption|]
  | |- safe _ _ (mod_config _ _) => apply safe_mod_config; [assumption|]
  | |- safe _ _ (let x := _ in _) => cbv zeta
  | |- safe _ _ (if ?b then _ else _) => destruct b eqn:?
  | |- safe _ _ (match ?x with _ => _ end) => destruct x eqn:?
  end.
Ltac keep := repeat first [ solve [ eauto with ar_kept ] | solve [ kept_record ] | keep_step ].

(** ** The operations *)

Section operations.
Context (localtime : Z -> tm) (mktime : tm -> Z) (json_values : list Z -> string -> json_answer).
Hypothesis localtime_month : forall x, 0 <= tm_mon (localtime x) < 12.
Context (t : bool) (f : frame) (Hf : frame_ok f) (Hn : (f_port f < NUM_PORTS)%nat).
Local Abbreviation i := (f_port f).
Local Abbreviation safe := (safe t f).

Lemma test_passes_safe : safe (test_passes i).
Proof. unfold test_passes. keep. Qed.

Lemma runTestDisable_safe n : n = Z.of_nat i + 1 -> safe (port_runTestDisable n).
Proof. intros Hi. apply safe_with_port; [done..|]. keep. Qed.

Lemma runTestLink_safe n :
  n = Z.of_nat i + 1 -> (t = true -> forall k, is_Some (file (f_env f k))) -> safe (port_runTestLink n).
Proof.
  intros Hi He. apply safe_with_port; [done..|]. apply safe_ask. intros k. apply safe_deref; [auto|]. intros text _.
  keep; apply test_passes_safe.
Qed.

Lemma runTestPing_safe n : n = Z.of_nat i + 1 -> safe (port_runTestPing n).
Proof. intros Hi. apply safe_with_port; [done..|]. keep; apply test_passes_safe. Qed.

Lemma read_speed_safe : (t = true -> forall k, is_Some (shell (f_env f k))) -> safe (read_speed i).
Proof.
  intros He. unfold read_speed. apply safe_ask. intros k. apply safe_deref; [auto|]. intros text _. keep.
Qed.

Lemma runTestSpeed_safe n :
  n = Z.of_nat i + 1 -> (t = true -> forall k, is_Some (shell (f_env f k))) -> safe (port_runTestSpeed n).
Proof.
  intros Hi He. apply safe_with_port; [done..|]. keep; first [by apply read_speed_safe|apply test_passes_safe].
Qed.

Lemma port_timeAlarm_safe a : safe (port_timeAlarm localtime mktime a).
Proof. unfold port_timeAlarm. keep. Qed.

Lemma runTestTime_safe n : n = Z.of_nat i + 1 -> safe (port_runTestTime localtime mktime n).
Proof. intros Hi. apply safe_with_port; [done..|]. keep; apply port_timeAlarm_safe. Qed.

Lemma port_out_of_work_safe e : safe (port_out_of_work i e).
Proof. unfold port_out_of_work. keep. Qed.

Lemma read_shell_safe {B} (g : list Z -> AR B) P :
  (t = true -> forall k, answers_with (fun text => (length text < 256)%nat /\ P text) (shell (f_env f k))) ->
  (forall text, (t = true -> P text) -> safe (g text)) -> safe (read_shell ≫= g).
Proof.
  intros He Hg. unfold read_shell. intros p os k Hk. apply at_bind, at_bind, at_ask, at_bind, at_deref.
  - intros Ht. destruct (He Ht k) as (text & -> & _). by eexists.
  - intros text Htext. assert (t = true -> (length text < 256)%nat /\ P text) as HP.
    { intros Ht. destruct (He Ht k) as (text' & Heq & HP). rewrite Htext in Heq. by injection Heq as ->. }
    apply at_strcpy; [by intros Ht; apply HP|]. intros _. apply Hg; [|done]. intros Ht. by apply HP.
Qed.

Lemma getData_safe {B} n text key (g : option (list Z) -> AR B) :
  (t = true -> option_fits json_values text key n) ->
  (forall o, (forall s, o = Some s -> (length s < n)%nat /\ json_values text key = Text s) -> safe (g o)) ->
  safe (getData_formJson json_values n text key ≫= g).
Proof.
  intros He Hg. unfold getData_formJson, option_fits in *. intros p os k Hk. apply at_bind.
  destruct (json_values text key) as [| |s] eqn:Hj.
  - apply at_ret. by apply Hg.
  - apply at_overrun. destruct t; [|done]. by specialize (He eq_refl).
  - apply at_fmap, at_strcpy; [done|]. intros Hl. apply Hg; [|done]. by intros s' [= <-].
Qed.

Lemma get_PortAndPoeState_safe n :
  n = Z.of_nat i + 1 ->
  (t = true -> forall k, answers_with (state_fits json_values) (shell (f_env f k))) ->
  safe (get_PortAndPoeState json_values n).
Proof.
  intros Hi He. apply safe_with_port; [done..|].
  apply (read_shell_safe _ (fun text => option_fits json_values text "state" 32 /\
                                        option_fits json_values text "poe" 32)); [exact He|].
  intros text Ht. apply getData_safe; [by intros H; apply Ht|]. intros st _.
  apply getData_safe; [by intros H; apply Ht|]. intros po _. cbv zeta.
  repeat first [apply port_out_of_work_safe | apply safe_mod_port; [done|]; intros p Hp; exact Hp | keep_step].
Qed.

Lemma month_short n month : monthTable !! n = Some month -> (length month <= 9)%nat.
Proof. do 13 (destruct n as [|n]; [intros [= <-]; vm_compute; lia|]). done. Qed.

Lemma stamp_safe : safe (stamp localtime i).
Proof.
  intros p os k Hk. unfold stamp, getTimeDate. apply at_bind, at_bind, at_ask. cbv zeta. apply at_bind, at_deref.
  - intros _. apply lookup_lt_is_Some. pose proof (localtime_month (time (f_env f k))). change (length monthTable) with 13%nat. lia.
  - intros month Hm. apply month_short in Hm. apply at_ret, at_bind, at_strcpy.
    + intros _. rewrite !length_app. unfold four_digits, two_digits. case_match; simpl; lia.
    + intros Hl. by apply safe_mod_config; [done| |done]; kept_record.
Qed.

Lemma set_errorHandler_safe : safe (set_errorHandler i).
Proof. unfold set_errorHandler. keep. Qed.
Hint Resolve stamp_safe set_errorHandler_safe port_out_of_work_safe test_passes_safe : ar_kept.

Lemma autoResetHandler_safe n m : n = Z.of_nat i + 1 -> safe (autoResetHandler localtime n m).
Proof. intros Hi. apply safe_with_port; [done..|]. keep. Qed.

Lemma manualResetHandler_safe n : n = Z.of_nat i + 1 -> safe (manualResetHandler localtime n).
Proof. intros Hi. apply safe_with_port; [done..|]. keep. Qed.

(** ** Configuration *)

Lemma option_fits_mono text key n m : (n <= m)%nat -> option_fits json_values text key n -> option_fits json_values text key m.
Proof. unfold option_fits. case_match; [done..|]. lia. Qed.

Lemma fits_text text key n s : option_fits json_values text key n -> json_values text key = Text s -> (length s < n)%nat.
Proof. unfold option_fits. intros H Hj. by rewrite Hj in H. Qed.

Lemma setHost_safe text :
  (t = true -> option_fits json_values text "host" 16) -> safe (setHost json_values i text).
Proof.
  intros He. apply getData_safe; [done|]. intros [h|] Hh; [|apply safe_ret]. unfold port_setHostParam.
  destruct (Hh h eq_refl) as [Hl _]. apply safe_strcpy; [done|]. intros _. keep.
Qed.

Lemma setSpeed_safe text :
  (t = true -> option_fits json_values text "max_speed" 64 /\ option_fits json_values text "min_speed" 64) ->
  safe (setSpeed json_values i text).
Proof.
  intros He. apply safe_ask. intros k. apply getData_safe; [by intros H; apply He|]. intros max _.
  apply getData_safe; [by intros H; apply He|]. intros min _. unfold port_setSpeedParam.
  set (hi := match max with Some _ => _ | None => _ end). set (lo := match min with Some _ => _ | None => _ end).
  keep.
Qed.

Lemma setTime_safe text :
  (t = true -> option_fits json_values text "timeUp" 5 /\ option_fits json_values text "timeDown" 5) ->
  safe (setTime localtime mktime json_values i text).
Proof.
  assert (forall key o, (t = true -> option_fits json_values text key 5) ->
    (forall s, o = Some s -> (length s < 64)%nat /\ json_values text key = Text s) ->
    safe (match o with Some s => strcpy_array 5 s | None => mret [] end)) as Hcopy.
  { intros key [s|] He Ho; [|apply safe_ret]. apply safe_strcpy_last. intros Ht. eapply fits_text; [by apply He|].
    by apply Ho. }
  intros He. apply getData_safe; [intros Ht; eapply option_fits_mono; [|by apply He]; lia|]. intros up Hup.
  apply safe_bind; [apply (Hcopy "timeUp"); [by intros Ht; apply He|done]|]. intros up'.
  apply getData_safe; [intros Ht; eapply option_fits_mono; [|by apply He]; lia|]. intros down Hdown.
  apply safe_bind; [apply (Hcopy "timeDown"); [by intros Ht; apply He|done]|]. intros down'.
  destruct up, down; try apply safe_ret. unfold port_setTimeParam. keep.
Qed.

Lemma setTestConfig_safe ty text :
  ty <> test_max -> (t = true -> config_fits json_values text) ->
  safe (setTestConfig json_values i ty text).
Proof.
  intros Hty He. unfold config_fits in He. destruct ty; simpl; try done; try apply safe_ret.
  - apply setHost_safe. naive_solver.
  - apply setSpeed_safe. naive_solver.
Qed.

Lemma getPortParam_safe b :
  (t = true -> forall k, answers_with (config_fits json_values) (shell (f_env f k))) ->
  safe (getPortParam localtime mktime json_values i b).
Proof.
  intros He. unfold getPortParam. apply safe_bind; [keep|]. intros _.
  apply (read_shell_safe _ (config_fits json_values)).
  { intros Ht k. destruct (He Ht k) as (text & Ht1 & Ht2). exists text. split; [done|]. split; [apply Ht2|done]. }
  intros text Ht. apply safe_deref; [by intros H; apply Ht|]. intros state _.
  apply safe_deref; [by intros H; apply Ht|]. intros alrm _. cbv zeta.
  apply safe_bind; [keep|]. intros _. apply safe_bind; [unfold setConfigZeroValue; keep|]. intros _.
  apply safe_bind; [unfold setResetZeroValue; destruct b; keep|]. intros _.
  apply safe_bind.
  { assert (forall ty, ty <> test_max -> safe (mod_config i (fun c => c <| test := ty |>) ;;
      e ← setTestConfig json_values i ty text; mod_error i (fun _ => e))) as Hset.
    { intros ty Hty. apply safe_bind; [keep|]. intros _. apply safe_bind; [by apply setTestConfig_safe|]. intros e. keep. }
    destruct (getCmdKey state); first [by apply Hset | keep]. }
  intros _. apply safe_port; [done|]. intros p Hp. apply safe_bind; [|intros _; keep].
  destruct (bool_decide _); [|apply safe_ret]. apply safe_bind; [apply setTime_safe; intros H; split; by apply Ht|].
  intros e. keep.
Qed.

(** ** Visits *)

Lemma port_ok_num j p : port_ok j p -> portNum (portConfigInfo p) = Z.of_nat j + 1.
Proof. by intros [[]]. Qed.
Hint Resolve port_ok_num : core.

Lemma clear_event_safe e : safe (clear_event i e).
Proof. unfold clear_event. keep. Qed.
Hint Resolve clear_event_safe : ar_kept.

Lemma poe_safe p b : port_ok i p -> safe (poe_Control (portNum (portConfigInfo p)) b).
Proof. intros Hp. rewrite (port_ok_num _ _ Hp). by apply safe_poe_Control. Qed.
Hint Resolve poe_safe autoResetHandler_safe manualResetHandler_safe : ar_kept.

Lemma reboot_idle_safe : safe (reboot_idle localtime i).
Proof. unfold reboot_idle. keep. Qed.

Lemma reboot_down_safe : safe (reboot_down i).
Proof. unfold reboot_down. keep. Qed.

Lemma reboot_up_safe :
  (t = true -> forall k, answers_with (config_fits json_values) (shell (f_env f k))) ->
  safe (reboot_up localtime mktime json_values i).
Proof.
  intros He. unfold reboot_up. keep. rewrite (port_ok_num i p) by done.
  replace (Z.to_nat _) with i; [by apply getPortParam_safe|]. unfold NUM_PORTS in Hn.
  rewrite u8_small by lia. lia.
Qed.

Lemma rebootHandler_safe :
  (t = true -> forall k, answers_with (config_fits json_values) (shell (f_env f k))) ->
  safe (rebootHandler localtime mktime json_values i).
Proof.
  intros He. unfold rebootHandler. keep.
  - apply reboot_idle_safe.
  - apply reboot_down_safe.
  - by apply reboot_up_safe.
Qed.

Lemma count_success_ok r : counts_ok r -> counts_ok (count_success r).
Proof.
  unfold count_success, counts_ok. intros Hr. destruct (0 <? errorTestCount r) eqn:H; cbv zeta; case_match; upd_simpl; lia.
Qed.

Lemma count_failure_ok n r : counts_ok r -> counts_ok (count_failure n r).
Proof.
  unfold count_failure, counts_ok. intros Hr. cbv zeta. pose proof (u8_range (errorTestCount r + 1)).
  case_match; upd_simpl; lia.
Qed.

Lemma test_ErrorHandler_safe : safe (test_ErrorHandler i).
Proof.
  unfold test_ErrorHandler. keep; intros r Hr; case_match; auto using count_success_ok, count_failure_ok.
Qed.

Lemma alarmHandler_safe : safe (alarmHandler localtime mktime i).
Proof.
  unfold alarmHandler. apply safe_port; [done|]. intros p Hp. apply safe_bind; [by apply runTestTime_safe; auto|].
  intros _. keep.
Qed.

Lemma events_of_port_safe :
  (t = true -> forall k, answers_with (config_fits json_values) (shell (f_env f k))) ->
  safe (events_of_port localtime mktime json_values i).
Proof.
  intros He. unfold events_of_port. keep.
  - apply test_ErrorHandler_safe.
  - by apply rebootHandler_safe.
  - apply alarmHandler_safe.
Qed.

Lemma run_part_safe a :
  (t = true -> a = Link -> forall k, is_Some (file (f_env f k))) ->
  (t = true -> a = Speed -> forall k, is_Some (shell (f_env f k))) ->
  safe (run_part i a).
Proof.
  intros H1 H2. unfold run_part. apply safe_port; [done|]. intros p Hp. cbv zeta. destruct a.
  - apply runTestDisable_safe; auto.
  - apply runTestLink_safe; auto.
  - apply runTestPing_safe; auto.
  - apply runTestSpeed_safe; auto.
Qed.
End operations.

(** ** All visits *)

Definition frame_of (i : nat) (d : ard) : frame :=
  mk_frame i (portInfoArr d) (configOptions d) (resetPortBuf d) (isRecivedMsg d) (globalDebugMode d)
    (outs d) (env d).

Lemma at_frame t i d {A} (m : AR A) Q p :
  portInfoArr d !! i = Some p -> at_port t (frame_of i d) m Q p [] (asked d) ->
  spec t m (fun a d' => exists p' os k, d' = plug (frame_of i d) p' os k /\ Q a p' os k) d.
Proof.
  intros Hp Hm. unfold at_port in Hm. replace (plug (frame_of i d) p [] (asked d)) with d in Hm; [done|].
  unfold plug, frame_of. simpl. rewrite list_insert_id by done. rewrite app_nil_r. by destruct d.
Qed.

(** The switching of the power of a port. *)
Definition power (i : nat) (os : list output) : list bool :=
  omap (fun o => match o with
    | Poe_down n => if n =? Z.of_nat i + 1 then Some false else None
    | Poe_up n => if n =? Z.of_nat i + 1 then Some true else None
    | Sent _ => None
    end) os.

Lemma power_app i os os' : power i (os ++ os') = power i os ++ power i os'.
Proof. apply omap_app. Qed.

Lemma power_about i j os : i <> j -> Forall (about j) os -> power i os = [].
Proof.
  intros Hij Hos. induction Hos as [|o os Ho _ IH]; [done|]. change (o :: os) with ([o] ++ os).
  rewrite power_app, IH, app_nil_r. unfold power.
  destruct o; simpl in *; subst; [rewrite (proj2 (Z.eqb_neq _ _)) by lia; done..|done].
Qed.

Definition port_of (v : visit) : option nat :=
  match v with V_state i | V_test i _ | V_events i => Some i | _ => None end.

(** What a command to restart a port does to it. *)
Definition command (p : portInfo_t) : portInfo_t :=
  if bool_decide (ar_state (portResetInfo p) = REBOOT_STATE)
  then p <| portResetInfo := (portResetInfo p) <| event := clear MANUAL_RESTART (event (portResetInfo p)) |> |>
  else if powered p
  then p <| portResetInfo := (portResetInfo p) <| ar_state := REBOOT_STATE |>
         <| event := raise MANUAL_RESTART (event (portResetInfo p)) |> |>
  else p.

Lemma command_ok i p : port_ok i p -> port_ok i (command p).
Proof. intros [Hc Hr]. unfold command. repeat case_match; split; upd_simpl; try done; unfold counts_ok in *; by upd_simpl. Qed.

Section visits.
Context (localtime : Z -> tm) (mktime : tm -> Z) (json_values : list Z -> string -> json_answer).
Hypothesis localtime_month : forall x, 0 <= tm_mon (localtime x) < 12.
Context (t : bool).

Lemma in_visit i d v e Q p :
  portInfoArr d !! i = Some p -> port_of v = Some i ->
  at_port t (frame_of i (d <| env := e |> <| asked := 0%nat |>)) (visit_of localtime mktime json_values v)
    (fun _ => Q) p [] 0 ->
  spec t (step localtime mktime json_values (v, e)) (fun _ d' => exists p' os k,
    d' = plug (frame_of i (d <| env := e |> <| asked := 0%nat |>)) p' os k /\ Q p' os k) d.
Proof.
  intros Hp Hv Hm. unfold step. apply spec_bind, spec_put. by apply (at_frame t i _ _ (fun _ => Q) p).
Qed.

Lemma port_visit_safe i d v e p :
  ard_ok d -> portInfoArr d !! i = Some p -> port_of v = Some i -> (t = true -> sane json_values (v, e)) ->
  at_port t (frame_of i (d <| env := e |> <| asked := 0%nat |>)) (visit_of localtime mktime json_values v)
    (fun _ p' os _ => port_ok i p' /\ Forall (about i) os) p [] 0.
Proof.
  intros Hd Hp Hv He. pose proof (ok_ports d Hd i p Hp) as Hok.
  pose proof (lookup_lt_Some _ _ _ Hp) as Hlt. rewrite (ok_length d Hd) in Hlt.
  set (f := frame_of i _).
  assert (frame_ok f) as Hf by (unfold frame_ok; simpl; by apply lookup_lt_is_Some).
  assert (safe t f (visit_of localtime mktime json_values v)) as Hs; [|by apply Hs].
  unfold sane in He. destruct v as [j|j a|j| |msg]; simpl in Hv; try done; injection Hv as ->; simpl in *.
  - apply get_PortAndPoeState_safe; [done..|]. intros Ht. by apply He.
  - apply run_part_safe; [done..| |]; intros Ht ->; by apply He.
  - apply events_of_port_safe; [done..|]. intros Ht. by apply He.
Qed.
End visits.
