(* ===== verification/AutorestartRuns.v ===== *)
(** * The autorestart daemon: runs

    What any visit leaves of the other ports, and rules for runs: a visit of
    another port keeps what is known of this one ([run_rule]). *)

From S2P Require Import Prelude CLib Effect Autorestart AutorestartDaemon AutorestartRules AutorestartSafe.

(** The visits after which a port may be another one. *)
Definition touches (v : visit) (i : nat) : Prop :=
  match v with
  | V_state j | V_test j _ | V_events j => j = i
  | V_client (Some (c, port)) => c = cmd_reboot /\ port = Z.of_nat i + 1
  | _ => False
  end.
#[export] Instance touches_dec v i : Decision (touches v i).
Proof. destruct v as [j|j a|j| |[[c port]|]]; simpl; apply _. Defined.

(** From [d], a visit that does not touch the ports in [P] leads to [d']. *)
Record leaves (P : nat -> Prop) (d d' : ard) : Prop := mk_leaves {
  leaves_ok : ard_ok d';
  leaves_config : configOptions d' = configOptions d;
  leaves_port i : P i -> portInfoArr d' !! i = portInfoArr d !! i;
  leaves_power i : P i -> power i (outs d') = power i (outs d) }.

Lemma plug_leaves i d e p p' os k :
  ard_ok d -> portInfoArr d !! i = Some p -> port_ok i p' -> Forall (about i) os ->
  leaves (fun j => j <> i) d (plug (frame_of i (d <| env := e |> <| asked := 0%nat |>)) p' os k).
Proof.
  intros Hd Hp Hp' Hos. pose proof (lookup_lt_Some _ _ _ Hp) as Hlt.
  split; unfold plug, frame_of; simpl; upd_simpl.
  - split; simpl; upd_simpl; [by rewrite length_insert; apply Hd| |apply Hd]. intros j q Hq.
    destruct (decide (i = j)) as [<-|Hj].
    + rewrite list_lookup_insert_eq in Hq by done. by injection Hq as <-.
    + rewrite list_lookup_insert_ne in Hq by done. by apply (ok_ports d Hd).
  - done.
  - intros j Hj. by rewrite list_lookup_insert_ne by done.
  - intros j Hj. by rewrite power_app, (power_about j i os), app_nil_r.
Qed.

Section client.
Context (t : bool).

Lemma send_leaves P d b r :
  ard_ok d -> length b = NUM_PORTS ->
  leaves P d (d <| isRecivedMsg := r |> <| resetPortBuf := b |> <| outs := outs d ++ [Sent b] |>).
Proof.
  intros Hd Hb. split; upd_simpl; [split; upd_simpl; [apply Hd|apply Hd|done]|done|done|].
  intros i _. rewrite power_app. by rewrite app_nil_r.
Qed.

(** The state after a command to restart port [i]. *)
Definition commanded (i : nat) (p : portInfo_t) (d : ard) : ard :=
  let status :=
    if bool_decide (ar_state (portResetInfo p) = REBOOT_STATE) then 2 else if powered p then 1 else 3 in
  let d := d <| portInfoArr := <[i := command p]> (portInfoArr d) |> in
  let b := <[i := reset_answer status (command p)]> (resetPortBuf d) in
  d <| resetPortBuf := b |> <| outs := outs d ++ [Sent b] |>.

Lemma at_then {A B} f (m : AR A) (g : A -> AR B) (Q : B -> ard -> Prop) p os k :
  at_port t f m (fun a p' os' k' => spec t (g a) Q (plug f p' os' k')) p os k ->
  spec t (m ≫= g) Q (plug f p os k).
Proof.
  intros Hm. apply spec_bind. eapply spec_mono; [exact Hm|]. intros a d (p' & os' & k' & -> & HQ). done.
Qed.

Lemma command_run f p os k (Q : Z -> portInfo_t -> list output -> nat -> Prop) :
  frame_ok f ->
  Q (if bool_decide (ar_state (portResetInfo p) = REBOOT_STATE) then 2 else if powered p then 1 else 3)
    (command p) os k ->
  at_port t f
    (if negb (bool_decide (ar_state (portResetInfo p) = REBOOT_STATE)) then
       if bool_decide (poe_state p = enable) && bool_decide (port_state p = enable) then
         mod_reset (f_port f) (fun r => r <| ar_state := REBOOT_STATE |> <| event := raise MANUAL_RESTART (event r) |>) ;;
         mret 1
       else mret 3
     else clear_event (f_port f) MANUAL_RESTART ;; mret 2) Q p os k.
Proof.
  intros Hf HQ. unfold command, powered in HQ. rewrite andb_comm in HQ. destruct (bool_decide _); simpl.
  - by apply at_bind, at_mod_port, at_ret.
  - destruct (_ && _); [|by apply at_ret]. by apply at_bind, at_mod_port, at_ret.
Qed.

Lemma cmd_rebootHandler_run i d p :
  (i < NUM_PORTS)%nat -> portInfoArr d !! i = Some p ->
  spec t (cmd_rebootHandler (Z.of_nat i + 1)) (fun _ d' => d' = commanded i p d) d.
Proof.
  intros Hi Hp. unfold cmd_rebootHandler, the_index. unfold NUM_PORTS in *.
  replace ((1 <=? Z.of_nat i + 1) && (Z.of_nat i + 1 <=? Z.of_nat 8)) with true
    by (symmetry; apply andb_true_iff; split; apply Z.leb_le; lia).
  replace (Z.to_nat (Z.of_nat i + 1 - 1)) with i by lia. apply spec_bind, spec_ret.
  assert (frame_ok (frame_of i d)) as Hf by (by eapply lookup_lt_Some).
  assert (plug (frame_of i d) p [] (asked d) = d) as Heq
    by (unfold plug; simpl; rewrite list_insert_id, app_nil_r by done; by destruct d).
  refine (eq_ind _ (fun s => spec t _ _ s) _ _ Heq).
  apply at_then. apply (at_the_port t (frame_of i d)); [done|].
  apply at_then. apply (command_run (frame_of i d)); [done|].
  apply at_then. apply (at_the_port t (frame_of i d)); [done|].
  apply spec_bind, spec_put. unfold d_sendCmd. apply spec_bind, spec_get, spec_put.
  unfold commanded, plug, set_field, set_portInfoArr, set_resetPortBuf, set_outs. simpl.
  by rewrite ?list_insert_insert_eq, ?app_nil_r.
Qed.

(** A client's visit: a command to restart a port changes that port only. *)
Lemma clientHandler_leaves d msg :
  ard_ok d ->
  (t = true -> match msg with Some (c, port) => 0 <= c <= 3 /\ (c = cmd_reboot -> 1 <= port <= 8) | None => True end) ->
  spec t (clientHandler msg)
    (fun _ d' => leaves (fun i => ~ touches (V_client msg) i) d d' /\
       forall i, touches (V_client msg) i -> (i < NUM_PORTS)%nat ->
         portInfoArr d' !! i = command <$> portInfoArr d !! i /\ power i (outs d') = power i (outs d)) d.
Proof.
  assert (forall d r, ard_ok d -> ard_ok (d <| isRecivedMsg := r |>)) as Hr.
  { intros d' r Hd. split; upd_simpl; apply Hd. }
  assert (forall d d' P, ard_ok d' -> configOptions d' = configOptions d -> portInfoArr d' = portInfoArr d ->
    (outs d' = outs d \/ exists b, outs d' = outs d ++ [Sent b]) -> leaves P d d') as Hsame.
  { intros d1 d2 P H1 H2 H3 H4. split; [done|done|by rewrite H3|]. intros i _.
    destruct H4 as [->|[b ->]]; [done|]. by rewrite power_app, app_nil_r. }
  intros Hd He. unfold clientHandler. apply spec_bind, spec_put. destruct msg as [[c port]|].
  2:{ apply spec_ret. split; [|done]. apply Hsame; upd_simpl; eauto. }
  apply spec_bind, spec_put. set (d1 := d <| isRecivedMsg := false |> <| isRecivedMsg := true |>).
  assert (ard_ok d1) as Hd1 by (by apply Hr, Hr).
  destruct (c =? cmd_status) eqn:Hc; [|destruct (c =? cmd_reboot) eqn:Hc'].
  - apply Z.eqb_eq in Hc as ->. unfold cmd_sendStatus, d_sendCmd. apply spec_bind, spec_put, spec_bind, spec_get, spec_put.
    split; [|intros i [? _]; done]. apply Hsame; unfold d1; upd_simpl; [|done..|right; by eexists].
    split; upd_simpl; [apply Hd..|]. rewrite length_map. apply Hd.
  - apply Z.eqb_eq in Hc' as ->. destruct (decide (1 <= port <= 8)) as [Hport|Hport].
    2:{ unfold cmd_rebootHandler, the_index.
        replace ((1 <=? port) && (port <=? Z.of_nat NUM_PORTS)) with false
          by (symmetry; apply andb_false_iff; unfold NUM_PORTS; rewrite !Z.leb_gt; lia).
        apply spec_bind, spec_overrun. destruct t; [|done]. by destruct Hport; apply He. }
    assert (exists i, port = Z.of_nat i + 1 /\ (i < NUM_PORTS)%nat) as (i & -> & Hi)
      by (exists (Z.to_nat (port - 1)); unfold NUM_PORTS; lia).
    destruct (proj2 (lookup_lt_is_Some (portInfoArr d1) i)) as [p Hp]; [by rewrite (ok_length _ Hd1)|].
    eapply spec_mono; [by apply cmd_rebootHandler_run|]. intros [] d' ->.
    pose proof (ok_ports d1 Hd1 i p Hp) as Hok.
    assert (portInfoArr d1 = portInfoArr d /\ outs d1 = outs d) as [Ha Ho] by (unfold d1; by upd_simpl).
    unfold commanded. split; [split; upd_simpl|].
    + split; upd_simpl; rewrite ?length_insert; [apply Hd1| |apply Hd1]. intros j q Hq.
      destruct (decide (i = j)) as [<-|Hj].
      * rewrite list_lookup_insert_eq in Hq by (by rewrite (ok_length _ Hd1)). injection Hq as <-. by apply command_ok.
      * rewrite list_lookup_insert_ne in Hq by done. by apply (ok_ports d1 Hd1).
    + by unfold d1; upd_simpl.
    + intros j Hj. rewrite list_lookup_insert_ne, Ha; [done|]. intros <-. by apply Hj.
    + intros j Hj. by rewrite power_app, app_nil_r, Ho.
    + intros j [_ Hj] _. assert (j = i) as -> by lia. upd_simpl.
      rewrite list_lookup_insert_eq by (by rewrite (ok_length _ Hd1)). rewrite <- Ha, Hp.
      by rewrite power_app, app_nil_r, Ho.
  - assert (c <> cmd_reboot) as Hne by (by apply Z.eqb_neq).
    destruct ((c =? cmd_idle) || (c =? cmd_error)) eqn:Hc2.
    + apply spec_ret. split; [|intros i [? _]; done]. apply Hsame; unfold d1; upd_simpl; eauto.
    + apply spec_overrun. destruct t; [|done]. specialize (He eq_refl).
      apply orb_false_iff in Hc2 as [?%Z.eqb_neq ?%Z.eqb_neq]. apply Z.eqb_neq in Hc, Hc'.
      unfold cmd_status, cmd_reboot, cmd_idle, cmd_error in *. lia.
Qed.
End client.

Section runs.
Context (localtime : Z -> tm) (mktime : tm -> Z) (json_values : list Z -> string -> json_answer).
Hypothesis localtime_month : forall x, 0 <= tm_mon (localtime x) < 12.
Context (t : bool).
Local Abbreviation step := (step localtime mktime json_values).
Local Abbreviation run := (run localtime mktime json_values).
Local Abbreviation visit_of := (visit_of localtime mktime json_values).
Implicit Types (v : visit) (e : nat -> env_t) (d : ard).

(** The state in which the visit of a thread begins. *)
Definition begin e d : ard := d <| env := e |> <| asked := 0%nat |>.

Lemma begin_ok e d : ard_ok d -> ard_ok (begin e d).
Proof. intros Hd. unfold begin. split; upd_simpl; apply Hd. Qed.

Lemma leaves_begin P e d d' : leaves P (begin e d) d' -> leaves P d d'.
Proof. intros [H1 H2 H3 H4]. unfold begin in *. upd_simpl. by split. Qed.

Definition allowed v e : Prop := of_a_port v /\ (t = true -> sane json_values (v, e)).

Lemma touches_port v i j : port_of v = Some i -> touches v j -> j = i.
Proof. by destruct v; simpl; try done; intros [= ->] ->. Qed.

(** What is shown of the ports that a visit touches. *)
Definition touched v d (Q : nat -> portInfo_t -> list bool -> Prop) (d' : ard) : Prop :=
  forall i, touches v i -> (i < NUM_PORTS)%nat -> exists p' pw,
    portInfoArr d' !! i = Some p' /\ power i (outs d') = power i (outs d) ++ pw /\ Q i p' pw.

Lemma port_step_rule i v e d p Q :
  ard_ok d -> allowed v e -> port_of v = Some i -> portInfoArr d !! i = Some p ->
  at_port t (frame_of i (begin e d)) (visit_of v) (fun _ p' os _ => Q i p' (power i os)) p [] 0 ->
  spec t (step (v, e)) (fun _ d' => leaves (fun i => ~ touches v i) d d' /\ touched v d Q d') d.
Proof.
  intros Hd [Hv He] Hport Hp Hvisit. pose proof (lookup_lt_Some _ _ _ Hp) as Hlt.
  assert (at_port t (frame_of i (begin e d)) (visit_of v) (fun _ p' os _ => port_ok i p' /\ Forall (about i) os) p [] 0) as H1
    by (by apply port_visit_safe).
  assert (frame_ok (frame_of i (begin e d))) as Hf by (unfold frame_ok, begin; simpl; by upd_simpl).
  eapply spec_mono; [apply (in_visit _ _ _ _ i d v e (fun p' os _ => (port_ok i p' /\ Forall (about i) os) /\ Q i p' (power i os)) p Hp Hport)|].
  { apply (at_and _ _ Hf _ _ _ _ _ _ H1 Hvisit). }
  intros [] d' (p' & os & k & -> & [Hp' Hos] & HQ). split.
  - destruct (plug_leaves i d e p p' os k Hd Hp Hp' Hos) as [L1 L2 L3 L4]. split; [done|done|..].
    + intros j Hj. apply L3. intros ->. apply Hj. by destruct v; simpl in *; try done; injection Hport as ->.
    + intros j Hj. apply L4. intros ->. apply Hj. by destruct v; simpl in *; try done; injection Hport as ->.
  - intros j Hj _. rewrite (touches_port v i j) by done. exists p', (power i os). split; [|split; [|done]].
    + unfold plug. simpl. apply list_lookup_insert_eq. by upd_simpl.
    + unfold plug. simpl. upd_simpl. apply power_app.
Qed.

Lemma client_step_rule v e d Q :
  ard_ok d -> allowed v e -> port_of v = None ->
  (forall i p, portInfoArr d !! i = Some p -> touches v i -> Q i (command p) []) ->
  spec t (step (v, e)) (fun _ d' => leaves (fun i => ~ touches v i) d d' /\ touched v d Q d') d.
Proof.
  intros Hd [Hv He] Hport Hcommand. unfold AutorestartDaemon.step. apply spec_bind, spec_put.
  change (d <| env := (v, e).2 |> <| asked := 0%nat |>) with (begin e d). pose proof (begin_ok e d Hd) as Hb.
  assert (portInfoArr (begin e d) = portInfoArr d /\ outs (begin e d) = outs d) as [Ha Ho] by (unfold begin; by upd_simpl).
  destruct v as [j|j a|j| |msg]; try done; simpl.
  - unfold print_if_debug. apply spec_put. split; [|by intros i]. apply (leaves_begin _ e).
    case_match; split; try done; upd_simpl; try done. split; upd_simpl; apply Hb.
  - eapply spec_mono; [apply (clientHandler_leaves t (begin e d) msg); [done|]|].
    + intros Ht. destruct (He Ht) as [_ H]. by destruct msg as [[c port]|].
    + intros [] d' [L H]. split; [by apply (leaves_begin _ e)|]. intros i Hi Hlt.
      destruct (proj2 (lookup_lt_is_Some (portInfoArr d) i)) as [p Hp]; [by rewrite (ok_length d Hd)|].
      destruct (H i Hi Hlt) as [H1 H2]. rewrite Ha, Hp in H1. exists (command p), []. split; [done|].
      split; [by rewrite H2, Ho, app_nil_r|]. by apply Hcommand.
Qed.

(** A visit never does more to the other ports than [leaves] says. *)
Lemma step_leaves v e d :
  ard_ok d -> allowed v e -> spec t (step (v, e)) (fun _ => leaves (fun i => ~ touches v i) d) d.
Proof.
  intros Hd Hv. destruct (port_of v) as [i|] eqn:Hport.
  - assert (i < NUM_PORTS)%nat as Hi.
    { destruct Hv as [Hv _]. by destruct v; simpl in *; try done; injection Hport as <-. }
    destruct (proj2 (lookup_lt_is_Some (portInfoArr d) i)) as [p Hp]; [by rewrite (ok_length d Hd)|].
    eapply spec_mono; [apply (port_step_rule i v e d p (fun _ _ _ => True)); try done|by intros [] d' []].
    eapply at_mono; [apply (port_visit_safe localtime mktime json_values); try done; apply Hv|done].
  - eapply spec_mono; [by apply (client_step_rule v e d (fun _ _ _ => True))|by intros [] d' []].
Qed.

(** [I rest p pw]: what holds of the port [i] and of the switching of its power
    before the visits [rest]. *)
Lemma run_rule i (I : list (visit * (nat -> env_t)) -> portInfo_t -> list bool -> Prop) c l :
  (i < NUM_PORTS)%nat -> Forall (fun x => allowed x.1 x.2) l ->
  (forall v e rest p pw, ~ touches v i -> I ((v, e) :: rest) p pw -> I rest p pw) ->
  (forall v e rest p pw d, (v, e) ∈ l -> port_of v = Some i -> port_ok i p -> configOptions d = c ->
     portInfoArr d !! i = Some p -> I ((v, e) :: rest) p pw ->
     at_port t (frame_of i (begin e d)) (visit_of v) (fun _ p' os _ => I rest p' (pw ++ power i os)) p [] 0) ->
  (forall v e rest p pw, (v, e) ∈ l -> touches v i -> port_of v = None -> I ((v, e) :: rest) p pw -> I rest (command p) pw) ->
  forall d p, ard_ok d -> configOptions d = c -> portInfoArr d !! i = Some p -> I l p (power i (outs d)) ->
  spec t (run l) (fun _ d' => ard_ok d' /\ configOptions d' = c /\
    exists p', portInfoArr d' !! i = Some p' /\ I [] p' (power i (outs d'))) d.
Proof.
  intros Hi Hl Hother Hvisit Hcommand. induction l as [|[v e] l IH]; intros d p Hd Hc Hp HI.
  { apply spec_ret. eauto. }
  apply list.Forall_cons in Hl as [Hv Hl]. simpl in Hv. unfold run. simpl. apply spec_bind.
  assert (spec t (step (v, e)) (fun _ d' => ard_ok d' /\ configOptions d' = c /\
    exists p', portInfoArr d' !! i = Some p' /\ I l p' (power i (outs d'))) d) as Hstep; cycle 1.
  { eapply spec_mono; [exact Hstep|]. intros [] d' (Hd' & Hc' & p' & Hp' & HI'). apply (IH Hl) with p'; try done.
    - intros v' e' rest q pw d1 Hin. apply Hvisit. by apply list_elem_of_further.
    - intros v' e' rest q pw Hin. apply Hcommand. by apply list_elem_of_further. }
  destruct (decide (touches v i)) as [Ht|Ht].
  - assert (spec t (step (v, e)) (fun _ d' => leaves (fun i => ~ touches v i) d d' /\
      touched v d (fun j p' pw => j = i -> I l p' (power i (outs d) ++ pw)) d') d) as H; cycle 1.
    { eapply spec_mono; [exact H|]. intros [] d' [[L1 L2 _ _] HT]. destruct (HT i Ht Hi) as (p' & pw & H1 & H2 & H3).
      split; [done|]. split; [by rewrite L2|]. exists p'. split; [done|]. rewrite H2. by apply H3. }
    destruct (port_of v) as [j|] eqn:Hport.
    + pose proof (touches_port v j i Hport Ht) as <-. apply (port_step_rule i v e d p); try done.
      eapply at_mono; [apply (Hvisit v e l p (power i (outs d)) d); try done; [by apply list_elem_of_here|by apply (ok_ports d Hd)]|].
      by intros [] p' os' k' HI' _.
    + apply client_step_rule; try done. intros j q Hq _ ->. rewrite app_nil_r. rewrite Hp in Hq. injection Hq as <-.
      apply (Hcommand v e); try done. by apply list_elem_of_here.
  - eapply spec_mono; [by apply step_leaves|]. intros [] d' [L1 L2 L3 L4]. split; [done|]. split; [by rewrite L2|].
    exists p. rewrite L3, L4 by done. split; [done|]. by apply (Hother v e).
Qed.
End runs.

(** ** The autorestart daemon: a scenario

    Eight ports that are in the same state, and surroundings that always answer
    the same: what the witnesses of the theorems are about. *)

Definition demo_localtime (x : Z) : tm :=
  mk_tm (x mod 60) (x / 60 mod 60) (x / 3600 mod 24) (1 + x / 86400) 0 70.
Definition demo_mktime (t : tm) : Z :=
  tm_sec t + 60 * tm_min t + 3600 * tm_hour t + 86400 * (tm_mday t - 1).
Definition demo_json (text : list Z) (key : string) : json_answer :=
  if bool_decide (key = "state"%string) || bool_decide (key = "poe"%string) then Text (str "enable") else Missing.
Definition demo_text : list Z := with_quotes "{`values`: {`state`: `link`, `alarm`: `disable`}}".

(** What a visit finds at a time: the state of the link and the answer of ping. *)
Definition demo_env (now : Z) (link : string) (answer : option Z) : nat -> env_t :=
  fun _ => mk_env now (Some (str link ++ [10])) (Some demo_text) answer 0 [].

Definition demo_alarm : time_h_m := mk_time_h_m disable 0 0 0 0.
Definition demo_config (t : TYPE_OF_TEST_t) (n : nat) : port_config_info_t :=
  mk_port_config_info_t (str "0.0.0.0") demo_alarm demo_alarm 10 100 0 1000 0 0 0 0 100 disable (Z.of_nat n + 1) t 0 [].
Definition demo_port (t : TYPE_OF_TEST_t) (e : Z) (a : AR_STATE) (r : REBOOT_STATE_e) (n : nat) : portInfo_t :=
  mk_portInfo_t (demo_config t n) (mk_port_reset_info_t 0 0 0 e 0 a) enable enable (mk_port_reboot_info_t r 0 15 0).

Definition demo (t : TYPE_OF_TEST_t) (e : Z) (a : AR_STATE) (r : REBOOT_STATE_e) (num max : Z) : ard :=
  mk_ard (map (demo_port t e a r) (seq 0 NUM_PORTS)) (mk_config_t 3 num max 0)
    (replicate NUM_PORTS (mk_resetPort_t 0 0 0 0 test_disable [])) false false [] (demo_env 0 "down" None) 0.

Lemma demo_ok t e a r num max : t <> test_max -> ard_ok (demo t e a r num max).
Proof.
  intros Ht. split; [done| |done]. intros i p Hp. unfold demo in Hp. simpl in Hp.
  do 8 (destruct i as [|i]; [injection Hp as <-; repeat split; simpl; done || lia|]). done.
Qed.

Lemma demo_month x : 0 <= tm_mon (demo_localtime x) < 12.
Proof. simpl. lia. Qed.

(** A visit of the first port, as its surroundings are here. *)
Lemma demo_sane v now link answer :
  of_a_port v -> (forall c port, v = V_client (Some (c, port)) -> c = cmd_status) ->
  sane demo_json (v, demo_env now link answer).
Proof.
  intros Hv Hc. split; [done|]. destruct v as [i|i []|i| |[[c port]|]]; simpl; try done.
  - intros _. exists demo_text. split; [done|]. split; [vm_compute; lia|]. split; vm_compute; lia.
  - intros _. exists demo_text. split; [done|]. split; [vm_compute; lia|]. split; [by eexists|]. split; [by eexists|].
    repeat split; vm_compute; lia.
  - rewrite (Hc c port eq_refl). split; [unfold cmd_status; lia|done].
Qed.

Definition demo_run (l : list (visit * (nat -> env_t))) : AR unit :=
  run demo_localtime demo_mktime demo_json l.

(** Visits of ports only are sane here. *)
Lemma demo_sane_list l :
  Forall (fun x => (of_a_port x.1 /\ port_of x.1 <> None) /\ exists now link answer, x.2 = demo_env now link answer) l ->
  Forall (sane demo_json) l.
Proof.
  apply Forall_impl. intros [v e] [[Hv Hp] (now & link & answer & He)]. simpl in *. subst e. apply demo_sane; [done|].
  by intros c port ->.
Qed.

Ltac demo_visits :=
  apply demo_sane_list; repeat constructor; simpl; try discriminate; try (unfold NUM_PORTS; lia); by repeat eexists.
