(* ===== verification/AutorestartOk.v ===== *)
(** * The autorestart daemon: theorems

    Restarts of a dead device are limited by max_reset, a port that is given
    up stays as it is, and a restart that is begun ends with power on. *)

From S2P Require Import Prelude CLib Effect Autorestart AutorestartDaemon AutorestartRules AutorestartSafe AutorestartRuns.

(** ** A device that is dead *)

(** The link is seen down, nothing has switched the power on, nobody asks. *)
Record dead (p : portInfo_t) : Prop := mk_dead {
  dead_link : has (errorCode (portResetInfo p)) ERR_TEST_LINK = true;
  dead_ok : has (errorCode (portResetInfo p)) ERR_OK = false;
  dead_alarm : alarm (portConfigInfo p) <> enable;
  dead_manual : has (event (portResetInfo p)) MANUAL_RESTART = false }.

Definition link_down (e : nat -> env_t) : Prop :=
  forall k text, file (e k) = Some text -> strcmp_eq (first_line 64 text) (str "up" ++ [10]) = false.

(** What the tests do to a port whose device is dead. *)
Record quiet (p p' : portInfo_t) : Prop := mk_quiet {
  quiet_dead : dead p';
  quiet_count : resetCount (portResetInfo p') = resetCount (portResetInfo p);
  quiet_event : event (portResetInfo p') = event (portResetInfo p);
  quiet_reboot : portRebootInfo p' = portRebootInfo p;
  quiet_state : ar_state (portResetInfo p') = ar_state (portResetInfo p) \/ ar_state (portResetInfo p') = IDLE_STATE }.

Ltac dead_port :=
  repeat match goal with H : dead _ |- _ => destruct H end; split; upd_simpl; flag; try done.
Ltac quiet_port := split; [|split; upd_simpl; [dead_port|by auto..]].

Section tests.
Context (json_values : list Z -> string -> json_answer).
Context (f : frame) (Hf : frame_ok f) (Hn : (f_port f < NUM_PORTS)%nat).
Local Abbreviation i := (f_port f).
Local Abbreviation is_quiet m := (forall p os k, dead p ->
  at_port false f m (fun _ p' os' _ => os' = os /\ quiet p p') p os k).

Lemma disable_quiet : is_quiet (port_runTestDisable (Z.of_nat i + 1)).
Proof. intros p os k Hp. apply at_with; [done..|]. walk. quiet_port; done. Qed.

Lemma link_quiet : link_down (f_env f) -> is_quiet (port_runTestLink (Z.of_nat i + 1)).
Proof.
  intros Hlink p os k Hp. apply at_with; [done..|]. apply at_bind, at_ask. apply at_bind, at_deref; [done|].
  intros text Htext. rewrite (Hlink _ _ Htext). walk. quiet_port; done.
Qed.

Lemma ping_quiet : is_quiet (port_runTestPing (Z.of_nat i + 1)).
Proof.
  intros p os k Hp. apply at_with; [done..|]. apply at_bind, at_the_port; [done|].
  rewrite (dead_link p) by done. walk. quiet_port; done.
Qed.

Lemma speed_quiet : is_quiet (port_runTestSpeed (Z.of_nat i + 1)).
Proof.
  intros p os k Hp. apply at_with; [done..|]. apply at_bind, at_the_port; [done|].
  rewrite (dead_link p) by done. walk. quiet_port; done.
Qed.

Lemma state_quiet : is_quiet (get_PortAndPoeState json_values (Z.of_nat i + 1)).
Proof.
  intros p os k Hp. apply at_with; [done..|]. apply at_bind, at_read_shell. intros text.
  apply at_bind, at_getData. intros st. apply at_bind, at_getData. intros po. cbv zeta.
  unfold port_out_of_work. walk; quiet_port; done.
Qed.

Lemma part_quiet a p os k :
  (a = Link -> link_down (f_env f)) -> portNum (portConfigInfo p) = Z.of_nat i + 1 -> dead p ->
  at_port false f (run_part i a) (fun _ p' os' _ => os' = os /\ quiet p p') p os k.
Proof.
  intros Hlink Hp Hd. unfold run_part. apply at_bind, at_the_port; [done|]. cbv zeta. rewrite Hp. destruct a.
  - by apply disable_quiet.
  - by apply link_quiet; [apply Hlink|].
  - by apply ping_quiet.
  - by apply speed_quiet.
Qed.
End tests.

(** Whether the power is still to be switched off for a restart. *)
Definition starting (p : portInfo_t) : Z :=
  match rebootState (portRebootInfo p) with
  | REBOOT_STATE_INIT => 1
  | REBOOT_STATE_POE_DOWN => Z.b2z (has (rebootEvent (portRebootInfo p)) REBOOT_EVENT_START)
  | _ => 0
  end.

Definition downs (pw : list bool) : Z := Z.of_nat (length (filter (fun b => b = false) pw)).

Lemma downs_app pw pw' : downs (pw ++ pw') = downs pw + downs pw'.
Proof. unfold downs. rewrite list.filter_app, length_app. lia. Qed.

(** At most [n] restarts with a counter at 0. *)
Record limited (n max : Z) (p : portInfo_t) (pw : list bool) : Prop := mk_limited {
  limited_dead : dead p;
  limited_downs : downs pw + starting p <= n + resetCount (portResetInfo p);
  limited_count : 0 <= resetCount (portResetInfo p) <= max }.


Lemma starting_eq p p' : portRebootInfo p' = portRebootInfo p -> starting p' = starting p.
Proof. unfold starting. by intros ->. Qed.

Lemma limited_quiet n max p p' pw : limited n max p pw -> quiet p p' -> limited n max p' pw.
Proof.
  intros [H1 H2 H3] [Q1 Q2 Q3 Q4 Q5]. split; [done| |by rewrite Q2]. by rewrite (starting_eq p p'), Q2.
Qed.

(** After a change of fields that [limited] does not read, or of flags. *)
Ltac limited_port :=
  cbv beta in *;
  match goal with H : limited _ _ _ _ |- _ => destruct H as [Hdead Hdowns Hcount] end;
  split; unfold starting in *; upd_simpl; [dead_port|..].

Section events.
Context (localtime : Z -> tm) (mktime : tm -> Z) (json_values : list Z -> string -> json_answer).
Context (f : frame) (Hf : frame_ok f) (Hn : (f_port f < NUM_PORTS)%nat).
Local Abbreviation i := (f_port f).
Context (n : Z) (pw : list bool) (Hmax : MAX_RESET (f_config f) < 256).
Local Abbreviation K := (fun p os => limited n (MAX_RESET (f_config f)) p (pw ++ power i os)).

Lemma test_ErrorHandler_limited p os k :
  K p os -> at_port false f (test_ErrorHandler i) (fun _ p' os' _ => K p' os') p os k.
Proof.
  intros HK. unfold test_ErrorHandler. walk. upd_simpl. rewrite (dead_ok p) by apply HK.
  unfold count_failure. cbv zeta. repeat case_match; limited_port; done.
Qed.

(** The invariant of a port that is given by its fields. *)
Ltac limited_fields :=
  cbv beta in *;
  match goal with H : limited _ _ _ _ |- _ => destruct H as [[] Hdowns Hcount] end;
  split; [split|..]; unfold starting in *; simpl in *; flag; try done.

Lemma autoResetHandler_limited p os k :
  K p os -> rebootState (portRebootInfo p) = REBOOT_STATE_IDLE ->
  at_port false f (autoResetHandler localtime (Z.of_nat i + 1) (MAX_RESET (f_config f))) (fun _ p' os' _ => K p' os') p os k.
Proof.
  destruct p as [[] [] ps po []]. intros HK Hidle. simpl in Hidle. subst. apply at_with; [done..|].
  apply at_bind, at_stamp; [done|]. intros s. unfold set_errorHandler. walk_fields.
  all: limited_fields; apply Z.leb_gt in Heqb; rewrite u8_small by lia; lia.
Qed.

Lemma reboot_idle_limited p os k :
  portNum (portConfigInfo p) = Z.of_nat i + 1 -> K p os -> rebootState (portRebootInfo p) = REBOOT_STATE_IDLE ->
  at_port false f (reboot_idle localtime i) (fun _ p' os' _ => K p' os') p os k.
Proof.
  intros Hp HK Hidle. unfold reboot_idle. apply at_bind, at_the_port; [done|]. cbv zeta. apply at_get. rewrite Hp.
  apply at_bind. eapply (at_mono _ _ _ (fun _ p' os' _ => K p' os')).
  - destruct (has _ AUTO_RESTART); [|by apply at_ret]. apply at_bind, at_mod_port; [done|].
    apply autoResetHandler_limited; [|by upd_simpl]. limited_port; done.
  - intros _ p' os' k' HK'. apply at_bind, at_the_port; [done|]. rewrite (dead_manual p') by apply HK'. by apply at_ret.
Qed.

Lemma downs_one b : downs [b] = Z.b2z (negb b).
Proof. by destruct b. Qed.

Lemma power_one j (b : bool) : power j [if b then Poe_up (Z.of_nat j + 1) else Poe_down (Z.of_nat j + 1)] = [b].
Proof. unfold power. destruct b; simpl; by rewrite Z.eqb_refl. Qed.

Lemma downs_poe pw' os (b : bool) :
  downs (pw' ++ power i (os ++ [if b then Poe_up (Z.of_nat i + 1) else Poe_down (Z.of_nat i + 1)])) =
  downs (pw' ++ power i os) + Z.b2z (negb b).
Proof. by rewrite power_app, power_one, app_assoc, downs_app, downs_one. Qed.

Lemma reboot_down_limited p os k :
  portNum (portConfigInfo p) = Z.of_nat i + 1 -> K p os -> rebootState (portRebootInfo p) = REBOOT_STATE_POE_DOWN ->
  at_port false f (reboot_down i) (fun _ p' os' _ => K p' os') p os k.
Proof.
  destruct p as [[] [] ps po []]. intros Hp HK Hdown. simpl in Hp, Hdown. subst. unfold reboot_down. walk_fields.
  all: limited_fields; rewrite ?(downs_poe pw os false).
  all: rewrite ?Heqb in *; simpl in *; try lia.
Qed.

Lemma reboot_up_limited p os k :
  portNum (portConfigInfo p) = Z.of_nat i + 1 -> K p os -> rebootState (portRebootInfo p) = REBOOT_STATE_POE_UP ->
  at_port false f (reboot_up localtime mktime json_values i) (fun _ p' os' _ => K p' os') p os k.
Proof.
  destruct p as [[] [] ps po []]. intros Hp HK Hup. simpl in Hp, Hup. subst.
  pose proof (dead_manual _ (limited_dead _ _ _ _ HK)) as Hm. simpl in Hm.
  unfold reboot_up. walk_fields; rewrite ?Hm in *; try discriminate.
  all: limited_fields; rewrite (downs_poe pw os true); simpl; lia.
Qed.

Lemma events_limited p os k :
  portNum (portConfigInfo p) = Z.of_nat i + 1 -> K p os ->
  at_port false f (events_of_port localtime mktime json_values i) (fun _ p' os' _ => K p' os') p os k.
Proof.
  intros Hp HK. unfold events_of_port. apply at_bind, at_the_port; [done|]. apply at_bind.
  eapply (at_mono _ _ _ (fun _ p' os' _ => K p' os')).
  - destruct (ar_state (portResetInfo p)).
    + destruct (has _ TEST_OK); [|by apply at_ret]. walk. limited_port; done.
    + by apply test_ErrorHandler_limited.
    + unfold rebootHandler. apply at_bind, at_the_port; [done|]. destruct (rebootState (portRebootInfo p)) eqn:Hr.
      * by apply reboot_idle_limited.
      * walk. limited_port; rewrite Hr in *; flag; simpl in *; [lia|done].
      * by apply reboot_down_limited.
      * by apply reboot_up_limited.
  - intros _ p' os' k' HK'. apply at_bind, at_the_port; [done|]. rewrite bool_decide_false by apply HK'. by apply at_ret.
Qed.
End events.

(** ** A port that is given up *)

Record given_up (p : portInfo_t) : Prop := mk_given_up {
  given_up_dead : dead p;
  given_up_state : ar_state (portResetInfo p) = IDLE_STATE;
  given_up_event : has (event (portResetInfo p)) TEST_OK = false }.

Lemma given_up_quiet p p' : given_up p -> quiet p p' -> given_up p'.
Proof.
  intros [H1 H2 H3] [Q1 Q2 Q3 Q4 Q5]. split; [done| |by rewrite Q3]. destruct Q5 as [->| ->]; done.
Qed.

(** What a visit must not do for these: a command for the port, or a test that
    finds the link up. *)
Definition no_help (i : nat) (x : visit * (nat -> env_t)) : Prop :=
  (touches x.1 i -> port_of x.1 = Some i) /\ (x.1 = V_test i Link -> link_down x.2).

Lemma spec_join {S A} (m : ST S A) (Q R : A -> S -> Prop) s :
  spec true m Q s -> spec false m R s -> spec true m (fun a s' => Q a s' /\ R a s') s.
Proof. unfold spec. by destruct (m s) as [[]|]. Qed.

Section theorems.
Context (localtime : Z -> tm) (mktime : tm -> Z) (json_values : list Z -> string -> json_answer).
Hypothesis localtime_month : forall x, 0 <= tm_mon (localtime x) < 12.
Local Abbreviation run := (run localtime mktime json_values).
Local Abbreviation sane := (sane json_values).

Lemma run_safe l d :
  ard_ok d -> Forall sane l -> spec true (run l) (fun _ d' => ard_ok d' /\ configOptions d' = configOptions d) d.
Proof.
  intros Hd Hl. apply spec_for_each; [done|]. intros [v e] d' Hin [Hd' Hc].
  apply (proj1 (list.Forall_forall _ _)) with (x := (v, e)) in Hl; [|done].
  eapply spec_mono; [apply step_leaves; try done|].
  - split; [apply Hl|done].
  - intros [] d'' [L1 L2 _ _]. by rewrite L2.
Qed.

Lemma sane_allowed l : Forall sane l -> Forall (fun x => allowed json_values false x.1 x.2) l.
Proof. apply Forall_impl. intros [v e] Hx. split; [apply Hx|done]. Qed.

(** The rule for runs without help. *)
Lemma run_without_help i (I : portInfo_t -> list bool -> Prop) l d p :
  (i < NUM_PORTS)%nat -> ard_ok d -> portInfoArr d !! i = Some p ->
  Forall sane l -> Forall (no_help i) l -> I p (power i (outs d)) ->
  (forall q pw, I q pw -> dead q) -> (forall q q' pw, I q pw -> quiet q q' -> I q' pw) ->
  (forall f q pw os k, frame_ok f -> f_port f = i -> f_config f = configOptions d ->
     portNum (portConfigInfo q) = Z.of_nat i + 1 -> I q (pw ++ power i os) ->
     at_port false f (events_of_port localtime mktime json_values i)
       (fun _ q' os' _ => I q' (pw ++ power i os')) q os k) ->
  exists d', run l d = Some (tt, d') /\ ard_ok d' /\
    exists p', portInfoArr d' !! i = Some p' /\ I p' (power i (outs d')).
Proof.
  intros Hi Hd Hp Hl Hhelp HI Hdead Hquiet Hevents.
  assert (spec false (run l) (fun _ d' => ard_ok d' /\ configOptions d' = configOptions d /\
    exists p', portInfoArr d' !! i = Some p' /\ I p' (power i (outs d'))) d) as Hrun.
  { apply (run_rule localtime mktime json_values localtime_month false i (fun _ => I) (configOptions d) l) with p; try done.
    - by apply sane_allowed.
    - intros v e _ q pw d1 Hin Hv Hq Hc Hq' HIq. rewrite list.Forall_forall in Hhelp. specialize (Hhelp _ Hin) as [_ Hlink].
      assert (frame_ok (frame_of i (begin e d1))) as Hf by (unfold frame_ok, begin; simpl; upd_simpl; by eapply lookup_lt_Some).
      assert (forall os' q', os' = [] /\ quiet q q' -> I q' (pw ++ power i os')) as Hend.
      { intros os' q' [-> Hqq]. rewrite app_nil_r. by apply (Hquiet q). }
      assert (f_config (frame_of i (begin e d1)) = configOptions d) as Hcfg by (unfold begin; simpl; by upd_simpl).
      destruct v as [j|j a|j| |msg]; simpl in Hv; try done; injection Hv as ->; simpl.
      + eapply at_mono; [apply (state_quiet json_values (frame_of i (begin e d1))); try done; by eapply Hdead|]. intros; by apply Hend.
      + eapply at_mono; [apply (part_quiet (frame_of i (begin e d1))); try done|].
        * intros ->. intros k text. unfold begin. simpl. upd_simpl. by apply Hlink.
        * apply Hq.
        * by eapply Hdead.
        * intros; by apply Hend.
      + apply (Hevents (frame_of i (begin e d1))); try done; [apply Hq|]. by rewrite app_nil_r.
    - intros v e _ q pw Hin Ht Hn. rewrite list.Forall_forall in Hhelp. destruct (Hhelp _ Hin) as [Hv _].
      simpl in Hv. by rewrite Hv in Hn. }
  destruct (spec_total _ _ _ (spec_join _ _ _ _ (run_safe l d Hd Hl) Hrun)) as ([] & d' & Heq & _ & Hd' & _ & Hend).
  eauto.
Qed.

(** C13: As long as the link of a port stays down, no client asks for the
    port (a client's restart sets the count to 0) and its alarm is off, the
    daemon switches its power off for a restart at most max_reset times, less
    the restarts already counted, in every order of the visits of the three
    threads. *)
Theorem restarts_are_bounded i l d p :
  (i < NUM_PORTS)%nat -> ard_ok d -> portInfoArr d !! i = Some p ->
  Forall sane l -> Forall (no_help i) l ->
  dead p -> rebootState (portRebootInfo p) = REBOOT_STATE_IDLE ->
  resetCount (portResetInfo p) <= MAX_RESET (configOptions d) < 256 ->
  exists d', run l d = Some (tt, d') /\
    downs (power i (outs d')) - downs (power i (outs d)) <= MAX_RESET (configOptions d) - resetCount (portResetInfo p).
Proof.
  intros Hi Hd Hp Hl Hhelp Hdead Hidle Hmax. pose proof (ok_ports d Hd i p Hp) as [_ [Hcount _]].
  set (n := downs (power i (outs d)) - resetCount (portResetInfo p)).
  destruct (run_without_help i (limited n (MAX_RESET (configOptions d))) l d p) as (d' & Heq & Hd' & p' & _ & HI); try done.
  - split; [done| |lia]. unfold starting, n. rewrite Hidle. lia.
  - by intros q pw [].
  - intros q q' pw. apply limited_quiet.
  - intros f q pw os k Hf Hfi Hcfg Hnum HI. subst i. rewrite <- Hcfg in *. apply events_limited; try done. lia.
  - exists d'. split; [done|]. destruct HI as [_ H1 H2].
    assert (0 <= starting p') by (unfold starting; case_match; try lia; by destruct (has _ _)).
    lia.
Qed.

(** A port that is given up, after max_reset restarts or because it was
    seen disabled, is not touched again as long as its link stays down and no
    client asks for it: its power is switched neither on nor off. *)
Theorem given_up_port_stays i l d p :
  (i < NUM_PORTS)%nat -> ard_ok d -> portInfoArr d !! i = Some p ->
  Forall sane l -> Forall (no_help i) l -> given_up p ->
  exists d', run l d = Some (tt, d') /\ power i (outs d') = power i (outs d) /\
    exists p', portInfoArr d' !! i = Some p' /\ given_up p'.
Proof.
  intros Hi Hd Hp Hl Hhelp Hup.
  destruct (run_without_help i (fun q pw => given_up q /\ pw = power i (outs d)) l d p)
    as (d' & Heq & Hd' & p' & Hp' & Hup' & Hpw); try done.
  - by intros q pw [[] _].
  - intros q q' pw [Hq ->] Hqq. split; [by apply (given_up_quiet q)|done].
  - intros f q pw os k Hf Hfi _ Hnum [[Hdead Hst Hev] Hpw]. subst i. unfold events_of_port.
    apply at_bind, at_the_port; [done|]. rewrite Hst, Hev. apply at_bind, at_ret, at_bind, at_the_port; [done|].
    rewrite bool_decide_false by apply Hdead. apply at_ret. by split.
  - eauto 10.
Qed.
End theorems.

(** ** Witnesses *)

(** Tests and restarts of the first port, whose device is dead. *)
Definition dead_visits : list (visit * (nat -> env_t)) :=
  let e := demo_env 100 "down" None in
  let later := demo_env 120 "down" None in
  [(V_state 0, e); (V_test 0 Link, e); (V_events 0, e); (V_events 0, e); (V_events 1, e); (V_events 0, e);
   (V_events 0, e); (V_events 0, later); (V_events 0, later); (V_test 0 Link, later); (V_events 0, later);
   (V_events 0, later)].

Lemma dead_visits_sane : Forall (sane demo_json) dead_visits.
Proof. demo_visits. Qed.

Lemma link_down_demo now answer : link_down (demo_env now "down" answer).
Proof. by intros k text [= <-]. Qed.

Lemma dead_visits_no_help : Forall (no_help 0) dead_visits.
Proof. repeat constructor; simpl; try done; intros [=]; apply link_down_demo. Qed.

Definition dead_port_demo (a : AR_STATE) : ard := demo test_link ERR_TEST_LINK a REBOOT_STATE_IDLE 1 1.

Lemma restarts_are_bounded_witness : exists d',
  demo_run dead_visits (dead_port_demo REGULAR_STATE) = Some (tt, d') /\
  downs (power 0 (outs d')) - downs (power 0 (outs (dead_port_demo REGULAR_STATE))) <= 1 - 0.
Proof.
  apply (restarts_are_bounded demo_localtime demo_mktime demo_json demo_month 0 dead_visits (dead_port_demo REGULAR_STATE)
    (demo_port test_link ERR_TEST_LINK REGULAR_STATE REBOOT_STATE_IDLE 0)).
  - unfold NUM_PORTS. lia.
  - by apply demo_ok.
  - reflexivity.
  - apply dead_visits_sane.
  - apply dead_visits_no_help.
  - by split.
  - reflexivity.
  - simpl. lia.
Defined.

(** The restart does happen. *)
Example dead_device_restarted :
  (fun x => power 0 (outs x.2)) <$> demo_run dead_visits (dead_port_demo REGULAR_STATE) = Some [false; true].
Proof. vm_compute. reflexivity. Qed.

Lemma given_up_port_stays_witness : exists d',
  demo_run dead_visits (dead_port_demo IDLE_STATE) = Some (tt, d') /\
  power 0 (outs d') = power 0 (outs (dead_port_demo IDLE_STATE)) /\
  exists p', portInfoArr d' !! 0%nat = Some p' /\ given_up p'.
Proof.
  apply (given_up_port_stays demo_localtime demo_mktime demo_json demo_month 0 dead_visits (dead_port_demo IDLE_STATE)
    (demo_port test_link ERR_TEST_LINK IDLE_STATE REBOOT_STATE_IDLE 0)).
  - unfold NUM_PORTS. lia.
  - by apply demo_ok.
  - reflexivity.
  - apply dead_visits_sane.
  - apply dead_visits_no_help.
  - by repeat split.
Defined.
