(* ===== verification/AutorestartCycle.v ===== *)
(** * The autorestart daemon: a restart from beginning to end

    [restart] is a restart as an abstract machine: power off, a wait of
    rebootDelay seconds, power on. While the port stays enabled the daemon
    follows it, whatever the tests and the clients of other ports do. *)

From S2P Require Import Prelude CLib Effect Autorestart AutorestartDaemon AutorestartRules AutorestartSafe.
From S2P Require Import AutorestartRuns AutorestartOk.

(** ** The abstract restart *)

Inductive phase := Ph_init | Ph_down | Ph_wait (until : Z) | Ph_up | Ph_done.
#[export] Instance phase_eq_dec : EqDecision phase := ltac:(solve_decision).

(** A visit of the events thread; its clock is read at most twice. *)
Definition restart_step (delay : Z) (ph : phase) (e : nat -> env_t) : phase * list bool :=
  match ph with
  | Ph_init => (Ph_down, [])
  | Ph_down =>
      let until := u32 (delay + time (e 0%nat)) in
      (if until <=? time (e 1%nat) then Ph_up else Ph_wait until, [false])
  | Ph_wait until => (if until <=? time (e 0%nat) then Ph_up else Ph_wait until, [])
  | Ph_up => (Ph_done, [true])
  | Ph_done => (Ph_done, [])
  end.

Fixpoint restart (delay : Z) (ph : phase) (es : list (nat -> env_t)) : phase * list bool :=
  match es with
  | [] => (ph, [])
  | e :: es =>
      let '(ph, pw) := restart_step delay ph e in
      let '(ph, pw') := restart delay ph es in
      (ph, pw ++ pw')
  end.

(** The port is not done before the last of the visits. *)
Fixpoint busy (delay : Z) (ph : phase) (es : list (nat -> env_t)) : Prop :=
  match es with
  | [] => True
  | e :: es => ph <> Ph_done /\ busy delay (restart_step delay ph e).1 es
  end.

(** ** The port in a phase *)

Record in_phase (delay : Z) (ph : phase) (p : portInfo_t) : Prop := mk_in_phase {
  in_alarm : alarm (portConfigInfo p) <> enable;
  in_powered : powered p = true;
  in_manual : has (event (portResetInfo p)) MANUAL_RESTART = false;
  in_delay : rebootDelay (portRebootInfo p) = delay;
  in_stop : ph <> Ph_up -> ph <> Ph_done -> has (rebootEvent (portRebootInfo p)) REBOOT_EVENT_TIMER_STOP = false;
  in_state : ar_state (portResetInfo p) = if decide (ph = Ph_done) then REGULAR_STATE else REBOOT_STATE;
  in_reboot :
    match ph with
    | Ph_init => rebootState (portRebootInfo p) = REBOOT_STATE_INIT
    | Ph_down => rebootState (portRebootInfo p) = REBOOT_STATE_POE_DOWN /\
        has (rebootEvent (portRebootInfo p)) REBOOT_EVENT_START = true
    | Ph_wait until => rebootState (portRebootInfo p) = REBOOT_STATE_POE_DOWN /\
        has (rebootEvent (portRebootInfo p)) REBOOT_EVENT_START = false /\
        rebootTimeStart (portRebootInfo p) = until
    | Ph_up => rebootState (portRebootInfo p) = REBOOT_STATE_POE_UP
    | Ph_done => rebootState (portRebootInfo p) = REBOOT_STATE_IDLE
    end }.

(** What the tests leave of it. *)
Record steady (p p' : portInfo_t) : Prop := mk_steady {
  st_alarm : alarm (portConfigInfo p') = alarm (portConfigInfo p);
  st_powered : powered p' = powered p;
  st_manual : has (event (portResetInfo p')) MANUAL_RESTART = has (event (portResetInfo p)) MANUAL_RESTART;
  st_state : ar_state (portResetInfo p') = ar_state (portResetInfo p);
  st_reboot : portRebootInfo p' = portRebootInfo p }.

Lemma in_phase_steady delay ph p p' : in_phase delay ph p -> steady p p' -> in_phase delay ph p'.
Proof.
  intros [H1 H2 H3 H4 H5 H6 H7] [S1 S2 S3 S4 S5]. split; rewrite ?S1, ?S2, ?S3, ?S4, ?S5; done.
Qed.

(** The port is found enabled. *)
Definition enabled (json_values : list Z -> string -> json_answer) (e : nat -> env_t) : Prop :=
  forall k text, shell (e k) = Some text ->
    json_values text "state" = Text (str "enable") /\ json_values text "poe" = Text (str "enable").

Section visits.
Context (localtime : Z -> tm) (mktime : tm -> Z) (json_values : list Z -> string -> json_answer).
Context (f : frame) (Hf : frame_ok f) (Hn : (f_port f < NUM_PORTS)%nat).
Local Abbreviation i := (f_port f).
Local Abbreviation is_steady m := (forall p os k,
  at_port false f m (fun _ p' os' _ => os' = os /\ steady p p') p os k).

Ltac steady_port := split; [done|]; split; upd_simpl; flag; done.

Lemma test_passes_steady : is_steady (test_passes i).
Proof. intros p os k. unfold test_passes. walk; steady_port. Qed.

Lemma disable_steady : is_steady (port_runTestDisable (Z.of_nat i + 1)).
Proof. intros p os k. apply at_with; [done..|]. walk. steady_port. Qed.

Lemma link_steady : is_steady (port_runTestLink (Z.of_nat i + 1)).
Proof.
  intros p os k. apply at_with; [done..|]. apply at_bind, at_ask, at_bind, at_deref; [done|]. intros text _.
  unfold test_passes. walk; steady_port.
Qed.

Lemma ping_steady : is_steady (port_runTestPing (Z.of_nat i + 1)).
Proof.
  intros p os k. apply at_with; [done..|]. unfold test_passes. walk; steady_port.
Qed.

Lemma speed_steady : is_steady (port_runTestSpeed (Z.of_nat i + 1)).
Proof.
  intros [[] [] ps po []] os k. apply at_with; [done..|]. unfold read_speed, test_passes. walk_fields.
  all: split; [done|]; split; fields; flag; done.
Qed.

Lemma part_steady a p os k :
  portNum (portConfigInfo p) = Z.of_nat i + 1 ->
  at_port false f (run_part i a) (fun _ p' os' _ => os' = os /\ steady p p') p os k.
Proof.
  intros Hp. unfold run_part. apply at_bind, at_the_port; [done|]. cbv zeta. rewrite Hp. destruct a.
  - apply disable_steady.
  - apply link_steady.
  - apply ping_steady.
  - apply speed_steady.
Qed.

Lemma at_getData_text n text key s Q p os k :
  json_values text key = Text s -> Q (Some s) p os k ->
  at_port false f (getData_formJson json_values n text key) Q p os k.
Proof. intros Hs HQ. unfold getData_formJson. rewrite Hs. by apply at_fmap, at_strcpy. Qed.

Lemma state_steady p os k :
  enabled json_values (f_env f) -> powered p = true ->
  at_port false f (get_PortAndPoeState json_values (Z.of_nat i + 1)) (fun _ p' os' _ => os' = os /\ steady p p') p os k.
Proof.
  intros He Hp. apply at_with; [done..|]. unfold read_shell. apply at_bind, at_bind, at_ask, at_bind, at_deref; [done|].
  intros text Htext. destruct (He _ _ Htext) as [H1 H2]. apply at_strcpy; [done|]. intros _.
  apply at_bind, (at_getData_text _ _ _ (str "enable")); [done|].
  apply at_bind, (at_getData_text _ _ _ (str "enable")); [done|]. cbv zeta. walk. split; [done|].
  unfold powered in Hp. apply andb_true_iff in Hp as [Hp1%bool_decide_eq_true Hp2%bool_decide_eq_true].
  split; unfold powered; upd_simpl; try done. by rewrite Hp1, Hp2.
Qed.

Lemma power_switch (b : bool) :
  power i ([] ++ [if b then Poe_up (Z.of_nat i + 1) else Poe_down (Z.of_nat i + 1)]) = [b].
Proof. apply power_one. Qed.

(** Closes the end of a visit of a port that is given by its fields. *)
Ltac in_phase_port :=
  unfold powered in *; simpl in *;
    repeat match goal with H : has _ _ = _ |- _ => progress flag_in H end;
  first [congruence | split; [split; simpl; flag; first [done | intros Hx; by destruct Hx | intros _ Hx; by destruct Hx] | first [done | apply (power_switch false) | apply (power_switch true)]]].

(** ** The events thread follows the abstract restart *)

Lemma events_follow delay ph p k :
  portNum (portConfigInfo p) = Z.of_nat i + 1 -> in_phase delay ph p -> ph <> Ph_done -> k = 0%nat ->
  at_port false f (events_of_port localtime mktime json_values i)
    (fun _ p' os' _ => in_phase delay (restart_step delay ph (f_env f)).1 p' /\
       power i os' = (restart_step delay ph (f_env f)).2) p [] k.
Proof.
  intros Hp Hph Hne ->. unfold events_of_port. apply at_bind, at_the_port; [done|].
  rewrite (in_state _ _ _ Hph), decide_False by done. apply at_bind.
  eapply (at_mono _ _ _ (fun _ p' os' _ => in_phase delay (restart_step delay ph (f_env f)).1 p' /\
       power i os' = (restart_step delay ph (f_env f)).2)).
  2:{ intros _ p' os' k' [Hph' Hpw]. apply at_bind, at_the_port; [done|].
      rewrite bool_decide_false by (by eapply in_alarm). by apply at_ret. }
  unfold rebootHandler. apply at_bind, at_the_port; [done|]. destruct p as [[] [] ps po []].
  destruct Hph as [H1 H2 H3 H4 H5 H6 H7]. simpl in *. subst.
  destruct ph as [| |until| |]; simpl in *; try done; destruct_and?; simplify_eq;
    try (specialize (H5 ltac:(done) ltac:(done))).
  - walk_fields. in_phase_port.
  - unfold reboot_down. walk_fields; in_phase_port.
  - unfold reboot_down. walk_fields; in_phase_port.
  - unfold reboot_up. walk_fields; in_phase_port.
Qed.
End visits.

(** ** Runs *)

(** What the events thread finds when it visits the port. *)
Definition visits_to (i : nat) (l : list (visit * (nat -> env_t))) : list (nat -> env_t) :=
  omap (fun x => match x.1 with V_events j => if decide (j = i) then Some x.2 else None | _ => None end) l.

Lemma visits_to_events i e l : visits_to i ((V_events i, e) :: l) = e :: visits_to i l.
Proof. unfold visits_to. simpl. by rewrite decide_True. Qed.

Lemma restart_cons delay ph e es :
  restart delay ph (e :: es) =
    ((restart delay (restart_step delay ph e).1 es).1,
     (restart_step delay ph e).2 ++ (restart delay (restart_step delay ph e).1 es).2).
Proof. simpl. destruct (restart_step delay ph e) as [ph' pw]. simpl. by destruct (restart delay ph' es). Qed.

Section theorems.
Context (localtime : Z -> tm) (mktime : tm -> Z) (json_values : list Z -> string -> json_answer).
Hypothesis localtime_month : forall x, 0 <= tm_mon (localtime x) < 12.
Local Abbreviation run := (run localtime mktime json_values).
Local Abbreviation sane := (sane json_values).

(** The port stays enabled, and no client asks for it. *)
Definition undisturbed (i : nat) (x : visit * (nat -> env_t)) : Prop :=
  (touches x.1 i -> port_of x.1 = Some i) /\ (x.1 = V_state i -> enabled json_values x.2).

Lemma restart_run i l d p delay ph :
  (i < NUM_PORTS)%nat -> ard_ok d -> portInfoArr d !! i = Some p ->
  Forall sane l -> Forall (undisturbed i) l ->
  in_phase delay ph p -> busy delay ph (visits_to i l) ->
  exists d', run l d = Some (tt, d') /\
    power i (outs d') = power i (outs d) ++ (restart delay ph (visits_to i l)).2 /\
    exists p', portInfoArr d' !! i = Some p' /\ in_phase delay (restart delay ph (visits_to i l)).1 p'.
Proof.
  intros Hi Hd Hp Hl Hund Hph Hbusy.
  set (end_phase := (restart delay ph (visits_to i l)).1).
  set (end_power := power i (outs d) ++ (restart delay ph (visits_to i l)).2).
  set (I := fun rest q pw => exists ph, in_phase delay ph q /\ busy delay ph (visits_to i rest) /\
    (restart delay ph (visits_to i rest)).1 = end_phase /\ pw ++ (restart delay ph (visits_to i rest)).2 = end_power).
  assert (spec false (run l) (fun _ d' => ard_ok d' /\ configOptions d' = configOptions d /\
    exists p', portInfoArr d' !! i = Some p' /\ I [] p' (power i (outs d'))) d) as Hrun.
  { apply (run_rule localtime mktime json_values localtime_month false i I (configOptions d) l) with p; try done.
    - by apply sane_allowed.
    - intros v e rest q pw Ht HI. destruct v as [j|j a|j| |msg]; try done. unfold I, visits_to in *. simpl in *.
      by rewrite decide_False in HI.
    - intros v e rest q pw d1 Hin Hv Hq _ Hq' (ph1 & HI1 & HI2 & HI3 & HI4).
      rewrite list.Forall_forall in Hund. specialize (Hund _ Hin) as [_ Hen].
      assert (frame_ok (frame_of i (begin e d1))) as Hf by (unfold frame_ok, begin; simpl; upd_simpl; by eapply lookup_lt_Some).
      assert (f_env (frame_of i (begin e d1)) = e) as Hfe by (unfold begin; simpl; by upd_simpl).
      assert (forall os q', os = [] /\ steady q q' -> visits_to i rest = visits_to i ((v, e) :: rest) -> I rest q' (pw ++ power i os)) as Hend.
      { intros os q' [-> Hs] Heq. exists ph1. rewrite app_nil_r, Heq. split; [by eapply in_phase_steady|done]. }
      destruct v as [j|j a|j| |msg]; simpl in Hv; try done; injection Hv as ->; simpl.
      + eapply at_mono; [apply (state_steady json_values (frame_of i (begin e d1))); try done|].
        * rewrite Hfe. by apply Hen.
        * by eapply in_powered.
        * intros; by apply Hend.
      + eapply at_mono; [apply (part_steady (frame_of i (begin e d1))); try done; apply Hq|]. intros; by apply Hend.
      + rewrite visits_to_events in HI2, HI3, HI4. destruct HI2 as [Hne HI2].
        eapply at_mono; [apply (events_follow _ _ _ (frame_of i (begin e d1)) Hf Hi delay ph1); try done; apply Hq|].
        intros _ q' os k [Hph' Hpw]. rewrite Hfe in *. exists (restart_step delay ph1 e).1. split; [done|].
        split; [done|]. rewrite restart_cons in HI3, HI4. simpl in Hpw, HI3, HI4. by rewrite Hpw, <- app_assoc.
    - intros v e rest q pw Hin Ht Hn. rewrite list.Forall_forall in Hund. destruct (Hund _ Hin) as [Hv _].
      simpl in Hv. by rewrite Hv in Hn.
    - exists ph. done. }
  destruct (spec_total _ _ _ (spec_join _ _ _ _ (run_safe localtime mktime json_values localtime_month l d Hd Hl) Hrun))
    as ([] & d' & Heq & _ & Hd' & _ & p' & Hp' & ph' & H1 & _ & H3 & H4).
  simpl in H3, H4. rewrite app_nil_r in H4. subst ph'. exists d'. split; [done|]. split; [done|]. by exists p'.
Qed.

(** C12: While the port stays enabled, its alarm is off and no client asks for
    it, its power is switched exactly as the abstract restart says: the daemon
    refines it, from any phase and in every order of the visits of the three
    threads. *)
Theorem restart_refines i l d p delay ph :
  (i < NUM_PORTS)%nat -> ard_ok d -> portInfoArr d !! i = Some p ->
  Forall sane l -> Forall (undisturbed i) l ->
  in_phase delay ph p -> busy delay ph (visits_to i l) ->
  exists d', run l d = Some (tt, d') /\
    power i (outs d') = power i (outs d) ++ (restart delay ph (visits_to i l)).2 /\
    exists p', portInfoArr d' !! i = Some p' /\ in_phase delay (restart delay ph (visits_to i l)).1 p'.
Proof. apply restart_run. Qed.

Lemma restart_waits delay until ws es :
  Forall (fun e : nat -> env_t => time (e 0%nat) < until) ws ->
  restart delay (Ph_wait until) (ws ++ es) = restart delay (Ph_wait until) es /\
  (busy delay (Ph_wait until) es -> busy delay (Ph_wait until) (ws ++ es)).
Proof.
  induction 1 as [|e ws He _ [IH1 IH2]]; [done|]. simpl. rewrite (proj2 (Z.leb_gt until _)) by done. split.
  - rewrite IH1. by destruct (restart _ _ es).
  - intros Hes. split; [done|]. by apply IH2.
Qed.

(** C15: A restart that is begun ends, as long as the port stays enabled, its
    alarm is off and no client asks for it: its first visits switch the power
    off, and after rebootDelay seconds the power is on again and the port is
    tested as before. *)
Theorem power_comes_back i l d p delay e1 e2 ws e3 e4 :
  (i < NUM_PORTS)%nat -> ard_ok d -> portInfoArr d !! i = Some p ->
  Forall sane l -> Forall (undisturbed i) l -> in_phase delay Ph_init p ->
  visits_to i l = e1 :: e2 :: ws ++ [e3; e4] ->
  let until := delay + time (e2 0%nat) in
  0 <= until < 2 ^ 32 -> time (e2 1%nat) < until -> Forall (fun e => time (e 0%nat) < until) ws ->
  until <= time (e3 0%nat) ->
  exists d', run l d = Some (tt, d') /\ power i (outs d') = power i (outs d) ++ [false; true] /\
    exists p', portInfoArr d' !! i = Some p' /\ ar_state (portResetInfo p') = REGULAR_STATE /\
      rebootState (portRebootInfo p') = REBOOT_STATE_IDLE.
Proof.
  intros Hi Hd Hp Hl Hund Hph Hvis until Hu H2 Hws H3.
  destruct (restart_waits delay until ws [e3; e4] Hws) as [Hw1 Hw2].
  assert (u32 (delay + time (e2 0%nat)) = until) as Hu32 by (unfold until in *; by apply Z.mod_small).
  assert (restart delay Ph_init (visits_to i l) = (Ph_done, [false; true])) as Hr.
  { rewrite Hvis, !restart_cons. cbn [restart_step fst snd]. rewrite Hu32, (proj2 (Z.leb_gt until _)) by done.
    rewrite Hw1, !restart_cons. cbn [restart_step fst snd restart]. by rewrite (proj2 (Z.leb_le until _)). }
  destruct (restart_run i l d p delay Ph_init) as (d' & Heq & Hpw & p' & Hp' & Hph'); try done.
  - rewrite Hvis. split; [done|]. split; [done|]. cbn [restart_step fst]. rewrite Hu32, (proj2 (Z.leb_gt until _)) by done.
    apply Hw2. simpl. by rewrite (proj2 (Z.leb_le until _)).
  - rewrite Hr in Hpw, Hph'. exists d'. split; [done|]. split; [done|]. exists p'. split; [done|].
    split; [apply (in_state _ _ _ Hph')|apply (in_reboot _ _ _ Hph')].
Qed.
End theorems.

(** ** Witnesses *)

Definition begin_env : nat -> env_t := demo_env 100 "down" None.
Definition wait_env : nat -> env_t := demo_env 110 "down" None.
Definition later_env : nat -> env_t := demo_env 115 "up" None.

(** A restart, with tests and visits of another port in between. *)
Definition restart_visits : list (visit * (nat -> env_t)) :=
  [(V_state 0, begin_env); (V_events 0, begin_env); (V_test 0 Link, begin_env); (V_events 0, begin_env);
   (V_events 1, begin_env); (V_events 0, wait_env); (V_test 0 Speed, wait_env); (V_events 0, later_env);
   (V_test 0 Link, later_env); (V_events 0, later_env)].
Definition restarting : ard := demo test_speed ERR_TEST_LINK REBOOT_STATE REBOOT_STATE_INIT 1 1.

Lemma restart_visits_sane : Forall (sane demo_json) restart_visits.
Proof. demo_visits. Qed.

Lemma restart_visits_undisturbed : Forall (undisturbed demo_json 0) restart_visits.
Proof. repeat constructor; simpl; try done; intros _; by intros k text [= <-]. Qed.

Lemma restart_refines_witness : exists d',
  demo_run restart_visits restarting = Some (tt, d') /\
  power 0 (outs d') = power 0 (outs restarting) ++ (restart 15 Ph_init (visits_to 0 restart_visits)).2 /\
  exists p', portInfoArr d' !! 0%nat = Some p' /\ in_phase 15 (restart 15 Ph_init (visits_to 0 restart_visits)).1 p'.
Proof.
  apply (restart_refines demo_localtime demo_mktime demo_json demo_month 0 restart_visits restarting
    (demo_port test_speed ERR_TEST_LINK REBOOT_STATE REBOOT_STATE_INIT 0)).
  - unfold NUM_PORTS. lia.
  - by apply demo_ok.
  - reflexivity.
  - apply restart_visits_sane.
  - apply restart_visits_undisturbed.
  - by split.
  - by vm_compute.
Defined.

Lemma power_comes_back_witness : exists d',
  demo_run restart_visits restarting = Some (tt, d') /\ power 0 (outs d') = power 0 (outs restarting) ++ [false; true] /\
  exists p', portInfoArr d' !! 0%nat = Some p' /\ ar_state (portResetInfo p') = REGULAR_STATE /\
    rebootState (portRebootInfo p') = REBOOT_STATE_IDLE.
Proof.
  apply (power_comes_back demo_localtime demo_mktime demo_json demo_month 0 restart_visits restarting
    (demo_port test_speed ERR_TEST_LINK REBOOT_STATE REBOOT_STATE_INIT 0) 15
    begin_env begin_env [wait_env] later_env later_env).
  - unfold NUM_PORTS. lia.
  - by apply demo_ok.
  - reflexivity.
  - apply restart_visits_sane.
  - apply restart_visits_undisturbed.
  - by split.
  - reflexivity.
  - vm_compute. split; [discriminate|reflexivity].
  - reflexivity.
  - repeat constructor.
  - vm_compute. discriminate.
Defined.

(** ** The autorestart daemon: the start, the speed test, and a scenario

    The start overruns an array; the speed test measures the speed as long as
    the counter of the interface fits into 31 bits; a ping that is under way is
    taken for a success. *)

Section theorems.
Context (localtime : Z -> tm) (mktime : tm -> Z) (json_values : list Z -> string -> json_answer).
Hypothesis localtime_month : forall x, 0 <= tm_mon (localtime x) < 12.
Local Abbreviation run := (run localtime mktime json_values).
Local Abbreviation sane := (sane json_values).

(** C14: Whatever the order of the visits of the threads, the daemon stays inside
    of its arrays and keeps its invariant, as long as the files and commands it
    reads answer with texts that fit, and clients send commands that exist and
    ports that exist (the daemon checks neither). *)
Theorem visits_never_overrun l d :
  ard_ok d -> Forall sane l -> exists d', run l d = Some (tt, d') /\ ard_ok d'.
Proof.
  intros Hd Hl. destruct (spec_total _ _ _ (run_safe localtime mktime json_values localtime_month l d Hd Hl))
    as ([] & d' & Heq & Hd' & _). eauto.
Qed.

(** ** The start *)

(** The command in getConfig has more characters than its array. *)
Lemma getConfig_overruns d : getConfig d = None.
Proof. reflexivity. Qed.

(** A time of five characters, as in the configuration that is shipped. *)
Lemma setTime_overruns i text s d :
  json_values text "timeUp" = Text s -> (5 <= length s < 64)%nat ->
  setTime localtime mktime json_values i text d = None.
Proof.
  intros Hs Hl. unfold setTime, getData_formJson. rewrite Hs. unfold strcpy_array.
  destruct (Nat.ltb_spec (length s) 64); [|lia]. unfold fmap, ST_fmap, mbind, ST_bind. simpl.
  by destruct (Nat.ltb_spec (length s) 5); [lia|].
Qed.

(** ** The speed test *)

(** The speed test of a port whose link is up computes the received kilobits
    per second since the last test, and fails exactly when they are outside of
    the limits, as long as the counter is below 2^31 and less than 2^29 octets
    came in between. *)
Theorem speed_is_measured i d p text rx now :
  (i < NUM_PORTS)%nat -> ard_ok d -> portInfoArr d !! i = Some p ->
  has (errorCode (portResetInfo p)) ERR_TEST_LINK = false ->
  shell (env d (asked d)) = Some text -> strtol (first_line 64 text) 10 = rx ->
  time (env d (S (asked d))) = now ->
  let c := portConfigInfo p in
  rx_byte_prev c <= rx < 2 ^ 31 -> 0 <= rx_byte_prev c -> rx - rx_byte_prev c < 2 ^ 29 ->
  0 <= time_prev c < now -> now < 2 ^ 32 ->
  let kbit := (rx - rx_byte_prev c) * 8 / (now - time_prev c) / 1000 in
  exists p' d', port_runTestSpeed (Z.of_nat i + 1) d = Some (tt, d') /\ portInfoArr d' !! i = Some p' /\
    rx_speed_Kbit (portConfigInfo p') = kbit /\
    has (errorCode (portResetInfo p')) ERR_TEST_SPEED = ((kbit <? min_speed c) || (max_speed c <? kbit)).
Proof.
  intros Hi Hd Hp Hlink Hshell Hrx Hnow c H1 H2 H3 H4 H5 kbit.
  assert (frame_ok (frame_of i d)) as Hf by (by eapply lookup_lt_Some).
  assert (at_port true (frame_of i d) (port_runTestSpeed (Z.of_nat i + 1)) (fun _ p' _ _ =>
    rx_speed_Kbit (portConfigInfo p') = kbit /\
    has (errorCode (portResetInfo p')) ERR_TEST_SPEED = ((kbit <? min_speed c) || (max_speed c <? kbit))) p [] (asked d)) as Hrun; cycle 1.
  { destruct (spec_total _ _ _ (at_frame true i d _ _ p Hp Hrun)) as ([] & d' & Heq & p' & os & k & -> & HQ).
    exists p', (plug (frame_of i d) p' os k). split; [done|]. split; [|done].
    unfold plug. simpl. apply list_lookup_insert_eq. by eapply lookup_lt_Some. }
  clear Hp Hd. rename Hrx into Hrx0. set (n := strtol (first_line 64 text) 10) in Hrx0.
  assert (u32 rx = rx /\ u32 now = now /\ u32 (rx - rx_byte_prev c) = rx - rx_byte_prev c /\
    u32 (now - time_prev c) = now - time_prev c /\ u32 ((rx - rx_byte_prev c) * 8) = (rx - rx_byte_prev c) * 8)
    as (E1 & E2 & E3 & E4 & E5) by (repeat split; apply Z.mod_small; lia).
  assert (Hne : (now - time_prev c =? 0) = false) by (apply Z.eqb_neq; lia).
  destruct p as [[] [] ps po []]. cbn [portResetInfo Autorestart.errorCode portConfigInfo] in *.
  apply at_with; [done..|]. unfold read_speed. apply at_bind, at_the_port; [done|]. cbn [portResetInfo Autorestart.errorCode]. rewrite Hlink.
  apply at_bind, at_bind, at_ask. cbn [frame_of f_env]. rewrite Hshell. apply at_bind, at_deref; [by eexists|]. intros _ [= <-].
  fold n. rewrite Hrx0. unfold c in *. clear n Hrx0 c. fields. simpl Autorestart.rx_byte_prev in *. simpl Autorestart.time_prev in *. unfold test_passes. walk_fields.
  all: change (f_env (frame_of i d)) with (env d) in *; rewrite ?Hnow, ?E1, ?E2, ?E3, ?E4, ?E5 in *.
  all: try fold kbit; first [congruence | split; [done|]; flag].
  all: symmetry; exact Heqb0.
Qed.

(** From 2^31 - 1 received octets on, the counter stands still. *)
Lemma counter_saturates text v rest :
  read_digits 10 0 (skip_spaces (first_line 64 text)) = (v, rest) ->
  (forall s, skip_spaces (first_line 64 text) <> 43 :: s /\ skip_spaces (first_line 64 text) <> 45 :: s) ->
  2 ^ 31 - 1 <= v -> u32 (strtol (first_line 64 text) 10) = 2 ^ 31 - 1.
Proof.
  intros Hv Hs Hbig. unfold strtol. set (s := skip_spaces (first_line 64 text)) in *. clearbody s.
  replace (sign_prefix s) with (false, s).
  - rewrite Hv. unfold LONG_MIN, LONG_MAX. rewrite Z.min_l by lia. rewrite Z.max_r by lia. done.
  - destruct s as [|c s0]; [done|]. destruct (Hs s0) as [H1 H2]. simpl.
    assert (c <> 43 /\ c <> 45) as [H3 H4] by (split; intros ->; done). clear -H3 H4.
    repeat (case_match; try done).
Qed.
End theorems.

(** ** A ping that is under way *)

(** A test whose ping gets no answer; the events thread comes in between. *)
Definition ping_cycle (now : Z) : list (visit * (nat -> env_t)) :=
  let e := demo_env now "up" None in
  let later := demo_env (now + 20) "up" None in
  [(V_test 0 Link, e); (V_events 0, e); (V_test 0 Ping, e); (V_events 0, e); (V_events 0, e); (V_events 0, e);
   (V_events 0, e); (V_events 0, later); (V_events 0, later)].
(** The same, and the events thread comes after the test. *)
Definition whole_cycle (now : Z) : list (visit * (nat -> env_t)) :=
  let e := demo_env now "up" None in
  let later := demo_env (now + 20) "up" None in
  [(V_test 0 Link, e); (V_test 0 Ping, e); (V_events 0, e); (V_events 0, e); (V_events 0, e);
   (V_events 0, e); (V_events 0, later); (V_events 0, later)].

Definition restarts_after (l : list (visit * (nat -> env_t))) : option Z :=
  (fun x => downs (power 0 (outs x.2))) <$> demo_run l (demo test_ping ERR_OK REGULAR_STATE REBOOT_STATE_IDLE 1 1).

(** With max_reset 1, a device that never answers is restarted once, but
    again and again when the events thread runs while a ping is under way. *)
Lemma ping_under_way_counts_as_success :
  restarts_after (mjoin (map whole_cycle [100; 200; 300; 400])) = Some 1 /\
  restarts_after (mjoin (map ping_cycle [100; 200; 300; 400])) = Some 4.
Proof. vm_compute. done. Qed.

(** ** Witnesses *)

Definition client_visits : list (visit * (nat -> env_t)) :=
  [(V_client (Some (cmd_reboot, 8)), demo_env 0 "up" None); (V_client (Some (cmd_status, 0)), demo_env 0 "up" None);
   (V_events 7, demo_env 0 "up" None); (V_print, demo_env 0 "up" None)].

Lemma visits_never_overrun_witness : exists d',
  demo_run client_visits (demo test_link ERR_OK REGULAR_STATE REBOOT_STATE_IDLE 1 1) = Some (tt, d') /\ ard_ok d'.
Proof.
  apply (visits_never_overrun demo_localtime demo_mktime demo_json demo_month).
  - by apply demo_ok.
  - repeat apply List.Forall_cons; [..|apply List.Forall_nil].
    + split; [done|]. simpl. unfold cmd_reboot. lia.
    + apply demo_sane; [done|]. by intros c port [= <- _].
    + apply demo_sane; [unfold of_a_port, NUM_PORTS; lia|]. by intros c port [=].
    + by split.
Defined.

(** 6000 octets since a second, that is 48 kbit/s, with limits of 10 and 100. *)
Definition speed_env : nat -> env_t := fun _ => mk_env 101 None (Some (str "7000" ++ [10])) None 0 [].
Definition speed_demo : ard := (demo test_speed ERR_OK REGULAR_STATE REBOOT_STATE_IDLE 1 1) <| env := speed_env |>.

Lemma speed_is_measured_witness : exists p' d',
  port_runTestSpeed (Z.of_nat 0 + 1) speed_demo = Some (tt, d') /\ portInfoArr d' !! 0%nat = Some p' /\
  rx_speed_Kbit (portConfigInfo p') = 48 /\ has (errorCode (portResetInfo p')) ERR_TEST_SPEED = false.
Proof.
  apply (speed_is_measured 0 speed_demo (demo_port test_speed ERR_OK REGULAR_STATE REBOOT_STATE_IDLE 0) (str "7000" ++ [10]) 7000 101).
  - unfold NUM_PORTS. lia.
  - destruct (demo_ok test_speed ERR_OK REGULAR_STATE REBOOT_STATE_IDLE 1 1) as [H1 H2 H3]; [done|]. by split.
  - reflexivity.
  - reflexivity.
  - reflexivity.
  - reflexivity.
  - reflexivity.
  - simpl. lia.
  - simpl. lia.
  - simpl. lia.
  - simpl. lia.
  - lia.
Defined.
