(* ===== verification/Syslog.v ===== *)
(** * syslog_fc: fields of a log entry (syslog_fc/src/src/syslog_entry.c)

    An entry specification such as "%T %F.%P %G: %_M" says how the lines of a
    log file are made of fields. [syslog_entry_init] makes the fields of a
    specification, [syslog_entry_parse] takes a line apart.

    Lines are lists of octets. A pointer into the line is what follows it, or
    [None] when it has moved behind the end of the string. strptime and mktime,
    which change their struct tm, the timezone, the content [garbage] of a
    fresh struct tm and the names of <syslog.h> are parameters. Allocation
    succeeds; messages to stderr are left out. *)

From S2P Require Import Prelude CLib.

(** ** Data *)

Definition SYSLOG_FIELD_FLAG_DROP : Z := 1.
Definition SYSLOG_FIELD_FLAG_NOTRIM : Z := 2.
Definition SYSLOG_FIELD_FLAG_NOVALIDATION : Z := 4.
Definition SYSLOG_FIELD_FLAG_MEM_ALLOCATED : Z := 8.

Definition SYSLOG_MAX_BUFFER_SIZE : nat := Z.to_nat 16384.
Definition SYSLOG_BUFFER_SIZE : nat := Z.to_nat 256.

Inductive syslog_field_type_t :=
  | SYSLOG_FIELD_TYPE_TIME | SYSLOG_FIELD_TYPE_INTEGER | SYSLOG_FIELD_TYPE_UINTEGER | SYSLOG_FIELD_TYPE_STRING.
Inductive syslog_field_id_t :=
  | SYSLOG_FIELD_ID_ID | SYSLOG_FIELD_ID_TIMESTAMP | SYSLOG_FIELD_ID_KTIME | SYSLOG_FIELD_ID_HOSTNAME
  | SYSLOG_FIELD_ID_FACILITY | SYSLOG_FIELD_ID_PRIORITY | SYSLOG_FIELD_ID_TAG | SYSLOG_FIELD_ID_MESSAGE.
#[export] Instance syslog_field_id_t_eq_dec : EqDecision syslog_field_id_t := ltac:(solve_decision).

Definition id_number (i : syslog_field_id_t) : Z :=
  match i with
  | SYSLOG_FIELD_ID_ID => 0 | SYSLOG_FIELD_ID_TIMESTAMP => 1 | SYSLOG_FIELD_ID_KTIME => 2
  | SYSLOG_FIELD_ID_HOSTNAME => 3 | SYSLOG_FIELD_ID_FACILITY => 4 | SYSLOG_FIELD_ID_PRIORITY => 5
  | SYSLOG_FIELD_ID_TAG => 6 | SYSLOG_FIELD_ID_MESSAGE => 7
  end.

Record syslog_field_info_t := mk_syslog_field_info_t {
  info_id : syslog_field_id_t;
  info_type : syslog_field_type_t;
  info_spec : Z;
  param_name : list Z;
  human_name : list Z }.

Definition syslog_field_info : list syslog_field_info_t :=
  [mk_syslog_field_info_t SYSLOG_FIELD_ID_ID SYSLOG_FIELD_TYPE_UINTEGER 73 (str "id") (str "ID");
   mk_syslog_field_info_t SYSLOG_FIELD_ID_TIMESTAMP SYSLOG_FIELD_TYPE_TIME 84 (str "timestamp") (str "Timestamp");
   mk_syslog_field_info_t SYSLOG_FIELD_ID_KTIME SYSLOG_FIELD_TYPE_STRING 75 (str "ktime") (str "Kernel Time");
   mk_syslog_field_info_t SYSLOG_FIELD_ID_HOSTNAME SYSLOG_FIELD_TYPE_STRING 72 (str "hostname") (str "Hostname");
   mk_syslog_field_info_t SYSLOG_FIELD_ID_FACILITY SYSLOG_FIELD_TYPE_STRING 70 (str "facility") (str "Facility");
   mk_syslog_field_info_t SYSLOG_FIELD_ID_PRIORITY SYSLOG_FIELD_TYPE_STRING 80 (str "priority") (str "Priority");
   mk_syslog_field_info_t SYSLOG_FIELD_ID_TAG SYSLOG_FIELD_TYPE_STRING 71 (str "tag") (str "Tag");
   mk_syslog_field_info_t SYSLOG_FIELD_ID_MESSAGE SYSLOG_FIELD_TYPE_STRING 77 (str "message") (str "Message")].

(** The validators and modifiers of the table are chosen by the identifier:
    [validator] and [modifier] below. *)

(** The union of the values; [V_none] is what malloc leaves in it. *)
Inductive field_value (tm : Type) :=
  | V_none
  | V_time (timestamp : tm) (unixtime : Z)
  | V_uinteger (n : Z)
  | V_integer (n : Z)
  | V_string (s : list Z).
Arguments V_none {tm}.
Arguments V_time {tm}.
Arguments V_uinteger {tm}.
Arguments V_integer {tm}.
Arguments V_string {tm}.

Record syslog_field (tm : Type) := mk_syslog_field {
  info : syslog_field_info_t;
  flags : Z;
  value : field_value tm;
  parse_start_char : Z;
  parse_stop_char : Z }.
Arguments mk_syslog_field {tm}.
Arguments info {tm}.
Arguments flags {tm}.
Arguments value {tm}.
Arguments parse_start_char {tm}.
Arguments parse_stop_char {tm}.
#[export] Instance eta_syslog_field {tm} : Eta (syslog_field tm) := fun f =>
  mk_syslog_field (info f) (flags f) (value f) (parse_start_char f) (parse_stop_char f).
#[export] Instance set_flags {tm} : SetterFor (@flags tm) := ltac:(mk_setter).
#[export] Instance set_value {tm} : SetterFor (@value tm) := ltac:(mk_setter).
#[export] Instance set_parse_stop_char {tm} : SetterFor (@parse_stop_char tm) := ltac:(mk_setter).

Record syslog_entry (tm : Type) := mk_syslog_entry {
  num : Z;
  fields_mask : Z;
  fields_num : Z;
  fields_output_num : Z;
  fields : list (syslog_field tm) }.
Arguments mk_syslog_entry {tm}.
Arguments num {tm}.
Arguments fields_mask {tm}.
Arguments fields_num {tm}.
Arguments fields_output_num {tm}.
Arguments fields {tm}.
#[export] Instance eta_syslog_entry {tm} : Eta (syslog_entry tm) := fun e =>
  mk_syslog_entry (num e) (fields_mask e) (fields_num e) (fields_output_num e) (fields e).
#[export] Instance set_num {tm} : SetterFor (@num tm) := ltac:(mk_setter).
#[export] Instance set_fields_mask {tm} : SetterFor (@fields_mask tm) := ltac:(mk_setter).
#[export] Instance set_fields_num {tm} : SetterFor (@fields_num tm) := ltac:(mk_setter).
#[export] Instance set_fields_output_num {tm} : SetterFor (@fields_output_num tm) := ltac:(mk_setter).
#[export] Instance set_fields {tm} : SetterFor (@fields tm) := ltac:(mk_setter).

Inductive output_fmt_t := fmt_plain | fmt_md | fmt_csv | fmt_json | fmt_html | fmt_asciidoc.
#[export] Instance output_fmt_t_eq_dec : EqDecision output_fmt_t := ltac:(solve_decision).

Record config_t := mk_config_t {
  is_stdin : bool;
  input_filename : list Z;
  entry_spec : list Z;
  output_fmt : output_fmt_t;
  ts_parse_spec : list Z;
  ts_output_spec : list Z;
  csv_delimeter : list Z;
  html_class_prefix : list Z;
  html_cell_classes : bool }.
#[export] Instance eta_config_t : Eta config_t := fun c =>
  mk_config_t (is_stdin c) (input_filename c) (entry_spec c) (output_fmt c) (ts_parse_spec c) (ts_output_spec c)
    (csv_delimeter c) (html_class_prefix c) (html_cell_classes c).
#[export] Instance set_is_stdin : SetterFor is_stdin := ltac:(mk_setter).
#[export] Instance set_input_filename : SetterFor input_filename := ltac:(mk_setter).
#[export] Instance set_entry_spec : SetterFor entry_spec := ltac:(mk_setter).
#[export] Instance set_output_fmt : SetterFor output_fmt := ltac:(mk_setter).
#[export] Instance set_ts_parse_spec : SetterFor ts_parse_spec := ltac:(mk_setter).
#[export] Instance set_ts_output_spec : SetterFor ts_output_spec := ltac:(mk_setter).
#[export] Instance set_csv_delimeter : SetterFor csv_delimeter := ltac:(mk_setter).
#[export] Instance set_html_class_prefix : SetterFor html_class_prefix := ltac:(mk_setter).
#[export] Instance set_html_cell_classes : SetterFor html_cell_classes := ltac:(mk_setter).

Definition default_config : config_t :=
  mk_config_t false [] (str "%T %F.%P %G: %_M") fmt_plain (str "%a %b %d %H:%M:%S %Y") [] (str ",")
    (str "syslog-") false.

(** ** Results *)

Inductive errno := EINVAL | EILSEQ | ENODEV.
#[export] Instance errno_eq_dec : EqDecision errno := ltac:(solve_decision).

(** A function returns 0, or an error, or reads behind the end of a string. *)
Inductive outcome (A : Type) := Done (a : A) | Failed (e : errno) | Overrun.
Arguments Done {A}.
Arguments Failed {A}.
Arguments Overrun {A}.

#[export] Instance outcome_bind : MBind outcome := fun A B k m =>
  match m with Done a => k a | Failed e => Failed e | Overrun => Overrun end.

(** ** The specification of entries *)

Section syslog_entry_init.
Context {tm : Type}.

(** [last_field] is the last of the fields; [field_info] is what the loop over
    the table has found, for this or an earlier field. *)
Record init_state := mk_init_state {
  entry : syslog_entry tm;
  new_flags : Z;
  field_info : option syslog_field_info_t;
  start_char : Z }.

Definition last_field (st : init_state) : option (syslog_field tm) := list.last (fields (entry st)).
Definition last_is_open (st : init_state) : bool :=
  match last_field st with Some f => parse_stop_char f =? 0 | None => false end.
Definition stop_last (c : Z) (e : syslog_entry tm) : syslog_entry tm :=
  e <| fields := alter (fun f => f <| parse_stop_char := c |>) (length (fields e) - 1)%nat (fields e) |>.

(** A character that is not "%". *)
Definition init_literal (c : Z) (st : init_state) : init_state :=
  if last_is_open st
  then mk_init_state (stop_last c (entry st)) (new_flags st) (field_info st) (start_char st)
  else mk_init_state (entry st) (new_flags st) (field_info st) c.

Definition spec_flag (c : Z) : option Z :=
  if c =? 33 then Some SYSLOG_FIELD_FLAG_DROP
  else if c =? 95 then Some SYSLOG_FIELD_FLAG_NOTRIM
  else if c =? 64 then Some SYSLOG_FIELD_FLAG_NOVALIDATION
  else None.

Definition find_info (c : Z) (old : option syslog_field_info_t) : option syslog_field_info_t :=
  match find (fun i => c =? info_spec i) syslog_field_info with Some i => Some i | None => old end.

(** The specificator [c] is not one of the flags; 0 at the end of the string. *)
Definition init_field (c : Z) (st : init_state) : outcome init_state :=
  match find_info c (field_info st) with
  | None => if c =? 37 then Done st else Failed EINVAL
  | Some i =>
      let e := entry st in
      let bit := Z.shiftl 1 (id_number (info_id i)) in
      if negb (has (new_flags st) SYSLOG_FIELD_FLAG_DROP) && has (fields_mask e) bit then Failed EINVAL
      else
        let f := mk_syslog_field i (new_flags st) V_none (start_char st) 0 in
        let shown := if has (new_flags st) SYSLOG_FIELD_FLAG_DROP then 0 else 1 in
        Done (mk_init_state
          (e <| fields_mask := raise bit (fields_mask e) |> <| fields_num := u32 (fields_num e + 1) |>
             <| fields_output_num := u32 (fields_output_num e + shown) |> <| fields := fields e ++ [f] |>)
          0 (Some i) 0)
  end.

Definition init_flag (m : Z) (st : init_state) : init_state :=
  mk_init_state (entry st) (raise m (new_flags st)) (field_info st) (start_char st).

(** [init_loop] is the loop, [init_spec] what follows a "%". *)
Fixpoint init_loop (p : list Z) (st : init_state) {struct p} : outcome init_state :=
  match p with
  | [] => Done st
  | c :: p =>
      if negb (c =? 37) then init_loop p (init_literal c st)
      else if last_is_open st then Failed EINVAL
      else init_spec p st
  end
with init_spec (p : list Z) (st : init_state) {struct p} : outcome init_state :=
  match p with
  | [] => st ← init_field 0 st; Overrun
  | c :: p =>
      match spec_flag c with
      | Some m => init_spec p (init_flag m st)
      | None => st ← init_field c st; init_loop p st
      end
  end.

Definition empty_entry : syslog_entry tm := mk_syslog_entry 0 0 0 0 [].

Definition syslog_entry_init (entry_spec : list Z) : outcome (syslog_entry tm) :=
  st ← init_loop entry_spec (mk_init_state empty_entry 0 None 0); Done (entry st).
End syslog_entry_init.

(** ** The parsing of lines *)

Section syslog_entry_parse.
Context {tm : Type} (strptime : list Z -> list Z -> tm -> option (list Z) * tm) (mktime : tm -> tm * Z).
Context (timezone : Z) (garbage : tm).
Context (facilitynames prioritynames : list (list Z * Z)).
Context (config : config_t).
Local Abbreviation field := (syslog_field tm).

(** A pointer into the line. *)
Local Abbreviation pointer := (option (list Z)).

Definition find_syslog_name (code : list (list Z * Z)) (name : list Z) : option (list Z) :=
  fst <$> find (fun c => strcmp_eq name c.1) code.
Definition find_syslog_name_by_val (code : list (list Z * Z)) (val : Z) : option (list Z) :=
  fst <$> find (fun c => val =? c.2) code.

Definition the_string (f : field) : list Z := match value f with V_string s => s | _ => [] end.

(** [None]: the value is valid. *)
Definition validate_facility (f : field) : option errno :=
  match find_syslog_name facilitynames (the_string f) with Some _ => None | None => Some EINVAL end.
Definition validate_priority (f : field) : option errno :=
  match find_syslog_name prioritynames (the_string f) with Some _ => None | None => Some EINVAL end.

Definition strisnumber (s : list Z) : bool :=
  match s with [] => false | _ => forallb (is_digit 10) s end.

Definition mod_priority (f : field) : field :=
  if negb (strisnumber (the_string f)) then f
  else
    let f := f <| flags := raise SYSLOG_FIELD_FLAG_NOVALIDATION (flags f) |> in
    let '(v, _, _) := strtoul (the_string f) 0 in
    match find_syslog_name_by_val prioritynames (s32 v) with
    | Some name => f <| value := V_string name |> <| flags := raise SYSLOG_FIELD_FLAG_MEM_ALLOCATED (flags f) |>
    | None => f
    end.

Definition modifier (f : field) : field :=
  match info_id (info f) with
  | SYSLOG_FIELD_ID_PRIORITY => mod_priority f
  | _ => f
  end.

Definition validator (f : field) : option errno :=
  match info_id (info f) with
  | SYSLOG_FIELD_ID_FACILITY => validate_facility f
  | SYSLOG_FIELD_ID_PRIORITY => validate_priority f
  | _ => None
  end.

(** strpbrk finds the end of the line. *)
Fixpoint cut_line (s : list Z) : list Z :=
  match s with
  | c :: s => if (c =? 13) || (c =? 10) then [] else c :: cut_line s
  | [] => []
  end.

(** The parsers leave the field changed and return the pointer or an error. *)
Definition parse_timestamp (data : list Z) (f : field) : field * (pointer + errno) :=
  let '(t, u) := match value f with V_time t u => (t, u) | _ => (garbage, 0) end in
  let '(rest, t) := strptime data (ts_parse_spec config) t in
  match rest with
  | Some rest =>
      let '(t, time) := mktime t in
      (f <| value := V_time t (u32 (time - timezone)) |>, inl (Some rest))
  | None => (f <| value := V_time t u |>, inr EILSEQ)
  end.

(** A stop character 0 finds the end of the string, and the pointer is then
    behind it. *)
Definition parse_string (data : list Z) (f : field) : field * (pointer + errno) :=
  let p := if has (flags f) SYSLOG_FIELD_FLAG_NOTRIM then skip_spaces data else data in
  if parse_stop_char f =? 0 then (f <| value := V_string (cut_line data) |>, inl None)
  else
    match strchr p (parse_stop_char f) with
    | None => (f, inr EILSEQ)
    | Some rest =>
        (f <| value := V_string (cut_line (take (length data - length rest) data)) |>, inl (Some (tail rest)))
    end.

Definition parse_uinteger (data : list Z) (f : field) : field * (pointer + errno) :=
  let '(f, r) := parse_string data f in
  match r with
  | inl _ => let '(v, _, _) := strtoul (the_string f) 0 in (f <| value := V_uinteger v |>, r)
  | inr _ => (f, r)
  end.

Definition parse_integer (data : list Z) (f : field) : field * (pointer + errno) :=
  let '(f, r) := parse_string data f in
  match r with
  | inl _ => (f <| value := V_integer (strtol0 (the_string f)) |>, r)
  | inr _ => (f, r)
  end.

(** [field_start]: the pointer at the value; [None] without a start character. *)
Definition field_start (data : list Z) (f : field) : option (list Z) :=
  s ← (if parse_start_char f =? 0 then Some data else tail <$> strchr data (parse_start_char f));
  Some (if has (flags f) SYSLOG_FIELD_FLAG_NOTRIM then s else skip_spaces s).

Definition parse_value (data : list Z) (f : field) : field * (pointer + errno) :=
  match info_type (info f) with
  | SYSLOG_FIELD_TYPE_TIME => parse_timestamp data f
  | SYSLOG_FIELD_TYPE_STRING => parse_string data f
  | SYSLOG_FIELD_TYPE_INTEGER => parse_integer data f
  | SYSLOG_FIELD_TYPE_UINTEGER => parse_uinteger data f
  end.

Definition validate (f : field) : option errno :=
  if has (flags f) SYSLOG_FIELD_FLAG_NOVALIDATION then None else validator f.

Definition syslog_entry_field_parse (data : list Z) (f : field) : field * (pointer + errno) :=
  let f := f <| flags := clear SYSLOG_FIELD_FLAG_MEM_ALLOCATED (flags f) |> in
  match field_start data f with
  | None => (f, inr EILSEQ)
  | Some s =>
      let '(f, r) := parse_value s f in
      match r with
      | inr e => (f, inr e)
      | inl data =>
          let f := modifier f in
          (f, match validate f with None => inl data | Some e => inr e end)
      end
  end.

(** Every field begins by reading the line. *)
Fixpoint parse_fields (data : pointer) (fs : list field) : outcome (list field * option errno) :=
  match fs with
  | [] => Done ([], None)
  | f :: fs =>
      match data with
      | None => Overrun
      | Some s =>
          match syslog_entry_field_parse s f with
          | (f, inr e) => Done (f :: fs, Some e)
          | (f, inl data) => '(fs, e) ← parse_fields data fs; Done (f :: fs, e)
          end
      end
  end.

Definition syslog_entry_parse (e : syslog_entry tm) (line : list Z) : outcome (syslog_entry tm * option errno) :=
  '(fs, r) ← parse_fields (Some line) (fields e);
  Done (e <| fields := fs |>, r).
End syslog_entry_parse.
