(* ===== verification/SyslogFormats.v ===== *)
(** * syslog_fc: output formats (syslog_fc/src/src/formats)

    The functions return what they print to stdout, or [None] when they read
    behind the end of a string or a value that was never stored. [strftime n f t]
    is the string that strftime leaves in a buffer of [n] octets. *)

From S2P Require Import Prelude CLib Syslog.

Section formats.
Context {tm : Type} (strftime : nat -> list Z -> tm -> list Z) (config : config_t).
Local Abbreviation field := (syslog_field tm).

Definition syslog_entry_has_field (e : syslog_entry tm) (i : syslog_field_id_t) : bool :=
  has (fields_mask e) (Z.shiftl 1 (id_number i)).

Definition syslog_field_time_fmt (t : tm) (unixtime : Z) : list Z :=
  match ts_output_spec config with [] => print_u unixtime | s => strftime 128%nat s t end.

Definition shown (f : field) : bool := negb (has (flags f) SYSLOG_FIELD_FLAG_DROP).
Definition is_message (f : field) : bool := bool_decide (info_id (info f) = SYSLOG_FIELD_ID_MESSAGE).

(** The value of a field, its strings by [enc_time] and [enc_string]. *)
Definition print_value (enc_time enc_string : list Z -> option (list Z)) (f : field) : option (list Z) :=
  match info_type (info f), value f with
  | SYSLOG_FIELD_TYPE_TIME, V_time t unixtime => enc_time (syslog_field_time_fmt t unixtime)
  | SYSLOG_FIELD_TYPE_INTEGER, V_integer n => Some (print_d n)
  | SYSLOG_FIELD_TYPE_UINTEGER, V_uinteger n => Some (print_u n)
  | SYSLOG_FIELD_TYPE_STRING, V_string s => enc_string s
  | _, _ => None
  end.

(** The printed fields, one after the other; [first] is whether none was. *)
Fixpoint print_fields (p : bool -> field -> option (list Z)) (first : bool) (fs : list field) : option (list Z) :=
  match fs with
  | [] => Some []
  | f :: fs =>
      if shown f then s ← p first f; t ← print_fields p false fs; Some (s ++ t)
      else print_fields p first fs
  end.

(** *** JSON *)

Definition vt100_end : list Z := str "abcdhsujkm".
Definition tolower (c : Z) : Z := if (65 <=? c) && (c <=? 90) then c + 32 else c.

Definition json_char (c : Z) : list Z :=
  if c =? 8 then str "\b" else if c =? 12 then str "\f" else if c =? 10 then str "\n"
  else if c =? 13 then str "\r" else if c =? 9 then str "\t" else if c =? 92 then str "\\"
  else if c =? 34 then [92; 34] else [c].

(** [json_skip]: inside of an escape sequence of a terminal. *)
Fixpoint fmt_json_output_encoded (s : list Z) {struct s} : option (list Z) :=
  match s with
  | [] => Some []
  | c :: s => if c =? 27 then json_skip s else app (json_char c) <$> fmt_json_output_encoded s
  end
with json_skip (s : list Z) {struct s} : option (list Z) :=
  match s with
  | [] => None
  | c :: s => if bool_decide (tolower c ∈ vt100_end) then fmt_json_output_encoded s else json_skip s
  end.

Definition json_quoted (s : list Z) : option (list Z) :=
  t ← fmt_json_output_encoded s; Some ([34] ++ t ++ [34]).

Definition fmt_json_output_entry (e : syslog_entry tm) : option (list Z) :=
  s ← print_fields (fun first f =>
        v ← print_value json_quoted json_quoted f;
        Some ((if first then [] else [44]) ++ [34] ++ param_name (info f) ++ [34; 58] ++ v)) true (fields e);
  Some ((if 1 <? num e then [44] else []) ++ [123] ++ s ++ [125]).

Definition fmt_json_output_start : list Z := [91].
Definition fmt_json_output_end : list Z := [93].

(** *** CSV *)

Fixpoint csv_escape (s : list Z) : list Z :=
  match s with
  | [] => []
  | c :: s => (if c =? 34 then [34; 34] else [c]) ++ csv_escape s
  end.
Definition fmt_csv_output_encoded (s : list Z) : list Z := [34] ++ csv_escape s ++ [34].

Definition csv_cell (cell : field -> option (list Z)) (first : bool) (f : field) : option (list Z) :=
  v ← cell f; Some ((if first then [] else csv_delimeter config) ++ v).

Definition fmt_csv_output_start (e : syslog_entry tm) : option (list Z) :=
  s ← print_fields (csv_cell (fun f => Some (human_name (info f)))) true (fields e); Some (s ++ [10]).

Definition fmt_csv_output_entry (e : syslog_entry tm) : option (list Z) :=
  let enc s := Some (fmt_csv_output_encoded s) in
  s ← print_fields (csv_cell (print_value enc enc)) true (fields e); Some (s ++ [10]).

(** *** HTML *)

Definition fmt_html_open_tag (tag : list Z) (class_prefix class : option (list Z)) : list Z :=
  match class with
  | Some class => [60] ++ tag ++ str " class=" ++ [34] ++ default [] class_prefix ++ class ++ [34; 62]
  | None => [60] ++ tag ++ [62]
  end.
Definition fmt_html_close_tag (tag : list Z) : list Z := [60; 47] ++ tag ++ [62].

Fixpoint fmt_html_output_encoded (s : list Z) : list Z :=
  match s with
  | [] => []
  | c :: s =>
      (if c =? 10 then str "<br />" else if c =? 38 then str "&amp;" else if c =? 60 then str "&lt;"
       else if c =? 62 then str "&gt;" else [c]) ++ fmt_html_output_encoded s
  end.

Definition html_value (f : field) : option (list Z) :=
  let enc s := Some (fmt_html_output_encoded s) in
  print_value enc (fun s =>
    Some (if is_message f
          then fmt_html_open_tag (str "pre") None None ++ fmt_html_output_encoded s ++ fmt_html_close_tag (str "pre")
          else fmt_html_output_encoded s)) f.

Definition fmt_html_output_row (cell_tag : list Z) (e : syslog_entry tm) : option (list Z) :=
  tr_class ←
    (if negb (num e =? 0) && syslog_entry_has_field e SYSLOG_FIELD_ID_PRIORITY then
       match find (fun f => bool_decide (info_id (info f) = SYSLOG_FIELD_ID_PRIORITY)) (fields e) with
       | Some f => match value f with V_string s => Some (Some s) | _ => None end
       | None => Some None
       end
     else Some None);
  s ← print_fields (fun _ f =>
        v ← (if num e =? 0 then Some (fmt_html_output_encoded (human_name (info f))) else html_value f);
        Some (fmt_html_open_tag cell_tag (Some (html_class_prefix config))
                (if html_cell_classes config then Some (param_name (info f)) else None)
              ++ v ++ fmt_html_close_tag cell_tag)) true (fields e);
  Some (fmt_html_open_tag (str "tr") (Some (html_class_prefix config)) tr_class ++ s
        ++ fmt_html_close_tag (str "tr")).

Definition fmt_html_output_start (e : syslog_entry tm) : option (list Z) :=
  row ← fmt_html_output_row (str "th") e;
  Some (fmt_html_open_tag (str "table") (Some (html_class_prefix config)) (Some (str "table"))
        ++ fmt_html_open_tag (str "thead") None None ++ row
        ++ fmt_html_close_tag (str "thead") ++ fmt_html_open_tag (str "tbody") None None).
Definition fmt_html_output_entry (e : syslog_entry tm) : option (list Z) := fmt_html_output_row (str "td") e.
Definition fmt_html_output_end : list Z := fmt_html_close_tag (str "tbody") ++ fmt_html_close_tag (str "table").

(** *** Markdown, AsciiDoc and plain text *)

Definition backquoted (f : field) : option (list Z) :=
  print_value Some (fun s => Some (if is_message f then [96] ++ s ++ [96] else s)) f.

Definition fmt_md_output_start (e : syslog_entry tm) : option (list Z) :=
  s ← print_fields (fun _ f => Some ([124] ++ human_name (info f))) true (fields e);
  t ← print_fields (fun _ f => Some (str "|---")) true (fields e);
  Some (s ++ [124; 10] ++ t ++ [124; 10]).
Definition fmt_md_output_entry (e : syslog_entry tm) : option (list Z) :=
  s ← print_fields (fun _ f => v ← backquoted f; Some ([124] ++ v)) true (fields e); Some (s ++ [124; 10]).

Definition asciidoc_width (f : field) : list Z :=
  match info_id (info f) with
  | SYSLOG_FIELD_ID_TIMESTAMP => str "30"
  | SYSLOG_FIELD_ID_MESSAGE => str "70"
  | _ => str "1"
  end.
Definition fmt_asciidoc_output_start (e : syslog_entry tm) : option (list Z) :=
  s ← print_fields (fun first f => Some ((if first then [] else [44]) ++ asciidoc_width f)) true (fields e);
  t ← print_fields (fun _ f => Some ([124] ++ human_name (info f) ++ [10])) true (fields e);
  Some (str "[cols=" ++ [34] ++ s ++ [34] ++ str ", options=" ++ [34] ++ str "header" ++ [34; 93; 10]
        ++ str "|===" ++ [10] ++ t).
Definition fmt_asciidoc_output_entry (e : syslog_entry tm) : option (list Z) :=
  s ← print_fields (fun _ f => v ← backquoted f; Some ([124] ++ v ++ [10])) true (fields e); Some ([10] ++ s).
Definition fmt_asciidoc_output_stop : list Z := str "|===" ++ [10].

(** "%-10s : " *)
Definition fmt_plain_output_entry (e : syslog_entry tm) : option (list Z) :=
  s ← print_fields (fun _ f =>
        v ← print_value Some Some f;
        let name := human_name (info f) in
        Some (name ++ replicate (10 - length name) 32 ++ str " : " ++ v ++ [10])) true (fields e);
  Some (s ++ [10]).

Definition fn_output_start (e : syslog_entry tm) : option (list Z) :=
  match output_fmt config with
  | fmt_plain => Some []
  | fmt_md => fmt_md_output_start e
  | fmt_csv => fmt_csv_output_start e
  | fmt_json => Some fmt_json_output_start
  | fmt_html => fmt_html_output_start e
  | fmt_asciidoc => fmt_asciidoc_output_start e
  end.
Definition fn_output_entry (e : syslog_entry tm) : option (list Z) :=
  match output_fmt config with
  | fmt_plain => fmt_plain_output_entry e
  | fmt_md => fmt_md_output_entry e
  | fmt_csv => fmt_csv_output_entry e
  | fmt_json => fmt_json_output_entry e
  | fmt_html => fmt_html_output_entry e
  | fmt_asciidoc => fmt_asciidoc_output_entry e
  end.
Definition fn_output_end : list Z :=
  match output_fmt config with
  | fmt_json => fmt_json_output_end
  | fmt_html => fmt_html_output_end
  | fmt_asciidoc => fmt_asciidoc_output_stop
  | _ => []
  end.
End formats.
