(* ===== verification/SyslogMain.v ===== *)
(** * syslog_fc: the conversion of a log file (syslog_fc/src/src/main.c)

    The file is read in pieces by fgets into a buffer that grows until it holds
    a line; each line that can be parsed is printed. The options are what
    getopt_long returns; the text of the usage is left out. [read_line] and
    [convert_loop] have fuel for one piece and one line for each octet of the
    file: every round reads one octet at least (SyslogLines). *)

From S2P Require Import Prelude CLib Syslog SyslogFormats.

(** ** Reading lines *)

Fixpoint fgets (n : nat) (input : list Z) : list Z * list Z :=
  match n, input with
  | S n, c :: rest =>
      if c =? 10 then ([c], rest) else let '(s, rest) := fgets n rest in (c :: s, rest)
  | _, _ => ([], input)
  end.

Fixpoint before_nul (s : list Z) : list Z :=
  match s with
  | [] => []
  | c :: s => if c =? 0 then [] else c :: before_nul s
  end.

Inductive line_read :=
  | Line (line : list Z) (buffer_size : nat) (rest : list Z)
  | End_of_file
  | Too_long
  | Before_buffer      (** buffer[line_len - 1] with line_len 0 *)
  | No_fuel.

(** [line] is the content of the buffer, of length line_len = buffer_offset. *)
Fixpoint read_line (fuel : nat) (buffer_size : nat) (line : list Z) (input : list Z) : line_read :=
  match fuel with
  | O => No_fuel
  | S fuel =>
      match input with
      | [] => if bool_decide (line = []) then End_of_file else Line line buffer_size []
      | _ =>
          let '(chunk, rest) := fgets (buffer_size - length line - 1) input in
          let line := line ++ before_nul chunk in
          match list.last line with
          | None => Before_buffer
          | Some c =>
              if (c =? 13) || (c =? 10) then Line line buffer_size rest
              else
                let buffer_size := (buffer_size + SYSLOG_BUFFER_SIZE)%nat in
                if bool_decide (SYSLOG_MAX_BUFFER_SIZE < buffer_size)%nat then Too_long
                else read_line fuel buffer_size line rest
          end
      end
  end.

Definition next_line (buffer_size : nat) (input : list Z) : line_read :=
  read_line (S (length input)) buffer_size [] input.

(** ** Conversion *)

(** What is printed to stdout, and 0 ([None]) or an error. *)
Inductive conversion :=
  | Converted (out : list Z) (ret : option errno)
  | Overran
  | Unfinished.

Section convert.
Context {tm : Type} (strptime : list Z -> list Z -> tm -> option (list Z) * tm) (mktime : tm -> tm * Z).
Context (strftime : nat -> list Z -> tm -> list Z) (timezone : Z) (garbage : tm).
Context (facilitynames prioritynames : list (list Z * Z)).

Section config.
Context (config : config_t).

Fixpoint convert_loop (fuel : nat) (buffer_size : nat) (e : syslog_entry tm) (parsed_n : Z)
    (out : list Z) (input : list Z) : conversion :=
  match fuel with
  | O => Unfinished
  | S fuel =>
      match next_line buffer_size input with
      | No_fuel => Unfinished
      | Before_buffer => Overran
      | Too_long => Converted out (Some EINVAL)
      | End_of_file => Converted (out ++ fn_output_end config) None
      | Line line buffer_size rest =>
          match syslog_entry_parse strptime mktime timezone garbage facilitynames prioritynames config e line with
          | Done (e, None) =>
              let parsed_n := u32 (parsed_n + 1) in
              let e := e <| num := parsed_n |> in
              match fn_output_entry strftime config e with
              | Some s => convert_loop fuel buffer_size e parsed_n (out ++ s) rest
              | None => Overran
              end
          | Done (e, Some _) => convert_loop fuel buffer_size e parsed_n out rest
          | Failed _ | Overrun => Overran
          end
      end
  end.

Definition convert_syslog (input : list Z) : conversion :=
  match syslog_entry_init (entry_spec config) with
  | Overrun => Overran
  | Failed e => Converted [] (Some e)
  | Done e =>
      match fn_output_start strftime config e with
      | Some s => convert_loop (S (length input)) SYSLOG_BUFFER_SIZE e 0 s input
      | None => Overran
      end
  end.
End config.

(** ** The command line *)

Definition fmt_avail : list (list Z * output_fmt_t) :=
  [(str "plain", fmt_plain); (str "md", fmt_md); (str "csv", fmt_csv); (str "json", fmt_json);
   (str "html", fmt_html); (str "asciidoc", fmt_asciidoc)].

Inductive cli :=
  | Run (config : config_t)
  | Exit (ret : option errno).   (** after the usage is displayed *)

(** The options and their arguments, '?' for an invalid one, then the operands. *)
Fixpoint cli_args (opts : list (Z * list Z)) (operands : list (list Z)) (config : config_t) : cli :=
  match opts with
  | [] =>
      match operands with
      | [] => if is_stdin config then Run config else Exit (Some EINVAL)
      | f :: _ => if is_stdin config then Exit (Some EINVAL) else Run (config <| input_filename := f |>)
      end
  | (opt, optarg) :: opts =>
      if opt =? 63 then Exit (Some EINVAL)
      else if opt =? 104 then Exit None
      else if opt =? 115 then cli_args opts operands (config <| is_stdin := true |>)
      else if opt =? 102 then
        match find (fun f => strcmp_eq optarg f.1) fmt_avail with
        | Some f => cli_args opts operands (config <| output_fmt := f.2 |>)
        | None => Exit (Some EINVAL)
        end
      else if opt =? 101 then cli_args opts operands (config <| entry_spec := optarg |>)
      else if opt =? 100 then cli_args opts operands (config <| csv_delimeter := optarg |>)
      else if opt =? 112 then cli_args opts operands (config <| ts_parse_spec := optarg |>)
      else if opt =? 111 then cli_args opts operands (config <| ts_output_spec := optarg |>)
      else if opt =? 120 then cli_args opts operands (config <| html_class_prefix := optarg |>)
      else if opt =? 99 then
        let on := strcmp_eq optarg (str "on") || strcmp_eq optarg (str "true") || strcmp_eq optarg (str "1") in
        cli_args opts operands (config <| html_cell_classes := on |>)
      else cli_args opts operands config
  end.

Definition main (fopen : list Z -> option (list Z)) (stdin : list Z)
    (opts : list (Z * list Z)) (operands : list (list Z)) : conversion :=
  match cli_args opts operands default_config with
  | Exit ret => Converted [] ret
  | Run config =>
      match (if is_stdin config then Some stdin else fopen (input_filename config)) with
      | None => Converted [] (Some ENODEV)
      | Some input => convert_syslog config input
      end
  end.
End convert.
