(* ===== verification/SyslogOk.v ===== *)
(** * syslog_fc: the fields of an accepted specification, and parsing

    Every field of an accepted specification but the last has a stop
    character, so that no line makes the parser read behind its end; the
    fields of a parsed line have a value of their type, made of the octets of
    the line. *)

From stdpp Require Import sets.
From S2P Require Import Prelude CLib CLibOk Syslog.

(** ** Specifications *)

Section init.
Context {tm : Type}.
Implicit Types (fs : list (syslog_field tm)) (st : init_state (tm := tm)).

(** Every field but the last has a stop character. *)
Definition separated fs : Prop := Forall (fun f => parse_stop_char f <> 0) (removelast fs).

Lemma separated_app fs f : separated (fs ++ [f]) <-> Forall (fun f => parse_stop_char f <> 0) fs.
Proof. unfold separated. by rewrite removelast_last. Qed.

Lemma separated_cons f g fs : separated (f :: g :: fs) <-> parse_stop_char f <> 0 /\ separated (g :: fs).
Proof. exact (list.Forall_cons _ f (removelast (g :: fs))). Qed.

(** The fields are separated, and closed when the last has a stop character. *)
Lemma all_closed st :
  separated (fields (entry st)) -> last_is_open st = false ->
  Forall (fun f => parse_stop_char f <> 0) (fields (entry st)).
Proof.
  unfold last_is_open, last_field. destruct (fields (entry st)) as [|f fs _] using rev_ind; [done|].
  rewrite last_snoc, separated_app. intros Hfs Hc. bool_hyps. apply Forall_app. auto.
Qed.

Lemma init_literal_separated c st :
  separated (fields (entry st)) -> separated (fields (entry (init_literal c st))).
Proof.
  unfold init_literal. case_match; [|done]. simpl.
  destruct (fields (entry st)) as [|f fs _] using rev_ind; [done|].
  rewrite length_app. simpl. rewrite (Nat.add_sub (length fs) 1).
  replace (length fs) with (length fs + 0)%nat by lia. rewrite alter_app_r. simpl. by rewrite !separated_app.
Qed.

Lemma init_field_separated c st st' :
  separated (fields (entry st)) -> last_is_open st = false -> init_field c st = Done st' ->
  separated (fields (entry st')).
Proof.
  intros Hs Ho. unfold init_field. destruct (find_info _ _) as [i|].
  - destruct (_ && _); [done|]. intros [= <-]. simpl. apply separated_app. by apply all_closed.
  - case_match; [|done]. by intros [= <-].
Qed.

(** A loop invariant over both states of the loop. *)
Lemma init_loop_ind (I : init_state -> Prop) :
  (forall c st, I st -> I (init_literal c st)) ->
  (forall m st, I st -> I (init_flag m st)) ->
  (forall c st st', I st -> last_is_open st = false -> init_field c st = Done st' -> I st') ->
  forall p,
    (forall st st', I st -> init_loop p st = Done st' -> I st') /\
    (forall st st', I st -> last_is_open st = false -> init_spec p st = Done st' -> I st').
Proof.
  intros Hl Hfl Hf. induction p as [|c p [IHl IHs]]; split; simpl.
  - by intros st st' Hst [= <-].
  - intros st st' Hst Ho. by destruct (init_field 0 st).
  - intros st st' Hst. destruct (negb _); [eauto|]. destruct (last_is_open st) eqn:Ho; [done|]. eauto.
  - intros st st' Hst Ho. destruct (spec_flag c) as [m|].
    + apply IHs; [by apply Hfl|done].
    + destruct (init_field c st) as [st1| |] eqn:H1; simpl; [|done..]. intros H2. eauto.
Qed.

(** The fields are those of the table. *)
Definition known (f : syslog_field tm) : Prop := info f ∈ syslog_field_info.
Definition ready (e : syslog_entry tm) : Prop := Forall known (fields e) /\ separated (fields e).

Definition init_ready st : Prop :=
  ready (entry st) /\ (forall i, field_info st = Some i -> i ∈ syslog_field_info).

Lemma find_info_known c old i :
  (forall i, old = Some i -> i ∈ syslog_field_info) -> find_info c old = Some i -> i ∈ syslog_field_info.
Proof.
  unfold find_info. destruct (find _ _) as [j|] eqn:Hj; [|eauto]. intros _ [= <-].
  apply find_some in Hj as [Hj _]. by apply list_elem_of_In.
Qed.

Lemma init_literal_known c st : Forall known (fields (entry st)) -> Forall known (fields (entry (init_literal c st))).
Proof.
  unfold init_literal. intros Hk. case_match; [|done]. simpl.
  apply Forall_alter; [done|]. intros f Hf ?. exact H0.
Qed.

Lemma init_field_known c st st' : init_ready st -> init_field c st = Done st' ->
  Forall known (fields (entry st')) /\ (forall i, field_info st' = Some i -> i ∈ syslog_field_info).
Proof.
  intros [[Hk _] Hi]. unfold init_field. destruct (find_info _ _) as [i|] eqn:Hf.
  - apply find_info_known in Hf; [|done]. destruct (_ && _); [done|]. intros [= <-]. simpl. split.
    + apply Forall_app. split; [done|]. by constructor.
    + by intros j [= <-].
  - case_match; [|done]. by intros [= <-].
Qed.

Lemma syslog_entry_init_ready spec (e : syslog_entry tm) : syslog_entry_init spec = Done e -> ready e.
Proof.
  unfold syslog_entry_init. destruct (init_loop _ _) as [st| |] eqn:H; simpl; [|done..]. intros [= <-].
  eapply (init_loop_ind init_ready) in H; [by destruct H| | | |].
  - intros c st1 [[Hk Hs] Hi]. split; [split|].
    + by apply init_literal_known.
    + by apply init_literal_separated.
    + unfold init_literal. by case_match.
  - by intros m st1 Hst.
  - intros c st1 st2 Hst Ho H1. pose proof (init_field_known _ _ _ Hst H1) as [Hk Hi].
    destruct Hst as [[_ Hs] _]. split; [split|]; [done| |done]. by eapply init_field_separated.
  - split; [split; constructor|done].
Qed.
Lemma init_num spec (e : syslog_entry tm) : syslog_entry_init spec = Done e -> num e = 0.
Proof.
  unfold syslog_entry_init. destruct (init_loop _ _) as [st| |] eqn:H; simpl; [|done..]. intros [= <-].
  eapply (init_loop_ind (fun st => num (entry st) = 0)) in H; [done|..]; simpl; try done.
  - intros c st1 H1. unfold init_literal. by case_match.
  - intros c st1 st2 H1 _. unfold init_field. repeat case_match; try done; by intros [= <-].
Qed.
End init.

(** ** Strings *)

Section strings.
Implicit Types s : list Z.

Lemma suffix_Forall (P : Z -> Prop) s t : t `suffix_of` s -> Forall P s -> Forall P t.
Proof. intros [p ->]. rewrite Forall_app. tauto. Qed.

Lemma skip_spaces_suffix s : skip_spaces s `suffix_of` s.
Proof. induction s as [|c s IH]; simpl; [done|]. case_match; [by apply suffix_cons_r|done]. Qed.

Lemma strchr_Some s c r : strchr s c = Some r <-> exists p, s = p ++ r /\ c ∉ p /\ head r = Some c.
Proof.
  revert r. induction s as [|x s IH]; intros r; simpl.
  - split; [done|]. intros ([|] & ? & ? & ?); simplify_eq/=. 
  - case_match; bool_hyps; [subst x|rewrite IH]; split.
    + intros [= <-]. exists []. set_solver.
    + intros ([|y p] & H1 & H2 & H3); simplify_eq/=; [done|]. set_solver.
    + intros (p & -> & H2 & H3). exists (x :: p). set_solver.
    + intros ([|y p] & H1 & H2 & H3); simplify_eq/=. exists p. set_solver.
Qed.

Lemma strchr_suffix s c r : strchr s c = Some r -> r `suffix_of` s.
Proof. rewrite strchr_Some. intros (p & -> & _). by exists p. Qed.

Lemma tail_suffix s : tail s `suffix_of` s.
Proof. destruct s; [done|]. by apply suffix_cons_r. Qed.

Lemma cut_line_Forall (P : Z -> Prop) s : Forall P s -> Forall P (cut_line s).
Proof. induction 1; simpl; [done|]. case_match; auto. Qed.
End strings.

(** ** Parsing *)

Section parse.
Context {tm : Type} (strptime : list Z -> list Z -> tm -> option (list Z) * tm) (mktime : tm -> tm * Z).
Context (timezone : Z) (garbage : tm) (facilitynames prioritynames : list (list Z * Z)) (config : config_t).
Implicit Types (f : syslog_field tm) (fs : list (syslog_field tm)) (s : list Z).
Local Abbreviation field_parse :=
  (syslog_entry_field_parse strptime mktime timezone garbage facilitynames prioritynames config).
Local Abbreviation parse_fields :=
  (parse_fields strptime mktime timezone garbage facilitynames prioritynames config).
Local Abbreviation entry_parse :=
  (syslog_entry_parse strptime mktime timezone garbage facilitynames prioritynames config).

(** What no line changes of a field. *)
Definition shape f := (info f, has (flags f) SYSLOG_FIELD_FLAG_DROP, has (flags f) SYSLOG_FIELD_FLAG_NOTRIM,
  parse_start_char f, parse_stop_char f).

Lemma shape_info f f' : shape f' = shape f -> info f' = info f.
Proof. by intros [=]. Qed.
Lemma shape_stop f f' : shape f' = shape f -> parse_stop_char f' = parse_stop_char f.
Proof. by intros [=]. Qed.

(** The value has the type of the field, and its octets satisfy [P]. *)
Definition valued (P : Z -> Prop) f : Prop :=
  match info_type (info f), value f with
  | SYSLOG_FIELD_TYPE_TIME, V_time _ _ => True
  | SYSLOG_FIELD_TYPE_INTEGER, V_integer _ => True
  | SYSLOG_FIELD_TYPE_UINTEGER, V_uinteger n => 0 <= n <= ULONG_MAX
  | SYSLOG_FIELD_TYPE_STRING, V_string s => Forall P s
  | _, _ => False
  end.

(** A pointer that a parser returns. *)
Definition pointer_ok (P : Z -> Prop) f (p : option (list Z)) : Prop :=
  match p with Some s => Forall P s | None => parse_stop_char f = 0 end.

Section octets.
Context (P : Z -> Prop).
Context (strptime_rest : forall s spec t r t', strptime s spec t = (Some r, t') -> r `suffix_of` s).
Context (names : forall n v, (n, v) ∈ prioritynames -> Forall P n).

Definition parsed f f' (r : option (list Z) + errno) : Prop :=
  shape f' = shape f /\ match r with inl p => pointer_ok P f p /\ valued P f' | inr _ => True end.

Lemma parse_string_ok s f f' r :
  Forall P s -> parse_string s f = (f', r) ->
  shape f' = shape f /\
  match r with inl p => pointer_ok P f p /\ (exists v, value f' = V_string v /\ Forall P v) | inr _ => True end.
Proof.
  intros Hs. unfold parse_string. destruct (parse_stop_char f =? 0) eqn:H0.
  - bool_hyps. intros [= <- <-]. split; [done|]. split; [done|]. eauto using cut_line_Forall.
  - destruct (strchr _ _) as [rest|] eqn:Hc; intros [= <- <-]; [|done]. split; [done|].
    assert (rest `suffix_of` s) as Hr.
    { apply strchr_suffix in Hc. destruct (has _ _); [|exact Hc]. etransitivity; [exact Hc|]. apply skip_spaces_suffix. }
    split.
    + simpl. eapply suffix_Forall; [|exact Hs]. etransitivity; [apply tail_suffix|exact Hr].
    + eexists. split; [done|]. by apply cut_line_Forall, Forall_take.
Qed.

Lemma parse_value_ok s f f' r : Forall P s -> parse_value strptime mktime timezone garbage config s f = (f', r) ->
  parsed f f' r.
Proof.
  intros Hs. unfold parse_value, parsed, valued. destruct (info_type (info f)) eqn:Ht.
  - unfold parse_timestamp. destruct (match value f with V_time t u => _ | _ => _ end) as [t u].
    destruct (strptime _ _ _) as [[rest|] t'] eqn:Hp; [destruct (mktime t')|]; intros [= <- <-]; [|done].
    simpl. rewrite Ht. split; [done|]. split; [|done]. eapply suffix_Forall; [|exact Hs]. eauto.
  - unfold parse_integer. destruct (parse_string s f) as [f1 r1] eqn:H1.
    apply parse_string_ok in H1 as [Hsh H1]; [|done].
    destruct r1; intros [= <- <-]; [|done]. simpl. rewrite (shape_info _ _ Hsh). rewrite Ht. tauto.
  - unfold parse_uinteger. destruct (parse_string s f) as [f1 r1] eqn:H1.
    apply parse_string_ok in H1 as [Hsh H1]; [|done].
    destruct r1; [|by intros [= <- <-]]. destruct (strtoul _ _) as [[v e] w] eqn:Hv. intros [= <- <-].
    simpl. rewrite (shape_info _ _ Hsh). rewrite Ht. apply strtoul_range in Hv; [|done]. tauto.
  - intros H1. apply parse_string_ok in H1 as [Hsh H1]; [|done]. split; [done|]. destruct r; [|done].
    destruct H1 as (Hp & v & Hv & HP). rewrite (shape_info _ _ Hsh). by rewrite Ht, Hv.
Qed.

Lemma mod_priority_ok f v :
  value f = V_string v -> Forall P v ->
  shape (mod_priority prioritynames f) = shape f /\
  exists v', value (mod_priority prioritynames f) = V_string v' /\ Forall P v'.
Proof.
  intros Hv HP. unfold mod_priority. destruct (negb _); [eauto|].
  destruct (strtoul _ _) as [[n e] w]. unfold find_syslog_name_by_val.
  destruct (find _ _) as [[name k]|] eqn:Hn; simpl.
  - apply find_some in Hn as [Hn _]. apply list_elem_of_In in Hn. split; [|by eauto].
    unfold shape; simpl. by flag_steps.
  - split; [|by eauto]. unfold shape; simpl. by flag_steps.
Qed.

Lemma priority_is_string i :
  i ∈ syslog_field_info -> info_id i = SYSLOG_FIELD_ID_PRIORITY -> info_type i = SYSLOG_FIELD_TYPE_STRING.
Proof.
  revert i. apply (list.Forall_forall (fun i =>
    info_id i = SYSLOG_FIELD_ID_PRIORITY -> info_type i = SYSLOG_FIELD_TYPE_STRING)). by repeat constructor.
Qed.

Lemma modifier_ok f :
  known f -> valued P f ->
  shape (modifier prioritynames f) = shape f /\ valued P (modifier prioritynames f).
Proof.
  unfold known, modifier. intros Hk Hv. destruct (info_id (info f)) eqn:Hi; try done.
  assert (info_type (info f) = SYSLOG_FIELD_TYPE_STRING) as Ht.
  { by apply priority_is_string. }
  unfold valued in Hv. rewrite Ht in Hv. destruct (value f) eqn:Hval; try done.
  destruct (mod_priority_ok f _ Hval Hv) as (Hsh & v' & Hv' & HP'). split; [done|].
  unfold valued. rewrite (shape_info _ _ Hsh). by rewrite Ht, Hv'.
Qed.

Lemma shape_clear f : shape (f <| flags := clear SYSLOG_FIELD_FLAG_MEM_ALLOCATED (flags f) |>) = shape f.
Proof. unfold shape; simpl. by flag_steps. Qed.

Lemma field_parse_ok s f f' r : Forall P s -> known f -> field_parse s f = (f', r) -> parsed f f' r.
Proof.
  intros Hs Hk. unfold syslog_entry_field_parse. pose proof (shape_clear f) as Hsh.
  set (f0 := f <| flags := _ |>) in *. destruct (field_start s f0) as [s1|] eqn:H1; [|by intros [= <- <-]].
  assert (Forall P s1) as Hs1.
  { unfold field_start in H1. destruct (if parse_start_char f0 =? 0 then _ else _) as [s2|] eqn:H2; [|done].
    injection H1 as <-. eapply suffix_Forall; [|exact Hs].
    assert (s2 `suffix_of` s) as H3.
    { case_match; [by simplify_eq|]. apply fmap_Some in H2 as (s3 & H3 & ->).
      etransitivity; [apply tail_suffix|]. by eapply strchr_suffix. }
    destruct (has _ _); [exact H3|]. etransitivity; [apply skip_spaces_suffix|exact H3]. }
  destruct (parse_value _ _ _ _ _ s1 f0) as [f1 r1] eqn:Hv. apply parse_value_ok in Hv as [Hsh1 Hv]; [|done].
  destruct r1 as [p|e]; [|intros [= <- <-]; split; [congruence|done]]. destruct Hv as [Hp Hv].
  destruct (modifier_ok f1) as [Hsh2 Hv2]; [unfold known; by rewrite (shape_info _ _ Hsh1)|done|].
  intros [= <- <-]. split; [congruence|]. destruct (validate _ _ _); [done|]. split; [|done].
  by destruct p.
Qed.

Lemma parse_fields_ok fs : Forall known fs -> separated fs -> forall s, Forall P s ->
  exists fs' r, parse_fields (Some s) fs = Done (fs', r) /\ map shape fs' = map shape fs /\
    (r = None -> Forall (valued P) fs').
Proof.
  induction 1 as [|f fs Hk _ IH]; intros Hsep s Hs; simpl; [by eauto|].
  destruct (field_parse s f) as [f' r] eqn:Hf. apply field_parse_ok in Hf as [Hsh Hf]; [|done..].
  destruct r as [p|e].
  - destruct Hf as [Hp Hv]. destruct fs as [|g fs].
    + simpl. do 2 eexists. split; [done|]. simpl. split; [by rewrite Hsh|auto].
    + apply separated_cons in Hsep as [Hstop Hsep]. destruct p as [s'|]; [|done].
      destruct (IH Hsep s' Hp) as (fs' & r & Hr & Hm & Hvs). rewrite Hr. simpl. do 2 eexists. split; [done|].
      split; [simpl in Hm |- *; by rewrite Hsh, Hm|]. intros ->. auto.
  - do 2 eexists. split; [done|]. split; [simpl; by rewrite Hsh|done].
Qed.

Lemma ready_shape e e' : map shape (fields e') = map shape (fields e) -> ready e -> ready e'.
Proof.
  unfold ready, separated. revert e e'. intros [? ? ? ? fs] [? ? ? ? fs']. simpl. revert fs.
  induction fs' as [|f' fs' IH]; intros [|f fs] Hm; simpl in Hm; try done. pose proof (f_equal head Hm) as Hf. apply Some_inj in Hf.
  apply (f_equal (drop 1)) in Hm. simpl in Hm. rewrite !drop_0 in Hm.
  intros [Hk Hs]. inversion_clear Hk as [|? ? Hk1 Hk2].
  assert (known f') by (unfold known; by rewrite (shape_info _ _ Hf)). destruct fs as [|g fs], fs' as [|g' fs']; try done.
  - split; [by constructor|constructor].
  - apply separated_cons in Hs as [Hs1 Hs2]. destruct (IH (g :: fs) Hm (conj Hk2 Hs2)) as [Hk' Hs'].
    split; [by constructor|]. apply separated_cons. split; [|done]. by rewrite (shape_stop _ _ Hf).
Qed.

(** A line is parsed without reading behind its end. *)
Lemma entry_parse_ok e s : ready e -> Forall P s ->
  exists e' r, entry_parse e s = Done (e', r) /\ ready e' /\ map shape (fields e') = map shape (fields e) /\
    num e' = num e /\ fields_mask e' = fields_mask e /\ (r = None -> Forall (valued P) (fields e')).
Proof.
  intros Hr Hs. destruct (parse_fields_ok _ (proj1 Hr) (proj2 Hr) s Hs) as (fs' & r & Hp & Hm & Hv).
  unfold syslog_entry_parse. rewrite Hp. simpl. do 2 eexists. split; [done|]. split; [|done].
  by eapply ready_shape.
Qed.
End octets.
End parse.
