(* ===== verification/SyslogLines.v ===== *)
(** * syslog_fc: reading lines

    [next_line] ends, and reads one octet at least unless the file is at its
    end. Without 0 and carriage return in the file, what it reads are the
    lines of the file, as long as they have at most 63 times 256 octets less
    one: then the buffer never reaches its limit. *)

From stdpp Require Import sets.
From S2P Require Import Prelude CLib Syslog SyslogFormats SyslogMain.

(** ** Progress *)

Lemma fgets_split n s : let '(chunk, rest) := fgets n s in s = chunk ++ rest /\ (length chunk <= n)%nat.
Proof.
  revert s. induction n as [|n IH]; intros [|c s]; simpl; try (split; [done|simpl; lia]).
  destruct (c =? 10); [simpl; split; [done|lia]|]. specialize (IH s). destruct (fgets n s) as [chunk rest].
  destruct IH as [-> Hl]. simpl. split; [done|lia].
Qed.

Lemma fgets_progress n c s : (1 <= n)%nat -> (length (fgets n (c :: s)).2 <= length s)%nat.
Proof.
  intros Hn. destruct n as [|n]; [lia|]. simpl. destruct (c =? 10); simpl; [done|].
  pose proof (fgets_split n s) as H. destruct (fgets n s) as [chunk rest]. destruct H as [-> _].
  simpl. rewrite length_app. lia.
Qed.

Lemma before_nul_id s : 0 ∉ s -> before_nul s = s.
Proof.
  induction s as [|c s IH]; simpl; [done|]. rewrite not_elem_of_cons. intros [Hc Hs].
  destruct (Z.eqb_spec c 0); [by subst|]. by rewrite IH.
Qed.

Lemma Forall_no_nul (P : Z -> Prop) s : (forall c, P c -> c <> 0) -> Forall P s -> before_nul s = s.
Proof. intros HP Hs. apply before_nul_id. intros H0. rewrite list.Forall_forall in Hs. exact (HP 0 (Hs 0 H0) eq_refl). Qed.

(** What a read returns without 0 in the file: the line is made of octets of the file, and what
    follows it is shorter. *)
Definition read_ok (P : Z -> Prop) (n : nat) (r : line_read) : Prop :=
  match r with
  | Line line size rest => Forall P line /\ Forall P rest /\ (256 <= size)%nat /\ (length rest <= n)%nat
  | No_fuel | Before_buffer => False
  | _ => True
  end.

Lemma read_line_progress (P : Z -> Prop) fuel size line input :
  (forall c, P c -> c <> 0) ->
  (length line < size)%nat -> (256 <= size)%nat -> (length input < fuel)%nat ->
  (length line + 1 < size \/ input = [])%nat ->
  Forall P line -> Forall P input -> read_ok P (length input - 1) (read_line fuel size line input).
Proof.
  intros HP0. revert size line input. induction fuel as [|fuel IH]; intros size line input Hl Hs Hf Hn HP1 HP2; [lia|].
  simpl. destruct input as [|c input].
  - case_bool_decide; simpl; [done|]. auto.
  - destruct Hn as [Hn|]; [|done].
    pose proof (fgets_split (size - length line - 1) (c :: input)) as Hsp.
    pose proof (fgets_progress (size - length line - 1) c input ltac:(lia)) as Hpr.
    destruct (fgets _ _) as [chunk rest]. destruct Hsp as [Heq Hlen]. simpl in Hpr.
    rewrite Heq in HP2. apply Forall_app in HP2 as [HPc HPr].
    rewrite (Forall_no_nul P) by done.
    destruct (list.last (line ++ chunk)) as [d|] eqn:Hd.
    2: { apply last_None, app_nil in Hd as [_ ->]. apply (f_equal length) in Heq. simpl in Heq. lia. }
    destruct (_ || _); [simpl; split_and!; [by apply Forall_app|done..|lia]|].
    case_bool_decide; [done|].
    assert (read_ok P (length rest - 1)
      (read_line fuel (size + SYSLOG_BUFFER_SIZE) (line ++ chunk) rest)) as Hr.
    { apply IH; rewrite ?length_app; unfold SYSLOG_BUFFER_SIZE; try lia; try done.
      - simpl in Hf. lia.
      - by apply Forall_app. }
    revert Hr. unfold read_ok. destruct (read_line _ _ _ _); [|done..]. intros (H1 & H2 & H3 & H4).
    split_and!; [done..|]. simpl. lia.
Qed.

Lemma next_line_progress (P : Z -> Prop) size input :
  (forall c, P c -> c <> 0) -> (256 <= size)%nat -> Forall P input ->
  read_ok P (length input - 1) (next_line size input) /\ (input = [] -> next_line size input = End_of_file).
Proof.
  intros HP Hs Hi. split; [|by intros ->]. apply read_line_progress; simpl; try done; lia.
Qed.

(** ** The lines of a file *)

(** Every line ends with its newline, but perhaps the last. *)
Fixpoint lines_of (input : list Z) : list (list Z) :=
  match input with
  | [] => []
  | c :: input =>
      if c =? 10 then [c] :: lines_of input
      else match lines_of input with
           | [] => [[c]]
           | l :: ls => (c :: l) :: ls
           end
  end.

(** [line] is the first line of [line ++ rest]. *)
Definition first_line (line rest : list Z) : Prop :=
  (exists w, line = w ++ [10] /\ 10 ∉ w) \/ (line <> [] /\ 10 ∉ line /\ rest = []).

Lemma first_line_cons c line rest : c <> 10 -> first_line line rest -> first_line (c :: line) rest.
Proof.
  intros Hc [(w & -> & Hw)|(Hl & Hn & ->)]; [left; exists (c :: w)|right]; set_solver.
Qed.

Lemma lines_of_nil input : lines_of input = [] -> input = [].
Proof. destruct input as [|c input]; simpl; [done|]. repeat case_match; done. Qed.

Lemma length_lines_of input : (length (lines_of input) <= length input)%nat.
Proof. induction input as [|c s IH]; simpl; [done|]. repeat case_match; simpl in *; lia. Qed.

Lemma lines_of_cons input l ls :
  lines_of input = l :: ls -> exists rest, input = l ++ rest /\ lines_of rest = ls /\ first_line l rest.
Proof.
  revert l ls. induction input as [|c input IH]; intros l ls; simpl; [done|].
  destruct (Z.eqb_spec c 10) as [->|Hc].
  - intros [= <- <-]. exists input. split_and!; [done..|]. left. exists []. set_solver.
  - destruct (lines_of input) as [|l' ls'] eqn:Hls.
    + apply lines_of_nil in Hls as ->. intros [= <- <-]. exists []. split_and!; [done..|]. right. set_solver.
    + intros [= <- <-]. destruct (IH _ _ eq_refl) as (rest & -> & Hr & Hf).
      exists rest. split_and!; [done..|]. by apply first_line_cons.
Qed.

(** ** What is read *)

Lemma fgets_partial n w rest : 10 ∉ w -> (n <= length w)%nat -> fgets n (w ++ rest) = (take n w, drop n w ++ rest).
Proof.
  revert n. induction w as [|c w IH]; intros [|n] Hw Hn; simpl in *; try done; try lia; rewrite ?drop_0; try done.
  apply not_elem_of_cons in Hw as [Hc Hw]. destruct (Z.eqb_spec c 10); [congruence|].
  by rewrite (IH n) by (done || lia).
Qed.

Lemma fgets_whole n w rest : 10 ∉ w -> (length w < n)%nat -> fgets n (w ++ 10 :: rest) = (w ++ [10], rest).
Proof.
  revert n. induction w as [|c w IH]; intros [|n] Hw Hn; simpl in *; try done; try lia.
  apply not_elem_of_cons in Hw as [Hc Hw]. destruct (Z.eqb_spec c 10); [congruence|].
  by rewrite (IH n) by (done || lia).
Qed.

Lemma fgets_last n w : 10 ∉ w -> (length w <= n)%nat -> fgets n w = (w, []).
Proof.
  revert n. induction w as [|c w IH]; intros [|n] Hw Hn; simpl in *; try done; try lia.
  apply not_elem_of_cons in Hw as [Hc Hw]. destruct (Z.eqb_spec c 10); [congruence|].
  by rewrite (IH n) by (done || lia).
Qed.

(** The sizes of the buffer: [k] times 256. *)
Definition size_of (k : nat) : nat := (k * SYSLOG_BUFFER_SIZE)%nat.

(** The longest line that is always read. *)
Definition LINE_MAX : nat := (size_of 63 - 1)%nat.

Lemma grow k : (k <= 63)%nat ->
  (size_of k + SYSLOG_BUFFER_SIZE = size_of (S k))%nat /\ (size_of (S k) <= SYSLOG_MAX_BUFFER_SIZE)%nat.
Proof. unfold size_of, SYSLOG_BUFFER_SIZE, SYSLOG_MAX_BUFFER_SIZE. lia. Qed.

(** One round of [read_line] on a piece that does not end the line. *)
Lemma read_line_grows fuel k line chunk input rest :
  (k <= 63)%nat -> input <> [] -> fgets (size_of k - length line - 1) input = (chunk, rest) ->
  chunk <> [] -> 0 ∉ chunk -> 10 ∉ chunk -> 13 ∉ chunk ->
  read_line (S fuel) (size_of k) line input = read_line fuel (size_of (S k)) (line ++ chunk) rest.
Proof.
  intros Hk Hi Hg Hc H0 H10 H13. simpl. destruct input as [|c input]; [done|]. rewrite Hg, before_nul_id by done.
  destruct chunk as [|d chunk _] using rev_ind; [done|]. rewrite app_assoc, last_snoc.
  rewrite (proj2 (Z.eqb_neq d 13)), (proj2 (Z.eqb_neq d 10)) by set_solver. simpl.
  destruct (grow k Hk) as [-> Hm]. by rewrite bool_decide_eq_false_2 by lia.
Qed.

Lemma read_line_ends fuel size line chunk input rest :
  input <> [] -> fgets (size - length line - 1) input = (chunk ++ [10], rest) -> 0 ∉ chunk ->
  read_line (S fuel) size line input = Line (line ++ chunk ++ [10]) size rest.
Proof.
  intros Hi Hg H0. simpl. destruct input as [|c input]; [done|].
  rewrite Hg, before_nul_id by set_solver. by rewrite app_assoc, last_snoc, orb_true_r.
Qed.

Definition plain_octet (c : Z) : Prop := c <> 0 /\ c <> 10 /\ c <> 13.

Lemma plain_not_elem s : Forall plain_octet s -> 0 ∉ s /\ 10 ∉ s /\ 13 ∉ s.
Proof. unfold plain_octet. rewrite list.Forall_forall. intros H. split_and!; intros Hc; naive_solver. Qed.

Lemma size_of_lt k : (k < 63)%nat -> (S k <= 63)%nat /\ (size_of k + 256 = size_of (S k))%nat.
Proof. unfold size_of, SYSLOG_BUFFER_SIZE. lia. Qed.

Lemma size_of_bound k : (size_of k <= LINE_MAX -> k < 63)%nat.
Proof. unfold LINE_MAX, size_of, SYSLOG_BUFFER_SIZE. lia. Qed.

Lemma read_line_whole fuel k line w rest :
  (k <= 63)%nat -> (length line + 1 < size_of k)%nat -> (length line + length w + 1 <= LINE_MAX)%nat ->
  Forall plain_octet w -> (length w < fuel)%nat ->
  exists k', (k <= k' <= 63)%nat /\
    read_line fuel (size_of k) line (w ++ 10 :: rest) = Line (line ++ w ++ [10]) (size_of k') rest.
Proof.
  revert k line w. induction fuel as [|fuel IH]; intros k line w Hk Hl Hmax Hw Hf; [lia|].
  pose proof (plain_not_elem w Hw) as (H0 & H10 & H13).
  destruct (decide (length w < size_of k - length line - 1)%nat) as [Hn|Hn].
  - exists k. split; [lia|]. apply read_line_ends; [by destruct w|by apply fgets_whole|done].
  - set (n := (size_of k - length line - 1)%nat) in *.
    destruct (size_of_lt k) as [Hk1 Hk2]; [apply size_of_bound; lia|].
    assert (length (take n w) = n) as Hlen by (rewrite length_take; lia).
    pose proof (plain_not_elem (take n w) (Forall_take _ _ _ Hw)) as (H0' & H10' & H13').
    destruct (IH (S k) (line ++ take n w) (drop n w)) as (k' & Hk' & Hr);
      rewrite ?length_app, ?Hlen, ?length_drop; try lia; [by apply Forall_drop|].
    exists k'. split; [lia|].
    rewrite (read_line_grows _ _ _ (take n w) _ (drop n w ++ 10 :: rest)); try done; try (by destruct w).
    + rewrite Hr, <- !app_assoc. by rewrite (app_assoc (take n w)), take_drop.
    + by apply fgets_partial; [|lia].
    + intros Hnil. rewrite Hnil in Hlen. simpl in Hlen. lia.
Qed.

Lemma read_line_last fuel k line w :
  (k <= 63)%nat -> (length line + 1 < size_of k)%nat -> (length line + length w <= LINE_MAX)%nat ->
  w <> [] -> Forall plain_octet w -> (length w < fuel)%nat ->
  exists k', (k <= k')%nat /\ read_line fuel (size_of k) line w = Line (line ++ w) (size_of k') [].
Proof.
  revert k line w. induction fuel as [|fuel IH]; intros k line w Hk Hl Hmax Hne Hw Hf; [lia|].
  pose proof (plain_not_elem w Hw) as (H0 & H10 & H13).
  destruct (decide (length w <= size_of k - length line - 1)%nat) as [Hn|Hn].
  - exists (S k). split; [lia|]. rewrite (read_line_grows _ _ _ w _ []); try done; [|by apply fgets_last].
    destruct fuel; [by destruct w; [|simpl in Hf; lia]|]. simpl. rewrite bool_decide_eq_false_2; [done|].
    intros Hnil. by apply app_nil in Hnil as [_ ->].
  - set (n := (size_of k - length line - 1)%nat) in *.
    destruct (size_of_lt k) as [Hk1 Hk2]; [apply size_of_bound; lia|].
    assert (length (take n w) = n) as Hlen by (rewrite length_take; lia).
    pose proof (plain_not_elem (take n w) (Forall_take _ _ _ Hw)) as (H0' & H10' & H13').
    assert (drop n w <> []) as Hd.
    { intros Hnil. apply (f_equal length) in Hnil. rewrite length_drop in Hnil. simpl in Hnil. lia. }
    destruct (IH (S k) (line ++ take n w) (drop n w)) as (k' & Hk' & Hr);
      rewrite ?length_app, ?Hlen, ?length_drop; try lia; [done|by apply Forall_drop|].
    exists k'. split; [lia|]. rewrite (read_line_grows _ _ _ (take n w) _ (drop n w)); try done.
    + by rewrite Hr, <- app_assoc, take_drop.
    + replace w with (w ++ []) at 1 by apply app_nil_r. rewrite fgets_partial by (done || lia). by rewrite app_nil_r.
    + intros Hnil. rewrite Hnil in Hlen. simpl in Hlen. lia.
Qed.

(** The octets of a text file. *)
Definition text (s : list Z) : Prop := 0 ∉ s /\ 13 ∉ s.

Lemma text_plain s : text s -> 10 ∉ s -> Forall plain_octet s.
Proof. intros [H0 H13] H10. apply list.Forall_forall. intros c Hc. unfold plain_octet. set_solver. Qed.

(** The next line of the file, with a buffer that has not reached its limit
    while there are more. *)
Lemma next_line_first k line rest :
  (1 <= k <= 63)%nat -> text line -> first_line line rest -> (length line <= LINE_MAX)%nat ->
  exists k', next_line (size_of k) (line ++ rest) = Line line (size_of k') rest /\ (rest = [] \/ 1 <= k' <= 63)%nat.
Proof.
  intros Hk Ht Hf Hlen. unfold next_line.
  assert (length (A:=Z) [] + 1 < size_of k)%nat as Hs by (simpl; unfold size_of, SYSLOG_BUFFER_SIZE; lia).
  destruct Hf as [(w & -> & Hw)|(Hl & Hn & ->)].
  - rewrite length_app in Hlen. simpl in Hlen. rewrite <- app_assoc. simpl (([10] : list Z) ++ rest).
    destruct (read_line_whole (S (length (w ++ 10 :: rest))) k [] w rest) as (k' & Hk' & Hr);
      rewrite ?length_app; simpl; try lia; [|].
    + apply text_plain; [|done]. unfold text in *. set_solver.
    + rewrite length_app in Hr. simpl in Hr. exists k'. rewrite Hr. split; [done|]. right. lia.
  - rewrite app_nil_r. destruct line as [|c line]; [done|].
    destruct (read_line_last (S (length (c :: line))) k [] (c :: line)) as (k' & Hk' & Hr);
      try done; try (simpl; simpl in Hlen; lia); [by apply text_plain|].
    exists k'. rewrite Hr. auto.
Qed.
