(* ===== verification/SyslogRun.v ===== *)
(** * syslog_fc: conversions end, and print the entries of the lines

    The formats print every parsed entry; JSON reads behind the end of a value
    when an escape sequence has no end, so that its values are without escape
    characters here. [entries] is what the lines of a file are parsed to, one
    after the other. *)

From stdpp Require Import sets.
From S2P Require Import Prelude CLib CLibOk Syslog SyslogFormats SyslogMain SyslogOk SyslogLines.

Section run.
Context {tm : Type} (strptime : list Z -> list Z -> tm -> option (list Z) * tm) (mktime : tm -> tm * Z).
Context (strftime : nat -> list Z -> tm -> list Z) (timezone : Z) (garbage : tm).
Context (facilitynames prioritynames : list (list Z * Z)) (config : config_t) (P : Z -> Prop).
Implicit Types (f : syslog_field tm) (fs : list (syslog_field tm)) (e : syslog_entry tm) (s : list Z).
Local Abbreviation entry_parse :=
  (syslog_entry_parse strptime mktime timezone garbage facilitynames prioritynames config).
Local Abbreviation output_entry := (fn_output_entry strftime config).

(** strptime returns a pointer into its string. *)
Definition strptime_ok : Prop := forall s spec t r t', strptime s spec t = (Some r, t') -> r `suffix_of` s.
Definition names_ok : Prop := forall n v, (n, v) ∈ prioritynames -> Forall P n.

(** No escape character is printed as JSON. *)
Definition no_escapes : Prop :=
  output_fmt config = fmt_json ->
  (forall c, P c -> c <> 27) /\ (forall (t : tm) u, 27 ∉ syslog_field_time_fmt strftime config t u).

(** ** The formats print every entry *)

Lemma print_fields_Some p fs first :
  (forall b f, f ∈ fs -> is_Some (p b f)) -> is_Some (print_fields p first fs).
Proof.
  revert first. induction fs as [|f fs IH]; intros first Hp; simpl; [done|].
  assert (forall b, is_Some (print_fields p b fs)) as Hr by (intros b; apply IH; set_solver).
  case_match; [|done]. destruct (Hp first f) as [s ->]; [set_solver|]. simpl. by destruct (Hr false) as [t ->].
Qed.

Lemma print_value_Some (enc_time enc_string : list Z -> option (list Z)) f :
  valued P f -> (forall t u, is_Some (enc_time (syslog_field_time_fmt strftime config t u))) ->
  (forall s, Forall P s -> is_Some (enc_string s)) ->
  is_Some (print_value strftime config enc_time enc_string f).
Proof. unfold valued, print_value. intros Hv Ht Hs. repeat case_match; try done; eauto. Qed.

Lemma json_encoded_Some s : 27 ∉ s -> is_Some (fmt_json_output_encoded s).
Proof.
  induction s as [|c s IH]; simpl; [done|]. rewrite not_elem_of_cons. intros [Hc Hs].
  rewrite (proj2 (Z.eqb_neq c 27)) by done. by apply fmap_is_Some, IH.
Qed.

Lemma priority_field_string e f :
  Forall known (fields e) -> Forall (valued P) (fields e) ->
  find (fun f => bool_decide (info_id (info f) = SYSLOG_FIELD_ID_PRIORITY)) (fields e) = Some f ->
  exists s, value f = V_string s.
Proof.
  intros Hk Hv Hf. apply find_some in Hf as [Hf Hp]. apply list_elem_of_In in Hf. apply bool_decide_eq_true in Hp.
  rewrite list.Forall_forall in Hk, Hv. specialize (Hk _ Hf). specialize (Hv _ Hf).
  unfold valued in Hv. rewrite (priority_is_string _ Hk Hp) in Hv. destruct (value f); eauto; done.
Qed.

Lemma Forall_not_elem (c : Z) s : (forall x, P x -> x <> c) -> Forall P s -> c ∉ s.
Proof. intros HP Hs Hc. rewrite list.Forall_forall in Hs. exact (HP c (Hs c Hc) eq_refl). Qed.

Lemma bind_is_Some {A B} (m : option A) (k : A -> option B) :
  is_Some m -> (forall a, m = Some a -> is_Some (k a)) -> is_Some (m ≫= k).
Proof. intros [a ->] Hk. by apply Hk. Qed.

(** Follows a function that prints. *)
Ltac prints :=
  repeat first
    [ done
    | apply bind_is_Some; [|intros ??]
    | apply print_fields_Some; intros ?? ?
    | apply print_value_Some; [by eauto|intros ??|intros ??] ].

Lemma output_entry_Some e :
  no_escapes -> Forall known (fields e) -> Forall (valued P) (fields e) -> is_Some (output_entry e).
Proof.
  intros Hne Hk Hv. pose proof Hv as Hv'. rewrite list.Forall_forall in Hv'.
  unfold fn_output_entry. destruct (output_fmt config) eqn:Hfmt.
  - unfold fmt_plain_output_entry. prints.
  - unfold fmt_md_output_entry, backquoted. prints.
  - unfold fmt_csv_output_entry, csv_cell. prints.
  - destruct (Hne Hfmt) as [Hc Ht]. unfold fmt_json_output_entry. prints; apply json_encoded_Some; eauto using Forall_not_elem.
  - unfold fmt_html_output_entry, fmt_html_output_row. apply bind_is_Some; [|intros c Hc; prints].
    + destruct (_ && _); [|done]. destruct (find _ _) as [f|] eqn:Hf; [|done].
      by destruct (priority_field_string e f Hk Hv Hf) as [s ->].
    + destruct (num e =? 0); [done|]. unfold html_value. prints.
  - unfold fmt_asciidoc_output_entry, backquoted. prints.
Qed.

Lemma output_start_Some e : num e = 0 -> is_Some (fn_output_start strftime config e).
Proof.
  intros Hn. unfold fn_output_start. destruct (output_fmt config); try done.
  - unfold fmt_md_output_start. prints.
  - unfold fmt_csv_output_start, csv_cell. prints.
  - unfold fmt_html_output_start, fmt_html_output_row. rewrite Hn. simpl. prints.
  - unfold fmt_asciidoc_output_start. prints.
Qed.

(** ** Conversions end *)

Section conversions.
Context (Hst : strptime_ok) (Hnames : names_ok) (Hesc : no_escapes).

Local Abbreviation convert_loop :=
  (convert_loop strptime mktime strftime timezone garbage facilitynames prioritynames config).
Local Abbreviation convert_syslog :=
  (convert_syslog strptime mktime strftime timezone garbage facilitynames prioritynames config).

Lemma convert_loop_returns fuel size e n out input :
  (forall c, P c -> c <> 0) -> ready e -> (256 <= size)%nat -> Forall P input -> (length input < fuel)%nat ->
  exists out' ret, convert_loop fuel size e n out input = Converted out' ret.
Proof.
  intros HP0. revert size e n out input. induction fuel as [|fuel IH]; intros size e n out input Hr Hs Hi Hf; [lia|].
  simpl. destruct (next_line_progress P size input HP0 Hs Hi) as [Hn Hend].
  destruct (next_line size input) as [line size' rest| | | |] eqn:Hl; try done; eauto.
  destruct Hn as (Hline & Hrest & Hs' & Hlen). destruct input as [|c input]; [by specialize (Hend eq_refl)|].
  destruct (entry_parse_ok strptime mktime timezone garbage facilitynames prioritynames config P Hst Hnames
    e line Hr Hline) as (e' & r & -> & Hr' & _ & _ & _ & Hv).
  simpl in Hlen, Hf. destruct r as [err|]; [apply IH; [done..|lia]|].
  assert (is_Some (output_entry (e' <| num := u32 (n + 1) |>))) as [s ->]
    by (apply output_entry_Some; [done|apply Hr'|by apply Hv]).
  apply IH; [done..|lia].
Qed.

Lemma convert_syslog_returns input :
  (forall c, P c -> c <> 0) -> Forall P input -> syslog_entry_init (tm := tm) (entry_spec config) <> Overrun ->
  exists out ret, convert_syslog input = Converted out ret.
Proof.
  intros HP Hi Hspec. unfold convert_syslog, SyslogMain.convert_syslog.
  destruct (syslog_entry_init _) as [e| |] eqn:He; [|by eauto|done].
  destruct (output_start_Some e) as [s ->]; [by eapply init_num|].
  apply convert_loop_returns; try done; [by eapply syslog_entry_init_ready|lia].
Qed.

(** ** What is printed *)

(** The entries of the lines, as they are printed. Flags of the fields stay
    from one line to the next. *)
Fixpoint entries e (n : Z) (lines : list (list Z)) : list (syslog_entry tm) :=
  match lines with
  | [] => []
  | line :: lines =>
      match entry_parse e line with
      | Done (e, None) => let e := e <| num := u32 (n + 1) |> in e :: entries e (u32 (n + 1)) lines
      | Done (e, Some _) => entries e n lines
      | Failed _ | Overrun => []
      end
  end.

(** Entries that can be printed, numbered after [n]. *)
Fixpoint numbered (n : Z) (es : list (syslog_entry tm)) : Prop :=
  match es with
  | [] => True
  | e :: es => num e = u32 (n + 1) /\ numbered (u32 (n + 1)) es
  end.

Lemma entries_numbered e n lines : numbered n (entries e n lines).
Proof.
  revert e n. induction lines as [|l ls IH]; intros e n; simpl; [done|].
  destruct (entry_parse e l) as [[e' [err|]]| |]; simpl; auto.
Qed.

Lemma length_entries e n lines : (length (entries e n lines) <= length lines)%nat.
Proof.
  revert e n. induction lines as [|l ls IH]; intros e n; simpl; [done|].
  destruct (entry_parse e l) as [[e' [err|]]| |]; simpl; [|specialize (IH (e' <| num := u32 (n + 1) |>) (u32 (n + 1)))|..];
    try lia. specialize (IH e' n). lia.
Qed.

Lemma entries_ok e n lines :
  ready e -> Forall (Forall P) lines ->
  Forall (fun e' => Forall known (fields e') /\ Forall (valued P) (fields e') /\
    map shape (fields e') = map shape (fields e)) (entries e n lines).
Proof.
  intros Hr Hl. revert e n Hr. induction Hl as [|l ls Hl _ IH]; intros e n Hr; simpl; [constructor|].
  destruct (entry_parse_ok strptime mktime timezone garbage facilitynames prioritynames config P Hst Hnames
    e l Hr Hl) as (e' & r & -> & Hr' & Hsh & _ & _ & Hv).
  assert (forall e1 m, ready e1 -> map shape (fields e1) = map shape (fields e) ->
    Forall (fun e2 => Forall known (fields e2) /\ Forall (valued P) (fields e2) /\
      map shape (fields e2) = map shape (fields e)) (entries e1 m ls)) as IH'.
  { intros e1 m H1 <-. by apply IH. }
  destruct r as [err|]; [by apply IH'|]. constructor; [|by apply IH'].
  split_and!; [apply Hr'|by apply Hv|done].
Qed.

Lemma lines_of_Forall input : Forall P input -> Forall (Forall P) (lines_of input).
Proof.
  induction 1 as [|c s Hc _ IH]; simpl; [constructor|]. case_match; [auto|].
  destruct (lines_of s) as [|l ls]; [by repeat constructor|]. inversion_clear IH. by repeat constructor.
Qed.

Lemma convert_loop_lines fuel k e n out input :
  ready e -> (input = [] \/ 1 <= k <= 63)%nat -> Forall P input -> text input ->
  Forall (fun l => length l <= LINE_MAX)%nat (lines_of input) -> (length input < fuel)%nat ->
  exists outs, mapM output_entry (entries e n (lines_of input)) = Some outs /\
    convert_loop fuel (size_of k) e n out input = Converted (out ++ concat outs ++ fn_output_end config) None.
Proof.
  revert k e n out input. induction fuel as [|fuel IH]; intros k e n out input Hr Hk Hi Ht Hmax Hf; [lia|].
  simpl. destruct input as [|c input]; [exists []; done|].
  destruct Hk as [|Hk]; [done|].
  destruct (lines_of (c :: input)) as [|l ls] eqn:Hls; [by apply lines_of_nil in Hls|].
  pose proof Hls as Hls'. apply lines_of_cons in Hls' as (rest & Heq & Hrest & Hfirst).
  inversion_clear Hmax as [|? ? Hl Hmax']. rewrite Heq in *. apply Forall_app in Hi as [HPl HPr].
  assert (text l /\ text rest) as [Htl Htr] by (unfold text in *; set_solver).
  assert (length rest < fuel)%nat as Hf'.
  { rewrite length_app in Hf. destruct Hfirst as [(w & -> & _)|(Hne & _)]; [rewrite length_app in Hf; simpl in Hf; lia|].
    destruct l; [done|]. simpl in Hf. lia. }
  destruct (next_line_first k l rest Hk Htl Hfirst Hl) as (k' & -> & Hk').
  destruct (entry_parse_ok strptime mktime timezone garbage facilitynames prioritynames config P Hst Hnames
    e l Hr HPl) as (e' & r & He & Hr' & _ & _ & _ & Hv).
  simpl. rewrite He. subst ls. destruct r as [err|]; [by apply IH|].
  assert (is_Some (output_entry (e' <| num := u32 (n + 1) |>))) as [s Hs]
    by (apply output_entry_Some; [done|apply Hr'|by apply Hv]).
  destruct (IH k' (e' <| num := u32 (n + 1) |>) (u32 (n + 1)) (out ++ s) rest) as (outs & Ho & Hc); [done..|].
  rewrite Hs. simpl. rewrite Hs, Ho. simpl. exists (s :: outs). split; [done|].
  rewrite Hc. simpl. by rewrite <- !app_assoc.
Qed.

Lemma convert_syslog_lines e input :
  syslog_entry_init (entry_spec config) = Done e -> Forall P input -> text input ->
  Forall (fun l => length l <= LINE_MAX)%nat (lines_of input) ->
  exists start outs, fn_output_start strftime config e = Some start /\
    mapM output_entry (entries e 0 (lines_of input)) = Some outs /\
    convert_syslog input = Converted (start ++ concat outs ++ fn_output_end config) None.
Proof.
  intros He Hi Ht Hmax. unfold convert_syslog, SyslogMain.convert_syslog. rewrite He.
  destruct (output_start_Some e) as [s Hs]; [by eapply init_num|]. rewrite Hs.
  destruct (convert_loop_lines (S (length input)) 1 e 0 s input) as (outs & Ho & Hc); try done; try lia;
    [by eapply syslog_entry_init_ready|].
  exists s, outs. split_and!; [done..|]. exact Hc.
Qed.
End conversions.
End run.
