(* ===== verification/SyslogJson.v ===== *)
(** * syslog_fc: the JSON format prints JSON

    [json t v]: the text [t] denotes the value [v] (RFC 8259, without white
    space between tokens and \u escapes, which are not used). *)

From stdpp Require Import sets.
From S2P Require Import Prelude CLib CLibOk Syslog SyslogFormats SyslogMain SyslogOk SyslogLines SyslogRun.

(** ** JSON *)

Inductive json_value :=
  | JString (s : list Z)
  | JNumber (n : Z)
  | JObject (members : list (list Z * json_value))
  | JArray (elements : list json_value).

(** The characters after a backslash and what they mean. *)
Definition escapes : list (Z * Z) :=
  [(34, 34); (92, 92); (47, 47); (98, 8); (102, 12); (110, 10); (114, 13); (116, 9)].

Inductive json_chars : list Z -> list Z -> Prop :=
  | chars_nil : json_chars [] []
  | chars_plain c t s : 32 <= c -> c <> 34 -> c <> 92 -> json_chars t s -> json_chars (c :: t) (c :: s)
  | chars_escape k c t s : (k, c) ∈ escapes -> json_chars t s -> json_chars (92 :: k :: t) (c :: s).

Inductive json_string : list Z -> list Z -> Prop :=
  | string_quoted t s : json_chars t s -> json_string (34 :: t ++ [34]) s.

(** Digits without a leading zero. *)
Inductive json_number : list Z -> Z -> Prop :=
  | number_zero : json_number [48] 0
  | number_int c t : c <> 48 -> Forall decimal (c :: t) -> json_number (c :: t) (number (c :: t)).

Inductive json : list Z -> json_value -> Prop :=
  | json_is_string t s : json_string t s -> json t (JString s)
  | json_is_number t n : json_number t n -> json t (JNumber n)
  | json_is_object t ms : json_members t ms -> json (123 :: t ++ [125]) (JObject ms)
  | json_is_array t vs : json_elements t vs -> json (91 :: t ++ [93]) (JArray vs)
with json_members : list Z -> list (list Z * json_value) -> Prop :=
  | members_nil : json_members [] []
  | members_one k n t v : json_string k n -> json t v -> json_members (k ++ 58 :: t) [(n, v)]
  | members_cons k n t v u m ms :
      json_string k n -> json t v -> json_members u (m :: ms) ->
      json_members ((k ++ 58 :: t) ++ 44 :: u) ((n, v) :: m :: ms)
with json_elements : list Z -> list json_value -> Prop :=
  | elements_nil : json_elements [] []
  | elements_one t v : json t v -> json_elements t [v]
  | elements_cons t v u w vs :
      json t v -> json_elements u (w :: vs) -> json_elements (t ++ 44 :: u) (v :: w :: vs).

(** Texts after a comma, unless they are the first. *)
Definition comma (first : bool) (t : list Z) : list Z := (if first then [] else [44]) ++ t.

(** The other members of an object, each after a comma. *)
Inductive more_members : list Z -> list (list Z * json_value) -> Prop :=
  | more_nil : more_members [] []
  | more_cons k n t v u ms :
      json_string k n -> json t v -> more_members u ms ->
      more_members (44 :: (k ++ 58 :: t) ++ u) ((n, v) :: ms).

Lemma members_more k n t v u ms :
  json_string k n -> json t v -> more_members u ms -> json_members ((k ++ 58 :: t) ++ u) ((n, v) :: ms).
Proof.
  intros Hk Ht Hu. revert k n t v Hk Ht. induction Hu as [|k' n' t' v' u ms Hk' Ht' _ IH]; intros k n t v Hk Ht.
  - rewrite app_nil_r. by constructor.
  - constructor; auto.
Qed.

(** ** Octets that JSON text may have *)

(** Not a control character, or one with an escape of its own. *)
Definition jsonable (c : Z) : Prop := 32 <= c \/ c ∈ ([8; 9; 10; 12; 13] : list Z).

Lemma json_char_ok c t s : jsonable c -> json_chars t s -> json_chars (json_char c ++ t) (c :: s).
Proof.
  intros Hc Ht. unfold json_char.
  repeat (case_match; bool_hyps; [subst c; apply chars_escape; [set_solver|done]|]).
  apply chars_plain; try done. destruct Hc as [|Hc]; [done|]. set_solver.
Qed.

Lemma json_encoded_chars s t : Forall jsonable s -> fmt_json_output_encoded s = Some t -> json_chars t s.
Proof.
  intros Hs. revert t. induction Hs as [|c s Hc _ IH]; intros t; simpl; [intros [= <-]; constructor|].
  destruct (Z.eqb_spec c 27) as [->|_]; [destruct Hc as [|Hc]; [lia|set_solver]|].
  intros (t' & Ht' & ->)%fmap_Some. apply json_char_ok; auto.
Qed.

Lemma json_quoted_string s t : Forall jsonable s -> json_quoted s = Some t -> json_string t s.
Proof.
  intros Hs. unfold json_quoted. destruct (fmt_json_output_encoded s) as [u|] eqn:Hu; [|done].
  intros [= <-]. apply string_quoted. by apply json_encoded_chars.
Qed.

Lemma json_print_u n : 0 <= n <= ULONG_MAX -> json (print_u n) (JNumber n).
Proof.
  intros Hn. apply json_is_number. destruct (print_u_spec n Hn) as (Hd & Hv & [[-> ->]|(c & s & Hs & Hc)]).
  - constructor.
  - rewrite Hs in Hd, Hv |- *. rewrite <- Hv. by apply number_int.
Qed.

(** ** Entries *)

Lemma param_name_chars i : i ∈ syslog_field_info -> json_string (34 :: param_name i ++ [34]) (param_name i).
Proof.
  intros Hi. apply string_quoted.
  assert (Forall (fun c => 97 <= c <= 122) (param_name i)) as Hc.
  { revert i Hi. apply (list.Forall_forall (fun i => Forall (fun c => 97 <= c <= 122) (param_name i))).
    by apply (bool_decide_unpack _). }
  clear Hi. induction Hc; constructor; try lia; done.
Qed.

Lemma table_without_integers i : i ∈ syslog_field_info -> info_type i <> SYSLOG_FIELD_TYPE_INTEGER.
Proof.
  revert i. apply (list.Forall_forall (fun i => info_type i <> SYSLOG_FIELD_TYPE_INTEGER)).
  by repeat constructor.
Qed.

Section entry.
Context {tm : Type} (strftime : nat -> list Z -> tm -> list Z) (config : config_t).
Implicit Types (f : syslog_field tm) (fs : list (syslog_field tm)) (e : syslog_entry tm).
Context (times : forall (t : tm) u, Forall jsonable (syslog_field_time_fmt strftime config t u)).

Definition json_of_value f : json_value :=
  match value f with
  | V_time t u => JString (syslog_field_time_fmt strftime config t u)
  | V_uinteger n | V_integer n => JNumber n
  | V_string s => JString s
  | V_none => JObject []
  end.
Definition json_of_entry e : json_value :=
  JObject (map (fun f => (param_name (info f), json_of_value f)) (List.filter shown (fields e))).

Lemma json_value_ok f t :
  known f -> valued jsonable f -> print_value strftime config json_quoted json_quoted f = Some t ->
  json t (json_of_value f).
Proof.
  intros Hk. apply table_without_integers in Hk. unfold valued, print_value, json_of_value.
  destruct (info_type (info f)), (value f); try done; intros Hv Ht.
  - apply json_is_string. by apply json_quoted_string.
  - injection Ht as <-. by apply json_print_u.
  - apply json_is_string. by apply json_quoted_string.
Qed.

(** The text of a member, after a comma unless it is the first. *)
Definition print_member (first : bool) f : option (list Z) :=
  v ← print_value strftime config json_quoted json_quoted f;
  Some ((if first then [] else [44]) ++ [34] ++ param_name (info f) ++ [34; 58] ++ v).

Lemma print_member_ok first f t :
  known f -> valued jsonable f -> print_member first f = Some t ->
  exists k v, t = comma first (k ++ 58 :: v) /\ json_string k (param_name (info f)) /\ json v (json_of_value f).
Proof.
  intros Hk Hv. unfold print_member. destruct (print_value _ _ _ _ f) as [v|] eqn:Hp; [|done]. intros [= <-].
  exists (34 :: param_name (info f) ++ [34]), v. split; [|split; [by apply param_name_chars|by apply json_value_ok]].
  unfold comma. simpl. by rewrite <- app_assoc.
Qed.

Lemma print_members_ok fs t first :
  Forall known fs -> Forall (valued jsonable) fs -> print_fields print_member first fs = Some t ->
  let ms := map (fun f => (param_name (info f), json_of_value f)) (List.filter shown fs) in
  if first then json_members t ms else more_members t ms.
Proof.
  intros Hk. revert t first. induction Hk as [|f fs Hf _ IH]; intros t first Hv; simpl.
  - intros [= <-]. destruct first; constructor.
  - inversion_clear Hv as [|? ? Hvf Hvs]. destruct (shown f); [|by apply IH].
    destruct (print_member first f) as [s|] eqn:Hs; [|done]. simpl.
    destruct (print_fields print_member false fs) as [u|] eqn:Hu; [|done]. intros [= <-].
    apply print_member_ok in Hs as (k & v & -> & Hkey & Hval); [|done..].
    pose proof (IH u false Hvs Hu) as Hms. simpl in Hms.
    destruct first; simpl; [by apply members_more|by constructor].
Qed.

Lemma json_output_entry e t :
  Forall known (fields e) -> Forall (valued jsonable) (fields e) ->
  fmt_json_output_entry strftime config e = Some t ->
  exists u, t = comma (negb (1 <? num e)) u /\ json u (json_of_entry e).
Proof.
  intros Hk Hv. unfold fmt_json_output_entry. change (fun first f => _) with print_member.
  destruct (print_fields print_member true (fields e)) as [s|] eqn:Hs; [|done]. intros [= <-].
  exists ([123] ++ s ++ [125]). split; [by destruct (1 <? num e)|].
  apply json_is_object. by apply print_members_ok in Hs.
Qed.
End entry.

(** ** Documents *)

(** The other elements of an array, each after a comma. *)
Inductive more_elements : list Z -> list json_value -> Prop :=
  | more_elements_nil : more_elements [] []
  | more_elements_cons t v u vs : json t v -> more_elements u vs -> more_elements (44 :: t ++ u) (v :: vs).

Lemma elements_more t v u vs : json t v -> more_elements u vs -> json_elements (t ++ u) (v :: vs).
Proof.
  intros Ht Hu. revert t v Ht. induction Hu as [|t' v' u vs Ht' _ IH]; intros t v Ht.
  - rewrite app_nil_r. by constructor.
  - constructor; auto.
Qed.

Section document.
Context {tm : Type} (strptime : list Z -> list Z -> tm -> option (list Z) * tm) (mktime : tm -> tm * Z).
Context (strftime : nat -> list Z -> tm -> list Z) (timezone : Z) (garbage : tm).
Context (facilitynames prioritynames : list (list Z * Z)) (config : config_t).
Implicit Types (e : syslog_entry tm) (es : list (syslog_entry tm)).

Definition printable e : Prop := Forall known (fields e) /\ Forall (valued jsonable) (fields e).

Section times.
Context (times : forall (t : tm) u, Forall jsonable (syslog_field_time_fmt strftime config t u)).

Lemma json_other_entries n es outs :
  1 <= n -> n + Z.of_nat (length es) < 4294967296 -> numbered n es -> Forall printable es ->
  mapM (fmt_json_output_entry strftime config) es = Some outs ->
  more_elements (concat outs) (map (json_of_entry strftime config) es).
Proof.
  intros Hn Hlen Hnum Hp. revert n Hn Hlen Hnum outs.
  induction Hp as [|e es [Hk Hv] _ IH]; intros n Hn Hlen Hnum outs; simpl; [intros [= <-]; constructor|].
  destruct Hnum as [He Hnum]. simpl in Hlen. rewrite u32_small in He, Hnum by lia.
  destruct (fmt_json_output_entry strftime config e) as [s|] eqn:Hs; [|done]. simpl.
  destruct (mapM _ es) as [ss|] eqn:Hss; [|done]. intros [= <-].
  apply json_output_entry in Hs as (u & -> & Hu); [|done..].
  rewrite He, (proj2 (Z.ltb_lt 1 (n + 1))) by lia. simpl. constructor; [done|]. apply (IH (n + 1)); [lia..|done|done].
Qed.

Lemma json_entries es outs :
  Z.of_nat (length es) < 4294967296 -> numbered 0 es -> Forall printable es ->
  mapM (fmt_json_output_entry strftime config) es = Some outs ->
  json_elements (concat outs) (map (json_of_entry strftime config) es).
Proof.
  intros Hlen Hnum Hp. destruct Hp as [|e es [Hk Hv] Hp]; simpl; [intros [= <-]; constructor|].
  destruct Hnum as [He Hnum]. simpl in Hlen.
  destruct (fmt_json_output_entry strftime config e) as [s|] eqn:Hs; [|done]. simpl.
  destruct (mapM _ es) as [ss|] eqn:Hss; [|done]. intros [= <-].
  apply json_output_entry in Hs as (u & -> & Hu); [|done..]. rewrite He. simpl.
  apply elements_more; [done|]. by apply (json_other_entries 1); [lia|lia|..].
Qed.
End times.
End document.

(** ** syslog_fc: parameters for the witnesses

    A struct tm is a number of seconds; strptime reads and strftime prints it
    in decimal. *)

Definition demo_strptime (s spec : list Z) (t : Z) : option (list Z) * Z :=
  match s with
  | c :: _ => if is_digit 10 c then let '(v, rest) := read_digits 10 0 s in (Some rest, v) else (None, t)
  | [] => (None, t)
  end.
Definition demo_mktime (t : Z) : Z * Z := (t, t).
Definition demo_strftime (n : nat) (spec : list Z) (t : Z) : list Z := print_u t.

Definition demo_facilities : list (list Z * Z) := [(str "kern", 0); (str "user", 8); (str "daemon", 24)].
Definition demo_priorities : list (list Z * Z) := [(str "emerg", 0); (str "err", 3); (str "info", 6)].

Definition demo_config (fmt : output_fmt_t) : config_t := default_config <| output_fmt := fmt |>.

(** The fields of the default specification. *)
Definition demo_entry : syslog_entry Z :=
  match syslog_entry_init (entry_spec default_config) with Done e => e | _ => empty_entry end.

Definition demo_log : list Z :=
  str "1561400000 kern.info init: started" ++ [10] ++ str "no entry" ++ [10] ++
  str "1561400001 daemon.3 mstpd[12]:  port 3 is up".

Lemma demo_strptime_ok : strptime_ok demo_strptime.
Proof.
  intros s spec t r t'. unfold demo_strptime. destruct s as [|c s]; [done|]. destruct (is_digit 10 c); [|done].
  destruct (read_digits 10 0 (c :: s)) as [v rest] eqn:H. intros [= <- <-].
  apply (f_equal snd) in H. simpl snd in H at 2. rewrite <- H. apply read_digits_suffix.
Qed.

Lemma demo_names_ok (P : Z -> Prop) : (forall c, 97 <= c <= 122 -> P c) -> names_ok demo_priorities P.
Proof.
  intros HP n v Hn. assert (Forall (fun c => Forall (fun c => 97 <= c <= 122) c.1) demo_priorities) as H
    by (by apply (bool_decide_unpack _)).
  rewrite list.Forall_forall in H. apply H in Hn. by apply (list.Forall_impl _ _ _ Hn).
Qed.

Lemma jsonable_no_escape s : Forall jsonable s -> 27 ∉ s.
Proof. intros Hs H27. rewrite list.Forall_forall in Hs. apply Hs in H27 as [|H27]; [lia|set_solver]. Qed.

Lemma print_u_jsonable n : Forall jsonable (print_u n).
Proof.
  unfold print_u. eapply list.Forall_impl; [apply digits_decimal; apply u32_range|].
  intros c. unfold decimal, jsonable. lia.
Qed.

Lemma demo_times fmt t u : Forall jsonable (syslog_field_time_fmt demo_strftime (demo_config fmt) t u).
Proof. apply print_u_jsonable. Qed.
