(* ===== verification/SyslogTheorems.v ===== *)
(** * syslog_fc: what a conversion does

    Conversions end without reading behind the end of a string; they print the
    entries of the lines of the file; the JSON output is a JSON text. *)

From stdpp Require Import sets.
From S2P Require Import Prelude CLib CLibOk Syslog SyslogFormats SyslogMain SyslogOk SyslogLines SyslogRun SyslogJson.

Section theorems.
Context {tm : Type} (strptime : list Z -> list Z -> tm -> option (list Z) * tm) (mktime : tm -> tm * Z).
Context (strftime : nat -> list Z -> tm -> list Z) (timezone : Z) (garbage : tm).
Context (facilitynames prioritynames : list (list Z * Z)) (config : config_t).
Implicit Types (e : syslog_entry tm).

(** C26: The conversion of a file without 0 octets ends with an output and a
    result, whatever the lines are, and reads behind the end of no string, if
    the specification does not make its parser do so: in every format but JSON
    without a condition, and in JSON if neither the file nor the texts of times
    have an escape character (27). *)
Theorem conversion_ends input :
  strptime_ok strptime -> names_ok prioritynames (fun c => c <> 0 /\ c <> 27) -> 0 ∉ input ->
  syslog_entry_init (tm := tm) (entry_spec config) <> Overrun ->
  (output_fmt config = fmt_json ->
    27 ∉ input /\ forall (t : tm) u, 27 ∉ syslog_field_time_fmt strftime config t u) ->
  exists out ret,
    convert_syslog strptime mktime strftime timezone garbage facilitynames prioritynames config input
      = Converted out ret.
Proof.
  intros Hst Hnames H0 Hspec Hjson.
  set (P := fun c => c <> 0 /\ (output_fmt config = fmt_json -> c <> 27)).
  apply (convert_syslog_returns _ _ _ _ _ _ _ _ P Hst); try done.
  - intros n v Hn. eapply list.Forall_impl; [by eapply Hnames|]. unfold P. naive_solver.
  - intros Hfmt. split; [intros c Hc; by apply Hc|]. by apply Hjson.
  - by intros c [Hc _].
  - apply list.Forall_forall. intros c Hc. split; [by intros ->|]. intros Hfmt ->. by destruct (Hjson Hfmt).
Qed.

(** C27: In every format but JSON, for a text file (no 0, no carriage return)
    without overlong lines, the
    reading of pieces into a growing buffer is the same as splitting the file
    into its lines: the start, every entry parsed from a line and the end of
    the format are printed, and the conversion succeeds. *)
Theorem conversion_prints_entries e input :
  syslog_entry_init (entry_spec config) = Done e -> output_fmt config <> fmt_json ->
  strptime_ok strptime -> text input -> Forall (fun l => length l <= LINE_MAX)%nat (lines_of input) ->
  exists start outs, fn_output_start strftime config e = Some start /\
    mapM (fn_output_entry strftime config)
      (entries strptime mktime timezone garbage facilitynames prioritynames config e 0 (lines_of input)) = Some outs /\
    convert_syslog strptime mktime strftime timezone garbage facilitynames prioritynames config input
      = Converted (start ++ concat outs ++ fn_output_end config) None.
Proof.
  intros He Hfmt Hst Ht Hmax.
  apply (convert_syslog_lines _ _ _ _ _ _ _ _ (fun _ => True)); try done.
  - intros n v Hn. by apply Forall_true.
  - by apply Forall_true.
Qed.

(** C24: The JSON output for a text file is a JSON text: the array of the
    objects of the entries that the lines of the file are parsed to, in
    order, each with the fields that are not dropped. *)
Theorem json_output_is_json e input :
  output_fmt config = fmt_json -> syslog_entry_init (entry_spec config) = Done e ->
  strptime_ok strptime -> names_ok prioritynames jsonable ->
  (forall (t : tm) u, Forall jsonable (syslog_field_time_fmt strftime config t u)) ->
  Forall jsonable input -> 13 ∉ input -> Forall (fun l => length l <= LINE_MAX)%nat (lines_of input) ->
  Z.of_nat (length input) < 4294967296 ->
  exists out,
    convert_syslog strptime mktime strftime timezone garbage facilitynames prioritynames config input
      = Converted out None /\
    json out (JArray (map (json_of_entry strftime config)
      (entries strptime mktime timezone garbage facilitynames prioritynames config e 0 (lines_of input)))).
Proof.
  intros Hfmt He Hst Hnames Htimes Hi H13 Hmax Hlen.
  assert (forall c, jsonable c -> c <> 27 /\ c <> 0) as Hj by (intros c [|Hc]; [lia|set_solver]).
  assert (no_escapes (tm := tm) strftime config jsonable) as Hesc.
  { intros _. split; [by intros c Hc; apply Hj|]. intros t u H27.
    specialize (Htimes t u). rewrite list.Forall_forall in Htimes. by apply Htimes, Hj in H27 as [? _]. }
  assert (text input) as Ht.
  { split; [|done]. intros H0. rewrite list.Forall_forall in Hi. by apply Hi, Hj in H0 as [_ ?]. }
  pose proof (syslog_entry_init_ready _ _ He) as Hr.
  destruct (convert_syslog_lines strptime mktime strftime timezone garbage facilitynames prioritynames config
    jsonable Hst Hnames Hesc e input He Hi Ht Hmax) as (start & outs & Hs & Ho & Hc).
  eexists. split; [exact Hc|]. unfold fn_output_start in Hs. unfold fn_output_end. rewrite Hfmt in Hs |- *.
  injection Hs as <-. apply json_is_array.
  apply json_entries; [done| |apply entries_numbered| |].
  - pose proof (length_entries strptime mktime timezone garbage facilitynames prioritynames config e 0 (lines_of input)).
    pose proof (length_lines_of input). lia.
  - pose proof (entries_ok strptime mktime timezone garbage facilitynames prioritynames config jsonable Hst Hnames
      e 0 (lines_of input) Hr (lines_of_Forall _ _ Hi)) as Hok.
    apply (list.Forall_impl _ _ _ Hok). intros e'. unfold printable. tauto.
  - unfold fn_output_entry in Ho. by rewrite Hfmt in Ho.
Qed.
End theorems.

Lemma conversion_ends_witness :
  exists out ret, convert_syslog demo_strptime demo_mktime demo_strftime 0 0 demo_facilities demo_priorities
    (demo_config fmt_json) demo_log = Converted out ret.
Proof.
  apply conversion_ends.
  - apply demo_strptime_ok.
  - apply demo_names_ok. unfold jsonable. lia.
  - by apply (bool_decide_unpack _).
  - done.
  - intros _. split; [by apply (bool_decide_unpack _)|]. intros t u. apply jsonable_no_escape, demo_times.
Defined.

Lemma conversion_prints_entries_witness :
  exists e start outs, syslog_entry_init (entry_spec (demo_config fmt_csv)) = Done e /\
    fn_output_start demo_strftime (demo_config fmt_csv) e = Some start /\
    mapM (fn_output_entry demo_strftime (demo_config fmt_csv))
      (entries demo_strptime demo_mktime 0 0 demo_facilities demo_priorities (demo_config fmt_csv) e 0
        (lines_of demo_log)) = Some outs /\
    convert_syslog demo_strptime demo_mktime demo_strftime 0 0 demo_facilities demo_priorities (demo_config fmt_csv)
      demo_log = Converted (start ++ concat outs ++ []) None.
Proof.
  destruct (syslog_entry_init (tm := Z) (entry_spec (demo_config fmt_csv))) as [e| |] eqn:He; [|done..].
  destruct (conversion_prints_entries demo_strptime demo_mktime demo_strftime 0 0 demo_facilities demo_priorities
    (demo_config fmt_csv) e demo_log He) as (start & outs & H).
  - done.
  - apply demo_strptime_ok.
  - unfold text. by apply (bool_decide_unpack _).
  - by apply (bool_decide_unpack _).
  - by exists e, start, outs.
Defined.

Lemma json_output_is_json_witness :
  exists e out, syslog_entry_init (entry_spec (demo_config fmt_json)) = Done e /\
    convert_syslog demo_strptime demo_mktime demo_strftime 0 0 demo_facilities demo_priorities (demo_config fmt_json)
      demo_log = Converted out None /\
    json out (JArray (map (json_of_entry demo_strftime (demo_config fmt_json))
      (entries demo_strptime demo_mktime 0 0 demo_facilities demo_priorities (demo_config fmt_json) e 0
        (lines_of demo_log)))).
Proof.
  destruct (syslog_entry_init (tm := Z) (entry_spec (demo_config fmt_json))) as [e| |] eqn:He; [|done..].
  destruct (json_output_is_json demo_strptime demo_mktime demo_strftime 0 0 demo_facilities demo_priorities
    (demo_config fmt_json) e demo_log eq_refl He) as (out & H).
  - apply demo_strptime_ok.
  - apply demo_names_ok. unfold jsonable. lia.
  - apply demo_times.
  - unfold jsonable. by apply (bool_decide_unpack _).
  - by apply (bool_decide_unpack _).
  - by apply (bool_decide_unpack _).
  - done.
  - by exists e, out.
Defined.
