(* ===== verification/SyslogCsv.v ===== *)
(** * syslog_fc: CSV is read back

    A reader of comma-separated values (RFC 4180): a cell in double quotes,
    in which a double quote is doubled, or up to the next delimiter or the end
    of the record. What the CSV format prints of an entry is read back as the
    values of the entry. *)

From stdpp Require Import sets.
From S2P Require Import Prelude CLib CLibOk Syslog SyslogFormats SyslogMain SyslogOk SyslogLines SyslogRun SyslogJson.

(** ** The reader *)

(** The rest of a quoted cell. *)
Fixpoint read_quoted (s : list Z) : option (list Z * list Z) :=
  match s with
  | [] => None
  | c :: s =>
      if c =? 34 then
        match s with
        | d :: s' => if d =? 34 then '(cell, rest) ← read_quoted s'; Some (34 :: cell, rest) else Some ([], s)
        | [] => Some ([], [])
        end
      else '(cell, rest) ← read_quoted s; Some (c :: cell, rest)
  end.

Fixpoint read_plain (delimiter : Z) (s : list Z) : list Z * list Z :=
  match s with
  | [] => ([], [])
  | c :: s' =>
      if (c =? delimiter) || (c =? 10) then ([], s) else let '(cell, rest) := read_plain delimiter s' in (c :: cell, rest)
  end.

Definition read_cell (delimiter : Z) (s : list Z) : option (list Z * list Z) :=
  match s with
  | c :: s' => if c =? 34 then read_quoted s' else Some (read_plain delimiter s)
  | [] => Some ([], [])
  end.

(** A record of at most [fuel] cells, and what follows its newline. *)
Fixpoint read_record (fuel : nat) (delimiter : Z) (s : list Z) : option (list (list Z) * list Z) :=
  match fuel with
  | O => None
  | S fuel =>
      '(cell, rest) ← read_cell delimiter s;
      match rest with
      | c :: rest =>
          if c =? delimiter then '(cells, rest) ← read_record fuel delimiter rest; Some (cell :: cells, rest)
          else if c =? 10 then Some ([cell], rest)
          else None
      | [] => None
      end
  end.

(** [n] records of [fuel] cells, and nothing behind them. *)
Fixpoint read_records (n fuel : nat) (delimiter : Z) (s : list Z) : option (list (list (list Z))) :=
  match n with
  | O => match s with [] => Some [] | _ => None end
  | S n => '(record, s) ← read_record fuel delimiter s; cons record <$> read_records n fuel delimiter s
  end.

(** ** Cells *)

Lemma read_quoted_escaped s rest : head rest <> Some 34 -> read_quoted (csv_escape s ++ 34 :: rest) = Some (s, rest).
Proof.
  intros Hr. induction s as [|c s IH]; simpl.
  - destruct rest as [|d rest]; [done|]. destruct (Z.eqb_spec d 34) as [->|]; [by destruct Hr|done].
  - destruct (Z.eqb_spec c 34) as [->|Hc]; simpl; [by rewrite IH|].
    rewrite (proj2 (Z.eqb_neq c 34)) by done. by rewrite IH.
Qed.

Lemma read_plain_spec d s rest :
  Forall (fun c => c <> d /\ c <> 10) s -> (head rest = Some d \/ head rest = Some 10) ->
  read_plain d (s ++ rest) = (s, rest).
Proof.
  intros Hs Hr. induction Hs as [|c s [Hd H10] _ IH]; simpl.
  - destruct rest as [|x rest]; [done|]. simpl in *. simplify_eq.
    assert ((x =? d) || (x =? 10) = true) as ->; [|done].
    rewrite orb_true_iff, !Z.eqb_eq. destruct Hr as [[=]|[=]]; auto.
  - by rewrite (proj2 (Z.eqb_neq c d)), (proj2 (Z.eqb_neq c 10)), IH.
Qed.

Section csv.
Context {tm : Type} (strftime : nat -> list Z -> tm -> list Z) (config : config_t) (d : Z).
Context (delimiter : csv_delimeter config = [d]) (not_quote : d <> 34) (not_newline : d <> 10) (not_digit : ~ decimal d).
Implicit Types (f : syslog_field tm) (fs : list (syslog_field tm)) (e : syslog_entry tm).

(** The text of a value. *)
Definition cell_text f : list Z :=
  match value f with
  | V_time t u => syslog_field_time_fmt strftime config t u
  | V_uinteger n | V_integer n => print_u n
  | V_string s => s
  | V_none => []
  end.

Definition print_cell f : option (list Z) :=
  print_value strftime config (fun s => Some (fmt_csv_output_encoded s)) (fun s => Some (fmt_csv_output_encoded s)) f.

Lemma print_cell_read f t rest :
  known f -> valued (fun _ => True) f -> print_cell f = Some t -> (head rest = Some d \/ head rest = Some 10) ->
  read_cell d (t ++ rest) = Some (cell_text f, rest).
Proof.
  intros Hk. apply table_without_integers in Hk. unfold valued, print_cell, print_value, cell_text.
  assert (forall s, (head rest = Some d \/ head rest = Some 10) ->
    read_cell d (fmt_csv_output_encoded s ++ rest) = Some (s, rest)) as Hq.
  { intros s Hr. unfold fmt_csv_output_encoded. simpl. rewrite <- app_assoc. simpl. apply read_quoted_escaped.
    destruct Hr as [-> | ->]; congruence. }
  destruct (info_type (info f)), (value f); try done; intros Hv [= <-] Hr; [by apply Hq| |by apply Hq].
  destruct (print_u_spec _ Hv) as (Hd & _ & Hh).
  assert (read_plain d (print_u n ++ rest) = (print_u n, rest)) as Hp.
  { apply read_plain_spec; [|done]. apply (list.Forall_impl _ _ _ Hd). intros c Hc. split; [congruence|].
    unfold decimal in Hc. lia. }
  unfold read_cell. destruct (print_u n ++ rest) as [|c s] eqn:Hs; [by rewrite <- Hp|].
  destruct (Z.eqb_spec c 34) as [->|Hc]; [|by rewrite Hp].
  exfalso. destruct Hh as [[_ H0]|(c & s' & H0 & _)]; rewrite H0 in Hs, Hd; [done|].
  injection Hs as -> _. inversion_clear Hd. unfold decimal in *. lia.
Qed.

Lemma print_cells_read fs t first rest :
  Forall known fs -> Forall (valued (fun _ => True)) fs ->
  print_fields (csv_cell config print_cell) first fs = Some t ->
  let cells := map cell_text (List.filter shown fs) in
  (cells = [] /\ t = []) \/
  (exists u, t = (if first then [] else [d]) ++ u /\
    read_record (length cells) d (u ++ 10 :: rest) = Some (cells, rest)).
Proof.
  intros Hk. revert t first. induction Hk as [|f fs Hf _ IH]; intros t first Hv; simpl; [intros [= <-]; by left|].
  inversion_clear Hv as [|? ? Hvf Hvs]. destruct (shown f); [|by apply IH]. intros H. right.
  destruct (csv_cell config print_cell first f) as [w|] eqn:Hw; [|done]. simpl in H.
  destruct (print_fields _ false fs) as [s|] eqn:Hs; [|done]. injection H as <-. unfold csv_cell in Hw.
  destruct (print_cell f) as [v|] eqn:Hc; [|done]. injection Hw as <-. rewrite delimiter.
  exists (v ++ s). split; [by rewrite <- app_assoc|]. rewrite <- app_assoc. simpl.
  destruct (IH s false Hvs Hs) as [[Hnil ->]|(u & -> & Hu)]; simpl.
  - rewrite (print_cell_read f v) by auto. cbn -[Z.eqb]. rewrite (proj2 (Z.eqb_neq 10 d)) by done. simpl. by rewrite Hnil.
  - rewrite (print_cell_read f v) by auto. simpl. rewrite Z.eqb_refl, Hu. done.
Qed.

Definition record_text e : list (list Z) := map cell_text (List.filter shown (fields e)).

Lemma print_record_read e t rest :
  Forall known (fields e) -> Forall (valued (fun _ => True)) (fields e) -> List.filter shown (fields e) <> [] ->
  fmt_csv_output_entry strftime config e = Some t ->
  read_record (length (List.filter shown (fields e))) d (t ++ rest) = Some (record_text e, rest).
Proof.
  intros Hk Hv Hne. unfold fmt_csv_output_entry. fold print_cell.
  destruct (print_fields _ true (fields e)) as [s|] eqn:Hs; [|done]. intros [= <-]. rewrite <- app_assoc. simpl.
  destruct (print_cells_read _ _ _ rest Hk Hv Hs) as [[Hnil _]|(u & -> & Hu)].
  - by apply map_eq_nil in Hnil.
  - rewrite length_map in Hu. exact Hu.
Qed.

Lemma print_records_read n (es : list (syslog_entry tm)) outs :
  (0 < n)%nat ->
  Forall (fun e => Forall known (fields e) /\ Forall (valued (fun _ => True)) (fields e) /\
    length (List.filter shown (fields e)) = n) es ->
  mapM (fmt_csv_output_entry strftime config) es = Some outs ->
  read_records (length es) n d (concat outs) = Some (map record_text es).
Proof.
  intros Hn Hes. revert outs. induction Hes as [|e es (Hk & Hv & Hl) _ IH]; intros outs; simpl; [by intros [= <-]|].
  destruct (fmt_csv_output_entry strftime config e) as [t|] eqn:Ht; [|done]. simpl.
  destruct (mapM _ es) as [ss|] eqn:Hss; [|done]. intros [= <-]. simpl.
  pose proof (print_record_read e t (concat ss) Hk Hv) as Hr. rewrite Hl in Hr. rewrite Hr; [|by destruct (List.filter _ _); simpl in Hl; [lia|]|done].
  simpl. by rewrite (IH ss).
Qed.
End csv.

Lemma shape_shown {tm} (fs fs' : list (syslog_field tm)) :
  map shape fs' = map shape fs -> length (List.filter shown fs') = length (List.filter shown fs).
Proof.
  revert fs. induction fs' as [|f' fs' IH]; intros [|f fs] Hm; try done. simpl.
  pose proof (f_equal head Hm) as Hf. apply (f_equal (drop 1)) in Hm. simpl in Hm, Hf. rewrite !drop_0 in Hm.
  assert (shown f' = shown f) as -> by (unfold shown; by injection Hf as _ -> _).
  destruct (shown f); simpl; auto.
Qed.

Section conversion.
Context {tm : Type} (strptime : list Z -> list Z -> tm -> option (list Z) * tm) (mktime : tm -> tm * Z).
Context (strftime : nat -> list Z -> tm -> list Z) (timezone : Z) (garbage : tm).
Context (facilitynames prioritynames : list (list Z * Z)) (config : config_t).

(** C25: The records that the CSV format prints for a text file, with a
    delimiter that is no quote, newline or digit, are read back by the rules
    of RFC 4180 as the values of the entries of its lines, one record for each
    entry, whatever octets the values have. *)
Theorem csv_is_read_back d (e : syslog_entry tm) input :
  let es := entries strptime mktime timezone garbage facilitynames prioritynames config e 0 (lines_of input) in
  let shown_n := length (List.filter shown (fields e)) in
  output_fmt config = fmt_csv -> csv_delimeter config = [d] -> d <> 34 -> d <> 10 -> ~ decimal d ->
  syslog_entry_init (entry_spec config) = Done e -> (0 < shown_n)%nat ->
  strptime_ok strptime -> text input -> Forall (fun l => length l <= LINE_MAX)%nat (lines_of input) ->
  exists header records,
    fmt_csv_output_start config e = Some header /\
    convert_syslog strptime mktime strftime timezone garbage facilitynames prioritynames config input
      = Converted (header ++ records) None /\
    read_records (length es) shown_n d records = Some (map (record_text strftime config) es).
Proof.
  intros es n Hfmt Hd H34 H10 Hdig He Hn Hst Ht Hmax.
  assert (forall s, Forall (fun _ : Z => True) s) as Htrue by (intros s; by apply Forall_true).
  assert (no_escapes (tm := tm) strftime config (fun _ => True)) as Hesc by (intros H; by rewrite Hfmt in H).
  destruct (convert_syslog_lines strptime mktime strftime timezone garbage facilitynames prioritynames config
    (fun _ => True) Hst (fun n v _ => Htrue n) Hesc e input He (Htrue input) Ht Hmax) as (start & outs & Hs & Ho & Hc).
  unfold fn_output_start, fn_output_end in *. rewrite Hfmt in Hs, Hc. exists start, (concat outs).
  split_and!; [done|by rewrite app_nil_r in Hc|].
  apply (print_records_read strftime config d); try done.
  - pose proof (entries_ok strptime mktime timezone garbage facilitynames prioritynames config (fun _ => True) Hst
      (fun n v _ => Htrue n) e 0 (lines_of input) (syslog_entry_init_ready _ _ He)
      (lines_of_Forall _ _ (Htrue input))) as Hok.
    apply (list.Forall_impl _ _ _ Hok). intros e' (Hk & Hv & Hsh). split_and!; [done..|by apply shape_shown].
  - unfold fn_output_entry in Ho. by rewrite Hfmt in Ho.
Qed.
End conversion.

Lemma csv_is_read_back_witness :
  exists header records,
    convert_syslog demo_strptime demo_mktime demo_strftime 0 0 demo_facilities demo_priorities (demo_config fmt_csv)
      demo_log = Converted (header ++ records) None /\
    read_records 2 5 44 records =
      Some [[str "1561400000"; str "kern"; str "info"; str "init"; str "started"];
            [str "1561400001"; str "daemon"; str "err"; str "mstpd[12]"; str " port 3 is up"]].
Proof.
  destruct (csv_is_read_back demo_strptime demo_mktime demo_strftime 0 0 demo_facilities demo_priorities
    (demo_config fmt_csv) 44 demo_entry demo_log eq_refl eq_refl) as (header & records & _ & Hc & Hr).
  - done.
  - done.
  - unfold decimal. lia.
  - vm_compute. reflexivity.
  - by apply Nat.ltb_lt.
  - apply demo_strptime_ok.
  - unfold text. by apply (bool_decide_unpack _).
  - by apply (bool_decide_unpack _).
  - exists header, records. split; [exact Hc|]. clear Hc. vm_compute in Hr. vm_compute. exact Hr.
Defined.
