(* ===== verification/SyslogSpec.v ===== *)
(** * syslog_fc: accepted specifications, and lines of the default one

    What [syslog_entry_init] promises of the fields of an accepted
    specification, and which values are read from a line of the default
    format. *)

From stdpp Require Import sets.
From S2P Require Import Prelude CLib CLibOk Syslog SyslogFormats SyslogMain SyslogOk SyslogRun SyslogJson.

(** ** Accepted specifications *)

Definition field_id {tm} (f : syslog_field tm) : syslog_field_id_t := info_id (info f).
Definition bit (i : syslog_field_id_t) : Z := Z.shiftl 1 (id_number i).

Lemma has_bit m k : 0 <= k -> has m (Z.shiftl 1 k) = Z.testbit m k.
Proof.
  intros Hk. unfold has. rewrite Z.shiftl_1_l. destruct (Z.testbit m k) eqn:Hb.
  - apply negb_true_iff, Z.eqb_neq. intros H0. apply (f_equal (fun x => Z.testbit x k)) in H0.
    by rewrite Z.land_spec, Hb, Z.pow2_bits_true, Z.testbit_0_l in H0.
  - apply negb_false_iff, Z.eqb_eq. apply Z.bits_inj'. intros n Hn.
    rewrite Z.land_spec, Z.testbit_0_l, Z.pow2_bits_eqb by done. destruct (Z.eqb_spec k n) as [->|]; [by rewrite Hb|].
    apply andb_false_r.
Qed.

Lemma id_number_range i : 0 <= id_number i.
Proof. by destruct i. Qed.
Lemma id_number_inj i j : id_number i = id_number j -> i = j.
Proof. by destruct i, j. Qed.

Lemma has_bit_raise m i j : has (raise (bit i) m) (bit j) = bool_decide (i = j) || has m (bit j).
Proof.
  unfold bit. rewrite has_raise, !has_bit by apply id_number_range. rewrite Z.shiftl_1_l, orb_comm. f_equal.
  rewrite Z.pow2_bits_eqb by apply id_number_range. apply eq_true_iff_eq. rewrite Z.eqb_eq, bool_decide_eq_true.
  split; [apply id_number_inj|by intros ->].
Qed.

Section spec.
Context {tm : Type}.
Implicit Types (e : syslog_entry tm) (f : syslog_field tm).

(** What is promised of an entry: no field is shown twice, the mask is the
    set of the fields, and the numbers count them. *)
Record fields_ok e : Prop := {
  shown_once : NoDup (map field_id (List.filter shown (fields e)));
  mask_is_set i : has (fields_mask e) (bit i) = true <-> exists f, f ∈ fields e /\ field_id f = i;
  counted : fields_num e = u32 (Z.of_nat (length (fields e)));
  shown_counted : fields_output_num e = u32 (Z.of_nat (length (List.filter shown (fields e)))) }.

Lemma u32_add x y : u32 (u32 x + y) = u32 (x + y).
Proof. unfold u32. by rewrite Z.add_mod_idemp_l. Qed.

Lemma fields_ok_app e f m n o :
  fields_ok e -> m = raise (bit (field_id f)) (fields_mask e) -> n = u32 (fields_num e + 1) ->
  o = u32 (fields_output_num e + if shown f then 1 else 0) ->
  (shown f = true -> has (fields_mask e) (bit (field_id f)) = false) ->
  fields_ok (e <| fields_mask := m |> <| fields_num := n |> <| fields_output_num := o |>
               <| fields := fields e ++ [f] |>).
Proof.
  intros [Hn Hm Hc Ho] -> -> -> Hd. split; simpl.
  - rewrite List.filter_app, map_app. simpl. destruct (shown f) eqn:Hs; [|by rewrite app_nil_r].
    apply list.NoDup_app. split_and!; [done| |apply NoDup_singleton]. intros i Hi ->%list_elem_of_singleton.
    specialize (Hd eq_refl). apply list_elem_of_In, in_map_iff in Hi as (g & Hg & Hin).
    apply filter_In in Hin as [Hin _]. apply list_elem_of_In in Hin.
    assert (has (fields_mask e) (bit (field_id f)) = true); [|congruence]. apply Hm. eauto.
  - intros i. rewrite has_bit_raise, orb_true_iff, bool_decide_eq_true, Hm. setoid_rewrite elem_of_app.
    setoid_rewrite list_elem_of_singleton. naive_solver.
  - rewrite Hc, u32_add, length_app. simpl. f_equal. lia.
  - rewrite Ho, u32_add, List.filter_app, length_app. f_equal. simpl. destruct (shown f); simpl; lia.
Qed.

Lemma fields_ok_stop e c : fields_ok e -> fields_ok (stop_last c e).
Proof.
  intros [Hn Hm Hc Ho]. unfold stop_last. destruct (fields e) as [|f fs _] eqn:Hfs using rev_ind.
  { by split. }
  rewrite length_app. simpl. rewrite (Nat.add_sub (length fs) 1).
  replace (length fs) with (length fs + 0)%nat at 1 by lia. rewrite alter_app_r. simpl.
  set (g := f <| parse_stop_char := c |>).
  assert (shown g = shown f /\ field_id g = field_id f) as [Hsh Hid] by done.
  split; simpl.
  - revert Hn. rewrite !List.filter_app, !map_app. simpl. rewrite Hsh. by destruct (shown f); simpl; rewrite ?Hid.
  - intros i. rewrite Hm. setoid_rewrite elem_of_app. setoid_rewrite list_elem_of_singleton.
    split; intros (h & [Hh| ->] & Hi); eauto.
  - rewrite Hc, !length_app. done.
  - rewrite Ho, !List.filter_app, !length_app. simpl. by rewrite Hsh; destruct (shown f).
Qed.

(** In an accepted specification every field but the last has a stop
    character, no field that is shown is given twice, the mask of the entry
    is the set of its fields and its numbers count the fields and the shown
    ones. *)
Theorem accepted_specification spec e :
  syslog_entry_init spec = Done e -> ready e /\ fields_ok e.
Proof.
  intros He. split; [by eapply syslog_entry_init_ready|]. unfold syslog_entry_init in He.
  destruct (init_loop _ _) as [st| |] eqn:H; simpl in He; [|done..]. injection He as <-.
  eapply (init_loop_ind (fun st => fields_ok (entry st))) in H; [exact H|..]; simpl.
  - intros c st1 H1. unfold init_literal. case_match; [by apply fields_ok_stop|done].
  - done.
  - intros c st1 st2 H1 _. unfold init_field. destruct (find_info _ _) as [i|]; [|by case_match; [intros [= <-]|]].
    destruct (_ && _) eqn:Hdup; [done|]. intros [= <-]. cbn [entry].
    apply fields_ok_app; [done..| |].
    + unfold shown. cbn [flags]. by destruct (has (new_flags st1) _).
    + unfold shown. cbn [flags]. intros Hs. by rewrite Hs in Hdup.
  - split; simpl; [constructor|intros i; split; [by destruct i|intros (f & Hf & _); set_solver]|done..].
Qed.
End spec.

(** ** Lines of the default specification *)

(** Characters of a value that is read back: no end of line. *)
Definition inline (s : list Z) : Prop := 13 ∉ s /\ 10 ∉ s.
(** A value that begins with a character other than a space. *)
Definition word (s : list Z) : Prop := exists c s', s = c :: s' /\ isspace c = false.

Lemma strchr_first v c rest : c ∉ v -> strchr (v ++ c :: rest) c = Some (c :: rest).
Proof. intros Hv. apply strchr_Some. by exists v. Qed.

Lemma skip_spaces_word blanks s rest :
  forallb isspace blanks = true -> word s -> skip_spaces (blanks ++ s ++ rest) = s ++ rest.
Proof.
  intros Hb (c & s' & -> & Hc). induction blanks as [|b blanks IH]; simpl in *; [by rewrite Hc|].
  apply andb_true_iff in Hb as [-> Hb]. by apply IH.
Qed.

Lemma cut_line_end s rest : inline s -> cut_line (s ++ 10 :: rest) = s.
Proof.
  intros [H13 H10]. induction s as [|c s IH]; simpl; [done|]. rewrite not_elem_of_cons in H13, H10.
  destruct H13 as [Hc Hs], H10 as [Hc' Hs']. rewrite (proj2 (Z.eqb_neq c 13)), (proj2 (Z.eqb_neq c 10)) by done.
  simpl. by rewrite IH.
Qed.

Lemma cut_line_inline s : inline s -> cut_line s = s.
Proof.
  intros [H13 H10]. induction s as [|c s IH]; simpl; [done|]. rewrite not_elem_of_cons in H13, H10.
  destruct H13 as [Hc Hs], H10 as [Hc' Hs']. rewrite (proj2 (Z.eqb_neq c 13)), (proj2 (Z.eqb_neq c 10)) by done.
  simpl. by rewrite IH.
Qed.

(** The fields of the default specification, before the first line. *)
Definition default_entry {tm} : syslog_entry tm :=
  match syslog_entry_init (entry_spec default_config) with Done e => e | _ => empty_entry end.

(** The information on a field. *)
Definition the_info (n : nat) : syslog_field_info_t :=
  nth n syslog_field_info (mk_syslog_field_info_t SYSLOG_FIELD_ID_ID SYSLOG_FIELD_TYPE_UINTEGER 0 [] []).

Lemma default_shapes {tm} :
  map shape (fields (default_entry (tm := tm))) =
    [(the_info 1, false, false, 0, 32); (the_info 4, false, false, 0, 46); (the_info 5, false, false, 0, 32);
     (the_info 6, false, false, 0, 58); (the_info 7, false, true, 32, 0)].
Proof. vm_compute. reflexivity. Qed.

Lemma five_inj {A} (a b c d e a' b' c' d' e' : A) :
  [a; b; c; d; e] = [a'; b'; c'; d'; e'] -> a = a' /\ b = b' /\ c = c' /\ d = d' /\ e = e'.
Proof. by intros [=]. Qed.

(** The shape of a field in terms of the field. *)
Lemma field_shape {tm} (f : syslog_field tm) i d nt a z :
  shape f = (i, d, nt, a, z) ->
  info f = i /\ shape f = (i, has (flags f) SYSLOG_FIELD_FLAG_DROP, nt, a, z).
Proof. unfold shape. by intros [= -> -> -> -> ->]. Qed.

Section line.
Context {tm : Type} (strptime : list Z -> list Z -> tm -> option (list Z) * tm) (mktime : tm -> tm * Z).
Context (timezone : Z) (garbage : tm) (facilitynames prioritynames : list (list Z * Z)).
Implicit Types (e : syslog_entry tm) (f : syslog_field tm).
Local Abbreviation field_parse :=
  (syslog_entry_field_parse strptime mktime timezone garbage facilitynames prioritynames default_config).

(** The value stands as it is: no number is replaced by a name, and it is
    valid. *)
Definition acceptable (i : syslog_field_id_t) (v : list Z) : Prop :=
  match i with
  | SYSLOG_FIELD_ID_FACILITY => is_Some (find_syslog_name facilitynames v)
  | SYSLOG_FIELD_ID_PRIORITY => is_Some (find_syslog_name prioritynames v) /\ strisnumber v = false
  | _ => True
  end.

Lemma acceptable_finish f v :
  value f = V_string v -> acceptable (field_id f) v ->
  modifier prioritynames f = f /\ validate facilitynames prioritynames f = None.
Proof.
  unfold acceptable, field_id, modifier, validate, validator, validate_facility, validate_priority, the_string.
  intros Hv Ha. destruct (info_id (info f)); rewrite ?Hv; try by destruct (has _ _).
  - destruct Ha as [x Hx]. rewrite Hx. by destruct (has _ _).
  - destruct Ha as [[x Hx] Hn]. rewrite Hx. unfold mod_priority, the_string. rewrite Hv, Hn. by destruct (has _ _).
Qed.

(** A trimmed string field takes its value up to the stop character. *)
Lemma string_field_read f c blanks v rest :
  shape f = (info f, has (flags f) SYSLOG_FIELD_FLAG_DROP, false, 0, c) ->
  info_type (info f) = SYSLOG_FIELD_TYPE_STRING -> c <> 0 ->
  forallb isspace blanks = true -> word v -> inline v -> c ∉ v -> acceptable (field_id f) v ->
  exists f', field_parse (blanks ++ v ++ c :: rest) f = (f', inl (Some rest)) /\ value f' = V_string v.
Proof.
  intros Hsh Ht Hc0 Hb Hw Hl Hc Ha. unfold syslog_entry_field_parse.
  pose proof (shape_clear f) as Hsh'. rewrite Hsh in Hsh'. set (f0 := f <| flags := _ |>) in *.
  change (info f) with (info f0) in Ht. change (field_id f) with (field_id f0) in Ha. clearbody f0. clear Hsh.
  injection Hsh' as _ _ Hnt Hs0 Hs1. unfold field_start. rewrite Hs0. simpl. rewrite Hnt, skip_spaces_word by done.
  unfold parse_value. rewrite Ht. unfold parse_string. rewrite Hs1, Hnt.
  rewrite (proj2 (Z.eqb_neq c 0)), strchr_first by done.
  rewrite length_app, Nat.add_sub, take_app_length, cut_line_inline by done.
  set (f1 := f0 <| value := V_string v |>).
  destruct (acceptable_finish f1 v eq_refl Ha) as [-> ->]. by exists f1.
Qed.

Lemma time_field_read f s rest t :
  shape f = (info f, has (flags f) SYSLOG_FIELD_FLAG_DROP, false, 0, 32) ->
  info_type (info f) = SYSLOG_FIELD_TYPE_TIME -> field_id f = SYSLOG_FIELD_ID_TIMESTAMP -> word s ->
  (forall old, strptime (s ++ 32 :: rest) (ts_parse_spec default_config) old = (Some (32 :: rest), t)) ->
  exists f', field_parse (s ++ 32 :: rest) f = (f', inl (Some (32 :: rest))) /\
    value f' = V_time (mktime t).1 (u32 ((mktime t).2 - timezone)).
Proof.
  intros Hsh Ht Hid Hw Hst. unfold syslog_entry_field_parse.
  pose proof (shape_clear f) as Hsh'. rewrite Hsh in Hsh'. set (f0 := f <| flags := _ |>) in *.
  change (info f) with (info f0) in Ht. change (field_id f) with (field_id f0) in Hid. clearbody f0. clear Hsh.
  injection Hsh' as _ _ Hnt Hs0 Hs1. unfold field_start. rewrite Hs0. simpl.
  pose proof (skip_spaces_word [] s (32 :: rest) eq_refl Hw) as Hskip. simpl in Hskip. rewrite Hnt, Hskip.
  unfold parse_value. rewrite Ht. unfold parse_timestamp.
  destruct (match value f0 with V_time t u => _ | _ => _ end) as [old u]. rewrite Hst.
  destruct (mktime t) as [t' time]. simpl. set (f1 := f0 <| value := _ |>).
  assert (modifier prioritynames f1 = f1 /\ validate facilitynames prioritynames f1 = None) as [-> ->].
  { unfold modifier, validate, validator. change (info_id (info f1)) with (field_id f0). rewrite Hid.
    split; [reflexivity|]. by destruct (has (flags f1) SYSLOG_FIELD_FLAG_NOVALIDATION). }
  by exists f1.
Qed.

(** What follows a stop character, behind one space, is taken untrimmed to the
    end of the line. *)
Lemma last_field_read f msg :
  shape f = (info f, has (flags f) SYSLOG_FIELD_FLAG_DROP, true, 32, 0) ->
  info_type (info f) = SYSLOG_FIELD_TYPE_STRING -> inline msg -> acceptable (field_id f) msg ->
  exists f', field_parse (32 :: msg ++ [10]) f = (f', inl None) /\ value f' = V_string msg.
Proof.
  intros Hsh Ht Hl Ha. unfold syslog_entry_field_parse.
  pose proof (shape_clear f) as Hsh'. rewrite Hsh in Hsh'. set (f0 := f <| flags := _ |>) in *.
  change (info f) with (info f0) in Ht. change (field_id f) with (field_id f0) in Ha. clearbody f0. clear Hsh.
  injection Hsh' as _ _ Hnt Hs0 Hs1. unfold field_start. rewrite Hs0. simpl. rewrite Hnt.
  unfold parse_value. rewrite Ht. unfold parse_string. rewrite Hs1. simpl. rewrite cut_line_end by done.
  set (f1 := f0 <| value := V_string msg |>).
  destruct (acceptable_finish f1 msg eq_refl Ha) as [-> ->]. by exists f1.
Qed.

(** A line of the default format, "time facility.priority tag: message",
    is parsed to exactly these values whatever the lines before it were: the
    facility and the priority are names of <syslog.h>, the tag has no colon,
    and the message is kept with its spaces up to the end of the line. *)
Theorem default_line_is_read e time_text t fac pri tag msg :
  map shape (fields e) = map shape (fields (default_entry (tm := tm))) ->
  word time_text ->
  (forall rest old, strptime (time_text ++ 32 :: rest) (ts_parse_spec default_config) old = (Some (32 :: rest), t)) ->
  word fac -> inline fac -> 46 ∉ fac -> is_Some (find_syslog_name facilitynames fac) ->
  word pri -> inline pri -> 32 ∉ pri -> is_Some (find_syslog_name prioritynames pri) -> strisnumber pri = false ->
  word tag -> inline tag -> 58 ∉ tag -> inline msg ->
  exists e',
    syslog_entry_parse strptime mktime timezone garbage facilitynames prioritynames default_config e
      (time_text ++ [32] ++ fac ++ [46] ++ pri ++ [32] ++ tag ++ [58; 32] ++ msg ++ [10]) = Done (e', None) /\
    map value (fields e') =
      [V_time (mktime t).1 (u32 ((mktime t).2 - timezone)); V_string fac; V_string pri; V_string tag; V_string msg].
Proof.
  intros Hsh Hwt Hst Hwf Hlf Hf Hnf Hwp Hlp Hp Hnp Hnum Hwg Hlg Hg Hm.
  rewrite default_shapes in Hsh. destruct e as [n m k o fs]. cbn [fields] in Hsh.
  destruct fs as [|f1 [|f2 [|f3 [|f4 [|f5 [|]]]]]]; try discriminate Hsh.
  apply five_inj in Hsh as (S1 & S2 & S3 & S4 & S5).
  apply field_shape in S1 as [I1 S1], S2 as [I2 S2], S3 as [I3 S3], S4 as [I4 S4], S5 as [I5 S5].
  unfold syslog_entry_parse, parse_fields, field_id in *. cbn [fields app].
  destruct (time_field_read f1 time_text (fac ++ 46 :: pri ++ 32 :: tag ++ 58 :: 32 :: msg ++ [10]) t)
    as (g1 & -> & V1); unfold field_id; rewrite ?I1; try done.
  destruct (string_field_read f2 46 [32] fac (pri ++ 32 :: tag ++ 58 :: 32 :: msg ++ [10])) as (g2 & G2 & V2);
    unfold field_id; rewrite ?I2; try done.
  simpl in G2. rewrite G2.
  destruct (string_field_read f3 32 [] pri (tag ++ 58 :: 32 :: msg ++ [10])) as (g3 & G3 & V3);
    unfold field_id; rewrite ?I3; try done.
  simpl in G3. rewrite G3.
  destruct (string_field_read f4 58 [] tag (32 :: msg ++ [10])) as (g4 & G4 & V4);
    unfold field_id; rewrite ?I4; try done.
  simpl in G4. rewrite G4.
  destruct (last_field_read f5 msg) as (g5 & -> & V5); unfold field_id; rewrite ?I5; try done.
  eexists. split; [reflexivity|]. simpl. by rewrite V1, V2, V3, V4, V5.
Qed.
End line.

Lemma default_line_is_read_witness :
  exists e',
    syslog_entry_parse demo_strptime demo_mktime 0 0 demo_facilities demo_priorities default_config default_entry
      (str "7" ++ [32] ++ str "kern" ++ [46] ++ str "info" ++ [32] ++ str "my tag" ++ [58; 32] ++ str "  up " ++ [10])
      = Done (e', None) /\
    map value (fields e') =
      [V_time 7 7; V_string (str "kern"); V_string (str "info"); V_string (str "my tag"); V_string (str "  up ")].
Proof.
  apply (default_line_is_read demo_strptime demo_mktime 0 0 demo_facilities demo_priorities default_entry (str "7") 7).
  all: try (unfold word; by do 2 eexists).
  all: try (unfold inline; by apply (bool_decide_unpack _)).
  all: try (by apply (bool_decide_unpack _)).
  all: try done.
Defined.

Lemma accepted_specification_witness :
  ready (demo_entry) /\ fields_ok demo_entry.
Proof. apply (accepted_specification (entry_spec default_config)). vm_compute. reflexivity. Defined.

(** ** syslog_fc: corners of the conversion

    What the code does with specifications that end early, escape sequences
    without an end, numeric priorities, stop characters of the time, 0 octets,
    long lines and carriage returns. *)

Local Abbreviation demo_entries spec lines :=
  (match syslog_entry_init (tm := Z) spec with
   | Done e => map (fun e => map value (fields e))
       (entries demo_strptime demo_mktime 0 0 demo_facilities demo_priorities default_config e 0 lines)
   | _ => []
   end).
Local Abbreviation demo_convert fmt input :=
  (convert_syslog demo_strptime demo_mktime demo_strftime 0 0 demo_facilities demo_priorities (demo_config fmt) input).

(** ** Specifications *)

(** The information of the field before is kept: an unknown specificator is
    taken for it, here with its output dropped, *)
Example unknown_specificator :
  match syslog_entry_init (tm := Z) (str "%G %!x %M") with
  | Done e => map (fun f => info_id (info f)) (fields e)
  | _ => []
  end = [SYSLOG_FIELD_ID_TAG; SYSLOG_FIELD_ID_TAG; SYSLOG_FIELD_ID_MESSAGE].
Proof. vm_compute. reflexivity. Qed.

(** and so is the end of the specification, behind which the loop goes on. *)
Example unfinished_specification : syslog_entry_init (tm := Z) (str "%M %!") = Overrun.
Proof. vm_compute. reflexivity. Qed.

(** ** Lines *)

(** After a priority that is a number without a name, every priority passes. *)
Example validation_stays_off :
  let good := str "1 kern.99 a: b" in
  let bad := str "2 kern.nonsense c: d" in
  length (demo_entries (entry_spec default_config) [bad]) = 0%nat /\
  length (demo_entries (entry_spec default_config) [good; bad]) = 2%nat.
Proof. vm_compute. done. Qed.

(** Once a priority was a number, no line turns validation on again. *)
Section validation.
Context {tm : Type} (strptime : list Z -> list Z -> tm -> option (list Z) * tm) (mktime : tm -> tm * Z).
Context (timezone : Z) (garbage : tm) (facilitynames prioritynames : list (list Z * Z)) (config : config_t).
Implicit Types f : syslog_field tm.

Definition unvalidated f : Prop := has (flags f) SYSLOG_FIELD_FLAG_NOVALIDATION = true.

Lemma mod_priority_unvalidated f : strisnumber (the_string f) = true -> unvalidated (mod_priority prioritynames f).
Proof.
  unfold unvalidated, mod_priority. intros ->. simpl. destruct (strtoul _ _) as [[v e] w].
  destruct (find_syslog_name_by_val _ _); simpl; by flag_steps.
Qed.

Lemma modifier_unvalidated f : unvalidated f -> unvalidated (modifier prioritynames f).
Proof.
  unfold modifier. intros Hf. destruct (info_id (info f)); try done.
  destruct (strisnumber (the_string f)) eqn:Hs; [by apply mod_priority_unvalidated|].
  unfold mod_priority. by rewrite Hs.
Qed.

Lemma parse_value_flags data f f' r :
  parse_value strptime mktime timezone garbage config data f = (f', r) -> flags f' = flags f.
Proof.
  assert (forall g q, parse_string data f = (g, q) -> flags g = flags f) as Hs.
  { intros g q. unfold parse_string. repeat case_match; by intros [= <- <-]. }
  unfold parse_value, parse_timestamp, parse_integer, parse_uinteger.
  destruct (info_type (info f)); [|..|apply Hs].
  - repeat case_match; by intros [= <- <-].
  - destruct (parse_string data f) as [g q] eqn:Hg. rewrite <- (Hs g q) by done. destruct q; by intros [= <- <-].
  - destruct (parse_string data f) as [g q] eqn:Hg. rewrite <- (Hs g q) by done.
    destruct q; [|by intros [= <- <-]]. destruct (strtoul _ _) as [[v e] w]. by intros [= <- <-].
Qed.

Lemma field_stays_unvalidated data f :
  unvalidated f ->
  unvalidated (syslog_entry_field_parse strptime mktime timezone garbage facilitynames prioritynames config data f).1.
Proof.
  intros Hf. unfold syslog_entry_field_parse. set (f0 := f <| flags := _ |>).
  assert (unvalidated f0) as H0 by (unfold unvalidated, f0; simpl; by flag_steps).
  destruct (field_start data f0) as [s|]; [|done].
  destruct (parse_value _ _ _ _ _ s f0) as [g r] eqn:Hg. apply parse_value_flags in Hg.
  assert (unvalidated g) as Hg' by (unfold unvalidated; by rewrite Hg).
  destruct r; [|done]. by apply modifier_unvalidated.
Qed.
End validation.

(** The stop character of the time is not skipped: here it begins the
    message. *)
Example time_stop_not_skipped : demo_entries (str "%T|%M") [str "7|up"] = [[V_time 7 7; V_string (str "|up")]].
Proof. vm_compute. reflexivity. Qed.

(** ** Formats *)

Example unterminated_escape : fmt_json_output_encoded ([27] ++ str "[0") = None.
Proof. vm_compute. reflexivity. Qed.

(** Other control characters are printed as they are, which JSON forbids. *)
Example control_character : fmt_json_output_encoded [1] = Some [1].
Proof. reflexivity. Qed.

(** ** Reading *)

(** A line that begins with 0: buffer[-1]. *)
Example nul_line : next_line 256 [0; 10] = Before_buffer.
Proof. vm_compute. reflexivity. Qed.

(** The buffer does not shrink: behind a line that fills it, a last line
    without newline is too long whatever its length, *)
Example short_last_line_rejected :
  next_line SYSLOG_BUFFER_SIZE (str "x") = Line (str "x") 512 [] /\
  next_line SYSLOG_MAX_BUFFER_SIZE (str "x") = Too_long.
Proof. vm_compute. done. Qed.

(** and the output then stays without its end. *)
Example too_long_line_leaves_open : demo_convert fmt_json (replicate 17000 97) = Converted (str "[") (Some EINVAL).
Proof. vm_compute. reflexivity. Qed.

(** A carriage return ends a line when it is the last octet of a piece. *)
Example carriage_return_splits :
  next_line 256 (replicate 254 97 ++ [13; 98; 10]) = Line (replicate 254 97 ++ [13]) 256 [98; 10] /\
  next_line 256 (replicate 253 97 ++ [13; 98; 10]) = Line (replicate 253 97 ++ [13; 98; 10]) 512 [].
Proof. vm_compute. done. Qed.
