(* ===== verification/Hwsys.v ===== *)
(** * tf_hwsysd (tf_hwsys): the registers of the I/O microcontroller

    The daemon reads the registers of a microcontroller over I2C
    ([i2c_module.c]), watches some of them ([HwsysEvents]) and answers clients
    ([HwsysDaemon]). This file has the table of registers, its accesses and
    the transfers on the bus.

    An i2c_data_t is the 80 octets that it has on the big-endian 32-bit
    processor of the switch, since it is copied in part and overlaid with
    messages; its fields are read at their offsets. What the surroundings
    answer (the clock, the bus, sockets, uninitialised memory) is a stream of
    the state. [None] is undefined behaviour. Log messages are the format of
    send_log without the final newline: the number that syslog prints for %d
    is not modelled, since send_log passes it a va_list. *)

From S2P Require Import Prelude Bytes CLib Effect.

(** ** Data *)

Inductive event_t :=
  | EVENT_0 | I2C_OVER_MAX | I2C_LESS_MIN | I2C_LONG_PRESSED | I2C_CHANGED_TO_VAC | I2C_CHANGED_TO_BAT
  | I2C_CHANGED_TO_OPEN | I2C_CHANGED_TO_CLOSE | I2C_ERR_CHANGE_VALUE | I2C_ERR_OK.
#[export] Instance event_t_eq_dec : EqDecision event_t.
Proof. solve_decision. Defined.

(** The functions of events_handlers.c. *)
Inductive handler :=
  | H_ADC_CH1 | H_ADC_CH2 | H_ADC_CH3 | H_TAMPER | H_SENSOR1 | H_SENSOR2
  | H_RELAY1 | H_DEFAULT_LONG_PRESSED | H_RPS_VAC | H_RPS_BAT_VOLTAGE | H_RPS_CHRG_VOLTAGE | H_RPS_BAT_CURRENT
  | H_RPS_TEMPER | H_SHT_TYPE | H_SHT_CONNECTED | H_SHT_TEMPERATURE | H_SHT_HUMIDITY | H_SFP1_PRESENT
  | H_SFP2_PRESENT | H_SFP1_LOS | H_SFP2_LOS | H_SFP1_TEMPER | H_SFP2_TEMPER | H_SFP1_VOLTAGE
  | H_SFP2_VOLTAGE | H_SFP1_CURRENT | H_SFP2_CURRENT | H_SFP1_TX_BIAS | H_SFP2_TX_BIAS | H_SFP1_TX_POWER_DB
  | H_SFP2_TX_POWER_DB | H_SFP1_RX_POWER_DB | H_SFP2_RX_POWER_DB.
#[export] Instance handler_eq_dec : EqDecision handler.
Proof. solve_decision. Defined.
Definition handlers : list handler :=
  [H_ADC_CH1; H_ADC_CH2; H_ADC_CH3; H_TAMPER; H_SENSOR1; H_SENSOR2; H_RELAY1;
   H_DEFAULT_LONG_PRESSED; H_RPS_VAC; H_RPS_BAT_VOLTAGE; H_RPS_CHRG_VOLTAGE; H_RPS_BAT_CURRENT;
   H_RPS_TEMPER; H_SHT_TYPE; H_SHT_CONNECTED; H_SHT_TEMPERATURE; H_SHT_HUMIDITY; H_SFP1_PRESENT;
   H_SFP2_PRESENT; H_SFP1_LOS; H_SFP2_LOS; H_SFP1_TEMPER; H_SFP2_TEMPER; H_SFP1_VOLTAGE;
   H_SFP2_VOLTAGE; H_SFP1_CURRENT; H_SFP2_CURRENT; H_SFP1_TX_BIAS; H_SFP2_TX_BIAS;
   H_SFP1_TX_POWER_DB; H_SFP2_TX_POWER_DB; H_SFP1_RX_POWER_DB; H_SFP2_RX_POWER_DB].

Definition MAX_SENSORS : nat := 144.
Definition STABLE_VALUE : Z := 10.
Definition REG_SHT_CONNECTED : Z := 50.
Definition REG_SFP1_PRESENT : Z := 60.
Definition REG_SFP1_RX_POWER : Z := 87.
Definition REG_SFP2_PRESENT : Z := 90.
Definition REG_SFP2_RX_POWER : Z := 117.
Definition REG_HI_PRIO_LEN : Z := 140.
Definition REG_HI_PRIO_DUMP : Z := 141.
Definition REG_LOW_PRIO_LEN : Z := 142.
Definition REG_LOW_PRIO_DUMP : Z := 143.

Definition TYPE_UINT : Z := 1.
Definition TYPE_PSEUDO_FLOAT : Z := 2.
Definition TYPE_FLOAT_SFP : Z := 3.

Definition I2C_OPCODE_READ : Z := 1.
Definition I2C_OPCODE_WRITE : Z := 2.
Definition I2C_OPCODE_RESPONSE : Z := 3.
Definition I2C_OPCODE_RESET : Z := 4.
Definition I2C_OPCODE_IDLE : Z := 5.

(** ** i2c_data_t *)

Definition i2c_data_t : Type := list Z.
Definition sizeof_i2c_data : nat := 80.

Definition octet_at (o : nat) (d : list Z) : Z := default 0 (d !! o).
Definition word_at (o : nat) (d : list Z) : Z := be_val (take 4 (drop o d)).
(** Octets [bs] stored at offset [o]. *)
Definition store_at (o : nat) (bs d : list Z) : list Z := take o d ++ bs ++ drop (o + length bs) d.
(** memcpy of [len] octets to the beginning of [dst]. *)
Definition memcpy (dst src : list Z) (len : nat) : list Z := take len src ++ drop len dst.

Definition lenMSG : i2c_data_t -> Z := octet_at 0.
Definition addr : i2c_data_t -> Z := word_at 4.
Definition name (d : i2c_data_t) : list Z := take 24 (drop 8 d).
Definition opcode : i2c_data_t -> Z := word_at 32.
Definition lenData : i2c_data_t -> Z := octet_at 36.
Definition type : i2c_data_t -> Z := word_at 40.
Definition eventsHandler : i2c_data_t -> Z := word_at 44.
Definition value (d : i2c_data_t) : list Z := take 32 (drop 48 d).
Definition sizeof_value : nat := 32.

Definition set_lenMSG (v : Z) : i2c_data_t -> i2c_data_t := store_at 0 [u8 v].
Definition set_opcode (v : Z) : i2c_data_t -> i2c_data_t := store_at 32 (be_bytes 4 v).
Definition set_value (bs : list Z) : i2c_data_t -> i2c_data_t := store_at 48 bs.

Definition zero_data : i2c_data_t := replicate sizeof_i2c_data 0.

(** ** The table

    [address] is where the functions of events_handlers.c are in memory. *)

Section table.
Context (address : handler -> Z).

Definition entry (a : Z) (n : string) (len t v : Z) (h : option handler) : i2c_data_t :=
  [0; 0; 0; 0] ++ be_bytes 4 a ++ strncpy_array 24 (str n) ++ be_bytes 4 I2C_OPCODE_IDLE ++ [len; 0; 0; 0]
  ++ be_bytes 4 t ++ be_bytes 4 (from_option address 0 h) ++ v :: replicate 31 0.

Definition registers : list i2c_data_t :=
  [ (* INTSTAT *) entry 0 "INTSTAT" 1 TYPE_UINT 0 None;
   (* INTMASK *) entry 1 "INTMASK" 1 TYPE_UINT 0 None;
   (* HW_VERS *) entry 2 "HW_VERS" 1 TYPE_UINT 0 None;
   (* SW_VERS *) entry 3 "SW_VERS" 1 TYPE_UINT 0 None;
   (* ADC_CH1 *) entry 4 "ADC_CH1" 2 TYPE_PSEUDO_FLOAT 0 (Some H_ADC_CH1);
   (* ADC_CH2 *) entry 5 "ADC_CH2" 2 TYPE_PSEUDO_FLOAT 0 (Some H_ADC_CH2);
   (* ADC_CH3 *) entry 6 "ADC_CH3" 2 TYPE_PSEUDO_FLOAT 0 (Some H_ADC_CH3);
   (* TAMPER *) entry 10 "tamper" 1 TYPE_UINT 0 (Some H_TAMPER);
   (* SENSOR1 *) entry 11 "sensor1" 1 TYPE_UINT 0 (Some H_SENSOR1);
   (* SENSOR2 *) entry 12 "sensor2" 1 TYPE_UINT 0 (Some H_SENSOR2);
   (* RELAY1 *) entry 13 "relay" 1 TYPE_UINT 0 (Some H_RELAY1);
   (* DEFAULT_BUTTON *) entry 14 "DEFAULT_BUTTON" 1 TYPE_UINT 0 None;
   (* DEFAULT_LED *) entry 15 "DEFAULT_LED" 1 TYPE_UINT 0 None;
   (* DEFAULT_LONG_PRESSED *) entry 16 "DEFAULT_LONG_PRESSED" 2 TYPE_UINT 0 (Some H_DEFAULT_LONG_PRESSED);
   (* RPS_CONNECTED *) entry 20 "upsModeAvalible" 1 TYPE_UINT 0 None;
   (* RPS_HW_VERS *) entry 21 "RPS_HW_VERS" 1 TYPE_UINT 0 None;
   (* RPS_SW_VERS *) entry 22 "RPS_SW_VERS" 1 TYPE_UINT 0 None;
   (* RPS_VAC *) entry 23 "upsPwrSource" 1 TYPE_UINT 0 (Some H_RPS_VAC);
   (* RPS_BAT_VOLTAGE *) entry 24 "upsBatteryVoltage" 2 TYPE_PSEUDO_FLOAT 0 (Some H_RPS_BAT_VOLTAGE);
   (* RPS_CHRG_VOLTAGE *) entry 25 "RPS_CHRG_VOLTAGE" 2 TYPE_PSEUDO_FLOAT 0 (Some H_RPS_CHRG_VOLTAGE);
   (* RPS_BAT_CURRENT *) entry 26 "RPS_BAT_CURRENT" 2 TYPE_UINT 0 (Some H_RPS_BAT_CURRENT);
   (* RPS_TEMPER *) entry 27 "RPS_TEMPER" 1 TYPE_UINT 123 (Some H_RPS_TEMPER);
   (* RPS_LED_STATE *) entry 28 "RPS_LED_STATE" 1 TYPE_UINT 0 None;
   (* RPS_BAT_KEY *) entry 29 "RPS_BAT_KEY" 1 TYPE_UINT 0 None;
   (* RPS_CHRG_KEY *) entry 30 "RPS_CHRG_KEY" 1 TYPE_UINT 0 None;
   (* RPS_REL_STATE *) entry 31 "RPS_REL_STATE" 1 TYPE_UINT 0 None;
   (* RPS_MIN_VOLTAGE *) entry 32 "RPS_MIN_VOLTAGE" 2 TYPE_PSEUDO_FLOAT 0 None;
   (* RPS_DISCH_VOLTAGE *) entry 33 "RPS_DISCH_VOLTAGE" 2 TYPE_PSEUDO_FLOAT 0 None;
   (* RPS_REMAIN_TIME *) entry 34 "upsBatteryTime" 2 TYPE_UINT 0 None;
   (* RPS_TEST_OK *) entry 35 "RPS_TEST_OK" 1 TYPE_UINT 0 None;
   (* RPS_CPU_ID *) entry 36 "RPS_CPU_ID" 2 TYPE_UINT 0 None;
   (* RPS_LTC4151_OK *) entry 37 "RPS_LTC4151_OK" 1 TYPE_UINT 0 None;
   (* RPS_ADC_BAT_VOLT *) entry 38 "RPS_ADC_BAT_VOLT" 2 TYPE_PSEUDO_FLOAT 0 None;
   (* RPS_ADC_BAT_CURR *) entry 39 "RPS_ADC_BAT_CURR" 2 TYPE_UINT 0 None;
   (* RPS_TEST_MODE *) entry 40 "RPS_TEST_MODE" 1 TYPE_UINT 0 None;
   (* SHT_CONNECTED *) entry 50 "sensorConnected" 1 TYPE_UINT 0 (Some H_SHT_CONNECTED);
   (* SHT_TYPE *) entry 51 "SHT_TYPE" 10 TYPE_UINT 0 (Some H_SHT_TYPE);
   (* SHT_TEMPERATURE *) entry 52 "sensorTemperature" 2 TYPE_FLOAT_SFP 0 (Some H_SHT_TEMPERATURE);
   (* SHT_HUMIDITY *) entry 53 "sensorHumidity" 1 TYPE_UINT 0 (Some H_SHT_HUMIDITY);
   (* SFP1_PRESENT *) entry 60 "portSfpPresent_1" 1 TYPE_UINT 0 (Some H_SFP1_PRESENT);
   (* SFP1_LOS *) entry 61 "portSfpSignalDetect_1" 1 TYPE_UINT 0 (Some H_SFP1_LOS);
   (* SFP1_VENDOR *) entry 62 "portSfpVendor_1" 16 TYPE_UINT 0 None;
   (* SFP1_VENDOR_OUI *) entry 63 "portSfpOui_1" 3 TYPE_UINT 0 None;
   (* SFP1_VENDOR_PN *) entry 64 "portSfpPartNumber_1" 16 TYPE_UINT 0 None;
   (* SFP1_VENDOR_REV *) entry 65 "portSfpRevision_1" 4 TYPE_UINT 0 None;
   (* SFP1_IDENTIFIER *) entry 66 "IDENTIFIER_1" 4 TYPE_UINT 0 None;
   (* SFP1_CONNECTOR *) entry 67 "CONNECTOR_1" 30 TYPE_UINT 0 None;
   (* SFP1_TYPE *) entry 68 "TYPE_1" 16 TYPE_UINT 0 None;
   (* SFP1_LINK_LEN *) entry 69 "LINK_LEN_1" 25 TYPE_UINT 0 None;
   (* SFP1_FIBER_TEC *) entry 70 "FIBER_TEC_1" 32 TYPE_UINT 0 None;
   (* SFP1_MEDIA *) entry 71 "MEDIA_1" 32 TYPE_UINT 0 None;
   (* SFP1_SPEED *) entry 72 "SPEED_1" 16 TYPE_UINT 0 None;
   (* SFP1_ENCODING *) entry 73 "ENCODING_1" 16 TYPE_UINT 0 None;
   (* SFP1_LENC *) entry 79 "LENC_1" 2 TYPE_UINT 0 None;
   (* SFP1_WAVELEN *) entry 74 "WAVELEN_1" 2 TYPE_UINT 0 None;
   (* SFP1_NBR *) entry 75 "NBR_1" 2 TYPE_UINT 0 None;
   (* SFP1_LEN9 *) entry 76 "LEN9_1" 2 TYPE_UINT 0 None;
   (* SFP1_LEN50 *) entry 77 "LEN50_1" 2 TYPE_UINT 0 None;
   (* SFP1_LEN62 *) entry 78 "LEN62_1" 2 TYPE_UINT 0 None;
   (* SFP1_TEMPER *) entry 80 "portSfpTemperature_1" 2 TYPE_UINT 0 (Some H_SFP1_TEMPER);
   (* SFP1_VOLTAGE *) entry 81 "portSfpVoltage_1" 2 TYPE_PSEUDO_FLOAT 0 (Some H_SFP1_VOLTAGE);
   (* SFP1_CURRENT *) entry 82 "CURRENT_1" 2 TYPE_UINT 0 None;
   (* SFP1_TX_BIAS *) entry 83 "portSfpBiasCurrent_1" 2 TYPE_UINT 0 None;
   (* SFP1_TX_POWER_DB *) entry 84 "portSfpTxOutPowerDb_1" 2 TYPE_FLOAT_SFP 0 (Some H_SFP1_TX_POWER_DB);
   (* SFP1_RX_POWER_DB *) entry 85 "portSfpRxOutPowerDb_1" 2 TYPE_FLOAT_SFP 0 (Some H_SFP1_RX_POWER_DB);
   (* SFP1_TX_POWER *) entry 86 "portSfpTxOutPower_1" 2 TYPE_UINT 0 None;
   (* SFP1_RX_POWER *) entry 87 "portSfpRxOutPower_1" 2 TYPE_UINT 0 None;
   (* SFP2_PRESENT *) entry 90 "portSfpPresent_2" 1 TYPE_UINT 0 (Some H_SFP2_PRESENT);
   (* SFP2_LOS *) entry 91 "portSfpSignalDetect_2" 1 TYPE_UINT 0 (Some H_SFP2_LOS);
   (* SFP2_VENDOR *) entry 92 "portSfpVendor_2" 16 TYPE_UINT 0 None;
   (* SFP2_VENDOR_OUI *) entry 93 "portSfpOui_2" 3 TYPE_UINT 0 None;
   (* SFP2_VENDOR_PN *) entry 94 "portSfpPartNumber_2" 16 TYPE_UINT 0 None;
   (* SFP2_VENDOR_REV *) entry 95 "portSfpRevision_2" 4 TYPE_UINT 0 None;
   (* SFP2_IDENTIFIER *) entry 96 "IDENTIFIER_2" 4 TYPE_UINT 0 None;
   (* SFP2_CONNECTOR *) entry 97 "CONNECTOR_2" 30 TYPE_UINT 0 None;
   (* SFP2_TYPE *) entry 98 "TYPE_2" 16 TYPE_UINT 0 None;
   (* SFP2_LINK_LEN *) entry 99 "LINK_LEN_2" 25 TYPE_UINT 0 None;
   (* SFP2_FIBER_TEC *) entry 100 "FIBER_TEC_2" 32 TYPE_UINT 0 None;
   (* SFP2_MEDIA *) entry 101 "MEDIA_2" 32 TYPE_UINT 0 None;
   (* SFP2_SPEED *) entry 102 "SPEED_2" 16 TYPE_UINT 0 None;
   (* SFP2_ENCODING *) entry 103 "ENCODING_2" 16 TYPE_UINT 0 None;
   (* SFP2_WAVELEN *) entry 104 "WAVELEN_2" 2 TYPE_UINT 0 None;
   (* SFP2_NBR *) entry 105 "NBR_2" 2 TYPE_UINT 0 None;
   (* SFP2_LEN9 *) entry 106 "LEN9_2" 2 TYPE_UINT 0 None;
   (* SFP2_LEN50 *) entry 107 "LEN50_2" 2 TYPE_UINT 0 None;
   (* SFP2_LEN62 *) entry 108 "LEN62_2" 2 TYPE_UINT 0 None;
   (* SFP2_LENC *) entry 109 "LENC_2" 2 TYPE_UINT 0 None;
   (* SFP2_TEMPER *) entry 110 "portSfpTemperature_2" 2 TYPE_UINT 0 (Some H_SFP2_TEMPER);
   (* SFP2_VOLTAGE *) entry 111 "portSfpVoltage_2" 2 TYPE_PSEUDO_FLOAT 0 (Some H_SFP2_VOLTAGE);
   (* SFP2_CURRENT *) entry 112 "CURRENT_2" 2 TYPE_UINT 0 None;
   (* SFP2_TX_BIAS *) entry 113 "portSfpBiasCurrent_2" 2 TYPE_UINT 0 None;
   (* SFP2_TX_POWER_DB *) entry 114 "portSfpTxOutPowerDb_2" 2 TYPE_FLOAT_SFP 0 (Some H_SFP2_TX_POWER_DB);
   (* SFP2_RX_POWER_DB *) entry 115 "portSfpRxOutPowerDb_2" 2 TYPE_FLOAT_SFP 0 (Some H_SFP2_RX_POWER_DB);
   (* SFP2_TX_POWER *) entry 116 "portSfpTxOutPower_2" 2 TYPE_UINT 0 None;
   (* SFP2_RX_POWER *) entry 117 "portSfpRxOutPower_2" 2 TYPE_UINT 0 None;
   (* RTC_STATUS *) entry 120 "RTC_STATUS" 1 TYPE_UINT 0 None;
   (* RTC_YEAR *) entry 121 "RTC_YEAR" 1 TYPE_UINT 0 None;
   (* RTC_MONTH *) entry 122 "RTC_MONTH" 1 TYPE_UINT 0 None;
   (* RTC_DAY *) entry 123 "RTC_DAY" 1 TYPE_UINT 0 None;
   (* RTC_WEEKDAY *) entry 124 "RTC_WEEKDAY" 1 TYPE_UINT 0 None;
   (* RTC_HOUR *) entry 125 "RTC_HOUR" 1 TYPE_UINT 0 None;
   (* RTC_MINUTE *) entry 126 "RTC_MINUTE" 1 TYPE_UINT 0 None;
   (* RTC_SECOND *) entry 127 "RTC_SECOND" 1 TYPE_UINT 0 None;
   (* POE_ID *) entry 130 "POE_ID" 1 TYPE_UINT 0 None;
   (* POE_STATE *) entry 131 "POE_STATE" 1 TYPE_UINT 0 None;
   (* POE_BANK *) entry 132 "POE_BANK" 1 TYPE_UINT 0 None;
   (* POE_MODE *) entry 133 "POE_MODE" 1 TYPE_UINT 0 None].

(** The elements without an initialiser are zero. *)
Definition initial_sock_msgArr : list i2c_data_t :=
  registers ++ replicate (MAX_SENSORS - length registers) zero_data.
End table.

(** ** The daemon and its surroundings *)

Record timer := mk_timer { t_start : Z; t_interval : Z }.

(** What a question finds: the clock; what the bus transfers for a register
    and a length ([None]: the ioctl fails); the contents of an uninitialised
    variable; whether a connection is accepted; the octets that read gives
    ([None]: it fails). *)
Record env_t := mk_env {
  time : Z;
  bus : Z -> Z -> option (list Z);
  stack : list Z;
  connection : bool;
  received : option (list Z) }.

Inductive output :=
  | Log (msg : string)
  | Sent (msg : list Z)
  | I2c_write (msg : list Z)
  | Iomcu_reset.

Record hwsys := mk_hwsys {
  sock_msgArr : list i2c_data_t;
  write_flag : bool;
  write_data : i2c_data_t;
  i2c_raw_data : list Z;
  hi_prio_len : Z;
  low_prio_len : Z;
  hi_prio_timer : timer;
  low_prio_timer : timer;
  events_timer : timer;
  prevValue : handler -> Z;
  errorCount : Z;
  open_fds : Z;
  outs : list output;
  env : nat -> env_t;
  asked : nat }.
#[export] Instance eta_hwsys : Eta hwsys := fun s =>
  mk_hwsys (sock_msgArr s) (write_flag s) (write_data s) (i2c_raw_data s) (hi_prio_len s) (low_prio_len s)
    (hi_prio_timer s) (low_prio_timer s) (events_timer s) (prevValue s) (errorCount s) (open_fds s) (outs s)
    (env s) (asked s).
#[export] Instance set_sock_msgArr : SetterFor sock_msgArr := ltac:(mk_setter).
#[export] Instance set_write_flag : SetterFor write_flag := ltac:(mk_setter).
#[export] Instance set_write_data : SetterFor write_data := ltac:(mk_setter).
#[export] Instance set_i2c_raw_data : SetterFor i2c_raw_data := ltac:(mk_setter).
#[export] Instance set_hi_prio_len : SetterFor hi_prio_len := ltac:(mk_setter).
#[export] Instance set_low_prio_len : SetterFor low_prio_len := ltac:(mk_setter).
#[export] Instance set_hi_prio_timer : SetterFor hi_prio_timer := ltac:(mk_setter).
#[export] Instance set_low_prio_timer : SetterFor low_prio_timer := ltac:(mk_setter).
#[export] Instance set_events_timer : SetterFor events_timer := ltac:(mk_setter).
#[export] Instance set_prevValue : SetterFor prevValue := ltac:(mk_setter).
#[export] Instance set_errorCount : SetterFor errorCount := ltac:(mk_setter).
#[export] Instance set_open_fds : SetterFor open_fds := ltac:(mk_setter).
#[export] Instance set_outs : SetterFor outs := ltac:(mk_setter).
#[export] Instance set_env : SetterFor env := ltac:(mk_setter).
#[export] Instance set_asked : SetterFor asked := ltac:(mk_setter).

Abbreviation HW := (ST hwsys).

Definition ask {A} (q : env_t -> A) : HW A := fun s =>
  Some (q (env s (asked s)), s <| asked := S (asked s) |>).
Definition emit (o : output) : HW unit := put (fun s => s <| outs := outs s ++ [o] |>).
(** A variable of [n] octets that is not initialised. *)
Definition uninitialised (n : nat) : HW (list Z) := l ← ask stack; mret (map u8 (resize n 0 l)).

(** ** Timers (utils_module.c): clock_time_t has 32 bits *)

Definition timer_set (interval : Z) : HW timer := now ← ask time; mret (mk_timer (u32 now) interval).
Definition timer_reset (t : timer) : timer := mk_timer (u32 (t_start t + t_interval t)) (t_interval t).
Definition timer_expired (t : timer) : HW bool := now ← ask time; mret (t_interval t <=? u32 (now - t_start t)).

(** ** Registers *)

(** Without an entry for the register the function ends without a value. *)
Definition get_id_by_addr (a : Z) : HW nat :=
  s ← get; r ← deref_opt (list_find (fun d => addr d = a) (sock_msgArr s)); mret r.1.

Definition the_entry (id : nat) : HW i2c_data_t := s ← get; deref_opt (sock_msgArr s !! id).
Definition mod_entry (id : nat) (f : i2c_data_t -> i2c_data_t) : HW unit :=
  the_entry id ;; put (fun s => s <| sock_msgArr := alter f id (sock_msgArr s) |>).

(** The new contents of the variable of the caller. *)
Definition i2c_getData (i2CData : i2c_data_t) (a len : Z) : HW i2c_data_t :=
  id ← get_id_by_addr a;
  mod_entry id (set_lenMSG len) ;;
  d ← the_entry id;
  mret (memcpy i2CData d (Z.to_nat len)).

Definition i2c_setData (i2CData : i2c_data_t) (a len : Z) : HW unit :=
  id ← get_id_by_addr a;
  mod_entry id (set_lenMSG len) ;;
  put (fun s => s <| write_data := memcpy (write_data s) i2CData (Z.to_nat len) |>) ;;
  s ← get;
  mod_entry id (fun d => memcpy d (write_data s) (Z.to_nat len)) ;;
  put (fun s => s <| write_flag := true |>).

(** ** The bus *)

Definition sizeof_raw_data : nat := 1000.

(** Whether the transfer fails. The octets go to i2c_raw_data. *)
Definition read_buffer (regaddr len : Z) : HW bool :=
  transfer ← ask bus;
  match transfer regaddr len with
  | None => mret true
  | Some octets =>
      (if (sizeof_raw_data <? Z.to_nat len)%nat then overrun else mret tt) ;;
      put (fun s => s <| i2c_raw_data :=
        memcpy (i2c_raw_data s) (map u8 (resize (Z.to_nat len) 255 octets)) (Z.to_nat len) |>) ;;
      s ← get;
      mret ((octet_at 0 (i2c_raw_data s) =? 170) && (octet_at 1 (i2c_raw_data s) =? 170))
  end.

(** The message is made in an array of 10 octets. *)
Definition write_buffer (regaddr len : Z) (buffer : list Z) : HW unit :=
  if 10 <? len + 2 then overrun
  else emit (I2c_write (u8 regaddr :: u8 len :: take (Z.to_nat len) buffer)).

Definition raw_octet (o : Z) : HW Z := s ← get; deref_opt (i2c_raw_data s !! Z.to_nat o).
Definition raw_octets (o len : Z) : HW (list Z) :=
  s ← get;
  if (length (i2c_raw_data s) <? Z.to_nat (o + len))%nat then overrun
  else mret (take (Z.to_nat len) (drop (Z.to_nat o) (i2c_raw_data s))).

(** The rounds of the loop of i2c_parse_tlv from an offset; whether it fails.
    Each reads at least two octets of the array, so that there are at most
    [sizeof_raw_data / 2]. *)
Fixpoint parse_tlv_from (fuel : nat) (len offset : Z) : HW bool :=
  match fuel with
  | O => overrun
  | S fuel =>
      if len <=? offset then mret false
      else
        tlv_regaddr ← raw_octet offset;
        if Z.of_nat MAX_SENSORS <? tlv_regaddr then mret true
        else
          id ← get_id_by_addr tlv_regaddr;
          tlv_len ← raw_octet (offset + 1);
          (if tlv_len <? Z.of_nat sizeof_value then
             bs ← raw_octets (offset + 2) tlv_len; mod_entry id (set_value bs)
           else mret tt) ;;
          parse_tlv_from fuel len (u16 (offset + (tlv_len + 2)))
  end.
Definition i2c_parse_tlv (len : Z) : HW bool := parse_tlv_from (S sizeof_raw_data) len 0.

(** The failed transfer leaves the octets of the one before. *)
Definition open_i2c : HW unit :=
  t ← timer_set 3;
  put (fun s => s <| hi_prio_timer := t |>) ;;
  t ← timer_set 0;
  put (fun s => s <| low_prio_timer := t |>) ;;
  _ ← read_buffer REG_HI_PRIO_LEN 2;
  put (fun s => s <| hi_prio_len := Z.lor (Z.shiftl (octet_at 1 (i2c_raw_data s)) 8) (octet_at 0 (i2c_raw_data s)) |>) ;;
  _ ← read_buffer REG_LOW_PRIO_LEN 2;
  put (fun s => s <| low_prio_len := Z.lor (Z.shiftl (octet_at 1 (i2c_raw_data s)) 8) (octet_at 0 (i2c_raw_data s)) |>).

(** A dump of all registers of a priority; whether it fails. *)
Definition read_dump (reg len : Z) : HW bool :=
  failed ← read_buffer reg len;
  if (failed : bool) then mret true else i2c_parse_tlv len.

(** Whether it fails (EXIT_FAILURE). *)
Definition read_i2c : HW bool :=
  s ← get;
  hi ← timer_expired (hi_prio_timer s);
  if (hi : bool) then
    failed ← read_dump REG_HI_PRIO_DUMP (hi_prio_len s);
    t ← timer_set 3;
    put (fun s => s <| hi_prio_timer := t |>) ;;
    mret failed
  else
    low ← timer_expired (low_prio_timer s);
    if (low : bool) then
      failed ← read_dump REG_LOW_PRIO_DUMP (low_prio_len s);
      t ← timer_set 30;
      put (fun s => s <| low_prio_timer := t |>) ;;
      mret failed
    else
      (if write_flag s then
         write_buffer (addr (write_data s)) (lenData (write_data s)) (value (write_data s)) ;;
         put (fun s => s <| write_flag := false |>)
       else mret tt) ;;
      mret false.
