(* ===== verification/HwsysEvents.v ===== *)
(** * tf_hwsysd: the events (events_handlers.c)

    A handler is called with the value of its register. It compares it with
    the last value that it has recorded, a static variable of the function
    ([prevValue]), and writes a message when something has happened. The
    statements that the handlers repeat are [watch_range] and [watch_state]. *)

From stdpp Require Import functions.
From S2P Require Import Prelude Bytes CLib Effect Hwsys.

Record i2c_event_data_t := mk_i2c_event_data { e_addr : Z; e_value : list Z }.

Definition get_16bitValue (val1 : list Z) : Z := Z.lor (octet_at 0 val1) (Z.shiftl (octet_at 1 val1) 8).
Definition s16 (v : Z) : Z := if v <? 32768 then v else v - 65536.

(** The arguments are uint32_t, the difference uint16_t. *)
Definition check_out_of_range (value prevValue max min : Z) : event_t :=
  let dif := u16 (if prevValue <=? value then value - prevValue else prevValue - value) in
  if STABLE_VALUE <? dif then
    if negb (prevValue =? 0xFFFF) then
      if max <? value then I2C_OVER_MAX else if value <? min then I2C_LESS_MIN else I2C_ERR_CHANGE_VALUE
    else I2C_ERR_CHANGE_VALUE
  else I2C_ERR_OK.

Definition check_changed_state (value preValue state_1 state_2 : Z) : event_t :=
  if (value =? state_1) && (preValue =? state_2) then I2C_CHANGED_TO_CLOSE
  else if (value =? state_2) && (preValue =? state_1) then I2C_CHANGED_TO_OPEN
  else I2C_ERR_OK.

Definition send_log (msg : string) : HW unit := emit (Log msg).

Definition the_prev (h : handler) : HW Z := s ← get; mret (prevValue s h).
Definition record_prev (h : handler) (v : Z) : HW unit :=
  put (fun s => s <| prevValue := <[h := v]> (prevValue s) |>).

(** What a handler does on an event that it reports. *)
Definition report (h : handler) (v : Z) (msg : string) : HW unit := send_log msg ;; record_prev h v.

(** Compares [v] with the limits, records a change, and reports a value above
    or below them with the message for it, if there is one. *)
Definition watch_range (h : handler) (v max min : Z) (over less : option string) : HW event_t :=
  prev ← the_prev h;
  let event := check_out_of_range v prev max min in
  (if decide (event = I2C_ERR_CHANGE_VALUE) then record_prev h v else mret tt) ;;
  (if decide (event = I2C_OVER_MAX) then from_option (report h v) (mret tt) over
   else if decide (event = I2C_LESS_MIN) then from_option (report h v) (mret tt) less
   else mret tt) ;;
  mret event.

(** The event of a value that may be one of two states; the value is recorded. *)
Definition watch_state (h : handler) (v none state_1 state_2 : Z) : HW event_t :=
  prev ← the_prev h;
  if negb (v =? prev) then
    record_prev h v ;;
    mret (if negb (prev =? none) then check_changed_state v prev state_1 state_2 else I2C_ERR_OK)
  else mret I2C_ERR_OK.

Definition log_if (event e : event_t) (msg : string) : HW unit :=
  if decide (event = e) then send_log msg else mret tt.

(** ** The main board and its sensors *)

Definition handler_ADC_CH1 (i2cData : i2c_event_data_t) : HW event_t :=
  let msg := "ADC CH1 out of range: %d"%string in
  watch_range H_ADC_CH1 (get_16bitValue (e_value i2cData)) 3500 3000 (Some msg) (Some msg).
Definition handler_ADC_CH2 (i2cData : i2c_event_data_t) : HW event_t :=
  let msg := "ADC CH2 out of range: %d"%string in
  watch_range H_ADC_CH2 (get_16bitValue (e_value i2cData)) 1700 1300 (Some msg) (Some msg).
Definition handler_ADC_CH3 (i2cData : i2c_event_data_t) : HW event_t :=
  let msg := "ADC CH3 out of range: %d"%string in
  watch_range H_ADC_CH3 (get_16bitValue (e_value i2cData)) 1300 1000 (Some msg) (Some msg).

Definition handler_TAMPER (i2cData : i2c_event_data_t) : HW event_t :=
  event ← watch_state H_TAMPER (octet_at 0 (e_value i2cData)) 0xFF 1 0;
  log_if event I2C_CHANGED_TO_CLOSE "TAMPER changed to Close" ;;
  log_if event I2C_CHANGED_TO_OPEN "TAMPER changed to Open" ;;
  mret event.
Definition handler_SENSOR1 (i2cData : i2c_event_data_t) : HW event_t :=
  event ← watch_state H_SENSOR1 (octet_at 0 (e_value i2cData)) 0xFF 1 0;
  log_if event I2C_CHANGED_TO_CLOSE "SENSOR1 changed to Close" ;;
  log_if event I2C_CHANGED_TO_OPEN "SENSOR1 changed to Open" ;;
  mret event.
Definition handler_SENSOR2 (i2cData : i2c_event_data_t) : HW event_t :=
  event ← watch_state H_SENSOR2 (octet_at 0 (e_value i2cData)) 0xFF 1 0;
  log_if event I2C_CHANGED_TO_CLOSE "SENSOR2 changed to Close" ;;
  log_if event I2C_CHANGED_TO_OPEN "SENSOR2 changed to Open" ;;
  mret event.
Definition handler_RELAY1 (i2cData : i2c_event_data_t) : HW event_t :=
  event ← watch_state H_RELAY1 (octet_at 0 (e_value i2cData)) 0xFF 1 0;
  log_if event I2C_CHANGED_TO_CLOSE "RELAY changed to Close" ;;
  log_if event I2C_CHANGED_TO_OPEN "RELAY changed to Open" ;;
  mret event.

(** The variable has 16 bits and is compared with 0xFF. *)
Definition handler_DEFAULT_LONG_PRESSED (i2cData : i2c_event_data_t) : HW event_t :=
  event ← watch_state H_DEFAULT_LONG_PRESSED (get_16bitValue (e_value i2cData)) 0xFF 0x475D 0;
  let event := if decide (event = I2C_CHANGED_TO_CLOSE) then I2C_LONG_PRESSED else I2C_ERR_OK in
  log_if event I2C_LONG_PRESSED "DEFAULT SETTINGS by DEFAULT BUTTON" ;;
  mret event.

(** ** The power supply *)

Definition handler_RPS_VAC (i2cData : i2c_event_data_t) : HW event_t :=
  event ← watch_state H_RPS_VAC (octet_at 0 (e_value i2cData)) 0xFF 1 0;
  let event := if decide (event = I2C_ERR_OK) then I2C_ERR_OK
               else if decide (event = I2C_CHANGED_TO_CLOSE) then I2C_CHANGED_TO_VAC else I2C_CHANGED_TO_BAT in
  log_if event I2C_CHANGED_TO_VAC "UPS: power changed to VAC" ;;
  log_if event I2C_CHANGED_TO_BAT "UPS: power changed to Battery" ;;
  mret event.
Definition handler_RPS_BAT_VOLTAGE (i2cData : i2c_event_data_t) : HW event_t :=
  let value := get_16bitValue (e_value i2cData) in
  prev ← the_prev H_RPS_BAT_VOLTAGE;
  if value =? prev then mret I2C_ERR_OK
  else watch_range H_RPS_BAT_VOLTAGE value 30000 20500 (Some "UPS: Battery voltage reaches max voltage (%d)"%string)
         (Some "UPS: Battery voltage is LOW (%d)"%string).
Definition handler_RPS_CHRG_VOLTAGE (i2cData : i2c_event_data_t) : HW event_t :=
  watch_range H_RPS_CHRG_VOLTAGE (get_16bitValue (e_value i2cData)) 30000 20500
    (Some "UPS: Charge voltage reaches max voltage (%d)"%string) (Some "UPS: Charge voltage is LOW (%d)"%string).
Definition handler_RPS_BAT_CURRENT (i2cData : i2c_event_data_t) : HW event_t := mret I2C_ERR_OK.

(** The lower limit is a negative number that becomes a uint32_t. *)
Definition handler_RPS_TEMPER (i2cData : i2c_event_data_t) : HW event_t :=
  watch_range H_RPS_TEMPER (octet_at 0 (e_value i2cData)) 85 (u32 (-60))
    (Some "UPS: RPS board overheat (%d)"%string) None.

(** ** The external sensor *)

Definition handler_SHT_TYPE (i2cData : i2c_event_data_t) : HW event_t := mret EVENT_0.
Definition handler_SHT_CONNECTED (i2cData : i2c_event_data_t) : HW event_t :=
  let value := octet_at 0 (e_value i2cData) in
  event ← watch_state H_SHT_CONNECTED value 0xFF 1 0;
  (if negb (bool_decide (event = I2C_ERR_OK)) && (value =? 1) then send_log "SHT: connection status %d" else mret tt) ;;
  mret event.

(** The first octet of data.value: i2c_getData copies [len] octets of the
    structure to a variable that is not initialised. *)
Definition data_of (reg len : Z) : HW i2c_data_t :=
  data ← uninitialised sizeof_i2c_data; i2c_getData data reg len.

(** Other than in the other handlers a change of the value is not recorded. *)
Definition handler_SHT_TEMPERATURE (i2cData : i2c_event_data_t) : HW event_t :=
  data ← data_of REG_SHT_CONNECTED 1;
  if octet_at 0 (value data) =? 1 then
    let value := s16 (get_16bitValue (e_value i2cData)) in
    prev ← the_prev H_SHT_TEMPERATURE;
    let event := check_out_of_range (u32 value) prev 500 (u32 (-600)) in
    (if decide (event = I2C_OVER_MAX)
     then report H_SHT_TEMPERATURE (u16 value) "SHT: temperature is higher than maximum %d" else mret tt) ;;
    (if decide (event = I2C_LESS_MIN)
     then report H_SHT_TEMPERATURE (u16 value) "SHT: temperature is lower than minimum %d" else mret tt) ;;
    mret event
  else mret I2C_ERR_OK.
Definition handler_SHT_HUMIDITY (i2cData : i2c_event_data_t) : HW event_t :=
  data ← data_of REG_SHT_CONNECTED 1;
  if octet_at 0 (value data) =? 1 then
    watch_range H_SHT_HUMIDITY (octet_at 0 (e_value i2cData)) 98 0
      (Some "SHT: humidity is higher than maximum %d"%string) (Some "SHT: humidity is lower than minimum %d"%string)
  else mret I2C_ERR_OK.

(** ** Optical transceivers *)

Definition handler_SFP1_PRESENT (i2cData : i2c_event_data_t) : HW event_t :=
  let value := octet_at 0 (e_value i2cData) in
  event ← watch_state H_SFP1_PRESENT value 0xFF 1 0;
  (if decide (event = I2C_ERR_OK) then mret tt
   else send_log (if value =? 0 then "SFP1: removed from chassis" else "SFP1: in chassis")) ;;
  mret event.
Definition handler_SFP2_PRESENT (i2cData : i2c_event_data_t) : HW event_t :=
  let value := octet_at 0 (e_value i2cData) in
  event ← watch_state H_SFP2_PRESENT value 0xFF 1 0;
  (if decide (event = I2C_ERR_OK) then mret tt
   else send_log (if value =? 0 then "SFP2: removed from chassis" else "SFP2: in chassis")) ;;
  mret event.
Definition handler_SFP1_LOS (i2cData : i2c_event_data_t) : HW event_t :=
  let value := octet_at 0 (e_value i2cData) in
  event ← watch_state H_SFP1_LOS value 0xFF 0 1;
  (if decide (event = I2C_ERR_OK) then mret tt
   else if value =? 0 then data_of REG_SFP1_RX_POWER 2 ;; send_log "SFP1: optical signal UP (%d dBm)"
   else send_log "SFP1: lost optical signal") ;;
  mret event.
Definition handler_SFP2_LOS (i2cData : i2c_event_data_t) : HW event_t :=
  let value := octet_at 0 (e_value i2cData) in
  event ← watch_state H_SFP2_LOS value 0xFF 0 1;
  (if decide (event = I2C_ERR_OK) then mret tt
   else if value =? 0 then data_of REG_SFP2_RX_POWER 2 ;; send_log "SFP2: optical signal UP (%d dBm)"
   else send_log "SFP2: lost optical signal") ;;
  mret event.

(** The statements that the other handlers of a transceiver repeat. *)
Definition watch_sfp (h : handler) (present : Z) (i2cData : i2c_event_data_t) (max min : Z) (over less : option string) :
    HW event_t :=
  data ← data_of present 1;
  if octet_at 0 (value data) =? 1 then watch_range h (get_16bitValue (e_value i2cData)) max min over less
  else mret I2C_ERR_OK.

Definition handler_SFP1_TEMPER (i2cData : i2c_event_data_t) : HW event_t :=
  watch_sfp H_SFP1_TEMPER REG_SFP1_PRESENT i2cData 50 20 (Some "SFP1: overheating (%d)"%string) None.
Definition handler_SFP2_TEMPER (i2cData : i2c_event_data_t) : HW event_t :=
  watch_sfp H_SFP2_TEMPER REG_SFP2_PRESENT i2cData 50 20 (Some "SFP2: overheating (%d)"%string) None.
Definition handler_SFP1_VOLTAGE (i2cData : i2c_event_data_t) : HW event_t :=
  let msg := "SFP1: voltage not in range (%d)"%string in
  watch_sfp H_SFP1_VOLTAGE REG_SFP1_PRESENT i2cData 3600 3000 (Some msg) (Some msg).
Definition handler_SFP2_VOLTAGE (i2cData : i2c_event_data_t) : HW event_t :=
  let msg := "SFP2: voltage not in range (%d)"%string in
  watch_sfp H_SFP2_VOLTAGE REG_SFP2_PRESENT i2cData 3600 3000 (Some msg) (Some msg).
Definition handler_SFP1_CURRENT (i2cData : i2c_event_data_t) : HW event_t :=
  let msg := "SFP1: current not in range (%d)"%string in
  watch_sfp H_SFP1_CURRENT REG_SFP1_PRESENT i2cData 1000 900 (Some msg) (Some msg).
Definition handler_SFP2_CURRENT (i2cData : i2c_event_data_t) : HW event_t :=
  let msg := "SFP2: current not in range (%d)"%string in
  watch_sfp H_SFP2_CURRENT REG_SFP2_PRESENT i2cData 1000 900 (Some msg) (Some msg).
Definition handler_SFP1_TX_BIAS (i2cData : i2c_event_data_t) : HW event_t :=
  let msg := "SFP1: TX bias current not in range (%d)"%string in
  watch_sfp H_SFP1_TX_BIAS REG_SFP1_PRESENT i2cData 33500 32000 (Some msg) (Some msg).
Definition handler_SFP2_TX_BIAS (i2cData : i2c_event_data_t) : HW event_t :=
  let msg := "SFP2: TX bias current not in range (%d)"%string in
  watch_sfp H_SFP2_TX_BIAS REG_SFP2_PRESENT i2cData 33500 32000 (Some msg) (Some msg).
Definition handler_SFP1_TX_POWER_DB (i2cData : i2c_event_data_t) : HW event_t :=
  let msg := "SFP1: TX power not in range (%d)"%string in
  watch_sfp H_SFP1_TX_POWER_DB REG_SFP1_PRESENT i2cData 65 55 (Some msg) (Some msg).
Definition handler_SFP2_TX_POWER_DB (i2cData : i2c_event_data_t) : HW event_t :=
  let msg := "SFP2: TX power not in range (%d)"%string in
  watch_sfp H_SFP2_TX_POWER_DB REG_SFP2_PRESENT i2cData 65 55 (Some msg) (Some msg).
Definition handler_SFP1_RX_POWER_DB (i2cData : i2c_event_data_t) : HW event_t :=
  let msg := "SFP1: RX power not in range (%d)"%string in
  watch_sfp H_SFP1_RX_POWER_DB REG_SFP1_PRESENT i2cData 65 55 (Some msg) (Some msg).
Definition handler_SFP2_RX_POWER_DB (i2cData : i2c_event_data_t) : HW event_t :=
  let msg := "SFP2: RX power not in range (%d)"%string in
  watch_sfp H_SFP2_RX_POWER_DB REG_SFP2_PRESENT i2cData 65 55 (Some msg) (Some msg).

(** ** All registers (i2c_module.c) *)

Definition call_handler (h : handler) : i2c_event_data_t -> HW event_t :=
  match h with
  | H_ADC_CH1 => handler_ADC_CH1
  | H_ADC_CH2 => handler_ADC_CH2
  | H_ADC_CH3 => handler_ADC_CH3
  | H_TAMPER => handler_TAMPER
  | H_SENSOR1 => handler_SENSOR1
  | H_SENSOR2 => handler_SENSOR2
  | H_RELAY1 => handler_RELAY1
  | H_DEFAULT_LONG_PRESSED => handler_DEFAULT_LONG_PRESSED
  | H_RPS_VAC => handler_RPS_VAC
  | H_RPS_BAT_VOLTAGE => handler_RPS_BAT_VOLTAGE
  | H_RPS_CHRG_VOLTAGE => handler_RPS_CHRG_VOLTAGE
  | H_RPS_BAT_CURRENT => handler_RPS_BAT_CURRENT
  | H_RPS_TEMPER => handler_RPS_TEMPER
  | H_SHT_TYPE => handler_SHT_TYPE
  | H_SHT_CONNECTED => handler_SHT_CONNECTED
  | H_SHT_TEMPERATURE => handler_SHT_TEMPERATURE
  | H_SHT_HUMIDITY => handler_SHT_HUMIDITY
  | H_SFP1_PRESENT => handler_SFP1_PRESENT
  | H_SFP2_PRESENT => handler_SFP2_PRESENT
  | H_SFP1_LOS => handler_SFP1_LOS
  | H_SFP2_LOS => handler_SFP2_LOS
  | H_SFP1_TEMPER => handler_SFP1_TEMPER
  | H_SFP2_TEMPER => handler_SFP2_TEMPER
  | H_SFP1_VOLTAGE => handler_SFP1_VOLTAGE
  | H_SFP2_VOLTAGE => handler_SFP2_VOLTAGE
  | H_SFP1_CURRENT => handler_SFP1_CURRENT
  | H_SFP2_CURRENT => handler_SFP2_CURRENT
  | H_SFP1_TX_BIAS => handler_SFP1_TX_BIAS
  | H_SFP2_TX_BIAS => handler_SFP2_TX_BIAS
  | H_SFP1_TX_POWER_DB => handler_SFP1_TX_POWER_DB
  | H_SFP2_TX_POWER_DB => handler_SFP2_TX_POWER_DB
  | H_SFP1_RX_POWER_DB => handler_SFP1_RX_POWER_DB
  | H_SFP2_RX_POWER_DB => handler_SFP2_RX_POWER_DB
  end.

Section events.
Context (address : handler -> Z).

(** A call through a pointer that is not the one of a handler is undefined. *)
Definition call (p : Z) (i2cData : i2c_event_data_t) : HW event_t :=
  h ← deref_opt (find (fun h => address h =? p) handlers); call_handler h i2cData.

Definition event_of (i : nat) : HW unit :=
  d ← the_entry i;
  let i2cData := mk_i2c_event_data (addr d) (value d) in
  if eventsHandler d =? 0 then mret tt else call (eventsHandler d) i2cData ;; mret tt.

Definition i2c_events_handler : HW unit := for_each_p (seq 0 MAX_SENSORS) event_of.
End events.
