(* ===== verification/HwsysDaemon.v ===== *)
(** * tf_hwsysd and tf_hwsys_ctrl: the threads and the control client

    The daemon has three threads: the bus, the clients and the events
    (main_app.c). They share the table of registers without locks. A [step] is
    one round of the loop of a thread, and a [run] any sequence of them; inside
    of a round a thread is not interrupted. The control client (hwsys_ctrl.c)
    is a process of its own, that sends one message to the daemon. *)

From stdpp Require Import functions.
From S2P Require Import Prelude Bytes CLib Effect Hwsys HwsysEvents.

(** ** Messages (socket_module.c) *)

Inductive CLIENT_STATE := SOCKET_DISCONNECTED | SOCKET_READ_ERROR | SOCKET_READ_OK | SOCKET_RESET.
#[export] Instance CLIENT_STATE_eq_dec : EqDecision CLIENT_STATE.
Proof. solve_decision. Defined.

Definition message_size : nat := 60.

(** What receive_msg makes of what read gives: [msg] is its array, which is
    not initialised, and [rec_msg] the variable of the caller. *)
Definition receive (msg : list Z) (r : option (list Z)) (rec_msg : list Z) : CLIENT_STATE * list Z :=
  match r with
  | None => (SOCKET_READ_ERROR, rec_msg)
  | Some [] => (SOCKET_DISCONNECTED, rec_msg)
  | Some bs => (SOCKET_READ_OK, memcpy rec_msg (memcpy msg bs (length bs)) message_size)
  end.

(** read gives at most 60 octets. The socket is closed after an error only. *)
Definition receive_msg (rec_msg : list Z) : HW (CLIENT_STATE * list Z) :=
  msg ← uninitialised message_size;
  r ← ask received;
  (if decide (r = None) then put (fun s => s <| open_fds := open_fds s - 1 |>) else mret tt) ;;
  mret (receive msg ((fun bs => map u8 (take message_size bs)) <$> r) rec_msg).

(** [size] is a uint8_t. *)
Definition send_msg (msg : list Z) (size : Z) : HW unit := emit (Sent (take (Z.to_nat size) msg)).

(** ** Clients (client_comm.c) *)

Definition clientHandler : HW CLIENT_STATE :=
  i2cRec ← uninitialised sizeof_i2c_data;
  i2cDataSend ← uninitialised sizeof_i2c_data;
  '(clientState, i2cRec) ← receive_msg i2cRec;
  let i2cRec :=
    if (opcode i2cRec =? I2C_OPCODE_READ) && bool_decide (clientState = SOCKET_READ_OK)
    then set_opcode I2C_OPCODE_RESPONSE i2cRec else i2cRec in
  let with_len := set_lenMSG (Z.of_nat sizeof_i2c_data) i2cRec in
  if opcode i2cRec =? I2C_OPCODE_RESPONSE then
    data ← i2c_getData i2cDataSend (addr with_len) (lenMSG with_len);
    send_msg (set_opcode I2C_OPCODE_RESPONSE data) (lenMSG data) ;;
    mret clientState
  else if opcode i2cRec =? I2C_OPCODE_WRITE then
    i2c_setData with_len (addr with_len) (lenMSG with_len) ;;
    mret clientState
  else if opcode i2cRec =? I2C_OPCODE_RESET then mret SOCKET_RESET
  else mret clientState.

(** ** The threads (main_app.c) *)

Definition MAX_I2C_ERROR : Z := 5.

(** gpio_resetIoMcu, the pulse on a line by libgpiod, is an output. *)
Definition mainHandler : HW unit :=
  failed ← read_i2c;
  put (fun s => s <| errorCount := if (failed : bool) then u8 (errorCount s + 1) else 0 |>) ;;
  s ← get;
  if MAX_I2C_ERROR <? errorCount s then
    put (fun s => s <| errorCount := 0 |>) ;; emit Iomcu_reset
  else mret tt.

Section daemon.
Context (address : handler -> Z) (OPEN_MAX : Z).

(** accept fails when the process has [OPEN_MAX] descriptors. *)
Definition accept_socket : HW bool :=
  s ← get;
  c ← ask connection;
  if c && (open_fds s <? OPEN_MAX) then put (fun s => s <| open_fds := open_fds s + 1 |>) ;; mret true
  else mret false.

Definition runComHandler : HW unit :=
  accepted ← accept_socket;
  if (accepted : bool) then clientHandler ;; mret tt else mret tt.

Definition eventsHandler_round : HW unit :=
  s ← get;
  expired ← timer_expired (events_timer s);
  if (expired : bool) then
    i2c_events_handler address ;; put (fun s => s <| events_timer := timer_reset (events_timer s) |>)
  else mret tt.

Definition events_start : HW unit := t ← timer_set 3; put (fun s => s <| events_timer := t |>).

Inductive visit := V_open | V_main | V_client | V_start | V_events.
#[export] Instance visit_eq_dec : EqDecision visit.
Proof. solve_decision. Defined.

Definition visit_of (v : visit) : HW unit :=
  match v with
  | V_open => open_i2c
  | V_main => mainHandler
  | V_client => runComHandler
  | V_start => events_start
  | V_events => eventsHandler_round
  end.

(** A visit, with what its questions find. *)
Definition step (v : visit * (nat -> env_t)) : HW unit :=
  put (fun s => s <| env := v.2 |> <| asked := 0%nat |>) ;; visit_of v.1.

Definition run (l : list (visit * (nat -> env_t))) : HW unit := for_each_p l step.

(** The static variables of the handlers. *)
Definition first_prevValue (h : handler) : Z :=
  match h with
  | H_TAMPER | H_SENSOR1 | H_SENSOR2 | H_RELAY1 | H_RPS_VAC | H_RPS_TEMPER | H_SHT_CONNECTED | H_SHT_HUMIDITY
  | H_SFP1_PRESENT | H_SFP2_PRESENT | H_SFP1_LOS | H_SFP2_LOS => 0xFF
  | _ => 0xFFFF
  end.

(** The daemon when its threads start, with [fds] open descriptors. *)
Definition boot (fds : Z) (e : nat -> env_t) : hwsys :=
  mk_hwsys (initial_sock_msgArr address) false zero_data (replicate sizeof_raw_data 0) 0 0
    (mk_timer 0 0) (mk_timer 0 0) (mk_timer 0 0) first_prevValue 0 fds [] e 0.

(** ** The control client (hwsys_ctrl.c, gpio_module.c) *)

Definition MAX_GPIO : Z := 15.
Definition GPIO_IDLE : Z := 16.
Definition RTL_GPIO_POE_RESET : Z := 12.

Definition gpio_name : list string :=
  ["SYS_LED"; "SYS_RESET"; "empty"; "empty"; "empty"; "empty"; "empty"; "empty"; "empty"; "empty"; "empty";
   "IOMCU_RESET"; "empty"; "POE_RESET"; "BOOT0"]%string.

Definition get_gpio_addr_by_name (gpio_reg : list Z) : Z :=
  match list_find (fun n => strcmp_eq gpio_reg (str n) = true) gpio_name with
  | Some (i, _) => Z.of_nat i
  | None => GPIO_IDLE
  end.

(** Without a register of this name the function ends without a value. *)
Definition get_i2c_addr_by_name (reg_name : list Z) (i2CParam : i2c_data_t) : option (Z * i2c_data_t) :=
  '(_, d) ← list_find (fun d => strcmp_array reg_name (name d) = Some true) (initial_sock_msgArr address);
  Some (addr d, store_at 40 (be_bytes 4 (type d)) (store_at 36 [lenData d] (store_at 4 (be_bytes 4 (addr d))
    (set_opcode (opcode d) i2CParam)))).

Inductive cmd_type_t := CTRL_GET | CTRL_SET | CTRL_RESET | CTRL_MAX_CMD_TYPE.
#[export] Instance cmd_type_t_eq_dec : EqDecision cmd_type_t.
Proof. solve_decision. Defined.

Definition getCmdType (arg_2 : list Z) : cmd_type_t :=
  if strcmp_eq arg_2 (str "get") then CTRL_GET
  else if strcmp_eq arg_2 (str "set") then CTRL_SET
  else if strcmp_eq arg_2 (str "reset") then CTRL_RESET
  else CTRL_MAX_CMD_TYPE.

(** What the program goes on to do. *)
Inductive action :=
  | Exits
  | Gpio (offset : Z) (cmd : cmd_type_t) (value : Z)
  | Get_register (i2CParam : i2c_data_t)
  | Set_register (i2CParam : i2c_data_t) (value : Z).

(** getOpt and the choice of the handler; [argv] begins with the name of the
    program. [None]: a null pointer or a missing value is used. *)
Definition getOpt (argv : list (list Z)) : option action :=
  match argv with
  | _ :: arg_1 :: args =>
      let gpio_offset := get_gpio_addr_by_name arg_1 in
      '(chip, i2CParam) ←
        (if gpio_offset =? GPIO_IDLE
         then '(_, p) ← get_i2c_addr_by_name arg_1 zero_data; Some (false, p) else Some (true, zero_data));
      arg_2 ← head args;
      let cmd := getCmdType arg_2 in
      let act value :=
        match (chip : bool), cmd with
        | true, _ => Gpio gpio_offset cmd value
        | false, CTRL_GET => Get_register i2CParam
        | false, CTRL_SET => Set_register i2CParam value
        | false, _ => Exits
        end in
      Some match cmd, args with
           | CTRL_MAX_CMD_TYPE, _ => Exits
           | CTRL_SET, _ :: arg_3 :: _ => act (u8 (strtol arg_3 10))
           | CTRL_SET, _ => Exits
           | _, _ => act 0
           end
  | _ => Some Exits
  end.

(** The message of i2c_getHandler. *)
Definition get_request (i2C_param : i2c_data_t) : list Z :=
  set_opcode I2C_OPCODE_READ (set_lenMSG (Z.of_nat sizeof_i2c_data) i2C_param).

Definition two_numbers (a b : Z) : list Z := print_d a ++ 46 :: print_d b.

(** What i2c_getHandler prints for the data: [None] when a text has no end. *)
Definition print_value (d : i2c_data_t) : option (list Z) :=
  let v := value d in
  let tmp16 := get_16bitValue v in
  if lenData d =? 1 then Some (print_d (octet_at 0 v))
  else if lenData d =? 2 then
    Some (if type d =? TYPE_PSEUDO_FLOAT then
            if tmp16 <? 1000 then two_numbers (tmp16 / 10) (tmp16 mod 10)
            else two_numbers (tmp16 / 1000) (tmp16 mod 1000)
          else if type d =? TYPE_FLOAT_SFP then
            let itmp16 := s16 tmp16 in
            if itmp16 <? 1000 then two_numbers (Z.quot itmp16 10) (Z.abs (Z.rem itmp16 10))
            else two_numbers (Z.quot itmp16 1000) (Z.abs (Z.rem itmp16 1000))
          else print_d tmp16)
  else if lenData d =? 4 then
    Some (print_d (s32 (u32 (Z.lor (Z.lor (Z.lor (octet_at 0 v) (Z.shiftl (octet_at 1 v) 8))
                                          (Z.shiftl (octet_at 2 v) 16)) (Z.shiftl (octet_at 3 v) 24)))))
  else c_string v.

(** What i2c_getHandler prints after the message, when read gives [r]. *)
Definition i2c_getHandler (i2C_param : i2c_data_t) (msg : list Z) (r : option (list Z)) : option (list Z) :=
  let '(clientState, p) := receive msg r (get_request i2C_param) in
  if decide (clientState = SOCKET_READ_OK) then
    if opcode p =? I2C_OPCODE_RESPONSE then
      text ← print_value p;
      Some ((if (octet_at 0 (value p) =? 170) && (octet_at 1 (value p) =? 170) then str "error response" ++ [10] else [])
            ++ text ++ [10])
    else Some []
  else Some (str "error opcode: 1" ++ [10]).

(** The message of i2c_setHandler: the octets above the first are 0. *)
Definition set_request (i2C_param : i2c_data_t) (val : Z) : list Z :=
  store_at 48 [u8 val; 0; 0; 0] (set_opcode I2C_OPCODE_WRITE i2C_param).
End daemon.
