(* ===== verification/HwsysOk.v ===== *)
(** * tf_hwsysd: rules

    The fields of an i2c_data_t under partial copies, the table of registers,
    what every operation keeps, and what the handlers do to the messages and
    to their static variables. *)

From stdpp Require Import functions sets.
From S2P Require Import Prelude Bytes CLib CLibOk Effect Hwsys HwsysEvents HwsysDaemon.

(** ** Fields *)

Definition field (o n : nat) (d : list Z) : list Z := take n (drop o d).

Lemma length_store_at o bs d : (o + length bs <= length d)%nat -> length (store_at o bs d) = length d.
Proof. intros H. unfold store_at. rewrite !length_app, length_take, length_drop. lia. Qed.

Lemma field_store_same o bs d : (o <= length d)%nat -> field o (length bs) (store_at o bs d) = bs.
Proof.
  intros H. unfold field, store_at. rewrite drop_app_length' by (rewrite length_take; lia).
  by rewrite take_app_length.
Qed.

Lemma field_store_before o n o' bs d :
  (o' + length bs <= length d)%nat -> (o + n <= o')%nat -> field o n (store_at o' bs d) = field o n d.
Proof.
  intros Hd H. unfold field, store_at. rewrite drop_app_le by (rewrite length_take; lia).
  rewrite take_app_le by (rewrite length_drop, length_take; lia).
  rewrite !take_drop_commute, take_take. f_equal. f_equal. lia.
Qed.

Lemma field_store_after o n o' bs d :
  (o' + length bs <= length d)%nat -> (o' + length bs <= o)%nat -> field o n (store_at o' bs d) = field o n d.
Proof.
  intros Hd H. unfold field, store_at. rewrite app_assoc. rewrite drop_app_ge by (rewrite length_app, length_take; lia).
  rewrite drop_drop. f_equal. f_equal. rewrite length_app, length_take. lia.
Qed.

Lemma octet_field o d : octet_at o d = default 0 (head (field o 1 d)).
Proof.
  unfold octet_at, field. rewrite head_lookup, lookup_take by lia. by rewrite lookup_drop, Nat.add_0_r.
Qed.

Lemma field_field o n o' n' d : (o + n <= n')%nat -> field o n (field o' n' d) = field (o' + o) n d.
Proof.
  intros H. unfold field. rewrite take_drop_commute, take_take, Nat.min_l by lia.
  rewrite <- take_drop_commute. by rewrite drop_drop.
Qed.

Lemma length_field o n d : (o + n <= length d)%nat -> length (field o n d) = n.
Proof. intros H. unfold field. rewrite length_take, length_drop. lia. Qed.

Lemma memcpy_full dst src : length src = length dst -> memcpy dst src (length dst) = src.
Proof. intros H. unfold memcpy. rewrite take_ge, drop_ge by lia. apply app_nil_r. Qed.

Lemma length_memcpy dst src len :
  (len <= length src)%nat -> (len <= length dst)%nat -> length (memcpy dst src len) = length dst.
Proof. intros H1 H2. unfold memcpy. rewrite length_app, length_take, length_drop. lia. Qed.

Lemma field_memcpy_new o n dst src len :
  (o + n <= len)%nat -> (len <= length src)%nat -> field o n (memcpy dst src len) = field o n src.
Proof.
  intros H1 H2. unfold field, memcpy. rewrite drop_app_le by (rewrite length_take; lia).
  rewrite take_app_le by (rewrite length_drop, length_take; lia).
  rewrite !take_drop_commute, take_take. f_equal. f_equal. lia.
Qed.

Lemma field_memcpy_old o n dst src len :
  (len <= o)%nat -> (len <= length src)%nat -> field o n (memcpy dst src len) = field o n dst.
Proof.
  intros H1 H2. unfold field, memcpy. rewrite drop_app_ge by (rewrite length_take; lia).
  rewrite drop_drop. f_equal. f_equal. rewrite length_take. lia.
Qed.

(** Octets. *)
Lemma store_at_bytes o bs d : bytes_ok bs -> bytes_ok d -> bytes_ok (store_at o bs d).
Proof.
  intros Hb Hd. unfold store_at, bytes_ok. rewrite !Forall_app.
  eauto using Forall_take, Forall_drop.
Qed.
Lemma memcpy_bytes dst src len : bytes_ok dst -> bytes_ok src -> bytes_ok (memcpy dst src len).
Proof. intros. unfold memcpy, bytes_ok. rewrite Forall_app. eauto using Forall_take, Forall_drop. Qed.
Lemma map_u8_bytes l : bytes_ok (map u8 l).
Proof. apply Forall_map, list.Forall_true. intros x. apply u8_range. Qed.

Definition data_ok (d : i2c_data_t) : Prop := length d = sizeof_i2c_data /\ bytes_ok d.

Lemma lenMSG_field d : lenMSG d = default 0 (head (field 0 1 d)). Proof. apply octet_field. Qed.
Lemma addr_field d : addr d = be_val (field 4 4 d). Proof. done. Qed.
Lemma name_field d : name d = field 8 24 d. Proof. done. Qed.
Lemma opcode_field d : opcode d = be_val (field 32 4 d). Proof. done. Qed.
Lemma lenData_field d : lenData d = default 0 (head (field 36 1 d)). Proof. apply octet_field. Qed.
Lemma type_field d : type d = be_val (field 40 4 d). Proof. done. Qed.
Lemma eventsHandler_field d : eventsHandler d = be_val (field 44 4 d). Proof. done. Qed.
Lemma value_field d : value d = field 48 32 d. Proof. done. Qed.

(** The fields that are read through an update elsewhere. *)
Ltac fields :=
  unfold set_lenMSG, set_opcode, set_value in *;
  rewrite ?lenMSG_field, ?addr_field, ?name_field, ?opcode_field, ?lenData_field, ?type_field,
    ?eventsHandler_field, ?value_field.
Ltac field_steps :=
  repeat first
    [ rewrite field_store_before by (rewrite ?length_store_at; rewrite ?length_be_bytes; simpl; unfold sizeof_i2c_data, sizeof_value in *; lia)
    | rewrite field_store_after by (rewrite ?length_store_at; rewrite ?length_be_bytes; simpl; unfold sizeof_i2c_data, sizeof_value in *; lia) ].

Lemma data_ok_store o bs d : data_ok d -> bytes_ok bs -> (o + length bs <= 80)%nat -> data_ok (store_at o bs d).
Proof.
  intros [Hl Hb] Hbs Ho. unfold sizeof_i2c_data in *. split; [|by apply store_at_bytes].
  unfold sizeof_i2c_data. by rewrite length_store_at by lia.
Qed.

Lemma data_ok_lenMSG v d : data_ok d -> data_ok (set_lenMSG v d).
Proof. intros H. apply data_ok_store; [done| |simpl; lia]. repeat constructor; apply u8_range. Qed.

Lemma data_ok_opcode v d : data_ok d -> data_ok (set_opcode v d).
Proof. intros H. apply data_ok_store; [done|apply be_bytes_ok|simpl; lia]. Qed.

Lemma data_ok_value bs d : data_ok d -> bytes_ok bs -> (length bs <= sizeof_value)%nat -> data_ok (set_value bs d).
Proof. intros H Hbs Hl. unfold sizeof_value in *. apply data_ok_store; [done|done|lia]. Qed.

(** What does not change with the length of the message. *)
Record same_but_len (d d' : i2c_data_t) : Prop := mk_same_but_len {
  sbl_ok : data_ok d';
  sbl_rest : field 1 79 d' = field 1 79 d }.

Lemma same_field o n d d' : same_but_len d d' -> (1 <= o)%nat -> (o + n <= 80)%nat -> field o n d' = field o n d.
Proof.
  intros [_ H] Ho Hn. pose proof (fun x => field_field (o - 1) n 1 79 x ltac:(lia)) as Hf.
  replace (1 + (o - 1))%nat with o in Hf by lia. by rewrite <- !Hf, H.
Qed.

Lemma set_lenMSG_same v d : data_ok d -> same_but_len d (set_lenMSG v d).
Proof.
  intros Hd. split; [by apply data_ok_lenMSG|]. destruct Hd as [Hd _].
  unfold set_lenMSG. by field_steps.
Qed.

Lemma same_refl d : data_ok d -> same_but_len d d.
Proof. done. Qed.
Lemma same_trans d1 d2 d3 : same_but_len d1 d2 -> same_but_len d2 d3 -> same_but_len d1 d3.
Proof. intros [_ H1] [H2 H3]. split; [done|congruence]. Qed.

(** All that the daemon looks at, other than lenMSG. *)
Definition contents (d : i2c_data_t) : Z * Z * Z * Z * list Z := (addr d, lenData d, type d, eventsHandler d, value d).
Lemma same_contents d d' : same_but_len d d' -> contents d' = contents d.
Proof.
  intros H. unfold contents. fields.
  by rewrite !(same_field _ _ d d' H) by lia.
Qed.

(** ** What a handler reports: the reference

    [Watch]: a value of one or two octets with limits, for a transceiver or
    the external sensor only under a condition ([gated]); [Change]: a value
    with two states and the messages for the change to the first and to the
    second one. *)

Inductive shape :=
  | Watch (wide gated : bool) (max min : Z) (over less : option string)
  | Change (wide : bool) (state_1 state_2 : Z) (to_1 to_2 : option string)
  | Sht_temperature
  | Silent.

Definition watch_both (gated : bool) (max min : Z) (msg : string) : shape := Watch true gated max min (Some msg) (Some msg).

Definition shape_of (h : handler) : shape :=
  match h with
  | H_ADC_CH1 => watch_both false 3500 3000 "ADC CH1 out of range: %d"
  | H_ADC_CH2 => watch_both false 1700 1300 "ADC CH2 out of range: %d"
  | H_ADC_CH3 => watch_both false 1300 1000 "ADC CH3 out of range: %d"
  | H_TAMPER => Change false 1 0 (Some "TAMPER changed to Close"%string) (Some "TAMPER changed to Open"%string)
  | H_SENSOR1 => Change false 1 0 (Some "SENSOR1 changed to Close"%string) (Some "SENSOR1 changed to Open"%string)
  | H_SENSOR2 => Change false 1 0 (Some "SENSOR2 changed to Close"%string) (Some "SENSOR2 changed to Open"%string)
  | H_RELAY1 => Change false 1 0 (Some "RELAY changed to Close"%string) (Some "RELAY changed to Open"%string)
  | H_DEFAULT_LONG_PRESSED => Change true 0x475D 0 (Some "DEFAULT SETTINGS by DEFAULT BUTTON"%string) None
  | H_RPS_VAC => Change false 1 0 (Some "UPS: power changed to VAC"%string) (Some "UPS: power changed to Battery"%string)
  | H_RPS_BAT_VOLTAGE => Watch true false 30000 20500 (Some "UPS: Battery voltage reaches max voltage (%d)"%string)
                           (Some "UPS: Battery voltage is LOW (%d)"%string)
  | H_RPS_CHRG_VOLTAGE => Watch true false 30000 20500 (Some "UPS: Charge voltage reaches max voltage (%d)"%string)
                            (Some "UPS: Charge voltage is LOW (%d)"%string)
  | H_RPS_BAT_CURRENT => Silent
  | H_RPS_TEMPER => Watch false false 85 (u32 (-60)) (Some "UPS: RPS board overheat (%d)"%string) None
  | H_SHT_TYPE => Silent
  | H_SHT_CONNECTED => Change false 1 0 (Some "SHT: connection status %d"%string) None
  | H_SHT_TEMPERATURE => Sht_temperature
  | H_SHT_HUMIDITY => Watch false true 98 0 (Some "SHT: humidity is higher than maximum %d"%string)
                        (Some "SHT: humidity is lower than minimum %d"%string)
  | H_SFP1_PRESENT => Change false 1 0 (Some "SFP1: in chassis"%string) (Some "SFP1: removed from chassis"%string)
  | H_SFP2_PRESENT => Change false 1 0 (Some "SFP2: in chassis"%string) (Some "SFP2: removed from chassis"%string)
  | H_SFP1_LOS => Change false 0 1 (Some "SFP1: optical signal UP (%d dBm)"%string) (Some "SFP1: lost optical signal"%string)
  | H_SFP2_LOS => Change false 0 1 (Some "SFP2: optical signal UP (%d dBm)"%string) (Some "SFP2: lost optical signal"%string)
  | H_SFP1_TEMPER => Watch true true 50 20 (Some "SFP1: overheating (%d)"%string) None
  | H_SFP2_TEMPER => Watch true true 50 20 (Some "SFP2: overheating (%d)"%string) None
  | H_SFP1_VOLTAGE => watch_both true 3600 3000 "SFP1: voltage not in range (%d)"
  | H_SFP2_VOLTAGE => watch_both true 3600 3000 "SFP2: voltage not in range (%d)"
  | H_SFP1_CURRENT => watch_both true 1000 900 "SFP1: current not in range (%d)"
  | H_SFP2_CURRENT => watch_both true 1000 900 "SFP2: current not in range (%d)"
  | H_SFP1_TX_BIAS => watch_both true 33500 32000 "SFP1: TX bias current not in range (%d)"
  | H_SFP2_TX_BIAS => watch_both true 33500 32000 "SFP2: TX bias current not in range (%d)"
  | H_SFP1_TX_POWER_DB => watch_both true 65 55 "SFP1: TX power not in range (%d)"
  | H_SFP2_TX_POWER_DB => watch_both true 65 55 "SFP2: TX power not in range (%d)"
  | H_SFP1_RX_POWER_DB => watch_both true 65 55 "SFP1: RX power not in range (%d)"
  | H_SFP2_RX_POWER_DB => watch_both true 65 55 "SFP2: RX power not in range (%d)"
  end.

Definition the_value (wide : bool) (v : list Z) : Z := if wide then get_16bitValue v else octet_at 0 v.
Definition said (o : option string) : list string := from_option (fun m => [m]) [] o.

Definition watch_reaction (max min : Z) (over less : option string) (v prev : Z) : Z * list string :=
  match check_out_of_range v prev max min with
  | I2C_ERR_CHANGE_VALUE => (v, [])
  | I2C_OVER_MAX => (if over then v else prev, said over)
  | I2C_LESS_MIN => (if less then v else prev, said less)
  | _ => (prev, [])
  end.

Definition change_message (state_1 state_2 : Z) (to_1 to_2 : option string) (prev v : Z) : list string :=
  if (v =? state_1) && (prev =? state_2) then said to_1
  else if (v =? state_2) && (prev =? state_1) then said to_2
  else [].

Definition too_warm : string := "SHT: temperature is higher than maximum %d".
Definition too_cold : string := "SHT: temperature is lower than minimum %d".

(** The recorded value and the messages after the value [v]; [gate] is the
    condition of a gated handler. *)
Definition reaction (h : handler) (gate : bool) (v : list Z) (prev : Z) : Z * list string :=
  match shape_of h with
  | Watch wide gated max min over less =>
      if gated && negb gate then (prev, []) else watch_reaction max min over less (the_value wide v) prev
  | Change wide state_1 state_2 to_1 to_2 =>
      (the_value wide v, change_message state_1 state_2 to_1 to_2 prev (the_value wide v))
  | Sht_temperature =>
      let t := s16 (get_16bitValue v) in
      if gate then
        match check_out_of_range (u32 t) prev 500 (u32 (-600)) with
        | I2C_OVER_MAX => (u16 t, [too_warm])
        | I2C_LESS_MIN => (u16 t, [too_cold])
        | _ => (prev, [])
        end
      else (prev, [])
  | Silent => (prev, [])
  end.

Definition messages (h : handler) : list string :=
  match shape_of h with
  | Watch _ _ _ _ over less => said over ++ said less
  | Change _ _ _ to_1 to_2 => said to_1 ++ said to_2
  | Sht_temperature => [too_warm; too_cold]
  | Silent => []
  end.

Lemma reaction_messages h gate v prev : Forall (fun m => m ∈ messages h) (reaction h gate v prev).2.
Proof.
  assert (forall l l' : list string, Forall (fun m => m ∈ l ++ l') l) as Hl.
  { intros l l'. apply list.Forall_forall. intros x Hx. apply elem_of_app. auto. }
  assert (forall l l' : list string, Forall (fun m => m ∈ l' ++ l) l) as Hr.
  { intros l l'. apply list.Forall_forall. intros x Hx. apply elem_of_app. auto. }
  unfold reaction, messages, watch_reaction, change_message.
  destruct (shape_of h) as [wide gated max min over less|wide s1 s2 to1 to2| |]; simpl.
  - destruct (gated && _); [constructor|]. destruct (check_out_of_range _ _ _ _); simpl; auto.
  - destruct (_ && _); [auto|]. destruct (_ && _); auto.
  - destruct gate; [|constructor]. destruct (check_out_of_range _ _ _ _); simpl; repeat constructor; set_solver.
  - constructor.
Qed.

(** Different handlers write different messages. *)
Lemma messages_disjoint h h' m : m ∈ messages h -> m ∈ messages h' -> h = h'.
Proof.
  assert (forallb (fun h => forallb (fun h' => bool_decide (h = h') ||
    forallb (fun m => negb (bool_decide (m ∈ messages h'))) (messages h)) handlers) handlers = true) as H by reflexivity.
  intros Hm Hm'. rewrite forallb_forall in H.
  assert (forall h, In h handlers) as Hall by (intros []; simpl; tauto).
  specialize (H h (Hall h)). rewrite forallb_forall in H. specialize (H h' (Hall h')).
  apply orb_true_iff in H as [H|H]; [by apply bool_decide_eq_true in H|].
  rewrite forallb_forall in H. apply list_elem_of_In in Hm. specialize (H m Hm).
  apply negb_true_iff, bool_decide_eq_false in H. done.
Qed.

(** ** What a handler leaves *)

(** The handler [h] has written the messages [l]. *)
Record touched (h : handler) (l : list string) (s s' : hwsys) : Prop := mk_touched {
  t_arr : Forall2 same_but_len (sock_msgArr s) (sock_msgArr s');
  t_prev h' : h' <> h -> prevValue s' h' = prevValue s h';
  t_outs : outs s' = outs s ++ map Log l;
  t_write : write_flag s' = write_flag s /\ write_data s' = write_data s;
  t_bus : i2c_raw_data s' = i2c_raw_data s /\ hi_prio_len s' = hi_prio_len s /\ low_prio_len s' = low_prio_len s;
  t_timers : hi_prio_timer s' = hi_prio_timer s /\ low_prio_timer s' = low_prio_timer s /\ events_timer s' = events_timer s;
  t_counters : errorCount s' = errorCount s /\ open_fds s' = open_fds s;
  t_env : env s' = env s }.

Lemma touched_refl h s : Forall data_ok (sock_msgArr s) -> touched h [] s s.
Proof.
  intros Hs. split; try done; [|by rewrite app_nil_r].
  induction Hs; constructor; [by apply same_refl|done].
Qed.

Lemma touched_trans h l1 l2 s1 s2 s3 : touched h l1 s1 s2 -> touched h l2 s2 s3 -> touched h (l1 ++ l2) s1 s3.
Proof.
  intros [A1 P1 O1 W1 B1 T1 C1 E1] [A2 P2 O2 W2 B2 T2 C2 E2]. split.
  - eapply Forall2_trans; [|exact A1|exact A2]. apply same_trans.
  - intros h' Hh. by rewrite P2, P1.
  - by rewrite O2, O1, map_app, app_assoc.
  - destruct W1, W2. split; congruence.
  - destruct B1 as (? & ? & ?), B2 as (? & ? & ?). split_and!; congruence.
  - destruct T1 as (? & ? & ?), T2 as (? & ? & ?). split_and!; congruence.
  - destruct C1, C2. split; congruence.
  - by rewrite E2.
Qed.

(** The registers that handlers ask for are in the table. *)
Definition asked_registers : list Z :=
  [REG_SHT_CONNECTED; REG_SFP1_PRESENT; REG_SFP1_RX_POWER; REG_SFP2_PRESENT; REG_SFP2_RX_POWER].
Record table_ok (s : hwsys) : Prop := mk_table_ok {
  tab_data : Forall data_ok (sock_msgArr s);
  tab_asked a : a ∈ asked_registers -> a ∈ map addr (sock_msgArr s) }.

Lemma same_addr l l' : Forall2 same_but_len l l' -> map addr l' = map addr l.
Proof.
  induction 1 as [|d d' l l' H _ IH]; [done|]. simpl. rewrite IH. f_equal.
  by injection (same_contents _ _ H).
Qed.

Lemma touched_table h l s s' : touched h l s s' -> table_ok s -> table_ok s'.
Proof.
  intros [H _ _ _ _ _ _ _] [Hd Ha]. split; [|by rewrite (same_addr _ _ H)].
  clear Hd Ha. induction H as [|d d' l1 l2 [] ? IH]; by constructor.
Qed.

(** The operation [m] of [h] ends, and leaves what is [touched] for the
    recorded value and the messages of [r]. *)
Definition reacts (h : handler) {A} (m : HW A) (r : Z * list string) (s : hwsys) : Prop :=
  spec true m (fun _ s' => touched h r.2 s s' /\ prevValue s' h = r.1) s.

Section reacts.
Context (h : handler) (s : hwsys) (Hs : table_ok s).

Lemma reacts_ret {A} (a : A) p : prevValue s h = p -> reacts h (mret a) (p, []) s.
Proof. intros <-. apply spec_ret. split; [by apply touched_refl, Hs|done]. Qed.

Lemma send_log_touched msg : touched h [msg] s (s <| outs := outs s ++ [Log msg] |>).
Proof. destruct (touched_refl h s (tab_data s Hs)). by split. Qed.

Lemma record_touched v : touched h [] s (s <| prevValue := <[h := v]> (prevValue s) |>).
Proof.
  destruct (touched_refl h s (tab_data s Hs)). split; try done. upd_simpl. intros h' Hh. by rewrite fn_lookup_insert_ne by done.
Qed.

Lemma reacts_record v : reacts h (record_prev h v) (v, []) s.
Proof. apply spec_put. split; [apply record_touched|]. upd_simpl. apply fn_lookup_insert. Qed.

Lemma reacts_log msg : reacts h (send_log msg) (prevValue s h, [msg]) s.
Proof. apply spec_put. split; [apply send_log_touched|done]. Qed.
End reacts.

Lemma reacts_bind h {A B} (m : HW A) (k : A -> HW B) p1 l1 p2 l2 s :
  reacts h m (p1, l1) s ->
  table_ok s ->
  (forall a s', table_ok s' -> prevValue s' h = p1 -> reacts h (k a) (p2, l2) s') ->
  reacts h (m ≫= k) (p2, l1 ++ l2) s.
Proof.
  intros Hm Hs Hk. apply spec_bind. eapply spec_mono; [exact Hm|]. intros a s' [Ht Hp].
  eapply spec_mono; [apply (Hk a s' (touched_table _ _ _ _ Ht Hs) Hp)|].
  intros b s'' [Ht' Hp']. split; [|done]. by eapply touched_trans.
Qed.

(** An operation of which the value and the state are known. *)
Lemma reacts_first h {A B} (m : HW A) (k : A -> HW B) a l s s' p :
  m s = Some (a, s') -> touched h [] s s' -> reacts h (k a) (p, l) s' -> reacts h (m ≫= k) (p, l) s.
Proof.
  intros Hm Ht Hk. unfold reacts, spec, mbind, ST_bind. rewrite Hm. eapply spec_mono; [exact Hk|].
  intros b s'' [Ht' Hp]. split; [|done]. change l with ([] ++ l). by eapply touched_trans.
Qed.

Lemma reacts_report h v msg s : table_ok s -> reacts h (report h v msg) (v, [msg]) s.
Proof.
  intros Hs. apply (reacts_bind h _ _ (prevValue s h) [msg] v []); [by apply reacts_log|done|].
  intros _ s' Hs' _. by apply reacts_record.
Qed.

(** ** The handlers *)

Lemma spec_ask t {A} (q : env_t -> A) (Q : A -> hwsys -> Prop) s :
  Q (q (env s (asked s))) (s <| asked := S (asked s) |>) -> spec t (ask q) Q s.
Proof. done. Qed.

Lemma get_id_spec t a s (Q : nat -> hwsys -> Prop) :
  a ∈ map addr (sock_msgArr s) ->
  (forall id d, list_find (fun d => addr d = a) (sock_msgArr s) = Some (id, d) ->
     sock_msgArr s !! id = Some d -> addr d = a -> Q id s) ->
  spec t (get_id_by_addr a) Q s.
Proof.
  intros Ha HQ. apply list_elem_of_fmap in Ha as (d & -> & Hd). unfold get_id_by_addr.
  apply spec_bind, spec_get, spec_bind, spec_deref.
  - intros _. by apply (list_find_elem_of (fun d' => addr d' = addr d) _ d).
  - intros [id d'] Hf. apply spec_ret. pose proof Hf as Hf'. apply list_find_Some in Hf' as (? & ? & _). eauto.
Qed.

Lemma the_entry_spec t id d s (Q : i2c_data_t -> hwsys -> Prop) :
  sock_msgArr s !! id = Some d -> Q d s -> spec t (the_entry id) Q s.
Proof.
  intros Hd HQ. apply spec_bind, spec_get, spec_deref; [by rewrite Hd|]. rewrite Hd. by intros ? [= <-].
Qed.

Lemma mod_entry_spec t id f d s (Q : unit -> hwsys -> Prop) :
  sock_msgArr s !! id = Some d -> Q tt (s <| sock_msgArr := <[id := f d]> (sock_msgArr s) |>) ->
  spec t (mod_entry id f) Q s.
Proof.
  intros Hd HQ. apply spec_bind, (the_entry_spec _ _ d); [done|]. apply spec_put.
  assert (alter f id (sock_msgArr s) = <[id := f d]> (sock_msgArr s)) as ->; [|done].
  apply list_eq. intros j. destruct (decide (id = j)) as [<-|Hj].
  - rewrite list_lookup_alter_eq, Hd, list_lookup_insert_eq by (by eapply lookup_lt_Some). done.
  - by rewrite list_lookup_alter_ne, list_lookup_insert_ne by done.
Qed.

Lemma insert_same l id d d' :
  Forall data_ok l -> l !! id = Some d -> same_but_len d d' -> Forall2 same_but_len l (<[id := d']> l).
Proof.
  intros Hl Hd Hs. revert id Hd. induction Hl as [|x l Hx Hl IH]; intros [|id]; simpl; try done.
  - intros [= ->]. constructor; [done|]. clear IH. induction Hl; constructor; [by apply same_refl|done].
  - intros Hd. constructor; [by apply same_refl|by apply IH].
Qed.

Lemma getData_spec (h : handler) dst a len s (Q : i2c_data_t -> hwsys -> Prop) :
  table_ok s -> a ∈ map addr (sock_msgArr s) ->
  (forall id d, list_find (fun d => addr d = a) (sock_msgArr s) = Some (id, d) ->
     sock_msgArr s !! id = Some d -> addr d = a ->
     let s' := s <| sock_msgArr := <[id := set_lenMSG len d]> (sock_msgArr s) |> in
     touched h [] s s' -> prevValue s' = prevValue s ->
     Q (memcpy dst (set_lenMSG len d) (Z.to_nat len)) s') ->
  spec true (i2c_getData dst a len) Q s.
Proof.
  intros Hs Ha HQ. apply spec_bind, get_id_spec; [done|]. intros id d Hf Hd Had.
  apply spec_bind, (mod_entry_spec _ _ _ d); [done|].
  apply spec_bind, (the_entry_spec _ _ (set_lenMSG len d)).
  { upd_simpl. rewrite list_lookup_insert_eq; [done|by eapply lookup_lt_Some]. }
  apply spec_ret, HQ; try done. destruct (touched_refl h s (tab_data s Hs)). split; try done. upd_simpl.
  apply insert_same with d; [apply Hs|done|]. apply set_lenMSG_same.
  eapply list.Forall_forall; [apply Hs|by eapply list_elem_of_lookup_2].
Qed.

(** What the stack holds where the handlers expect the state of the device. *)
Definition gate_of (s : hwsys) : bool :=
  octet_at 48 (map u8 (resize sizeof_i2c_data 0 (stack (env s (asked s))))) =? 1.

Lemma data_of_spec h reg len s (Q : i2c_data_t -> hwsys -> Prop) :
  table_ok s -> reg ∈ asked_registers -> 1 <= len <= 48 ->
  (forall d s', touched h [] s s' -> prevValue s' = prevValue s -> (octet_at 0 (value d) =? 1) = gate_of s -> Q d s') ->
  spec true (data_of reg len) Q s.
Proof.
  intros Hs Hr Hlen HQ. unfold data_of, uninitialised. apply spec_bind, spec_bind.
  set (s1 := s <| asked := S (asked s) |>). apply spec_ask.
  set (junk := map u8 (resize sizeof_i2c_data 0 (stack (env s (asked s))))).
  apply spec_ret. apply (getData_spec h).
  - by destruct Hs.
  - by apply (tab_asked s Hs).
  - intros id d Hf Hd Had s' Ht Hp. apply HQ.
    + destruct Ht. by split.
    + done.
    + unfold gate_of. fold junk. f_equal.
      assert (length (set_lenMSG len d) = 80%nat) as Hl.
      { apply data_ok_lenMSG. eapply list.Forall_forall; [apply Hs|by eapply list_elem_of_lookup_2]. }
      rewrite octet_field, (octet_field 48), value_field, field_field by lia. simpl.
      by rewrite field_memcpy_old by lia.
Qed.

Section handlers.
Context (h : handler).

Lemma reacts_prev {B} (k : Z -> HW B) r s : reacts h (k (prevValue s h)) r s -> reacts h (the_prev h ≫= k) r s.
Proof. intros Hk. by apply spec_bind, spec_bind, spec_get, spec_ret. Qed.

Lemma reacts_ret_bind {A B} (a : A) (k : A -> HW B) r s : reacts h (k a) r s -> reacts h (mret a ≫= k) r s.
Proof. done. Qed.

(** The last operation that does something. *)
Lemma reacts_last {A B} (m : HW A) (f : A -> B) r s :
  reacts h m r s -> reacts h (m ≫= fun a => mret (f a)) r s.
Proof. intros Hm. apply spec_bind. eapply spec_mono; [exact Hm|]. intros a s' HQ. by apply spec_ret. Qed.

Ltac decided := rewrite ?decide_True by done; rewrite ?decide_False by done; rewrite ?decide_True by done.

Lemma report_if v o p s :
  table_ok s -> prevValue s h = p ->
  reacts h (from_option (report h v) (mret tt) o) (if o then v else p, said o) s.
Proof. intros Hs Hp. destruct o; [by apply reacts_report|by apply reacts_ret]. Qed.

Lemma watch_range_reacts v max min over less s :
  table_ok s -> reacts h (watch_range h v max min over less) (watch_reaction max min over less v (prevValue s h)) s.
Proof.
  intros Hs. unfold watch_range. apply reacts_prev. cbv zeta. unfold watch_reaction.
  destruct (check_out_of_range v (prevValue s h) max min); decided.
  all: try (apply reacts_ret_bind, reacts_ret_bind, reacts_ret; [done|done]).
  - apply reacts_ret_bind, (reacts_last _ (fun _ => _)). by apply report_if.
  - apply reacts_ret_bind, (reacts_last _ (fun _ => _)). by apply report_if.
  - apply (reacts_last _ (fun _ => _)). by apply reacts_record.
Qed.

Lemma log_if_reacts event e msg s :
  table_ok s -> reacts h (log_if event e msg) (prevValue s h, if decide (event = e) then [msg] else []) s.
Proof. intros Hs. unfold log_if. destruct (decide _); [by apply reacts_log|by apply reacts_ret]. Qed.

(** [watch_state], followed by what reports its event. *)
Lemma watch_state_reacts {B} v none state_1 state_2 to_1 to_2 (k : event_t -> HW B) s :
  table_ok s -> state_1 <> state_2 -> none <> state_1 -> none <> state_2 ->
  (forall event l s', table_ok s' -> prevValue s' h = v ->
     event = I2C_CHANGED_TO_CLOSE /\ v = state_1 /\ l = said to_1 \/
     event = I2C_CHANGED_TO_OPEN /\ v = state_2 /\ l = said to_2 \/
     event = I2C_ERR_OK /\ l = [] -> reacts h (k event) (v, l) s') ->
  reacts h (watch_state h v none state_1 state_2 ≫= k) (v, change_message state_1 state_2 to_1 to_2 (prevValue s h) v) s.
Proof.
  intros Hs Hne Hn1 Hn2 Hk. unfold watch_state, change_message. set (p := prevValue s h).
  destruct (v =? p) eqn:Hv; bool_hyps.
  - replace ((v =? state_1) && (p =? state_2)) with false by (symmetry; apply andb_false_iff; rewrite !Z.eqb_neq; lia).
    replace ((v =? state_2) && (p =? state_1)) with false by (symmetry; apply andb_false_iff; rewrite !Z.eqb_neq; lia).
    assert (v =? p = true) as Hvp by (by apply Z.eqb_eq). unfold p in Hvp.
    apply (reacts_first h _ _ I2C_ERR_OK [] s s).
    + unfold mbind, ST_bind, the_prev. simpl. fold p. apply Z.eqb_eq in Hv. by rewrite Hv.
    + by apply touched_refl, Hs.
    + apply Hk; auto.
  - set (s1 := s <| prevValue := <[h := v]> (prevValue s) |>).
    set (e := if negb (p =? none) then check_changed_state v p state_1 state_2 else I2C_ERR_OK).
    apply (reacts_first h _ _ e _ s s1).
    + unfold mbind, ST_bind, the_prev. simpl. fold p. apply Z.eqb_neq in Hv. by rewrite Hv.
    + apply record_touched; done.
    + assert (table_ok s1) as Hs1 by (eapply touched_table; [apply record_touched|]; done).
      assert (prevValue s1 h = v) as Hp1 by (unfold s1; upd_simpl; apply fn_lookup_insert).
      apply Hk; [done|done|]. unfold e, check_changed_state.
      destruct (p =? none) eqn:Hpn, (v =? state_1) eqn:H1, (p =? state_2) eqn:H2, (v =? state_2) eqn:H3, (p =? state_1) eqn:H4;
        simpl; bool_hyps; auto; lia.
Qed.

(** A message that is the last operation. *)
Lemma log_last {B} msg (k : unit -> HW B) e v s :
  table_ok s -> prevValue s h = v -> (k = fun _ => mret e) -> reacts h (send_log msg ≫= k) (v, [msg]) s.
Proof. intros Hs <- ->. apply (reacts_last _ (fun _ => e)). by apply reacts_log. Qed.

(** A gated value. *)
Lemma watch_gated {B} reg (k : HW B) (none : B) r s :
  table_ok s -> reg ∈ asked_registers ->
  (forall s', table_ok s' -> prevValue s' h = prevValue s h -> reacts h k r s') ->
  reacts h (data ← data_of reg 1; if octet_at 0 (value data) =? 1 then k else mret none)
    (if gate_of s then r else (prevValue s h, [])) s.
Proof.
  intros Hs Hr Hk. apply spec_bind. eapply (data_of_spec h); [done|done|lia|]. intros d s' Ht Hp ->.
  assert (table_ok s') as Hs' by (by eapply touched_table).
  assert (prevValue s' h = prevValue s h) as Hph by (by rewrite Hp).
  destruct (gate_of s).
  - eapply spec_mono; [by apply Hk|]. intros b s'' [Ht' Hp']. split; [|done].
    change r.2 with ([] ++ r.2). by eapply touched_trans.
  - apply spec_ret. split; [done|]. by rewrite Hp.
Qed.
End handlers.

Ltac decided := rewrite ?decide_True by done; rewrite ?decide_False by done; rewrite ?decide_True by done.

(** After [watch_state]: the messages of each event. *)
Ltac change_cases :=
  let event := fresh "event" in let l := fresh "l" in let s' := fresh "s'" in
  intros event l s' ? ? [(-> & ? & ->)|[(-> & ? & ->)|(-> & ->)]];
  unfold log_if; decided; subst;
  repeat lazymatch goal with
  | |- context [?v =? _] => match goal with H : v = _ |- _ => rewrite H end
  end;
  try match goal with |- context [bool_decide ?P] => rewrite (bool_decide_eq_false_2 P) by done end;
  cbn [Z.eqb Pos.eqb negb andb said from_option];
  repeat apply reacts_ret_bind;
  first [ apply reacts_ret; [assumption|congruence] | eapply log_last; [assumption|congruence|reflexivity] | idtac ].

(** A handler of a gated value with limits. *)
Lemma watch_gated_reacts h reg v max min over less s :
  table_ok s -> reg ∈ asked_registers ->
  reacts h (data ← data_of reg 1;
            if octet_at 0 (value data) =? 1 then watch_range h v max min over less else mret I2C_ERR_OK)
    (if negb (gate_of s) then (prevValue s h, []) else watch_reaction max min over less v (prevValue s h)) s.
Proof.
  intros Hs Hr. replace (if negb (gate_of s) then (prevValue s h, []) else watch_reaction max min over less v (prevValue s h))
    with (if gate_of s then watch_reaction max min over less v (prevValue s h) else (prevValue s h, []))
    by (by destruct (gate_of s)).
  apply watch_gated; [done|done|].
  intros s' Hs' <-. by apply watch_range_reacts.
Qed.

Lemma bat_voltage_reacts i2cData s :
  table_ok s ->
  reacts H_RPS_BAT_VOLTAGE (handler_RPS_BAT_VOLTAGE i2cData)
    (reaction H_RPS_BAT_VOLTAGE (gate_of s) (e_value i2cData) (prevValue s H_RPS_BAT_VOLTAGE)) s.
Proof.
  intros Hs. unfold handler_RPS_BAT_VOLTAGE, reaction. cbn [shape_of andb the_value]. apply reacts_prev.
  destruct (_ =? _) eqn:Hv; [|by apply watch_range_reacts]. apply Z.eqb_eq in Hv.
  unfold watch_reaction, check_out_of_range. rewrite Hv, Z.leb_refl, Z.sub_diag. by apply reacts_ret.
Qed.

Lemma sht_temperature_reacts i2cData s :
  table_ok s ->
  reacts H_SHT_TEMPERATURE (handler_SHT_TEMPERATURE i2cData)
    (reaction H_SHT_TEMPERATURE (gate_of s) (e_value i2cData) (prevValue s H_SHT_TEMPERATURE)) s.
Proof.
  intros Hs. apply watch_gated; [done|by apply (bool_decide_unpack _)|].
  intros s' Hs' <-. cbv zeta. apply reacts_prev.
  destruct (check_out_of_range _ _ _ _); decided; repeat apply reacts_ret_bind; try (by apply reacts_ret).
  - apply (reacts_last _ _ (fun _ => I2C_OVER_MAX)). by apply reacts_report.
  - apply (reacts_last _ _ (fun _ => I2C_LESS_MIN)). by apply reacts_report.
Qed.

Lemma los_up h reg len v msg (e : event_t) s :
  table_ok s -> reg ∈ asked_registers -> prevValue s h = v -> 1 <= len <= 48 ->
  reacts h ((data_of reg len ;; send_log msg) ;; mret e) (v, [msg]) s.
Proof.
  intros Hs Hr Hv Hlen. apply (reacts_last _ _ (fun _ => e)), spec_bind. eapply (data_of_spec h); [done|done|done|].
  intros d s' Ht Hp _. eapply spec_mono; [apply reacts_log; by eapply touched_table|].
  intros [] s'' [Ht' Hp']. split; [|by rewrite Hp', Hp]. by eapply (touched_trans _ [] [msg]).
Qed.

(** Every handler does what the table of [shape_of] says. *)
Lemma call_handler_reacts h i2cData s :
  table_ok s ->
  reacts h (call_handler h i2cData) (reaction h (gate_of s) (e_value i2cData) (prevValue s h)) s.
Proof.
  intros Hs. unfold reaction.
  destruct h; cbn [call_handler shape_of watch_both negb andb the_value].
  all: try (by apply watch_range_reacts).
  all: try (apply watch_state_reacts; [done|done|done|done|change_cases]).
  all: lazymatch goal with
    | |- reacts _ _ (if _ then _ else watch_reaction _ _ _ _ _ _) _ =>
        apply watch_gated_reacts; [done|by apply (bool_decide_unpack _)]
    | _ => idtac
    end.
  - by apply bat_voltage_reacts.
  - by apply reacts_ret.
  - by apply reacts_ret.
  - by apply sht_temperature_reacts.
  - eapply los_up; [assumption|by apply (bool_decide_unpack _)|congruence|lia].
  - eapply los_up; [assumption|by apply (bool_decide_unpack _)|congruence|lia].
Qed.
