(* ===== verification/HwsysRun.v ===== *)
(** * tf_hwsysd: what every visit of a thread keeps

    [hw_ok] is the invariant of the daemon: the entries of the table have
    their registers, and the functions that they started with or none. A
    [well_behaved] surroundings is a microcontroller whose dumps consist of
    its registers and clients with complete messages. [observed] are the
    values with which the function of a register is called in a run. *)

From stdpp Require Import functions sets.
From S2P Require Import Prelude Bytes CLib CLibOk Effect Hwsys HwsysEvents HwsysDaemon HwsysOk.

(** ** The table at the start *)

Class linked (address : handler -> Z) : Prop := {
  linked_inj : Inj (=) (=) address;
  linked_range h : 0 < address h < 4294967296 }.
#[export] Existing Instance linked_inj.

Section linked.
Context (address : handler -> Z) `{!linked address}.

Lemma find_handler h : find (fun h' => address h' =? address h) handlers = Some h.
Proof.
  destruct (find _ _) as [h'|] eqn:Hf.
  - apply find_some in Hf as [_ Hf]. apply Z.eqb_eq, (inj address) in Hf. by subst.
  - exfalso. apply (find_none _ _) with (x := h) in Hf; [|destruct h; simpl; tauto].
    by rewrite Z.eqb_refl in Hf.
Qed.

Definition pointer (h : option handler) : Z := from_option address 0 h.

Lemma pointer_range h : 0 <= pointer h < 4294967296.
Proof. destruct h as [h|]; simpl; [|lia]. pose proof (linked_range h). lia. Qed.

Lemma entry_split a n len t v h :
  exists b1 b2 b3 b4, entry address a n len t v h =
    b1 ++ be_bytes 4 a ++ b2 ++ be_bytes 4 I2C_OPCODE_IDLE ++ (len :: b3) ++ be_bytes 4 t ++ be_bytes 4 (pointer h) ++ b4
    /\ length b1 = 4%nat /\ length b2 = 24%nat /\ length b3 = 3%nat /\ length b4 = 32%nat.
Proof.
  exists [0; 0; 0; 0], (strncpy_array 24 (str n)), [0; 0; 0], (v :: replicate 31 0).
  split; [done|]. by rewrite length_strncpy_array.
Qed.

Ltac entry_field :=
  let b1 := fresh "b" in let b2 := fresh "b" in let b3 := fresh "b" in let b4 := fresh "b" in
  match goal with |- context [entry _ ?a ?n ?len ?t ?v ?h] =>
    destruct (entry_split a n len t v h) as (b1 & b2 & b3 & b4 & -> & ? & ? & ? & ?)
  end;
  unfold field; repeat (rewrite drop_app_ge by (rewrite ?length_be_bytes; simpl; lia));
  rewrite ?length_be_bytes; cbn [length];
  repeat match goal with H : length ?b = _ |- context [length ?b] => rewrite H end;
  cbn [Nat.sub]; rewrite drop_0; rewrite take_app_le by (rewrite ?length_be_bytes; simpl; lia).

Lemma entry_pointer a n len t v h : eventsHandler (entry address a n len t v h) = pointer h.
Proof.
  rewrite eventsHandler_field. entry_field. rewrite take_ge by (rewrite length_be_bytes; lia).
  apply be_val_be_bytes_small. apply pointer_range.
Qed.
Lemma entry_addr a n len t v h : 0 <= a < 4294967296 -> addr (entry address a n len t v h) = a.
Proof.
  intros Ha. rewrite addr_field. entry_field. rewrite take_ge by (rewrite length_be_bytes; lia).
  by apply be_val_be_bytes_small.
Qed.

Lemma str_bytes n : bytes_ok (str n).
Proof.
  unfold str. apply Forall_map, list.Forall_true. intros c. pose proof (Ascii.nat_ascii_bounded c). unfold is_byte. lia.
Qed.

Lemma zero_bytes n : bytes_ok (replicate n 0).
Proof. apply Forall_replicate. unfold is_byte. lia. Qed.

Lemma entry_ok a n len t v h : is_byte len -> is_byte v -> data_ok (entry address a n len t v h).
Proof.
  intros Hl Hv. split.
  - destruct (entry_split a n len t v h) as (b1 & b2 & b3 & b4 & -> & H1 & H2 & H3 & H4).
    rewrite !length_app, !length_be_bytes. unfold sizeof_i2c_data. simpl. lia.
  - unfold entry, bytes_ok. rewrite !Forall_app. split_and!.
    + apply (zero_bytes 4).
    + apply be_bytes_ok.
    + apply Forall_take, Forall_app. split; [apply str_bytes|apply zero_bytes].
    + apply be_bytes_ok.
    + constructor; [done|apply (zero_bytes 3)].
    + apply be_bytes_ok.
    + apply be_bytes_ok.
    + constructor; [done|apply zero_bytes].
Qed.

(** What holds of every entry of the table at the start. *)
Definition entry_good (d : i2c_data_t) : Prop := data_ok d /\ exists h, eventsHandler d = pointer h.

Lemma zero_good : entry_good zero_data.
Proof. split; [split; [done|apply zero_bytes]|by exists None]. Qed.

Lemma registers_good : Forall entry_good (registers address).
Proof.
  unfold registers. repeat (apply list.Forall_cons; split; [split; [apply entry_ok; unfold is_byte; lia|]|]).
  all: try (eexists; apply entry_pointer). apply list.Forall_nil. done.
Qed.

Definition register_addrs : list Z :=
  Eval vm_compute in map addr (registers (fun _ => 0)).

Lemma registers_addrs : map addr (registers address) = register_addrs.
Proof. unfold registers. cbn [map]. rewrite !entry_addr by lia. reflexivity. Qed.

Lemma initial_good : Forall entry_good (initial_sock_msgArr address).
Proof.
  apply Forall_app. split; [apply registers_good|]. apply Forall_replicate, zero_good.
Qed.

Lemma length_initial : length (initial_sock_msgArr address) = MAX_SENSORS.
Proof. done. Qed.

Lemma initial_addrs : map addr (initial_sock_msgArr address) = register_addrs ++ replicate 37 0.
Proof. unfold initial_sock_msgArr. rewrite map_app, registers_addrs. done. Qed.

(** ** The invariant *)

Record entry_kept (d d0 : i2c_data_t) : Prop := mk_entry_kept {
  ek_data : data_ok d;
  ek_addr : addr d = addr d0;
  ek_handler : eventsHandler d = eventsHandler d0 \/ eventsHandler d = 0 }.

Record hw_ok (s : hwsys) : Prop := mk_hw_ok {
  ok_table : Forall2 entry_kept (sock_msgArr s) (initial_sock_msgArr address);
  ok_raw : length (i2c_raw_data s) = sizeof_raw_data /\ bytes_ok (i2c_raw_data s);
  ok_hi : 0 <= hi_prio_len s <= Z.of_nat sizeof_raw_data;
  ok_low : 0 <= low_prio_len s <= Z.of_nat sizeof_raw_data;
  ok_write : data_ok (write_data s) /\ (write_flag s = true -> lenData (write_data s) <= 8) }.

Lemma kept_addrs l l0 : Forall2 entry_kept l l0 -> map addr l = map addr l0.
Proof. induction 1 as [|d d0 l l0 [] ? IH]; simpl; congruence. Qed.

Lemma kept_data l l0 : Forall2 entry_kept l l0 -> Forall data_ok l.
Proof. induction 1 as [|d d0 l l0 [] ? IH]; by constructor. Qed.

Lemma kept_pointer l l0 d :
  Forall2 entry_kept l l0 -> Forall entry_good l0 -> d ∈ l ->
  eventsHandler d = 0 \/ exists h, eventsHandler d = address h.
Proof.
  intros Hk Hg Hd. apply list_elem_of_lookup in Hd as [i Hd].
  destruct (Forall2_lookup_l _ _ _ _ _ Hk Hd) as (d0 & Hd0 & [_ _ Hh]).
  destruct (Forall_lookup_1 _ _ _ _ Hg Hd0) as [_ [[h|] Hp]]; simpl in Hp; destruct Hh as [Hh|Hh]; [right; exists h|left|left|left]; congruence.
Qed.

Lemma same_kept l l' l0 : Forall2 same_but_len l l' -> Forall2 entry_kept l l0 -> Forall2 entry_kept l' l0.
Proof.
  intros Hs. revert l0. induction Hs as [|d d' l l' Hd Hs IH]; intros l0 Hk; inversion Hk as [|? d0 ? l0' [H1 H2 H3]]; subst.
  - constructor.
  - constructor; [|by apply IH]. injection (same_contents _ _ Hd) as Ha _ _ Hh _.
    split; [apply Hd|congruence|]. destruct H3; [left|right]; congruence.
Qed.

Lemma hw_addrs s : hw_ok s -> map addr (sock_msgArr s) = register_addrs ++ replicate 37 0.
Proof. intros Hs. rewrite (kept_addrs _ _ (ok_table s Hs)). apply initial_addrs. Qed.

Lemma length_table s : hw_ok s -> length (sock_msgArr s) = MAX_SENSORS.
Proof. intros Hs. rewrite (list.Forall2_length _ _ _ (ok_table s Hs)). apply length_initial. Qed.

Lemma hw_table s : hw_ok s -> table_ok s.
Proof.
  intros Hs. split; [by eapply kept_data, ok_table|]. intros a Ha. rewrite hw_addrs by done.
  apply elem_of_app. left. revert a Ha. apply list.Forall_forall.
  by apply (bool_decide_unpack (Forall (fun a => a ∈ register_addrs) asked_registers)).
Qed.

(** What the events leave. *)
Record evented (l : list string) (s s' : hwsys) : Prop := mk_evented {
  e_arr : Forall2 same_but_len (sock_msgArr s) (sock_msgArr s');
  e_outs : outs s' = outs s ++ map Log l;
  e_write : write_flag s' = write_flag s /\ write_data s' = write_data s;
  e_bus : i2c_raw_data s' = i2c_raw_data s /\ hi_prio_len s' = hi_prio_len s /\ low_prio_len s' = low_prio_len s;
  e_timers : hi_prio_timer s' = hi_prio_timer s /\ low_prio_timer s' = low_prio_timer s /\ events_timer s' = events_timer s;
  e_counters : errorCount s' = errorCount s /\ open_fds s' = open_fds s;
  e_env : env s' = env s }.

Lemma touched_evented h l s s' : touched h l s s' -> evented l s s'.
Proof. by intros []. Qed.

Lemma evented_trans l1 l2 s1 s2 s3 : evented l1 s1 s2 -> evented l2 s2 s3 -> evented (l1 ++ l2) s1 s3.
Proof.
  intros [A1 O1 W1 B1 T1 C1 E1] [A2 O2 W2 B2 T2 C2 E2]. split.
  - eapply Forall2_trans; [|exact A1|exact A2]. apply same_trans.
  - by rewrite O2, O1, map_app, app_assoc.
  - destruct W1, W2. split; congruence.
  - destruct B1 as (? & ? & ?), B2 as (? & ? & ?). split_and!; congruence.
  - destruct T1 as (? & ? & ?), T2 as (? & ? & ?). split_and!; congruence.
  - destruct C1, C2. split; congruence.
  - by rewrite E2.
Qed.

Lemma evented_ok l s s' : evented l s s' -> hw_ok s -> hw_ok s'.
Proof.
  intros [A O [W1 W2] (B1 & B2 & B3) T C E] [H1 H2 H3 H4 H5].
  split; rewrite ?B1, ?B2, ?B3, ?W1, ?W2; try done. by eapply same_kept.
Qed.

(** ** A round of the events *)

(** The messages of [h] in the log, and what [h] has recorded. *)
Definition log_of (h : handler) (os : list output) : list string :=
  omap (fun o => match o with Log m => if bool_decide (m ∈ messages h) then Some m else None | _ => None end) os.
Definition track (h : handler) (s : hwsys) : Z * list string := (prevValue s h, log_of h (outs s)).

Definition react (h : handler) (x : Z * list string) (c : bool * list Z) : Z * list string :=
  let r := reaction h c.1 c.2 x.1 in (r.1, x.2 ++ r.2).

(** The values with which [h] is called. *)
Definition called (h : handler) (l : list i2c_data_t) : list (list Z) :=
  omap (fun d => if eventsHandler d =? address h then Some (value d) else None) l.

Lemma log_of_app h l1 l2 : log_of h (l1 ++ l2) = log_of h l1 ++ log_of h l2.
Proof. apply omap_app. Qed.

Lemma log_of_own h l : Forall (fun m => m ∈ messages h) l -> log_of h (map Log l) = l.
Proof.
  induction 1 as [|m l Hm _ IH]; [done|]. unfold log_of in *. csimpl. by rewrite bool_decide_eq_true_2, IH.
Qed.

Lemma log_of_other h h' l : h <> h' -> Forall (fun m => m ∈ messages h') l -> log_of h (map Log l) = [].
Proof.
  intros Hh. induction 1 as [|m l Hm _ IH]; [done|]. unfold log_of in *. csimpl.
  rewrite bool_decide_eq_false_2, IH; [done|]. intros Hm'. by destruct (Hh (messages_disjoint _ _ _ Hm' Hm)).
Qed.

Lemma touched_track h h' g v s s' :
  let r := reaction h' g v (prevValue s h') in
  touched h' r.2 s s' -> prevValue s' h' = r.1 ->
  track h s' = if decide (h = h') then react h (track h s) (g, v) else track h s.
Proof.
  cbv zeta. intros Ht Hp. pose proof (reaction_messages h' g v (prevValue s h')) as Hm.
  unfold track. rewrite (t_outs _ _ _ _ Ht), log_of_app. destruct (decide (h = h')) as [<-|Hh].
  - unfold react. simpl. by rewrite Hp, log_of_own.
  - by rewrite (t_prev _ _ _ _ Ht), (log_of_other h h'), app_nil_r.
Qed.

Lemma event_of_spec h i d s :
  hw_ok s -> sock_msgArr s !! i = Some d ->
  spec true (event_of address i)
    (fun _ s' => exists l, evented l s s' /\
       exists g, track h s' = fold_left (react h) (zip g (called h [d])) (track h s) /\ length g = length (called h [d])) s.
Proof.
  intros Hs Hd. unfold event_of. apply spec_bind, (the_entry_spec _ _ d); [done|]. cbv zeta.
  assert (d ∈ sock_msgArr s) as Hin by (by eapply list_elem_of_lookup_2).
  assert (evented [] s s) as Hrefl by (apply (touched_evented h), touched_refl, hw_table, Hs).
  destruct (kept_pointer _ _ _ (ok_table s Hs) initial_good Hin) as [Hp|[h' Hp]]; rewrite Hp; simpl.
  - apply spec_ret. exists []. split; [done|]. exists []. unfold called. simpl.
    rewrite Hp. pose proof (linked_range h). by replace (0 =? address h) with false by (symmetry; apply Z.eqb_neq; lia).
  - pose proof (linked_range h'). replace (address h' =? 0) with false by (symmetry; apply Z.eqb_neq; lia).
    apply spec_bind. unfold call. rewrite find_handler. apply spec_bind, spec_deref; [done|]. intros ? [= <-].
    eapply spec_mono; [apply call_handler_reacts, hw_table, Hs|]. simpl. intros e s' [Ht Hpv]. apply spec_ret.
    eexists. split; [by eapply touched_evented|]. unfold called. simpl. rewrite Hp.
    rewrite (touched_track h h' (gate_of s) (value d) _ _ Ht Hpv).
    destruct (decide (h = h')) as [<-|Hh].
    + exists [gate_of s]. by rewrite Z.eqb_refl.
    + exists []. replace (address h' =? address h) with false; [done|]. symmetry. apply Z.eqb_neq. intros Heq.
      by destruct (Hh (eq_sym (inj address _ _ Heq))).
Qed.

Lemma same_called h l l' : Forall2 same_but_len l l' -> called h l' = called h l.
Proof.
  induction 1 as [|d d' l l' Hd _ IH]; [done|]. unfold called in *. csimpl.
  injection (same_contents _ _ Hd) as _ _ _ Hp Hv. by rewrite IH, Hp, Hv.
Qed.

Lemma called_app h l1 l2 : called h (l1 ++ l2) = called h l1 ++ called h l2.
Proof. apply omap_app. Qed.

(** Calls with some values and conditions. *)
Definition reacted (h : handler) (vs : list (list Z)) (s s' : hwsys) : Prop :=
  exists gates, length gates = length vs /\ track h s' = fold_left (react h) (zip gates vs) (track h s).

Lemma reacted_nil h s s' : track h s' = track h s -> reacted h [] s s'.
Proof. by exists []. Qed.

Lemma reacted_trans h v1 v2 s1 s2 s3 : reacted h v1 s1 s2 -> reacted h v2 s2 s3 -> reacted h (v1 ++ v2) s1 s3.
Proof.
  intros (g1 & Hg1 & H1) (g2 & Hg2 & H2). exists (g1 ++ g2). rewrite !length_app. split; [lia|].
  by rewrite zip_with_app, fold_left_app, <- H1.
Qed.

Lemma events_from h n i s :
  hw_ok s -> (i + n)%nat = MAX_SENSORS ->
  spec true (for_each_p (seq i n) (event_of address))
    (fun _ s' => (exists l, evented l s s') /\ reacted h (called h (drop i (sock_msgArr s))) s s') s.
Proof.
  revert i s. induction n as [|n IH]; intros i s Hs Hi; simpl.
  - apply spec_ret. split; [exists []; by apply (touched_evented h), touched_refl, hw_table|].
    rewrite drop_ge by (rewrite length_table by done; lia). by apply reacted_nil.
  - destruct (lookup_lt_is_Some_2 (sock_msgArr s) i) as [d Hd]; [rewrite length_table by done; lia|].
    apply spec_bind. eapply spec_mono; [by apply (event_of_spec h)|]. intros [] s1 (l1 & He1 & g & Hg & Hl).
    eapply spec_mono; [apply IH; [by eapply evented_ok|lia]|]. intros [] s2 [[l2 He2] Hr2].
    split; [exists (l1 ++ l2); by eapply evented_trans|].
    rewrite (drop_S _ _ _ Hd). change (d :: ?l) with ([d] ++ l). rewrite called_app. eapply reacted_trans; [exists g; split; [done|exact Hg]|].
    erewrite <- same_called; [exact Hr2|]. by apply Forall2_drop, (e_arr _ _ _ He1).
Qed.

Lemma i2c_events_handler_spec h s :
  hw_ok s ->
  spec true (i2c_events_handler address)
    (fun _ s' => (exists l, evented l s s') /\ reacted h (called h (sock_msgArr s)) s s') s.
Proof. intros Hs. by apply (events_from h MAX_SENSORS 0). Qed.

(** ** Dumps *)

Definition update : Type := Z * list Z.
Definition tlv (u : update) : list Z := u.1 :: Z.of_nat (length u.2) :: u.2.
Definition good_update (u : update) : Prop := u.1 ∈ register_addrs /\ (length u.2 < 256)%nat.
Definition dump_of (us : list update) : list Z := concat (map tlv us).

(** The entry of the register gets the octets, unless they fill it. *)
Definition store_update (t : list i2c_data_t) (u : update) : list i2c_data_t :=
  match list_find (fun d => addr d = u.1) t with
  | Some (id, d) => if (length u.2 <? sizeof_value)%nat then <[id := set_value u.2 d]> t else t
  | None => t
  end.

Lemma raw_octet_spec (pre : list Z) x rest s (Q : Z -> hwsys -> Prop) :
  i2c_raw_data s = pre ++ x :: rest -> Q x s -> spec true (raw_octet (Z.of_nat (length pre))) Q s.
Proof.
  intros Hr HQ. apply spec_bind, spec_get, spec_deref; rewrite Nat2Z.id, Hr, list_lookup_middle by done; [by eexists|].
  by intros ? [= <-].
Qed.

Lemma raw_octets_spec (pre bs rest : list Z) s (Q : list Z -> hwsys -> Prop) :
  i2c_raw_data s = pre ++ bs ++ rest -> Q bs s ->
  spec true (raw_octets (Z.of_nat (length pre)) (Z.of_nat (length bs))) Q s.
Proof.
  intros Hr HQ. apply spec_bind, spec_get. rewrite Hr, !length_app.
  replace (_ <? _)%nat with false by (symmetry; apply Nat.ltb_ge; lia).
  apply spec_ret. by rewrite !Nat2Z.id, drop_app_length, take_app_length.
Qed.

Lemma length_tlv u : length (tlv u) = S (S (length u.2)).
Proof. done. Qed.

Lemma register_range a : a ∈ register_addrs -> 0 <= a < 144.
Proof. revert a. apply list.Forall_forall. by apply (bool_decide_unpack (Forall (fun a => 0 <= a < 144) register_addrs)). Qed.

Lemma kept_value (t t0 : list i2c_data_t) id d bs :
  Forall2 entry_kept t t0 -> t !! id = Some d -> bytes_ok bs -> (length bs <= sizeof_value)%nat ->
  Forall2 entry_kept (<[id := set_value bs d]> t) t0 /\
  map eventsHandler (<[id := set_value bs d]> t) = map eventsHandler t.
Proof.
  intros Ht Hd Hbs Hl. destruct (Forall2_lookup_l _ _ _ _ _ Ht Hd) as (d0 & Hd0 & [H1 H2 H3]).
  pose proof (data_ok_value bs d H1 Hbs Hl) as Hok. destruct H1 as [Hlen _]. unfold sizeof_i2c_data, sizeof_value in *.
  assert (addr (set_value bs d) = addr d) as Ha by (fields; by field_steps).
  assert (eventsHandler (set_value bs d) = eventsHandler d) as Hh by (fields; by field_steps).
  split.
  - rewrite <- (list_insert_id t0 id d0) by done. apply Forall2_insert; [done|]. split; [done|congruence|by rewrite Hh].
  - change (map eventsHandler) with (fmap (M := list) eventsHandler).
    rewrite list_fmap_insert, Hh. apply list_insert_id. by rewrite list_lookup_fmap, Hd.
Qed.

Lemma store_update_kept t t0 u :
  Forall2 entry_kept t t0 -> bytes_ok u.2 ->
  Forall2 entry_kept (store_update t u) t0 /\ map eventsHandler (store_update t u) = map eventsHandler t.
Proof.
  intros Ht Hu. unfold store_update. destruct (list_find _ t) as [[id d]|] eqn:Hf; [|done].
  apply list_find_Some in Hf as (Hd & _ & _). destruct (_ <? _)%nat eqn:Hl; [|done].
  apply Nat.ltb_lt in Hl. apply kept_value; [done|done|done|lia].
Qed.

Lemma store_update_spec id d (pre rest : list Z) u s (Q : unit -> hwsys -> Prop) :
  hw_ok s -> list_find (fun d => addr d = u.1) (sock_msgArr s) = Some (id, d) ->
  i2c_raw_data s = pre ++ u.2 ++ rest -> Q tt (s <| sock_msgArr := store_update (sock_msgArr s) u |>) ->
  spec true (if Z.of_nat (length u.2) <? Z.of_nat sizeof_value then
               bs ← raw_octets (Z.of_nat (length pre)) (Z.of_nat (length u.2)); mod_entry id (set_value bs)
             else mret tt) Q s.
Proof.
  intros Hs Hf Hraw HQ. unfold store_update in HQ. rewrite Hf in HQ. pose proof Hf as Hf'.
  apply list_find_Some in Hf' as (Hd & _ & _).
  replace (length u.2 <? sizeof_value)%nat with (Z.of_nat (length u.2) <? Z.of_nat sizeof_value) in HQ
    by (apply eq_true_iff_eq; rewrite Z.ltb_lt, Nat.ltb_lt; lia).
  destruct (_ <? _).
  - apply spec_bind, (raw_octets_spec _ _ rest); [done|]. by apply (mod_entry_spec _ _ _ d).
  - apply spec_ret. by destruct s.
Qed.

Lemma with_table_ok t s : hw_ok s -> Forall2 entry_kept t (initial_sock_msgArr address) -> hw_ok (s <| sock_msgArr := t |>).
Proof. intros [H1 H2 H3 H4 H5] Ht. by split. Qed.

Lemma parse_dump us fuel pre rest s :
  hw_ok s -> i2c_raw_data s = pre ++ dump_of us ++ rest -> Forall good_update us -> (length us < fuel)%nat ->
  spec true (parse_tlv_from fuel (Z.of_nat (length (pre ++ dump_of us))) (Z.of_nat (length pre)))
    (fun failed s' => failed = false /\
       s' = s <| sock_msgArr := fold_left store_update us (sock_msgArr s) |>) s.
Proof.
  intros Hs Hraw Hus. revert fuel pre s Hs Hraw.
  induction Hus as [|u us [Hu1 Hu2] Hus IH]; intros [|fuel] pre s Hs Hraw Hf; simpl in Hf; try lia; simpl.
  { rewrite app_nil_r, Z.leb_refl. apply spec_ret. split; [done|]. by destruct s. }
  assert (i2c_raw_data s = pre ++ u.1 :: Z.of_nat (length u.2) :: u.2 ++ dump_of us ++ rest) as Hraw'.
  { rewrite Hraw. unfold dump_of, tlv. simpl. by rewrite <- app_assoc. }
  destruct (ok_raw s Hs) as [Hlen Hb]. assert (bytes_ok u.2) as Hbu.
  { rewrite Hraw' in Hb. apply Forall_app in Hb as [_ Hb]. do 2 apply list.Forall_cons in Hb as [_ Hb].
    by apply Forall_app in Hb as [Hb _]. }
  assert (length (pre ++ dump_of (u :: us)) = (length pre + S (S (length u.2)) + length (dump_of us))%nat) as Hl.
  { unfold dump_of. simpl. rewrite !length_app. simpl. rewrite length_app. lia. }
  rewrite Hl. replace (_ <=? _) with false by (symmetry; apply Z.leb_gt; lia).
  apply spec_bind, (raw_octet_spec _ u.1 (Z.of_nat (length u.2) :: u.2 ++ dump_of us ++ rest)); [done|].
  pose proof (register_range _ Hu1). replace (_ <? _) with false by (symmetry; apply Z.ltb_ge; unfold MAX_SENSORS; lia).
  apply spec_bind, get_id_spec; [rewrite hw_addrs by done; apply elem_of_app; by left|]. intros id d Hfind _ _.
  apply spec_bind. replace (Z.of_nat (length pre) + 1) with (Z.of_nat (length (pre ++ [u.1])))
    by (rewrite length_app; simpl; lia).
  apply (raw_octet_spec _ (Z.of_nat (length u.2)) (u.2 ++ dump_of us ++ rest)); [by rewrite Hraw', <- app_assoc|].
  apply spec_bind. replace (Z.of_nat (length pre) + 2) with (Z.of_nat (length (pre ++ [u.1; Z.of_nat (length u.2)])))
    by (rewrite length_app; simpl; lia).
  apply (store_update_spec id d _ (dump_of us ++ rest)); [done|done|by rewrite Hraw', <- app_assoc|].
  set (s1 := s <| sock_msgArr := store_update (sock_msgArr s) u |>).
  replace (u16 _) with (Z.of_nat (length (pre ++ tlv u))).
  - replace (Z.of_nat (length pre + S (S (length u.2)) + length (dump_of us)))
      with (Z.of_nat (length ((pre ++ tlv u) ++ dump_of us))) by (f_equal; rewrite !length_app, length_tlv; lia).
    apply (IH fuel (pre ++ tlv u) s1); [|change (i2c_raw_data s1) with (i2c_raw_data s); by rewrite Hraw', <- app_assoc|lia].
    apply with_table_ok; [done|]. by apply store_update_kept; [apply Hs|].
  - rewrite Hraw' in Hlen. rewrite length_app in Hlen. simpl in Hlen. rewrite length_app in Hlen. unfold sizeof_raw_data in Hlen.
    rewrite u16_small; rewrite ?length_app, ?length_tlv; lia.
Qed.

(** ** Well-behaved surroundings *)

Definition as_octets (len : nat) (l : list Z) : list Z := map u8 (resize len 255 l).

(** A client sends a whole message for a register of the table; what it
    writes has at most 8 octets and no pointer to a function. *)
Definition good_message (bs : list Z) : Prop :=
  let m := map u8 bs in
  length bs = message_size /\ addr m ∈ register_addrs /\
  (opcode m = I2C_OPCODE_WRITE -> lenData m <= 8 /\ eventsHandler m = 0).

Record good_env (e : env_t) : Prop := mk_good_env {
  ge_length reg : reg ∈ [REG_HI_PRIO_LEN; REG_LOW_PRIO_LEN] ->
    exists l, bus e reg 2 = Some l /\ get_16bitValue (as_octets 2 l) <= Z.of_nat sizeof_raw_data;
  ge_dump reg len l : reg ∈ [REG_HI_PRIO_DUMP; REG_LOW_PRIO_DUMP] -> 0 <= len <= Z.of_nat sizeof_raw_data ->
    bus e reg len = Some l -> exists us, as_octets (Z.to_nat len) l = dump_of us /\ Forall good_update us;
  ge_client r : received e = r -> exists bs, r = Some bs /\ good_message bs }.
Definition well_behaved (e : nat -> env_t) : Prop := forall k, good_env (e k).

(** Nothing happens to the events. *)
Definition silent (h : handler) (s : hwsys) : Prop := address h ∉ map eventsHandler (sock_msgArr s).
Record calm (s s' : hwsys) : Prop := mk_calm {
  calm_ok : hw_ok s';
  calm_track h : track h s' = track h s;
  calm_silent h : silent h s -> silent h s';
  calm_env : env s' = env s }.

Lemma calm_refl s : hw_ok s -> calm s s.
Proof. intros Hs. by split. Qed.
Lemma calm_trans s1 s2 s3 : calm s1 s2 -> calm s2 s3 -> calm s1 s3.
Proof.
  intros [_ A2 A3 A4] [B1 B2 B3 B4]. split; [done|intros h; by rewrite B2|auto|congruence].
Qed.

(** Assignments to what the invariant does not speak of. *)
Lemma calm_same s s' :
  hw_ok s -> sock_msgArr s' = sock_msgArr s -> prevValue s' = prevValue s -> outs s' = outs s ->
  write_flag s' = write_flag s -> write_data s' = write_data s -> i2c_raw_data s' = i2c_raw_data s ->
  hi_prio_len s' = hi_prio_len s -> low_prio_len s' = low_prio_len s -> env s' = env s -> calm s s'.
Proof.
  intros [H1 H2 H3 H4 H5] Ha Hp Ho Hw Hd Hr Hh Hl He. split; [|intros h|intros h|done].
  - split; rewrite ?Ha, ?Hr, ?Hh, ?Hl, ?Hw, ?Hd; done.
  - unfold track. by rewrite Hp, Ho.
  - unfold silent. by rewrite Ha.
Qed.

(** An operation that ends in a calm state. *)
Definition calmly {A} (m : HW A) : Prop :=
  forall s, hw_ok s -> well_behaved (env s) -> spec true m (fun _ s' => calm s s') s.

Lemma calmly_ret {A} (a : A) : calmly (mret a).
Proof. intros s Hs _. apply spec_ret. by apply calm_refl. Qed.

Lemma calmly_bind {A B} (m : HW A) (k : A -> HW B) : calmly m -> (forall a, calmly (k a)) -> calmly (m ≫= k).
Proof.
  intros Hm Hk s Hs He. apply spec_bind. eapply spec_mono; [by apply Hm|]. intros a s1 H1.
  eapply spec_mono; [apply Hk; [apply H1|by rewrite (calm_env _ _ H1)]|]. intros b s2 H2. exact (calm_trans _ _ _ H1 H2).
Qed.

Lemma calmly_ask {A} (q : env_t -> A) : calmly (ask q).
Proof. intros s Hs _. unfold spec, ask. by apply calm_same. Qed.

Lemma calmly_get {B} (k : hwsys -> HW B) :
  (forall s, hw_ok s -> calmly (k s)) -> calmly (get ≫= k).
Proof. intros Hk s Hs He. apply spec_bind, spec_get. by apply Hk. Qed.

Lemma calmly_put f : (forall s, hw_ok s -> calm s (f s)) -> calmly (put f).
Proof. intros Hf s Hs _. apply spec_put. by apply Hf. Qed.

Lemma calmly_timer_set i : calmly (timer_set i).
Proof. apply calmly_bind; [apply calmly_ask|]. intros now. apply calmly_ret. Qed.
Lemma calmly_timer_expired t : calmly (timer_expired t).
Proof. apply calmly_bind; [apply calmly_ask|]. intros now. apply calmly_ret. Qed.

(** ** The thread of the bus *)

Lemma length_as_octets n l : length (as_octets n l) = n.
Proof. unfold as_octets. by rewrite length_map, length_resize. Qed.

(** The array after the transfer of [len] octets. *)
Lemma read_buffer_spec reg len s (Q : bool -> hwsys -> Prop) :
  hw_ok s -> 0 <= len <= Z.of_nat sizeof_raw_data ->
  (bus (env s (asked s)) reg len = None -> Q true (s <| asked := S (asked s) |>)) ->
  (forall l failed, bus (env s (asked s)) reg len = Some l ->
     let raw := as_octets (Z.to_nat len) l ++ drop (Z.to_nat len) (i2c_raw_data s) in
     hw_ok (s <| asked := S (asked s) |> <| i2c_raw_data := raw |>) ->
     Q failed (s <| asked := S (asked s) |> <| i2c_raw_data := raw |>)) ->
  spec true (read_buffer reg len) Q s.
Proof.
  intros Hs Hlen Hn HQ. unfold read_buffer. apply spec_bind. apply spec_ask.
  destruct (bus (env s (asked s)) reg len) as [l|]; [|apply spec_ret; auto].
  unfold sizeof_raw_data in *. replace (1000 <? Z.to_nat len)%nat with false by (symmetry; apply Nat.ltb_ge; lia).
  apply spec_bind, spec_ret, spec_bind, spec_put, spec_bind, spec_get, spec_ret. upd_simpl.
  unfold memcpy. rewrite (take_ge (map u8 _)) by (by rewrite length_map, length_resize).
  apply HQ; [done|]. destruct Hs as [H1 [H2 H2'] H3 H4 H5]. unfold sizeof_raw_data in *. split; try done. upd_simpl. split.
  - rewrite length_app, length_as_octets, length_drop. unfold sizeof_raw_data. lia.
  - apply Forall_app. split; [apply map_u8_bytes|by apply Forall_drop].
Qed.

Lemma calm_asked s k : hw_ok s -> calm s (s <| asked := k |>).
Proof. intros Hs. by apply calm_same. Qed.

(** Other octets and other values in the table. *)
Lemma calm_raw_read s k raw t :
  hw_ok s -> hw_ok (s <| asked := k |> <| i2c_raw_data := raw |> <| sock_msgArr := t |>) ->
  map eventsHandler t = map eventsHandler (sock_msgArr s) ->
  calm s (s <| asked := k |> <| i2c_raw_data := raw |> <| sock_msgArr := t |>).
Proof.
  intros Hs Hok Ht. split; [done|done| |done]. intros h. unfold silent. upd_simpl. by rewrite Ht.
Qed.

Lemma store_updates_kept us t t0 :
  Forall2 entry_kept t t0 -> Forall (fun u => bytes_ok u.2) us ->
  Forall2 entry_kept (fold_left store_update us t) t0 /\ map eventsHandler (fold_left store_update us t) = map eventsHandler t.
Proof.
  intros Ht Hus. revert t Ht. induction Hus as [|u us Hu _ IH]; intros t Ht; [done|]. simpl.
  destruct (store_update_kept t t0 u Ht Hu) as [Hk Hp]. destruct (IH _ Hk) as [Hk' Hp']. split; [done|congruence].
Qed.

Lemma dump_bytes us : bytes_ok (dump_of us) -> Forall (fun u => bytes_ok u.2) us.
Proof.
  intros H. induction us as [|u us IH]; constructor; unfold dump_of in H; simpl in H;
    do 2 apply list.Forall_cons in H as [_ H]; apply Forall_app in H as [H1 H2]; auto.
Qed.

Lemma length_dump us : (2 * length us <= length (dump_of us))%nat.
Proof. induction us as [|u us IH]; [done|]. unfold dump_of in *. simpl. rewrite length_app. lia. Qed.

Lemma read_dump_calm reg len s :
  hw_ok s -> well_behaved (env s) -> reg ∈ [REG_HI_PRIO_DUMP; REG_LOW_PRIO_DUMP] ->
  0 <= len <= Z.of_nat sizeof_raw_data ->
  spec true (read_dump reg len) (fun _ s' => calm s s') s.
Proof.
  intros Hs He Hreg Hlen. apply spec_bind, read_buffer_spec; [done|done| |].
  { intros _. apply spec_ret. by apply calm_asked. }
  intros l failed Hl raw Hok. destruct failed; [apply spec_ret; exact (calm_raw_read s _ raw (sock_msgArr s) Hs Hok eq_refl)|].
  destruct (ge_dump _ (He (asked s)) reg len l Hreg Hlen Hl) as (us & Hus & Hgood).
  set (s1 := s <| asked := S (asked s) |> <| i2c_raw_data := raw |>) in *.
  assert (length (dump_of us) = Z.to_nat len) as Hdl by (by rewrite <- Hus, length_as_octets).
  pose proof (length_dump us). unfold i2c_parse_tlv, sizeof_raw_data in *.
  replace len with (Z.of_nat (length ([] ++ dump_of us))) by (simpl; lia). change 0 with (Z.of_nat (length (@nil Z))).
  eapply spec_mono; [eapply (parse_dump us 1001 [] (drop (Z.to_nat len) (i2c_raw_data s))); [done| |done|lia]|].
  - unfold s1, raw. upd_simpl. by rewrite Hus.
  - intros b s' [_ ->]. destruct (store_updates_kept us (sock_msgArr s1) (initial_sock_msgArr address)) as [Hk Hp].
    + apply Hok.
    + apply dump_bytes. rewrite <- Hus. apply map_u8_bytes.
    + apply calm_raw_read; [done|by apply with_table_ok|done].
Qed.


Lemma calmly_write_buffer a len buf : len <= 8 -> calmly (write_buffer a len buf).
Proof.
  intros Hlen s Hs _. unfold write_buffer. replace (10 <? len + 2) with false by (symmetry; apply Z.ltb_ge; lia).
  apply spec_put. destruct (calm_refl s Hs) as [H1 H2 H3 H4]. split; try done; [by destruct Hs|].
  intros h. unfold track. upd_simpl. by rewrite log_of_app, app_nil_r.
Qed.

Lemma calmly_read_dump reg len :
  reg ∈ [REG_HI_PRIO_DUMP; REG_LOW_PRIO_DUMP] -> 0 <= len <= Z.of_nat sizeof_raw_data -> calmly (read_dump reg len).
Proof. intros Hreg Hlen s Hs He. by apply read_dump_calm. Qed.

(** One step through an operation that is calm. *)
Ltac calm_step :=
  lazymatch goal with
  | |- calmly (mret _) => apply calmly_ret
  | |- calmly (ask _) => apply calmly_ask
  | |- calmly (timer_set _) => apply calmly_timer_set
  | |- calmly (timer_expired _) => apply calmly_timer_expired
  | |- calmly (get ≫= _) => apply calmly_get; intros ? ?
  | |- calmly (_ ≫= _) => apply calmly_bind; [|intros ?]
  | |- calmly (put _) => apply calmly_put; intros ? ?; try (by apply calm_same)
  | |- calmly (if ?b then _ else _) => destruct b eqn:?
  end; cbv beta.

Lemma read_i2c_calm : calmly read_i2c.
Proof.
  unfold read_i2c. repeat calm_step.
  - apply calmly_read_dump; [by apply (bool_decide_unpack _)|by apply ok_hi].
  - apply calmly_read_dump; [by apply (bool_decide_unpack _)|by apply ok_low].
  - apply calmly_write_buffer. by apply ok_write.
  - destruct (calm_refl _ H0) as [H1 H2 H3 H4]. split; try done. destruct H0 as [? ? ? ? [? ?]]. by split.
Qed.

Lemma mainHandler_calm : calmly mainHandler.
Proof.
  unfold mainHandler. repeat calm_step; [apply read_i2c_calm|].
  intros s2 Hs2 _. apply spec_put. destruct (calm_refl s2 Hs2) as [H1 H2 H3 H4]. split; try done; [by destruct Hs2|].
  intros h. unfold track. upd_simpl. by rewrite log_of_app, app_nil_r.
Qed.

(** The length of a dump, from the first two octets. *)
Lemma ask_length_spec reg s (Q : bool -> hwsys -> Prop) :
  hw_ok s -> well_behaved (env s) -> reg ∈ [REG_HI_PRIO_LEN; REG_LOW_PRIO_LEN] ->
  (forall b s', calm s s' ->
     0 <= Z.lor (Z.shiftl (octet_at 1 (i2c_raw_data s')) 8) (octet_at 0 (i2c_raw_data s')) <= Z.of_nat sizeof_raw_data ->
     Q b s') ->
  spec true (read_buffer reg 2) Q s.
Proof.
  intros Hs He Hreg HQ. destruct (ge_length _ (He (asked s)) reg Hreg) as (l & Hl & Hle).
  apply read_buffer_spec; [done|unfold sizeof_raw_data; lia|by rewrite Hl|].
  intros l' failed Hl' raw Hok. rewrite Hl in Hl'. injection Hl' as <-. apply HQ.
  { exact (calm_raw_read s _ raw (sock_msgArr s) Hs Hok eq_refl). }
  upd_simpl. pose proof (length_as_octets 2 l) as Hlen. unfold raw. change (Z.to_nat 2) with 2%nat.
  pose proof (map_u8_bytes (resize 2 255 l)) as Hb. unfold get_16bitValue, as_octets in *.
  destruct (map u8 (resize 2 255 l)) as [|x [|y [|]]]; try discriminate Hlen. unfold octet_at in *. simpl in *.
  rewrite Z.lor_comm. split; [|done]. apply Z.lor_nonneg.
  apply list.Forall_cons in Hb as [Hx Hb]. apply list.Forall_cons in Hb as [Hy _]. unfold is_byte in *.
  split; [lia|]. apply Z.shiftl_nonneg. lia.
Qed.

Lemma open_i2c_calm : calmly open_i2c.
Proof.
  unfold open_i2c. do 4 (apply calmly_bind; [repeat calm_step|intros ?]).
  intros s Hs He. apply spec_bind, ask_length_spec; [done|done|by apply (bool_decide_unpack _)|].
  intros _ s1 Hc1 Hlen1. apply spec_bind, spec_put.
  set (s2 := s1 <| hi_prio_len := _ |>).
  assert (calm s1 s2) as Hc2.
  { destruct (calm_refl s1 (calm_ok _ _ Hc1)) as [H1 H2 H3 H4]. split; try done. by destruct H1. }
  pose proof (calm_trans _ _ _ Hc1 Hc2) as Hc. apply spec_bind, ask_length_spec; [apply Hc| |by apply (bool_decide_unpack _)|].
  { by rewrite (calm_env _ _ Hc). }
  intros _ s3 Hc3 Hlen3. apply spec_put. refine (calm_trans _ _ _ Hc (calm_trans _ _ _ Hc3 _)).
  destruct (calm_refl s3 (calm_ok _ _ Hc3)) as [H1 H2 H3 H4]. split; try done. by destruct H1.
Qed.

(** ** Clients *)

Lemma uninitialised_spec n s (Q : list Z -> hwsys -> Prop) :
  (forall l, length l = n -> bytes_ok l -> Q l (s <| asked := S (asked s) |>)) -> spec true (uninitialised n) Q s.
Proof.
  intros HQ. apply spec_bind, spec_ask, spec_ret, HQ; [|apply map_u8_bytes]. by rewrite length_map, length_resize.
Qed.

(** The variable after a whole message: its first 60 octets. *)
Definition holds (rec m : list Z) : Prop := data_ok rec /\ forall o n, (o + n <= message_size)%nat -> field o n rec = field o n m.

Lemma holds_opcode rec m : holds rec m -> opcode rec = opcode m.
Proof. intros [_ H]. by rewrite !opcode_field, H by (unfold message_size; lia). Qed.

(** The length of the message is replaced. *)
Lemma holds_rest rec m :
  holds rec m -> let r := set_lenMSG 80 rec in
  data_ok r /\ lenMSG r = 80 /\
  addr r = addr m /\ lenData r = lenData m /\ type r = type m /\ eventsHandler r = eventsHandler m /\
  take 12 (value r) = take 12 (drop 48 m).
Proof.
  intros [Hd H]. pose proof (set_lenMSG_same 80 rec Hd) as Hs. cbv zeta. split; [apply Hs|].
  assert (forall o n, (1 <= o)%nat -> (o + n <= message_size)%nat -> field o n (set_lenMSG 80 rec) = field o n m) as Hf.
  { intros o n Ho Hon. unfold message_size in *. rewrite (same_field _ _ _ _ Hs) by lia. apply H. unfold message_size. lia. }
  unfold message_size in *. split.
  - destruct Hd as [Hd _]. unfold sizeof_i2c_data in Hd. unfold set_lenMSG. rewrite lenMSG_field.
    rewrite (field_store_same 0 [u8 80]) by lia. done.
  - rewrite !addr_field, !lenData_field, !type_field, !eventsHandler_field, !Hf by lia. do 4 (split; [done|]).
    rewrite value_field. change (take 12 (field 48 32 ?d)) with (field 0 12 (field 48 32 d)).
    rewrite field_field by lia. simpl. by rewrite Hf by lia.
Qed.

Lemma receive_spec j bs s (Q : CLIENT_STATE * list Z -> hwsys -> Prop) :
  data_ok j -> received (env s (S (asked s))) = Some bs -> length bs = message_size ->
  (forall rec, holds rec (map u8 bs) -> Q (SOCKET_READ_OK, rec) (s <| asked := S (S (asked s)) |>)) ->
  spec true (receive_msg j) Q s.
Proof.
  intros [Hj Hjb] Hr Hl HQ. apply spec_bind, uninitialised_spec. intros msg Hm Hmb.
  apply spec_bind, spec_ask. upd_simpl. rewrite Hr. unfold sizeof_i2c_data, message_size in *.
  rewrite decide_False by done. apply spec_bind, spec_ret, spec_ret. simpl.
  rewrite take_ge by lia. destruct bs as [|b bs]; [discriminate Hl|]. cbn [receive].
  assert (length (map u8 (b :: bs)) = 60%nat) as Hlm by (by rewrite length_map).
  rewrite Hlm. replace (memcpy msg (map u8 (b :: bs)) 60) with (map u8 (b :: bs))
    by (unfold memcpy; rewrite take_ge, drop_ge, app_nil_r by lia; done).
  change (set_field asked (S (asked s)) s) with (s <| asked := S (asked s) |>).
  apply HQ. split; [split|].
  - unfold sizeof_i2c_data, message_size. rewrite length_memcpy; lia.
  - apply memcpy_bytes; [done|apply map_u8_bytes].
  - intros o n Hon. unfold message_size in *. apply field_memcpy_new; lia.
Qed.

Lemma lenMSG_set v d : data_ok d -> lenMSG (set_lenMSG v d) = u8 v.
Proof.
  intros [Hd _]. unfold sizeof_i2c_data in Hd. unfold set_lenMSG. rewrite lenMSG_field.
  by rewrite (field_store_same 0 [u8 v]) by lia.
Qed.

Lemma opcode_set d : data_ok d -> opcode (set_opcode I2C_OPCODE_RESPONSE d) = I2C_OPCODE_RESPONSE.
Proof.
  intros [Hd _]. unfold sizeof_i2c_data in Hd. unfold set_opcode. rewrite opcode_field.
  by rewrite (field_store_same 32 (be_bytes 4 I2C_OPCODE_RESPONSE)) by lia.
Qed.

Lemma addr_set_opcode v d : data_ok d -> addr (set_opcode v d) = addr d.
Proof. intros [Hd _]. unfold sizeof_i2c_data in Hd. fields. by field_steps. Qed.

Lemma table_data s id d : hw_ok s -> sock_msgArr s !! id = Some d -> data_ok d.
Proof. intros Hs Hd. eapply Forall_lookup_1; [apply (tab_data s), hw_table, Hs|done]. Qed.

(** The answer to a client. *)
Lemma respond_spec k a st s (Q : CLIENT_STATE -> hwsys -> Prop) :
  hw_ok s -> data_ok k -> a ∈ register_addrs ->
  (forall id d, sock_msgArr s !! id = Some d -> addr d = a ->
     list_find (fun d => addr d = a) (sock_msgArr s) = Some (id, d) ->
     Q st (s <| sock_msgArr := <[id := set_lenMSG 80 d]> (sock_msgArr s) |>
             <| outs := outs s ++ [Sent (set_opcode I2C_OPCODE_RESPONSE (set_lenMSG 80 d))] |>)) ->
  spec true (data ← i2c_getData k a 80; send_msg (set_opcode I2C_OPCODE_RESPONSE data) (lenMSG data) ;; mret st) Q s.
Proof.
  intros Hs [Hk _] Ha HQ. apply spec_bind, (getData_spec H_ADC_CH1); [by apply hw_table| |].
  { rewrite hw_addrs by done. apply elem_of_app. by left. }
  intros id d Hfind Hd Had s' _ _. pose proof (table_data s id d Hs Hd) as Hdd.
  destruct (data_ok_lenMSG 80 d Hdd) as [Hl _]. change (Z.to_nat 80) with sizeof_i2c_data.
  rewrite <- Hk. rewrite memcpy_full by congruence. rewrite lenMSG_set by done.
  apply spec_bind, spec_put, spec_ret. rewrite take_ge; [by apply HQ|].
  destruct (data_ok_opcode I2C_OPCODE_RESPONSE _ (data_ok_lenMSG 80 d Hdd)) as [Hl' _]. rewrite Hl'. done.
Qed.

(** The store of what a client writes: the whole entry. *)
Lemma setData_spec r s (Q : unit -> hwsys -> Prop) :
  hw_ok s -> data_ok r -> addr r ∈ register_addrs ->
  (forall id d, sock_msgArr s !! id = Some d -> addr d = addr r ->
     Q tt (s <| sock_msgArr := <[id := r]> (sock_msgArr s) |> <| write_data := r |> <| write_flag := true |>)) ->
  spec true (i2c_setData r (addr r) 80) Q s.
Proof.
  intros Hs Hr Ha HQ. apply spec_bind, get_id_spec.
  { rewrite hw_addrs by done. apply elem_of_app. by left. }
  intros id d _ Hd Had. pose proof (table_data s id d Hs Hd) as Hdd.
  pose proof (lookup_lt_Some _ _ _ Hd) as Hlt. apply spec_bind, (mod_entry_spec _ _ _ d); [done|].
  apply spec_bind, spec_put, spec_bind, spec_get. upd_simpl. change (Z.to_nat 80) with sizeof_i2c_data.
  destruct (ok_write s Hs) as [[Hwl _] _], Hr as [Hrl _]. rewrite <- Hwl. rewrite memcpy_full by congruence.
  apply spec_bind, (mod_entry_spec _ _ _ (set_lenMSG 80 d)).
  { upd_simpl. by rewrite list_lookup_insert_eq. }
  apply spec_put. destruct (data_ok_lenMSG 80 d Hdd) as [Hl _]. rewrite Hwl, <- Hl, memcpy_full by congruence.
  unfold set_field, set_sock_msgArr, set_write_data, set_write_flag in *. simpl in *. rewrite list_insert_insert_eq.
  by apply (HQ id d).
Qed.

(** What a client's message does. *)
Lemma clientHandler_spec bs s (Q : CLIENT_STATE -> hwsys -> Prop) :
  hw_ok s -> received (env s (asked s + 3)) = Some bs -> good_message bs ->
  let m := map u8 bs in
  let s4 := s <| asked := (asked s + 4)%nat |> in
  (forall st id d, sock_msgArr s !! id = Some d -> addr d = addr m ->
     list_find (fun d => addr d = addr m) (sock_msgArr s) = Some (id, d) ->
     opcode m = I2C_OPCODE_READ \/ opcode m = I2C_OPCODE_RESPONSE ->
     Q st (s4 <| sock_msgArr := <[id := set_lenMSG 80 d]> (sock_msgArr s) |>
              <| outs := outs s ++ [Sent (set_opcode I2C_OPCODE_RESPONSE (set_lenMSG 80 d))] |>)) ->
  (forall st id d rec, sock_msgArr s !! id = Some d -> addr d = addr m -> opcode m = I2C_OPCODE_WRITE ->
     holds rec m -> let r := set_lenMSG 80 rec in
     Q st (s4 <| sock_msgArr := <[id := r]> (sock_msgArr s) |> <| write_data := r |> <| write_flag := true |>)) ->
  (forall st, opcode m <> I2C_OPCODE_READ -> opcode m <> I2C_OPCODE_WRITE -> Q st s4) ->
  spec true clientHandler Q s.
Proof.
  intros Hs Hr (Hbl & Ha & Hw) m s4 Hread Hwrite Hother. unfold clientHandler.
  apply spec_bind, uninitialised_spec. intros j Hj Hjb. apply spec_bind, uninitialised_spec. intros k Hk Hkb.
  apply spec_bind, (receive_spec _ bs); [done| |done|].
  { upd_simpl. by replace (S (S (S (asked s)))) with (asked s + 3)%nat by lia. }
  intros rec Hrec. pose proof (holds_opcode _ _ Hrec) as Hop. fold m in Hop, Hrec. cbn beta iota.
  replace (_ <| asked := S (S (asked _)) |>) with s4
    by (unfold s4, set_field, set_asked; simpl; do 2 f_equal; lia).
  rewrite bool_decide_eq_true_2, andb_true_r by done. cbv zeta. change (Z.of_nat sizeof_i2c_data) with 80.
  assert (hw_ok s4) as Hs4 by (apply (calm_asked s); done).
  destruct (holds_rest _ _ Hrec) as (Hd & Hlm & Hra & _). pose proof (proj1 Hrec) as Hrd.
  destruct (opcode rec =? I2C_OPCODE_READ) eqn:Hrd1; bool_hyps.
  - rewrite opcode_set, Z.eqb_refl by done. pose proof (data_ok_opcode I2C_OPCODE_RESPONSE rec Hrd) as Hod.
    rewrite lenMSG_set by done. pose proof (same_contents _ _ (set_lenMSG_same 80 _ Hod)) as [= -> _ _ _ _].
    rewrite addr_set_opcode by done. pose proof (same_contents _ _ (set_lenMSG_same 80 _ Hrd)) as [= Hsa _ _ _ _].
    rewrite <- Hsa, Hra. apply respond_spec; [done|done|done|]. intros id d Hid Hda Hfind. apply Hread; [done|done|done|left; congruence].
  - destruct (opcode rec =? I2C_OPCODE_RESPONSE) eqn:Hrs; bool_hyps.
    + rewrite Hlm, Hra. apply respond_spec; [done|done|done|]. intros id d Hid Hda Hfind. apply Hread; [done|done|done|right; congruence].
    + destruct (opcode rec =? I2C_OPCODE_WRITE) eqn:Hwr; bool_hyps.
      * rewrite Hlm. apply spec_bind, setData_spec; [done|done|by rewrite Hra|]. intros id d Hid Hda.
        apply spec_ret. apply (Hwrite _ _ d); [done|congruence|congruence|done].
      * destruct (_ =? I2C_OPCODE_RESET); apply spec_ret, Hother; congruence.
Qed.

(** An entry is replaced by one with the same register and the same function
    or none. *)
Lemma calm_entry s k os id d r (w : bool) wd :
  hw_ok s -> sock_msgArr s !! id = Some d -> data_ok r -> addr r = addr d ->
  eventsHandler r = eventsHandler d \/ eventsHandler r = 0 ->
  data_ok wd -> (w = true -> lenData wd <= 8) -> (forall h, log_of h os = []) ->
  calm s (s <| asked := k |> <| sock_msgArr := <[id := r]> (sock_msgArr s) |> <| write_data := wd |> <| write_flag := w |>
            <| outs := outs s ++ os |>).
Proof.
  intros Hs Hd Hr Ha Hh Hwd Hw Hos. destruct Hs as [H1 H2 H3 H4 H5]. split; [|intros h|intros h|done].
  - split; try done. upd_simpl. destruct (Forall2_lookup_l _ _ _ _ _ H1 Hd) as (d0 & Hd0 & [E1 E2 E3]).
    rewrite <- (list_insert_id (initial_sock_msgArr address) id d0) by done. apply Forall2_insert; [done|].
    split; [done|congruence|]. destruct Hh as [Hh|Hh]; [|by right]. rewrite Hh. done.
  - unfold track. upd_simpl. by rewrite log_of_app, Hos, app_nil_r.
  - unfold silent. upd_simpl. change (map eventsHandler) with (fmap (M := list) eventsHandler).
    rewrite list_fmap_insert. intros Hn Hin. apply list_elem_of_lookup in Hin as [j Hj].
    destruct (decide (id = j)) as [<-|Hne].
    + rewrite list_lookup_insert_eq in Hj by (rewrite length_fmap; by eapply lookup_lt_Some). injection Hj as Hj.
      destruct Hh as [Hh|Hh]; [|pose proof (linked_range h); lia]. apply Hn. rewrite <- Hj, Hh.
      apply list_elem_of_fmap. exists d. split; [done|by eapply list_elem_of_lookup_2].
    + rewrite list_lookup_insert_ne in Hj by done. apply Hn. by apply list_elem_of_lookup_2 in Hj.
Qed.

Lemma clientHandler_calm : calmly clientHandler.
Proof.
  intros s Hs He. destruct (ge_client _ (He (asked s + 3)%nat) _ eq_refl) as (bs & Hbs & Hgood).
  apply (clientHandler_spec bs); [done|done|done| | |].
  - intros st id d Hd Ha _ _. pose proof (table_data s id d Hs Hd) as Hdd.
    pose proof (set_lenMSG_same 80 d Hdd) as Hsame. injection (same_contents _ _ Hsame) as Hsa _ _ Hsh _.
    pose proof (calm_entry s (asked s + 4) [Sent (set_opcode I2C_OPCODE_RESPONSE (set_lenMSG 80 d))] id d (set_lenMSG 80 d)
      (write_flag s) (write_data s) Hs Hd (sbl_ok _ _ Hsame) Hsa (or_introl Hsh) (proj1 (ok_write s Hs))
      (proj2 (ok_write s Hs)) (fun _ => eq_refl)) as Hc. exact Hc.
  - intros st id d rec Hd Ha Hop Hrec. cbv zeta. destruct (holds_rest _ _ Hrec) as (Hr1 & _ & Hr2 & Hr3 & _ & Hr4 & _).
    set (r := set_lenMSG 80 rec) in *.
    destruct Hgood as (_ & _ & Hw). destruct (Hw Hop) as [Hw1 Hw2].
    pose proof (calm_entry s (asked s + 4) [] id d r true r Hs Hd Hr1 ltac:(congruence) ltac:(right; congruence) Hr1
      ltac:(intros _; rewrite Hr3; done) (fun _ => eq_refl)) as Hc.
    rewrite app_nil_r in Hc. exact Hc.
  - intros st _ _. by apply calm_asked.
Qed.

Context (OPEN_MAX : Z).

Lemma runComHandler_calm : calmly (runComHandler OPEN_MAX).
Proof.
  unfold runComHandler, accept_socket. apply calmly_bind; [repeat calm_step|]. intros b. destruct b; [|apply calmly_ret].
  apply calmly_bind; [apply clientHandler_calm|intros; apply calmly_ret].
Qed.

(** ** Runs *)

(** Whether the thread of the events makes a round in this visit. *)
Definition due (v : visit * (nat -> env_t)) (s : hwsys) : bool :=
  match v.1 with
  | V_events => t_interval (events_timer s) <=? u32 (time (v.2 0%nat) - t_start (events_timer s))
  | _ => false
  end.

(** The values with which [h] is called in a visit and in a run. *)
Definition observed_in (h : handler) (v : visit * (nat -> env_t)) (s : hwsys) : list (list Z) :=
  if due v s then called h (sock_msgArr s) else [].
Fixpoint observed (h : handler) (l : list (visit * (nat -> env_t))) (s : hwsys) : list (list Z) :=
  match l with
  | [] => []
  | v :: l => observed_in h v s ++ match step address OPEN_MAX v s with Some (_, s') => observed h l s' | None => [] end
  end.

Lemma spec_all {A B} (b : B) (m : HW A) (Q : B -> A -> hwsys -> Prop) s :
  (forall x, spec true m (Q x) s) -> spec true m (fun a s' => forall x, Q x a s') s.
Proof. unfold spec. intros H. pose proof (H b) as Hb. destruct (m s) as [[a s']|]; [done|done]. Qed.

Lemma same_pointers l l' : Forall2 same_but_len l l' -> map eventsHandler l' = map eventsHandler l.
Proof.
  induction 1 as [|d d' l l' H _ IH]; [done|]. simpl. rewrite IH. f_equal. by injection (same_contents _ _ H).
Qed.

(** What a visit keeps, and what the handlers do in it. *)
Record visited (vs : handler -> list (list Z)) (s s' : hwsys) : Prop := mk_visited {
  vis_ok : hw_ok s';
  vis_reacted h : reacted h (vs h) s s';
  vis_silent h : silent h s -> silent h s' }.

Lemma calm_visited s s' : calm s s' -> visited (fun _ => []) s s'.
Proof. intros [H1 H2 H3 H4]. split; [done|intros h; by apply reacted_nil|done]. Qed.

Lemma eventsHandler_round_spec s :
  hw_ok s ->
  spec true (eventsHandler_round address) (fun _ s' => visited (fun h =>
    if t_interval (events_timer s) <=? u32 (time (env s (asked s)) - t_start (events_timer s))
    then called h (sock_msgArr s) else []) s s') s.
Proof.
  intros Hs. unfold eventsHandler_round. apply spec_bind, spec_get, spec_bind, spec_bind, spec_ask, spec_ret.
  set (s1 := s <| asked := S (asked s) |>). assert (calm s s1) as Hc1 by (by apply calm_asked).
  destruct (_ <=? _); [|apply spec_ret; by apply calm_visited].
  apply spec_bind. eapply spec_mono.
  { apply (spec_all H_ADC_CH1). intros h. by apply (i2c_events_handler_spec h), Hc1. }
  simpl. intros [] s2 H2. destruct (H2 H_ADC_CH1) as [[l He] _].
  pose proof (evented_ok _ _ _ He (calm_ok _ _ Hc1)) as Hok. apply spec_put.
  set (s3 := s2 <| events_timer := _ |>). assert (calm s2 s3) as Hc3 by (by apply calm_same). split.
  - apply Hc3.
  - intros h. destruct (H2 h) as [_ (g & Hg & Ht)]. exists g. split; [done|].
    by rewrite (calm_track _ _ Hc3), Ht, (calm_track _ _ Hc1).
  - intros h Hh. apply (calm_silent _ _ Hc3). unfold silent.
    rewrite (same_pointers _ _ (e_arr _ _ _ He)). by apply (calm_silent _ _ Hc1).
Qed.

Lemma step_spec v s :
  hw_ok s -> well_behaved v.2 ->
  spec true (step address OPEN_MAX v) (fun _ s' => visited (fun h => observed_in h v s) s s') s.
Proof.
  intros Hs He. unfold step. apply spec_bind, spec_put.
  set (s1 := s <| env := v.2 |> <| asked := 0%nat |>).
  assert (hw_ok s1) as Hs1 by (destruct Hs; by split). unfold observed_in, due.
  assert (forall m : HW unit, calmly m -> spec true m (fun _ s' => visited (fun _ => []) s s') s1) as Hcalm.
  { intros m Hm. eapply spec_mono; [by apply Hm|]. intros [] s2 Hc. destruct (calm_visited _ _ Hc) as [V1 V2 V3]. by split. }
  destruct (v.1); simpl.
  - apply Hcalm, open_i2c_calm.
  - apply Hcalm, mainHandler_calm.
  - apply Hcalm, runComHandler_calm.
  - apply Hcalm. unfold events_start. repeat calm_step.
  - eapply spec_mono; [by apply eventsHandler_round_spec|]. intros [] s2 [V1 V2 V3]. by split.
Qed.

(** In a run of well-behaved surroundings nothing undefined happens, and the
    messages of a function are its reactions to what it is called with. *)
Lemma run_spec l s :
  hw_ok s -> Forall (fun v => well_behaved v.2) l ->
  spec true (run address OPEN_MAX l) (fun _ s' => visited (fun h => observed h l s) s s') s.
Proof.
  intros Hs Hl. revert s Hs. induction Hl as [|v l Hv _ IH]; intros s Hs; simpl.
  - apply spec_ret. apply calm_visited, calm_refl. done.
  - apply spec_bind. destruct (spec_total _ _ _ (step_spec v s Hs Hv)) as ([] & s1 & Hstep & [V1 V2 V3]).
    unfold spec. rewrite Hstep. eapply spec_mono; [by apply IH|]. intros [] s2 [W1 W2 W3]. split; [done| |auto].
    intros h. by eapply reacted_trans.
Qed.

Lemma boot_ok fds e : hw_ok (boot address fds e).
Proof.
  split.
  - simpl. pose proof initial_good as Hg. induction Hg as [|d l [Hd _] _ IH]; constructor; [|done]. split; auto.
  - split; [done|apply zero_bytes].
  - done.
  - done.
  - split; [apply zero_good|done].
Qed.
End linked.
