(* ===== verification/HwsysTheorems.v ===== *)
(** * tf_hwsysd: the properties of its life

    Nothing undefined happens with a well-behaved microcontroller and clients,
    the messages of the events are those of the reference, "get" prints what
    the register is ([reading]); what is broken: a register that a client sets loses its events,
    the temperature of the external sensor is never reported, the
    microcontroller is never reset, and the descriptors of clients run out. *)

From stdpp Require Import functions sets.
From S2P Require Import Prelude Bytes CLib CLibOk Effect Hwsys HwsysEvents HwsysDaemon HwsysOk HwsysRun.

(** ** The messages of the control client *)

#[local] Opaque be_bytes.

Section client.
Context (address : handler -> Z) `{!linked address}.

Lemma bytes_word o d : data_ok d -> (o + 4 <= 80)%nat -> 0 <= be_val (field o 4 d) < 4294967296.
Proof.
  intros [Hl Hb] Ho. unfold sizeof_i2c_data in Hl.
  pose proof (be_val_range (field o 4 d)) as Hr. rewrite length_field in Hr by lia. apply Hr.
  unfold field. by apply Forall_take, Forall_drop.
Qed.

Lemma field_byte o d : data_ok d -> is_byte (default 0 (head (field o 1 d))).
Proof.
  intros [_ Hb]. unfold field. assert (bytes_ok (take 1 (drop o d))) as H by (by apply Forall_take, Forall_drop).
  destruct (take 1 (drop o d)) as [|x l]; simpl; [unfold is_byte; lia|]. by apply list.Forall_cons in H as [? _].
Qed.

Lemma store_word o v d : data_ok d -> (o + 4 <= 80)%nat -> data_ok (store_at o (be_bytes 4 v) d).
Proof. intros Hd Ho. apply data_ok_store; [done|apply be_bytes_ok|by rewrite length_be_bytes]. Qed.
Lemma store_byte o v d : data_ok d -> is_byte v -> (o + 1 <= 80)%nat -> data_ok (store_at o [v] d).
Proof. intros Hd Hv Ho. apply data_ok_store; [done|constructor; [done|by constructor]|done]. Qed.

(** Reads a field through the outermost store into a variable that is [data_ok]. *)
Ltac store_side H := rewrite ?length_be_bytes, ?(proj1 H); cbn [length]; unfold sizeof_i2c_data; lia.
Ltac step_before H := rewrite field_store_before by store_side H.
Ltac step_after H := rewrite field_store_after by store_side H.

(** The variable of the client after the lookup of a name. *)
Lemma client_param n a p :
  get_i2c_addr_by_name address n zero_data = Some (a, p) ->
  exists d0, d0 ∈ initial_sock_msgArr address /\ addr d0 = a /\ a ∈ register_addrs /\
    data_ok p /\ addr p = a /\ lenData p = lenData d0 /\ eventsHandler p = 0 /\ value p = replicate 32 0.
Proof.
  unfold get_i2c_addr_by_name. destruct (list_find _ _) as [[i d0]|] eqn:Hf; [|done]. simpl. intros [= <- <-].
  apply list_find_Some in Hf as (Hd0 & _ & _). apply list_elem_of_lookup_2 in Hd0.
  destruct (proj1 (list.Forall_forall _ _) (initial_good address) _ Hd0) as [Hok _]. exists d0.
  assert (addr d0 ∈ register_addrs) as Ha.
  { assert (addr d0 ∈ map addr (initial_sock_msgArr address)) as H by (by apply list_elem_of_fmap_2).
    rewrite initial_addrs in H. apply elem_of_app in H as [H|H]; [done|].
    apply elem_of_replicate in H as [-> _]. by apply (bool_decide_unpack _). }
  assert (data_ok zero_data) as Hz by (split; [done|apply zero_bytes]).
  pose proof (field_byte 36 d0 Hok) as Hld. rewrite <- lenData_field in Hld.
  pose proof (data_ok_opcode (opcode d0) zero_data Hz) as H1.
  pose proof (store_word 4 (addr d0) _ H1 ltac:(lia)) as H2.
  pose proof (store_byte 36 (lenData d0) _ H2 Hld ltac:(lia)) as H3.
  pose proof (store_word 40 (type d0) _ H3 ltac:(lia)) as H4.
  split_and!; [done|done|done|done| | | |].
  - rewrite addr_field. step_before H3. step_before H2.
    destruct H1 as [H1 _]. unfold sizeof_i2c_data in H1.
    rewrite (field_store_same 4 (be_bytes 4 (addr d0))) by lia. apply be_val_be_bytes_small. apply (bytes_word 4 d0); [done|lia].
  - rewrite (lenData_field (store_at _ _ _)). step_before H3.
    destruct H2 as [H2 _]. unfold sizeof_i2c_data in H2. by rewrite (field_store_same 36 [lenData d0]) by lia.
  - rewrite eventsHandler_field. step_after H3. step_after H2. step_after H1. unfold set_opcode. by step_after Hz.
  - rewrite value_field. step_after H3. step_after H2. step_after H1. unfold set_opcode. by step_after Hz.
Qed.

(** The octets of a message that are read. *)
Lemma first_octets q :
  data_ok q -> length (take message_size q) = message_size /\
  forall o n, (o + n <= message_size)%nat -> field o n (map u8 (take message_size q)) = field o n q.
Proof.
  intros [Hl Hb]. unfold sizeof_i2c_data, message_size in *. split; [rewrite length_take; lia|]. intros o n Hon.
  replace (map u8 (take 60 q)) with (take 60 q).
  - change (take 60 q) with (field 0 60 q). by rewrite field_field by lia.
  - symmetry. rewrite <- (map_id (take 60 q)) at 2. apply map_ext_in. intros x Hx. apply u8_small.
    apply list_elem_of_In in Hx. apply (proj1 (list.Forall_forall is_byte (take 60 q))); [|done]. by apply Forall_take.
Qed.

Lemma request_message q a :
  data_ok q -> addr q = a -> a ∈ register_addrs ->
  (opcode q = I2C_OPCODE_WRITE -> lenData q <= 8 /\ eventsHandler q = 0) -> good_message (take message_size q).
Proof.
  intros Hq Ha Hr Hw. destruct (first_octets q Hq) as [Hl Hf]. unfold message_size in *. split; [done|].
  rewrite addr_field, opcode_field, lenData_field, eventsHandler_field, !Hf by lia.
  rewrite <- addr_field, <- opcode_field, <- lenData_field, <- eventsHandler_field. by rewrite Ha.
Qed.

Lemma get_request_fields p :
  data_ok p -> let q := get_request p in
  data_ok q /\ addr q = addr p /\ opcode q = I2C_OPCODE_READ /\ value q = value p.
Proof.
  intros Hp q. unfold q, get_request. pose proof (data_ok_lenMSG (Z.of_nat sizeof_i2c_data) p Hp) as H1.
  split; [by apply data_ok_opcode|]. split; [|split].
  - rewrite addr_set_opcode by done. by injection (same_contents _ _ (set_lenMSG_same (Z.of_nat sizeof_i2c_data) p Hp)).
  - unfold set_opcode. rewrite opcode_field. destruct H1 as [H1 _].
    by rewrite (field_store_same 32 (be_bytes 4 I2C_OPCODE_READ)) by (rewrite H1; unfold sizeof_i2c_data; lia).
  - unfold set_opcode. rewrite value_field. step_after H1.
    by injection (same_contents _ _ (set_lenMSG_same (Z.of_nat sizeof_i2c_data) p Hp)).
Qed.

Lemma set_request_fields p val :
  data_ok p -> let q := set_request p val in
  data_ok q /\ addr q = addr p /\ opcode q = I2C_OPCODE_WRITE /\ lenData q = lenData p /\ eventsHandler q = eventsHandler p.
Proof.
  intros Hp q. unfold q, set_request. pose proof (data_ok_opcode I2C_OPCODE_WRITE p Hp) as H1.
  assert (data_ok (store_at 48 [u8 val; 0; 0; 0] (set_opcode I2C_OPCODE_WRITE p))) as H2.
  { apply data_ok_store; [done| |simpl; lia]. constructor; [apply u8_range|apply (zero_bytes 3)]. }
  split; [done|]. rewrite !addr_field, !opcode_field, !lenData_field, !eventsHandler_field.
  split_and!; step_before H1.
  - unfold set_opcode. by step_before Hp.
  - unfold set_opcode. destruct Hp as [Hp _]. unfold sizeof_i2c_data in Hp.
    by rewrite (field_store_same 32 (be_bytes 4 I2C_OPCODE_WRITE)) by lia.
  - unfold set_opcode. by step_after Hp.
  - unfold set_opcode. by step_after Hp.
Qed.

(** ** The text that the control client prints *)

(** Reading a text that ends within the first octets. *)
Lemma c_string_prefix (l1 l2 : list Z) s : c_string l1 = Some s -> c_string (l1 ++ l2) = Some s.
Proof.
  revert s. induction l1 as [|x l1 IH]; intros s; [done|]. simpl. destruct (x =? 0); [done|].
  destruct (c_string l1) as [t|]; [|done]. simpl. intros [= <-]. by rewrite (IH t).
Qed.

Lemma octet_prefix v v' : take 12 v' = take 12 v -> forall o, (o < 12)%nat -> octet_at o v' = octet_at o v.
Proof. intros Hv o Ho. unfold octet_at. rewrite <- (lookup_take_lt v' 12 o), <- (lookup_take_lt v 12 o) by done. by rewrite Hv. Qed.

(** What the client prints depends on the first 12 octets of the value, as
    long as a text ends there. *)
Lemma print_value_prefix d d' :
  lenData d' = lenData d -> type d' = type d -> take 12 (value d') = take 12 (value d) ->
  lenData d ∈ [1; 2; 4] \/ 0 ∈ take 12 (value d) -> print_value d' = print_value d.
Proof.
  intros Hl Ht Hv Hc. unfold print_value. rewrite Hl, Ht.
  pose proof (octet_prefix _ _ Hv) as Ho.
  unfold get_16bitValue. rewrite !Ho by lia.
  destruct (lenData d =? 1) eqn:H1; [done|]. destruct (lenData d =? 2) eqn:H2; [done|].
  destruct (lenData d =? 4) eqn:H4; [done|]. bool_hyps. destruct Hc as [Hc|Hc]; [set_solver|].
  apply c_string_terminated in Hc as [s Hs]. rewrite <- (take_drop 12 (value d')), <- (take_drop 12 (value d)), Hv.
  by rewrite !(c_string_prefix _ _ s).
Qed.

(** The answer of the daemon. *)
Lemma answer_fields d :
  data_ok d -> let r := set_opcode I2C_OPCODE_RESPONSE (set_lenMSG 80 d) in
  data_ok r /\ opcode r = I2C_OPCODE_RESPONSE /\ lenData r = lenData d /\ type r = type d /\ value r = value d.
Proof.
  intros Hd r. unfold r. pose proof (data_ok_lenMSG 80 d Hd) as H1. split; [by apply data_ok_opcode|].
  split; [by apply opcode_set|]. injection (same_contents _ _ (set_lenMSG_same 80 d Hd)) as _ Hl Ht _ Hv.
  rewrite <- Hl, <- Ht, <- Hv. unfold set_opcode. rewrite !lenData_field, !type_field, !value_field.
  split_and!; by step_after H1.
Qed.

(** What the text says, from the octets of the value: the number that they
    are, the least significant octet first, signed in two's complement; a
    number of two octets with a point counts tenths below 1000 and thousandths
    from there on; a text ends before the first 0. *)
Definition little_endian (bs : list Z) : Z := foldr (fun x n => x + 256 * n) 0 bs.
Definition signed (bits n : Z) : Z := if n <? 2 ^ (bits - 1) then n else n - 2 ^ bits.
Definition with_point (unit z : Z) : list Z :=
  print_d (Z.sgn z * (Z.abs z / unit)) ++ 46 :: print_d (Z.abs z mod unit).
Definition scaled (z : Z) : list Z := with_point (if z <? 1000 then 10 else 1000) z.

Definition reading (len ty : Z) (v : list Z) : list Z :=
  if decide (len = 1) then print_d (little_endian (take 1 v))
  else if decide (len = 2) then
    let n := little_endian (take 2 v) in
    if decide (ty = TYPE_PSEUDO_FLOAT) then scaled n
    else if decide (ty = TYPE_FLOAT_SFP) then scaled (signed 16 n)
    else print_d n
  else if decide (len = 4) then print_d (signed 32 (little_endian (take 4 v)))
  else foldr (fun x text => if decide (x = 0) then [] else x :: text) [] v.

Lemma lor_above n x y : 0 <= n -> 0 <= x < 2 ^ n -> 0 <= y -> Z.lor x (Z.shiftl y n) = x + 2 ^ n * y.
Proof.
  intros Hn Hx Hy. rewrite Z.shiftl_mul_pow2, (Z.mul_comm y) by done.
  assert (Z.land x (2 ^ n * y) = 0) as Hland.
  { apply Z.bits_inj'. intros k Hk. rewrite Z.land_spec, Z.bits_0, (Z.mul_comm _ y). destruct (Z.ltb_spec k n).
    - by rewrite Z.mul_pow2_bits_low, andb_false_r.
    - destruct (decide (x = 0)) as [->|Hx0]; [by rewrite Z.bits_0|].
      assert (Z.log2 x < n) as Hl by (apply Z.log2_lt_pow2; lia). by rewrite (Z.bits_above_log2 x) by lia. }
  by rewrite <- Z.lxor_lor, <- Z.add_nocarry_lxor.
Qed.

Lemma with_point_model unit z : 0 < unit -> two_numbers (Z.quot z unit) (Z.abs (Z.rem z unit)) = with_point unit z.
Proof.
  intros Hu. unfold two_numbers, with_point. do 2 f_equal.
  - rewrite Z.quot_div by lia. rewrite (Z.sgn_pos unit), (Z.abs_eq unit) by lia. f_equal. lia.
  - rewrite Z.rem_mod by lia. rewrite (Z.abs_eq unit) by lia. pose proof (Z.mod_pos_bound (Z.abs z) unit Hu).
    f_equal. destruct (Z.sgn_spec z) as [[? ->]|[[Hz ->]|[? ->]]]; [lia| |lia]. rewrite <- Hz. simpl.
    rewrite Z.mod_0_l; lia.
Qed.

Lemma scaled_model z :
  scaled z = if z <? 1000 then two_numbers (Z.quot z 10) (Z.abs (Z.rem z 10)) else two_numbers (Z.quot z 1000) (Z.abs (Z.rem z 1000)).
Proof. unfold scaled. by destruct (z <? 1000); rewrite with_point_model by lia. Qed.

Lemma with_point_nonneg unit n : 0 < unit -> 0 <= n -> two_numbers (n / unit) (n mod unit) = with_point unit n.
Proof.
  intros Hu Hn. rewrite <- with_point_model by done. unfold two_numbers. rewrite Z.quot_div_nonneg, Z.rem_mod_nonneg by lia.
  pose proof (Z.mod_pos_bound n unit Hu). by rewrite (Z.abs_eq (n mod unit)) by lia.
Qed.

(** The octets of a value. *)
Lemma value_octets d :
  data_ok d -> exists x0 x1 x2 x3 v, value d = x0 :: x1 :: x2 :: x3 :: v /\ Forall is_byte [x0; x1; x2; x3].
Proof.
  intros [Hd Hb]. assert (length (value d) = 32%nat) as Hl by (rewrite value_field; apply length_field; rewrite Hd; unfold sizeof_i2c_data; lia).
  assert (bytes_ok (value d)) as Hv by (by apply Forall_take, Forall_drop).
  destruct (value d) as [|x0 [|x1 [|x2 [|x3 v]]]]; try discriminate Hl. exists x0, x1, x2, x3, v. split; [done|].
  by apply (Forall_take _ 4) in Hv.
Qed.

Lemma two_octets x y rest :
  is_byte x -> is_byte y -> get_16bitValue (x :: y :: rest) = little_endian [x; y] /\ 0 <= little_endian [x; y] < 65536.
Proof.
  unfold is_byte, get_16bitValue, octet_at, little_endian. intros Hx Hy. simpl. rewrite lor_above by lia.
  change (2 ^ 8) with 256. lia.
Qed.

Lemma four_octets x y z w :
  is_byte x -> is_byte y -> is_byte z -> is_byte w ->
  u32 (Z.lor (Z.lor (Z.lor x (Z.shiftl y 8)) (Z.shiftl z 16)) (Z.shiftl w 24)) = little_endian [x; y; z; w].
Proof.
  unfold is_byte, little_endian. intros Hx Hy Hz Hw. simpl.
  rewrite (lor_above 8), (lor_above 16), (lor_above 24) by (rewrite ?Z.pow_pos_fold; lia).
  unfold u32. rewrite Z.mod_small; lia.
Qed.

(** The client prints this text. *)
Lemma print_value_reads d :
  data_ok d -> lenData d ∈ [1; 2; 4] \/ 0 ∈ value d -> print_value d = Some (reading (lenData d) (type d) (value d)).
Proof.
  intros Hd Hc. destruct (value_octets d Hd) as (x0 & x1 & x2 & x3 & v & Hv & Hb).
  rewrite !list.Forall_cons in Hb. destruct Hb as (B0 & B1 & B2 & B3 & _).
  destruct (two_octets x0 x1 (x2 :: x3 :: v) B0 B1) as [H16 Hr].
  unfold print_value, reading. rewrite Hv, H16.
  destruct (Z.eqb_spec (lenData d) 1) as [H1|H1]; [rewrite decide_True by done|rewrite decide_False by done].
  { do 2 f_equal. unfold octet_at. simpl. lia. }
  destruct (Z.eqb_spec (lenData d) 2) as [H2|H2]; [rewrite decide_True by done|rewrite decide_False by done].
  { change (take 2 _) with [x0; x1]. f_equal. set (n := little_endian [x0; x1]) in *.
    destruct (Z.eqb_spec (type d) TYPE_PSEUDO_FLOAT); [rewrite decide_True by done|rewrite decide_False by done].
    { unfold scaled. destruct (n <? 1000); by rewrite with_point_nonneg by lia. }
    destruct (Z.eqb_spec (type d) TYPE_FLOAT_SFP); [rewrite decide_True by done|by rewrite decide_False by done].
    change (s16 n) with (signed 16 n). by rewrite scaled_model. }
  destruct (Z.eqb_spec (lenData d) 4) as [H4|H4]; [rewrite decide_True by done|rewrite decide_False by done].
  { change (take 4 _) with [x0; x1; x2; x3]. unfold octet_at. cbn [lookup list_lookup default id].
    rewrite four_octets by done. do 2 f_equal. unfold s32, signed, LONG_MAX. change (2 ^ (32 - 1)) with 2147483648.
    change (2 ^ 32) with 4294967296.
    destruct (Z.leb_spec (little_endian [x0; x1; x2; x3]) 2147483647), (Z.ltb_spec (little_endian [x0; x1; x2; x3]) 2147483648); lia. }
  rewrite Hv in Hc. destruct Hc as [Hc|Hc]; [set_solver|]. clear -Hc. revert Hc. generalize (x0 :: x1 :: x2 :: x3 :: v).
  intros l. induction l as [|x l IH]; [set_solver|]. intros Hl. simpl. destruct (Z.eqb_spec x 0) as [->|Hx]; [done|].
  rewrite decide_False by done. rewrite IH by set_solver. done.
Qed.


(** ** A register that is set *)

(** The functions of the registers, in the order of the table. *)
Definition register_handlers : list (option handler) :=
  Eval vm_compute in
    map (fun d => find (fun h => Z.of_nat (default 0%nat (fst <$> list_find (eq h) handlers)) + 1 =? eventsHandler d) handlers)
      (registers (fun h => Z.of_nat (default 0%nat (fst <$> list_find (eq h) handlers)) + 1)).

Lemma registers_pointers : map eventsHandler (registers address) = map (pointer address) register_handlers.
Proof. unfold registers. cbn [map]. rewrite !entry_pointer by done. reflexivity. Qed.

Lemma handler_at h k d :
  initial_sock_msgArr address !! k = Some d -> eventsHandler d = address h -> register_handlers !! k = Some (Some h).
Proof.
  intros Hd Hp. assert (map eventsHandler (initial_sock_msgArr address) !! k = Some (address h)) as Hm.
  { change (map eventsHandler) with (fmap (M := list) eventsHandler). by rewrite list_lookup_fmap, Hd, <- Hp. }
  unfold initial_sock_msgArr in Hm. rewrite map_app, registers_pointers in Hm.
  pose proof (linked_range h) as Hr. apply lookup_app_Some in Hm as [Hm|[_ Hm]].
  - change (map (pointer address)) with (fmap (M := list) (pointer address)) in Hm.
    rewrite list_lookup_fmap in Hm. destruct (register_handlers !! k) as [[h'|]|]; simpl in Hm; [|injection Hm; lia|done].
    injection Hm as Hm. by apply (inj address) in Hm as ->.
  - exfalso. change (map eventsHandler) with (fmap (M := list) eventsHandler) in Hm. rewrite fmap_replicate in Hm.
    apply lookup_replicate in Hm as [Hm _]. change (eventsHandler zero_data) with 0 in Hm. lia.
Qed.

(** A list in which some elements occur once. *)
Definition once {A} `{EqDecision A} (none : A) (l : list A) : bool :=
  forallb (fun x => forallb (fun y => negb (bool_decide (x.2 = y.2)) || bool_decide (x.2 = none) || (x.1 =? y.1)%nat)
    (imap pair l)) (imap pair l).

Lemma once_spec {A} `{EqDecision A} (none : A) (l : list A) x i j :
  once none l = true -> x <> none -> l !! i = Some x -> l !! j = Some x -> i = j.
Proof.
  intros Hu Hx Hi Hj.
  assert (forall k, l !! k = Some x -> In (k, x) (imap pair l)) as Hin.
  { intros k Hk. apply list_elem_of_In, list_elem_of_lookup. exists k. by rewrite list_lookup_imap, Hk. }
  unfold once in Hu. rewrite forallb_forall in Hu. specialize (Hu _ (Hin i Hi)). rewrite forallb_forall in Hu.
  specialize (Hu _ (Hin j Hj)). simpl in Hu. rewrite bool_decide_eq_true_2, (bool_decide_eq_false_2 (x = none)) in Hu by done.
  by apply Nat.eqb_eq in Hu.
Qed.

(** A function is that of one register, whose number is not used twice. *)
Lemma register_of_handler h k d i a :
  initial_sock_msgArr address !! k = Some d -> eventsHandler d = address h -> addr d = a ->
  (register_addrs ++ replicate 37 0) !! i = Some a -> i = k.
Proof.
  intros Hd Hp Ha Hi. pose proof (handler_at h k d Hd Hp) as Hk.
  assert ((register_addrs ++ replicate 37 0) !! k = Some a) as Hka.
  { rewrite <- (initial_addrs address). change (map addr) with (fmap (M := list) addr). by rewrite list_lookup_fmap, Hd, <- Ha. }
  apply (once_spec 0 (register_addrs ++ replicate 37 0) a); [vm_compute; reflexivity| |done|done].
  intros ->. assert (forallb (fun x => negb (bool_decide (x.1 = 0)) || bool_decide (x.2 = None))
    (zip register_addrs register_handlers) = true) as Hz by (vm_compute; reflexivity).
  assert (In (0, Some h) (zip register_addrs register_handlers)) as Hin.
  { apply list_elem_of_In, list_elem_of_lookup. exists k. apply lookup_zip_with_Some. do 2 eexists.
    split; [reflexivity|]. split; [|done]. apply lookup_app_Some in Hka as [Hka|[Hlen _]]; [done|].
    apply lookup_lt_Some in Hk. change (length register_addrs) with (length register_handlers) in Hlen. lia. }
  rewrite forallb_forall in Hz. specialize (Hz _ Hin). cbn [fst snd] in Hz.
  by rewrite (bool_decide_eq_true_2 (0 = 0)), (bool_decide_eq_false_2 (Some h = None)) in Hz by done.
Qed.

Lemma silent_called h s : silent address h s -> called address h (sock_msgArr s) = [].
Proof.
  unfold silent, called. induction (sock_msgArr s) as [|d l IH]; [done|]. intros Hn. csimpl.
  destruct (eventsHandler d =? address h) eqn:He.
  - destruct Hn. apply Z.eqb_eq in He. rewrite <- He. simpl. by apply list_elem_of_here.
  - apply IH. intros Hin. apply Hn. simpl. by apply list_elem_of_further.
Qed.

(** A function that no register has is not called any more. *)
Lemma observed_silent OPEN_MAX h l s :
  hw_ok address s -> Forall (fun v => well_behaved v.2) l -> silent address h s -> observed address OPEN_MAX h l s = [].
Proof.
  intros Hs Hl Hh. revert s Hs Hh. induction Hl as [|v l Hv _ IH]; intros s Hs Hh; [done|]. simpl.
  destruct (spec_total _ _ _ (step_spec address OPEN_MAX v s Hs Hv)) as ([] & s1 & -> & [V1 _ V3]).
  rewrite IH, app_nil_r by auto. unfold observed_in. destruct (due v s); [by apply silent_called|done].
Qed.

(** The entry of a register that a client writes has no function. *)
Lemma set_silences n a p h val d0 s :
  hw_ok address s -> get_i2c_addr_by_name address n zero_data = Some (a, p) ->
  d0 ∈ initial_sock_msgArr address -> addr d0 = a -> eventsHandler d0 = address h ->
  well_behaved (env s) -> received (env s (asked s + 3)) = Some (take message_size (set_request p val)) ->
  spec true clientHandler (fun _ s' => silent address h s') s.
Proof.
  intros Hs Hn Hd0 Ha0 Hh0 He Hr. destruct (client_param n a p Hn) as (d1 & _ & _ & Har & Hp & Hap & _ & Hhp & _).
  destruct (set_request_fields p val Hp) as (Hq & Haq & Hoq & Hlq & Hhq). destruct (first_octets _ Hq) as [Hql Hqf].
  set (bs := take message_size (set_request p val)) in *.
  assert (addr (map u8 bs) = a /\ opcode (map u8 bs) = I2C_OPCODE_WRITE /\ eventsHandler (map u8 bs) = 0) as (Ham & Hom & Hhm).
  { rewrite addr_field, opcode_field, eventsHandler_field, !Hqf by (unfold message_size; lia).
    rewrite <- addr_field, <- opcode_field, <- eventsHandler_field. split_and!; congruence. }
  apply list_elem_of_lookup in Hd0 as [k Hk].
  apply (clientHandler_spec address bs); [done|done| | | |].
  - destruct (ge_client _ (He (asked s + 3)%nat) _ Hr) as (bs' & [= <-] & Hg). done.
  - intros st id d _ _ _ [Hop|Hop]; by rewrite Hom in Hop.
  - intros st id d rec Hd Had _ Hrec. cbv zeta. destruct (holds_rest _ _ Hrec) as (_ & _ & _ & _ & _ & Hrh & _).
    assert (id = k) as ->.
    { apply (register_of_handler h k d0 id a); [done|done|done|]. rewrite <- (hw_addrs address s Hs).
      change (map addr) with (fmap (M := list) addr). by rewrite list_lookup_fmap, Hd, <- Ham, <- Had. }
    unfold silent. upd_simpl. change (map eventsHandler) with (fmap (M := list) eventsHandler).
    rewrite list_fmap_insert, Hrh, Hhm. intros Hin. apply list_elem_of_lookup in Hin as [j Hj].
    pose proof (linked_range h) as Hlr. destruct (decide (k = j)) as [<-|Hne].
    + rewrite list_lookup_insert_eq in Hj by (rewrite length_fmap; by eapply lookup_lt_Some). injection Hj. lia.
    + rewrite list_lookup_insert_ne, list_lookup_fmap in Hj by done.
      destruct (sock_msgArr s !! j) as [dj|] eqn:Hdj; [|done]. injection Hj as Hj.
      destruct (Forall2_lookup_l _ _ _ _ _ (ok_table _ _ Hs) Hdj) as (dj0 & Hdj0 & [_ _ [Hp0|Hp0]]); [|lia].
      rewrite Hj in Hp0. apply Hne. pose proof (handler_at h k d0 Hk Hh0) as H1. pose proof (handler_at h j dj0 Hdj0 (eq_sym Hp0)) as H2.
      apply (once_spec None register_handlers (Some h)); [vm_compute; reflexivity|done|done|done].
  - intros st _ Hop. by rewrite Hom in Hop.
Qed.

Lemma run_cons OPEN_MAX v l s s' :
  run address OPEN_MAX (v :: l) s = Some (tt, s') ->
  exists s1, step address OPEN_MAX v s = Some (tt, s1) /\ run address OPEN_MAX l s1 = Some (tt, s').
Proof.
  unfold run. cbn [for_each_p]. unfold mbind, ST_bind. destruct (step address OPEN_MAX v s) as [[[] s1]|]; [|done]. eauto.
Qed.

(** C22: A register that a client sets is not watched any more: the message of
    the client, which replaces the entry, has no function for its events, and
    from then on the daemon never reports an event of this register. *)
Theorem set_disables_events OPEN_MAX n a p h val d0 v l s s' :
  hw_ok address s -> get_i2c_addr_by_name address n zero_data = Some (a, p) ->
  d0 ∈ initial_sock_msgArr address -> addr d0 = a -> eventsHandler d0 = address h ->
  v.1 = V_client -> connection (v.2 0%nat) = true -> open_fds s < OPEN_MAX ->
  received (v.2 4%nat) = Some (take message_size (set_request p val)) ->
  Forall (fun v => well_behaved v.2) (v :: l) -> run address OPEN_MAX (v :: l) s = Some (tt, s') ->
  log_of h (outs s') = log_of h (outs s).
Proof.
  intros Hs Hn Hd0 Ha0 Hh0 Hv Hc Hfd Hr Hl Hrun. apply list.Forall_cons in Hl as [Hw Hl].
  set (s0 := s <| env := v.2 |> <| asked := 1%nat |> <| open_fds := open_fds s + 1 |>).
  assert (hw_ok address s0) as Hs0 by (destruct Hs; by split).
  pose proof (set_silences n a p h val d0 s0 Hs0 Hn Hd0 Ha0 Hh0 Hw Hr) as H1.
  destruct (spec_total _ _ _ (spec_and _ _ _ _ _ H1 (clientHandler_calm address s0 Hs0 Hw))) as (st & s1 & Hst & Hsil & Hcalm).
  assert (step address OPEN_MAX v s = Some (tt, s1)) as Hstep.
  { unfold step, visit_of. rewrite Hv. unfold runComHandler, accept_socket, mbind, ST_bind, get, put, ask. simpl. rewrite Hc.
    simpl. replace (open_fds s <? OPEN_MAX) with true by (symmetry; by apply Z.ltb_lt).
    change (match clientHandler s0 with Some (_, s') => Some (tt, s') | None => None end = Some (tt, s1)). by rewrite Hst. }
  apply run_cons in Hrun as (s2 & Hs2 & Hrun). rewrite Hstep in Hs2. injection Hs2 as <-.
  pose proof (run_spec address OPEN_MAX l s1 (calm_ok _ _ _ Hcalm) Hl) as Hrs. apply (spec_elim _ _ _ _ _ _ Hrs) in Hrun as [_ Hre _].
  destruct (Hre h) as (g & Hg & Ht). rewrite (observed_silent OPEN_MAX h l s1 (calm_ok _ _ _ Hcalm) Hl Hsil) in Ht, Hg.
  destruct g; [|discriminate Hg]. simpl in Ht. pose proof (calm_track _ _ _ Hcalm h) as Ht1. unfold track in *.
  injection Ht as _ ->. by injection Ht1 as _ ->.
Qed.

(** ** The life of the daemon *)

Context (OPEN_MAX : Z).

(** C16: Nothing undefined happens: in whatever order the threads make their
    visits, and whichever dumps the bus fails to transfer, no visit accesses an
    array out of its bounds, calls a wrong pointer or looks for a register that
    is not there. The microcontroller keeps to the format (it transfers the
    lengths of its dumps, at most 1000 octets, and the dumps that arrive
    consist of its registers), and so do the clients: a read from a connection
    gives a whole message for a register of the table, which writes at most 8
    octets and has no pointer. *)
Theorem hwsys_never_faults fds e l :
  Forall (fun v => well_behaved v.2) l ->
  exists s', run address OPEN_MAX l (boot address fds e) = Some (tt, s') /\ hw_ok address s'.
Proof.
  intros Hl. destruct (spec_total _ _ _ (run_spec address OPEN_MAX l _ (boot_ok address fds e) Hl)) as ([] & s' & Hr & [Hs' _ _]).
  eauto.
Qed.

(** A run from the start: the messages of a function and what it has recorded. *)
Lemma boot_reacts h fds e l s' :
  Forall (fun v => well_behaved v.2) l -> run address OPEN_MAX l (boot address fds e) = Some (tt, s') ->
  let vs := observed address OPEN_MAX h l (boot address fds e) in
  exists gates, length gates = length vs /\
    (prevValue s' h, log_of h (outs s')) = fold_left (react h) (zip gates vs) (first_prevValue h, []).
Proof.
  intros Hl Hrun. pose proof (run_spec address OPEN_MAX l _ (boot_ok address fds e) Hl) as Hrs.
  apply (spec_elim _ _ _ _ _ _ Hrs) in Hrun as [_ Hre _]. destruct (Hre h) as (g & Hg & Ht). by exists g.
Qed.

(** The messages for the successive pairs of values. *)
Fixpoint changes (f : Z -> Z -> list string) (prev : Z) (vs : list Z) : list string :=
  match vs with
  | [] => []
  | v :: vs => f prev v ++ changes f v vs
  end.

Lemma change_fold h wide s1 s2 to1 to2 gates vs p ms :
  shape_of h = Change wide s1 s2 to1 to2 -> length gates = length vs ->
  (fold_left (react h) (zip gates vs) (p, ms)).2 =
    ms ++ changes (change_message s1 s2 to1 to2) p (map (the_value wide) vs).
Proof.
  intros Hh. revert vs p ms. induction gates as [|g gates IH]; intros [|v vs] p ms Hl; try discriminate Hl; simpl.
  - by rewrite app_nil_r.
  - unfold react at 2. cbn [fst snd]. unfold reaction. rewrite Hh. cbn [fst snd].
    rewrite IH by (injection Hl; auto). by rewrite app_assoc.
Qed.

(** C18: Of a register with two states (the tamper, the sensors, the relay, the
    button, the source of power, the external sensor, presence and signal of the
    transceivers) the daemon reports, in every order of the visits of its
    threads, exactly the changes from one state to the other between the
    successive values that its function is called with. *)
Theorem changes_are_reported h wide s1 s2 to1 to2 fds e l s' :
  shape_of h = Change wide s1 s2 to1 to2 ->
  Forall (fun v => well_behaved v.2) l -> run address OPEN_MAX l (boot address fds e) = Some (tt, s') ->
  log_of h (outs s') =
    changes (change_message s1 s2 to1 to2) (first_prevValue h)
      (map (the_value wide) (observed address OPEN_MAX h l (boot address fds e))).
Proof.
  intros Hh Hl Hrun. destruct (boot_reacts h fds e l s' Hl Hrun) as (g & Hg & Ht). apply (f_equal snd) in Ht.
  rewrite (change_fold h wide s1 s2 to1 to2) in Ht by done. done.
Qed.

(** The temperature of the external sensor is never reported, whatever it
    is: the function records a value only when it reports it, and it reports
    nothing as long as no value is recorded. *)
Theorem sht_temperature_is_never_reported fds e l s' :
  Forall (fun v => well_behaved v.2) l -> run address OPEN_MAX l (boot address fds e) = Some (tt, s') ->
  log_of H_SHT_TEMPERATURE (outs s') = [].
Proof.
  intros Hl Hrun. destruct (boot_reacts H_SHT_TEMPERATURE fds e l s' Hl Hrun) as (g & Hg & Ht).
  assert (forall cs, fold_left (react H_SHT_TEMPERATURE) cs (0xFFFF, []) = (0xFFFF, [])) as Hnone.
  { induction cs as [|[b v] cs IH]; [done|]. simpl. unfold react at 2, reaction. cbn [fst snd shape_of].
    destruct b; [|done]. unfold check_out_of_range. rewrite Z.eqb_refl. simpl. by destruct (STABLE_VALUE <? _). }
  cbn [first_prevValue] in Ht. rewrite Hnone in Ht. by injection Ht.
Qed.

(** *** Values with limits *)

Section watch.
Context (max min : Z) (over less : string) (Hmin : 0 <= min <= max) (Hmax : max <= 60000).

Lemma check_first x : 0 <= x <= 60000 -> check_out_of_range x 0xFFFF max min = I2C_ERR_CHANGE_VALUE.
Proof.
  intros Hx. unfold check_out_of_range, STABLE_VALUE. replace (0xFFFF <=? x) with false by (symmetry; apply Z.leb_gt; lia).
  rewrite u16_small by lia. by replace (10 <? 0xFFFF - x) with true by (symmetry; apply Z.ltb_lt; lia).
Qed.

Lemma check_near x p : 0 <= p <= 0xFFFF -> Z.abs (x - p) <= 10 -> check_out_of_range x p max min = I2C_ERR_OK.
Proof.
  intros Hp Hx. unfold check_out_of_range, STABLE_VALUE.
  assert ((if p <=? x then x - p else p - x) = Z.abs (x - p)) as -> by (destruct (p <=? x) eqn:H; bool_hyps; lia).
  rewrite u16_small by lia. by replace (10 <? Z.abs (x - p)) with false by (symmetry; apply Z.ltb_ge; lia).
Qed.

Lemma check_far x p :
  0 <= p < 0xFFFF -> 0 <= x <= 0xFFFF -> 10 < Z.abs (x - p) ->
  check_out_of_range x p max min =
    if max <? x then I2C_OVER_MAX else if x <? min then I2C_LESS_MIN else I2C_ERR_CHANGE_VALUE.
Proof.
  intros Hp Hx Hd. unfold check_out_of_range, STABLE_VALUE.
  assert ((if p <=? x then x - p else p - x) = Z.abs (x - p)) as -> by (destruct (p <=? x) eqn:H; bool_hyps; lia).
  rewrite u16_small by lia. replace (10 <? Z.abs (x - p)) with true by (symmetry; apply Z.ltb_lt; lia).
  by replace (p =? 0xFFFF) with false by (symmetry; apply Z.eqb_neq; lia).
Qed.

Definition watch_step (y : Z * list string) (x : Z) : Z * list string :=
  let r := watch_reaction max min (Some over) (Some less) x y.1 in (r.1, y.2 ++ r.2).

(** Values in range are recorded without a message. *)
Lemma watch_calm xs p :
  Forall (fun x => min <= x <= max) xs -> p = 0xFFFF \/ min <= p <= max ->
  exists q, fold_left watch_step xs (p, []) = (q, []) /\ (min <= q <= max \/ q = p /\ xs = []).
Proof.
  intros Hxs. revert p. induction Hxs as [|x xs Hx _ IH]; intros p Hp; [eauto|]. simpl.
  assert (exists q, watch_step (p, []) x = (q, []) /\ min <= q <= max) as (q & -> & Hq).
  { unfold watch_step, watch_reaction. cbn [fst snd]. destruct Hp as [->|Hp]; [rewrite check_first by lia; eauto|].
    destruct (decide (Z.abs (x - p) <= 10)); [rewrite check_near by lia; eauto|].
    rewrite check_far by lia. replace (max <? x) with false by (symmetry; apply Z.ltb_ge; lia).
    replace (x <? min) with false by (symmetry; apply Z.ltb_ge; lia). eauto. }
  destruct (IH q (or_intror Hq)) as (q' & -> & Hq'). exists q'. split; [done|]. left. destruct Hq' as [|[-> _]]; done.
Qed.

(** Values near the recorded one change nothing. *)
Lemma watch_near xs p ms :
  0 <= p <= 0xFFFF -> Forall (fun x => Z.abs (x - p) <= 10) xs -> fold_left watch_step xs (p, ms) = (p, ms).
Proof.
  intros Hp. induction 1 as [|x xs Hx _ IH]; [done|]. simpl. unfold watch_step at 2, watch_reaction. cbn [fst snd].
  by rewrite check_near, app_nil_r by done.
Qed.

Lemma watch_excursion calm v near m :
  calm <> [] -> Forall (fun x => min <= x <= max) calm ->
  max + 10 < v <= 0xFFFF /\ m = over \/ 0 <= v < min - 10 /\ m = less ->
  Forall (fun x => Z.abs (x - v) <= 10) near ->
  fold_left watch_step (calm ++ v :: near) (0xFFFF, []) = (v, [m]).
Proof.
  intros Hne Hc Hv Hn. rewrite fold_left_app. destruct (watch_calm calm 0xFFFF Hc (or_introl eq_refl)) as (q & -> & Hq).
  destruct Hq as [Hq|[_ ->]]; [|done]. simpl. assert (watch_step (q, []) v = (v, [m])) as ->.
  { unfold watch_step, watch_reaction. cbn [fst snd]. rewrite check_far by lia. destruct Hv as [[Hv ->]|[Hv ->]].
    - by replace (max <? v) with true by (symmetry; apply Z.ltb_lt; lia).
    - replace (max <? v) with false by (symmetry; apply Z.ltb_ge; lia).
      by replace (v <? min) with true by (symmetry; apply Z.ltb_lt; lia). }
  apply watch_near; [lia|done].
Qed.
End watch.

Lemma watch_fold h wide max min over less gates vs x :
  shape_of h = Watch wide false max min (Some over) (Some less) -> length gates = length vs ->
  fold_left (react h) (zip gates vs) x = fold_left (watch_step max min over less) (map (the_value wide) vs) x.
Proof.
  intros Hh. revert vs x. induction gates as [|g gates IH]; intros [|v vs] x Hl; try discriminate Hl; simpl; [done|].
  rewrite <- IH by (injection Hl; auto). f_equal. unfold react, reaction. by rewrite Hh.
Qed.

(** C19: A voltage that leaves its limits by more than 10 is reported once:
    after values within the limits, for which there is no message, a value that
    is more than 10 above the upper or below the lower limit is reported at once
    with its message, and following values that stay within 10 of it are not
    reported again. *)
Theorem excursion_is_reported h wide max min over less m calm v near fds e l s' :
  shape_of h = Watch wide false max min (Some over) (Some less) ->
  Forall (fun v => well_behaved v.2) l -> run address OPEN_MAX l (boot address fds e) = Some (tt, s') ->
  map (the_value wide) (observed address OPEN_MAX h l (boot address fds e)) = calm ++ v :: near ->
  calm <> [] -> Forall (fun x => min <= x <= max) calm ->
  max + 10 < v <= 0xFFFF /\ m = over \/ 0 <= v < min - 10 /\ m = less ->
  Forall (fun x => Z.abs (x - v) <= 10) near ->
  log_of h (outs s') = [m].
Proof.
  intros Hh Hl Hrun Hobs Hne Hc Hv Hn. destruct (boot_reacts h fds e l s' Hl Hrun) as (g & Hg & Ht).
  rewrite (watch_fold h wide max min over less) in Ht by done. rewrite Hobs in Ht.
  assert (first_prevValue h = 0xFFFF /\ 0 <= min <= max /\ max <= 60000) as (Hp & Hmin & Hmax).
  { destruct h; simpl in Hh; try discriminate Hh; injection Hh as <- <- <- _ _; split_and!; done || lia. }
  rewrite Hp, (watch_excursion max min over less Hmin Hmax calm v near m) in Ht by done. by injection Ht.
Qed.
End client.

(** ** A run *)

Definition demo_address (h : handler) : Z := 4194304 + 16 * Z.of_nat (default 0%nat (fst <$> list_find (eq h) handlers)).
#[export] Instance demo_linked : linked demo_address.
Proof.
  assert (forall h, find (fun h' => demo_address h' =? demo_address h) handlers = Some h) as Hf
    by (intros h; destruct h; vm_compute; reflexivity).
  split; [|intros h; by destruct h]. intros h h' H. pose proof (Hf h) as H1. rewrite H, (Hf h') in H1. congruence.
Qed.

(** The microcontroller has one dump; a client sends [msg]. *)
Definition demo_env (t : Z) (us : list update) (msg : list Z) : env_t :=
  let n := Z.of_nat (length (dump_of us)) in
  mk_env t
    (fun reg len => if (reg =? REG_HI_PRIO_LEN) || (reg =? REG_LOW_PRIO_LEN) then Some [n mod 256; n / 256]
                    else if len =? n then Some (dump_of us) else None)
    (replicate 80 1) true (Some msg).

(** The tamper, a voltage, the presence and the temperature of the sensor, and
    one register two times. *)
Definition demo_updates (tamper volt temperature : Z) : list update :=
  [(4, [volt mod 256; volt / 256]); (10, [1 - tamper]); (10, [tamper]); (50, [1]); (52, [temperature mod 256; temperature / 256])].

Definition demo_param (n : string) : i2c_data_t :=
  default zero_data (snd <$> get_i2c_addr_by_name demo_address (str n) zero_data).
Definition demo_get : list Z := take message_size (get_request (demo_param "RPS_TEMPER")).
Definition demo_set : list Z := take message_size (set_request (demo_param "tamper") 1).

Lemma demo_good t tamper volt temperature msg :
  0 <= tamper <= 1 -> 0 <= volt < 65536 -> 0 <= temperature < 65536 -> good_message msg ->
  good_env (demo_env t (demo_updates tamper volt temperature) msg).
Proof.
  intros Ht Hv Hw Hm. split.
  - intros reg Hreg. exists [17; 0]. split; [|by vm_compute].
    assert (reg = REG_HI_PRIO_LEN \/ reg = REG_LOW_PRIO_LEN) as [->| ->] by set_solver; reflexivity.
  - intros reg len l Hreg _ Hl. exists (demo_updates tamper volt temperature). split.
    + simpl in Hl. destruct (_ || _) eqn:Hr.
      { exfalso. bool_hyps. unfold REG_HI_PRIO_LEN, REG_LOW_PRIO_LEN, REG_HI_PRIO_DUMP, REG_LOW_PRIO_DUMP in *. set_solver by lia. }
      destruct (len =? _) eqn:Hlen; [|done]. apply Z.eqb_eq in Hlen as ->. injection Hl as <-.
      unfold as_octets. simpl. by rewrite !(u8_small (_ mod _)), !(u8_small (_ / _)), !(u8_small tamper), !(u8_small (1 - _)) by
        (try (pose proof (Z.mod_pos_bound volt 256); pose proof (Z.mod_pos_bound temperature 256)); nia || (split; [apply Z.div_pos|apply Z.div_lt_upper_bound]; lia)).
    + unfold demo_updates, good_update. repeat constructor; cbn [fst]; by apply (bool_decide_unpack _).
  - intros r <-. by exists msg.
Qed.

Lemma demo_messages : good_message demo_get /\ good_message demo_set.
Proof.
  split; (split; [vm_compute; reflexivity|split; [apply (bool_decide_unpack _); vm_compute; exact I|]]);
    vm_compute; intros; done || (split; congruence).
Qed.

(** A thread at a time, with the state of the microcontroller. *)
Definition demo_visit (v : visit) (t tamper volt temperature : Z) (msg : list Z) : visit * (nat -> env_t) :=
  (v, fun _ => demo_env t (demo_updates tamper volt temperature) msg).

Definition demo_visits : list (visit * (nat -> env_t)) :=
  [demo_visit V_open 0 1 3300 200 demo_get; demo_visit V_start 0 1 3300 200 demo_get;
   demo_visit V_main 3 1 3300 200 demo_get; demo_visit V_client 4 1 3300 200 demo_get;
   demo_visit V_events 5 1 3300 200 demo_get; demo_visit V_main 7 0 3600 700 demo_get;
   demo_visit V_events 8 0 3600 700 demo_get].

Lemma demo_visits_good : Forall (fun v => well_behaved v.2) demo_visits.
Proof.
  unfold demo_visits. repeat (apply list.Forall_cons; split; [intros k; apply demo_good; lia || apply demo_messages|]).
  by apply list.Forall_nil.
Qed.

Lemma demo_runs l s : hw_ok demo_address s -> Forall (fun v => well_behaved v.2) l -> exists s', run demo_address 16 l s = Some (tt, s').
Proof. intros Hs Hl. destruct (spec_total _ _ _ (run_spec demo_address 16 l _ Hs Hl)) as ([] & s' & Hr & _). eauto. Qed.

Definition demo_boot : hwsys := boot demo_address 3 (fun _ => demo_env 0 (demo_updates 1 3300 200) demo_get).
Lemma demo_boot_ok : hw_ok demo_address demo_boot.
Proof. apply boot_ok. apply demo_linked. Qed.


Lemma set_disables_events_witness :
  exists s', run demo_address 16 (demo_visit V_client 0 1 3300 200 demo_set :: demo_visits) demo_boot = Some (tt, s') /\
    log_of H_TAMPER (outs s') = [].
Proof.
  assert (Forall (fun v => well_behaved v.2) (demo_visit V_client 0 1 3300 200 demo_set :: demo_visits)) as Hl.
  { constructor; [|apply demo_visits_good]. intros k. apply demo_good; lia || apply demo_messages. }
  destruct (demo_runs _ _ demo_boot_ok Hl) as (s' & Hrun). exists s'. split; [exact Hrun|].
  apply (set_disables_events demo_address 16 (str "tamper") 10 (demo_param "tamper") H_TAMPER 1
    (default zero_data (registers demo_address !! 7%nat)) (demo_visit V_client 0 1 3300 200 demo_set)
    demo_visits demo_boot s' demo_boot_ok);
    [| | | | | | | |exact Hl|exact Hrun].
  - vm_compute. reflexivity.
  - apply (list_elem_of_lookup_2 _ 7). reflexivity.
  - vm_compute. reflexivity.
  - vm_compute. reflexivity.
  - reflexivity.
  - reflexivity.
  - reflexivity.
  - reflexivity.
Defined.

Lemma hwsys_never_faults_witness : exists s', run demo_address 16 demo_visits demo_boot = Some (tt, s') /\ hw_ok demo_address s'.
Proof. apply (hwsys_never_faults demo_address 16 3 _ demo_visits demo_visits_good). Defined.

Lemma changes_are_reported_witness :
  exists s', run demo_address 16 demo_visits demo_boot = Some (tt, s') /\ log_of H_TAMPER (outs s') = ["TAMPER changed to Open"%string].
Proof.
  destruct (demo_runs _ _ demo_boot_ok demo_visits_good) as (s' & Hrun). exists s'. split; [exact Hrun|].
  rewrite (changes_are_reported demo_address 16 H_TAMPER false 1 0 _ _ 3 _ demo_visits s' eq_refl demo_visits_good Hrun).
  vm_compute. reflexivity.
Defined.

Lemma sht_temperature_is_never_reported_witness :
  exists s', run demo_address 16 demo_visits demo_boot = Some (tt, s') /\ log_of H_SHT_TEMPERATURE (outs s') = [].
Proof.
  destruct (demo_runs _ _ demo_boot_ok demo_visits_good) as (s' & Hrun). exists s'. split; [exact Hrun|].
  exact (sht_temperature_is_never_reported demo_address 16 3 _ demo_visits s' demo_visits_good Hrun).
Defined.

Lemma excursion_is_reported_witness :
  exists s', run demo_address 16 demo_visits demo_boot = Some (tt, s') /\ log_of H_ADC_CH1 (outs s') = ["ADC CH1 out of range: %d"%string].
Proof.
  destruct (demo_runs _ _ demo_boot_ok demo_visits_good) as (s' & Hrun). exists s'. split; [exact Hrun|].
  apply (excursion_is_reported demo_address 16 H_ADC_CH1 true 3500 3000 _ _ _ [3300] 3600 [] 3 _ demo_visits s' eq_refl
    demo_visits_good Hrun).
  - vm_compute. reflexivity.
  - discriminate.
  - constructor; [lia|constructor].
  - left. split; [lia|reflexivity].
  - constructor.
Defined.
