(* ===== verification/HwsysLimits.v ===== *)
(** * tf_hwsysd: dumps, the reset of the microcontroller, descriptors

    What a dump leaves in the table, why the microcontroller is never reset
    for failed transfers, how many clients are answered, and when a register
    that a client sets is written to the bus. *)

From stdpp Require Import functions sets.
From S2P Require Import Prelude Bytes CLib CLibOk Effect Hwsys HwsysEvents HwsysDaemon HwsysOk HwsysRun HwsysTheorems.

Section dumps.
Context (address : handler -> Z) `{!linked address}.

(** ** Dumps *)

Definition register_value (a : Z) (t : list i2c_data_t) : option (list Z) :=
  (fun x => value x.2) <$> list_find (fun d => addr d = a) t.

(** The value of register [a] after the updates of a dump: each one for it
    replaces as many octets as it has, unless they are 32. *)
Definition replay (a : Z) (us : list update) (v : list Z) : list Z :=
  fold_left (fun v u => if bool_decide (u.1 = a) && (length u.2 <? sizeof_value)%nat then u.2 ++ drop (length u.2) v else v) us v.

Lemma find_insert a t id d d' :
  t !! id = Some d -> addr d' = addr d ->
  list_find (fun d => addr d = a) (<[id := d']> t) =
    (fun x => (x.1, if decide (x.1 = id) then d' else x.2)) <$> list_find (fun d => addr d = a) t.
Proof.
  intros Hd Ha. revert id Hd. induction t as [|x t IH]; intros [|id] Hd; try done.
  - injection Hd as ->. simpl. rewrite Ha. destruct (decide (addr d = a)); [done|].
    destruct (list_find _ t) as [[i y]|]; done.
  - simpl in Hd. simpl. rewrite IH by done. destruct (decide (addr x = a)); [done|].
    destruct (list_find _ t) as [[i y]|]; [|done]. simpl. do 2 f_equal.
    destruct (decide (i = id)), (decide (S i = S id)); done || lia.
Qed.

Lemma value_set bs d : data_ok d -> (length bs <= sizeof_value)%nat -> value (set_value bs d) = bs ++ drop (length bs) (value d).
Proof.
  intros [Hd _] Hl. unfold sizeof_i2c_data, sizeof_value in *. rewrite !value_field. unfold field, set_value, store_at.
  rewrite drop_app_length' by (rewrite length_take; lia). rewrite take_app, take_ge by lia. f_equal.
  rewrite (value_field d). unfold field. by rewrite skipn_firstn_comm, drop_drop.
Qed.

Lemma store_update_value a t t0 u :
  Forall2 entry_kept t t0 ->
  register_value a (store_update t u) = replay a [u] <$> register_value a t.
Proof.
  intros Ht. unfold register_value, store_update, replay. simpl.
  destruct (list_find (fun d => addr d = u.1) t) as [[id d]|] eqn:Hf.
  - pose proof Hf as Hf'. apply list_find_Some in Hf' as (Hd & Hda & _).
    pose proof (Forall_lookup_1 _ _ _ _ (kept_data _ _ Ht) Hd) as Hok.
    destruct (_ <? _)%nat eqn:Hl.
    + rewrite andb_true_r. apply Nat.ltb_lt in Hl. assert (addr (set_value u.2 d) = addr d) as Hsa.
      { destruct Hok as [Hok _]. unfold sizeof_i2c_data, sizeof_value in *. fields. by field_steps. }
      rewrite (find_insert a t id d) by done. destruct (list_find (fun d => addr d = a) t) as [[i y]|] eqn:Hg; [|done].
      simpl. f_equal. case_bool_decide as Hua.
      * subst a. rewrite Hf in Hg. injection Hg as <- <-. rewrite decide_True by done. apply value_set; [done|lia].
      * rewrite decide_False; [done|]. intros ->. apply list_find_Some in Hg as (Hy & Hya & _). congruence.
    + rewrite andb_false_r. by destruct (list_find (fun d => addr d = a) t).
  - destruct (list_find (fun d => addr d = a) t) as [[i y]|] eqn:Hg; [|done]. simpl. f_equal.
    rewrite bool_decide_eq_false_2; [done|]. intros Hua. rewrite Hua, Hg in Hf. done.
Qed.

Lemma store_updates_value a us t t0 :
  Forall2 entry_kept t t0 -> Forall (fun u => bytes_ok u.2) us ->
  register_value a (fold_left store_update us t) = replay a us <$> register_value a t.
Proof.
  intros Ht Hus. revert t Ht. induction Hus as [|u us Hu _ IH]; intros t Ht; simpl.
  - by destruct (register_value a t).
  - rewrite IH by (by apply store_update_kept). rewrite (store_update_value a t t0) by done.
    by destruct (register_value a t).
Qed.

(** C17: A dump is read back: of a sequence of registers with their octets, in
    the format of the microcontroller, every register gets the octets that were
    sent for it last, in the order of the dump, and no other register changes;
    octets that fill the 32 octets of a value are dropped. *)
Theorem dump_is_stored us rest s :
  hw_ok address s -> i2c_raw_data s = dump_of us ++ rest -> Forall good_update us ->
  exists s', i2c_parse_tlv (Z.of_nat (length (dump_of us))) s = Some (false, s') /\
    (forall a, register_value a (sock_msgArr s') = replay a us <$> register_value a (sock_msgArr s)) /\
    map eventsHandler (sock_msgArr s') = map eventsHandler (sock_msgArr s) /\ outs s' = outs s.
Proof.
  intros Hs Hraw Hus. pose proof (length_dump us) as Hld. destruct (ok_raw address s Hs) as [Hlen Hb].
  rewrite Hraw in Hlen, Hb. rewrite length_app in Hlen. unfold sizeof_raw_data in Hlen.
  apply Forall_app in Hb as [Hb _]. apply dump_bytes in Hb.
  destruct (spec_total _ _ _ (parse_dump address us 1001 [] rest s Hs Hraw Hus ltac:(lia))) as (b & s' & Hrun & -> & ->).
  eexists. split; [exact Hrun|]. upd_simpl. destruct (store_updates_kept us _ _ (ok_table address s Hs) Hb) as [_ Hp].
  split; [|done]. intros a. by apply (store_updates_value a us _ _ (ok_table address s Hs)).
Qed.
End dumps.

(** The dump in the octets that the bus has transferred. *)
Definition demo_dumped : hwsys :=
  demo_boot <| i2c_raw_data := dump_of (demo_updates 0 3300 200) ++ replicate 983 0 |>.

Lemma dump_is_stored_witness :
  exists s', i2c_parse_tlv 17 demo_dumped = Some (false, s') /\
    register_value 10 (sock_msgArr s') = Some (replicate 32 0) /\
    register_value 4 (sock_msgArr s') = Some (228 :: 12 :: replicate 30 0) /\
    register_value 27 (sock_msgArr s') = Some (123 :: replicate 31 0).
Proof.
  destruct (dump_is_stored demo_address (demo_updates 0 3300 200) (replicate 983 0) demo_dumped) as (s' & Hrun & Hv & _).
  - destruct demo_boot_ok as [H1 _ H3 H4 H5]. split; [exact H1| |exact H3|exact H4|exact H5].
    split; [reflexivity|]. by apply (bool_decide_unpack _).
  - reflexivity.
  - unfold demo_updates, good_update. repeat constructor; cbn [fst]; by apply (bool_decide_unpack _).
  - exists s'. split; [exact Hrun|]. rewrite !Hv. split_and!; vm_compute; reflexivity.
Defined.

(** ** Registers that are set *)

(** The octets of the message of "set" from the value on. *)
Lemma set_request_value p val :
  data_ok p -> value p = replicate 32 0 ->
  take 12 (drop 48 (map u8 (take message_size (set_request p val)))) = u8 val :: replicate 11 0.
Proof.
  intros Hp Hv. destruct (set_request_fields p val Hp) as (Hq & _). destruct (first_octets _ Hq) as [_ Hf].
  change (take 12 (drop 48 ?l)) with (field 48 12 l). rewrite Hf by (unfold message_size; lia).
  replace (field 48 12 (set_request p val)) with (take 12 (value (set_request p val))).
  2:{ rewrite value_field. change (take 12 (field 48 32 ?d)) with (field 0 12 (field 48 32 d)). by rewrite field_field by lia. }
  pose proof (data_ok_opcode I2C_OPCODE_WRITE p Hp) as H1.
  change (set_request p val) with (set_value [u8 val; 0; 0; 0] (set_opcode I2C_OPCODE_WRITE p)).
  rewrite value_set by (done || (unfold sizeof_value; simpl; lia)).
  replace (value (set_opcode I2C_OPCODE_WRITE p)) with (value p); [by rewrite Hv|].
  destruct Hp as [Hp _]. unfold sizeof_i2c_data in Hp. unfold set_opcode.
  rewrite (value_field p), (value_field (store_at _ _ _)).
  by rewrite field_store_after by (rewrite ?length_be_bytes; cbn [length]; lia).
Qed.

(** The microcontroller does not answer. *)
Definition dead_env (t : Z) : env_t := mk_env t (fun _ _ => None) [] true (Some demo_get).

Definition demo_client : hwsys :=
  demo_boot <| env := fun _ => demo_env 0 (demo_updates 1 3300 200) (take message_size (set_request (demo_param "relay") 1)) |>
    <| hi_prio_timer := mk_timer 0 3 |> <| low_prio_timer := mk_timer 0 30 |>.

(** ** What operations do not touch

    An [Insensitive] view of the state does not see the table, the statics of
    the handlers and the log, so that whatever works on them only [keeps] it. *)

Class Insensitive {V} (view : hwsys -> V) : Prop := {
  ins_table s t : view (s <| sock_msgArr := t |>) = view s;
  ins_prev s p : view (s <| prevValue := p |>) = view s;
  ins_log s m : view (s <| outs := outs s ++ [Log m] |>) = view s;
  ins_raw s r : view (s <| i2c_raw_data := r |>) = view s;
  ins_events_timer s t : view (s <| events_timer := t |>) = view s }.

(** It may see the register that a client sets. *)
Class Unwritten {V} (view : hwsys -> V) : Prop := {
  ins_write_data s d : view (s <| write_data := d |>) = view s;
  ins_write_flag s f : view (s <| write_flag := f |>) = view s }.

(** It may see the number of questions. *)
Class Unasked {V} (view : hwsys -> V) : Prop := ins_asked s k : view (s <| asked := k |>) = view s.

Definition keeps {V} (view : hwsys -> V) {A} (m : HW A) : Prop := forall s, spec false m (fun _ s' => view s' = view s) s.

Create HintDb keeps.

Section keeps.
Context {V} (view : hwsys -> V) `{!Insensitive view} `{!Unasked view}.

Lemma keeps_return {A} (a : A) : keeps view (mret a).
Proof. intros s. by apply spec_ret. Qed.
Lemma keeps_then {A B} (m : HW A) (k : A -> HW B) : keeps view m -> (forall a, keeps view (k a)) -> keeps view (m ≫= k).
Proof.
  intros Hm Hk s. apply spec_bind. eapply spec_mono; [apply Hm|]. intros a s1 H1.
  eapply spec_mono; [apply Hk|]. intros b s2 H2. congruence.
Qed.
Lemma keeps_get : keeps view get.
Proof. intros s. by apply spec_get. Qed.
Lemma keeps_ask {A} (q : env_t -> A) : keeps view (ask q).
Proof. intros s. apply spec_ask. apply ins_asked. Qed.
Lemma keeps_put f : (forall s, view (f s) = view s) -> keeps view (put f).
Proof. intros Hf s. by apply spec_put. Qed.
Lemma keeps_overrun {A} : keeps view (@overrun hwsys A).
Proof. intros s. by apply spec_overrun. Qed.
Lemma keeps_deref {A} (o : option A) : keeps view (deref_opt o).
Proof. intros s. by apply spec_deref. Qed.
Lemma keeps_for {A} (l : list A) f : (forall x, keeps view (f x)) -> keeps view (for_each_p l f).
Proof. intros Hf. induction l as [|x l IH]; simpl; [apply keeps_return|]. apply keeps_then; [apply Hf|by intros []]. Qed.
Lemma keeps_log m : keeps view (emit (Log m)).
Proof. apply keeps_put. intros s. apply ins_log. Qed.
End keeps.

#[export] Hint Resolve keeps_return keeps_get keeps_ask keeps_overrun keeps_deref keeps_log : keeps.

Ltac keep_put := apply keeps_put; intros ?;
  first [apply ins_table | apply ins_prev | apply ins_raw | apply ins_events_timer | apply ins_write_data | apply ins_write_flag | reflexivity].
Ltac keep_step :=
  lazymatch goal with
  | |- keeps _ (_ ≫= _) => apply keeps_then; [|intros ?]
  | |- keeps _ (put _) => keep_put
  | |- keeps _ (if ?b then _ else _) => destruct b
  | |- keeps _ (from_option _ _ ?o) => destruct o; cbn [from_option]
  | |- keeps _ (let '(_, _) := ?x in _) => destruct x
  | |- keeps _ (match ?x with _ => _ end) => destruct x
  | |- keeps _ _ => by auto with keeps typeclass_instances
  end; cbv beta zeta.
Ltac keep := cbv beta zeta; repeat keep_step.

Section handlers.
Context {V} (view : hwsys -> V) `{!Insensitive view} `{!Unasked view}.

Lemma keeps_get_id a : keeps view (get_id_by_addr a).
Proof. unfold get_id_by_addr. keep. Qed.
Lemma keeps_the_entry id : keeps view (the_entry id).
Proof. unfold the_entry. keep. Qed.
#[local] Hint Resolve keeps_get_id keeps_the_entry : keeps.
Lemma keeps_mod_entry id f : keeps view (mod_entry id f).
Proof. unfold mod_entry. keep. Qed.
#[local] Hint Resolve keeps_mod_entry : keeps.
Lemma keeps_getData dst a len : keeps view (i2c_getData dst a len).
Proof. unfold i2c_getData. keep. Qed.
Lemma keeps_setData `{!Unwritten view} src a len : keeps view (i2c_setData src a len).
Proof. unfold i2c_setData. keep. Qed.
Lemma keeps_uninitialised n : keeps view (uninitialised n).
Proof. unfold uninitialised. keep. Qed.
#[local] Hint Resolve keeps_getData keeps_uninitialised : keeps.
Lemma keeps_data_of reg len : keeps view (data_of reg len).
Proof. unfold data_of. keep. Qed.
Lemma keeps_the_prev h : keeps view (the_prev h).
Proof. unfold the_prev. keep. Qed.
Lemma keeps_record h v : keeps view (record_prev h v).
Proof. unfold record_prev. keep. Qed.
Lemma keeps_send_log m : keeps view (send_log m).
Proof. unfold send_log. keep. Qed.
#[local] Hint Resolve keeps_data_of keeps_the_prev keeps_record keeps_send_log : keeps.
Lemma keeps_report h v m : keeps view (report h v m).
Proof. unfold report. keep. Qed.
#[local] Hint Resolve keeps_report : keeps.
Lemma keeps_watch_range h v max min over less : keeps view (watch_range h v max min over less).
Proof. unfold watch_range. keep. Qed.
Lemma keeps_watch_state h v n s1 s2 : keeps view (watch_state h v n s1 s2).
Proof. unfold watch_state. keep. Qed.
Lemma keeps_log_if e e' m : keeps view (log_if e e' m).
Proof. unfold log_if. keep. Qed.
#[local] Hint Resolve keeps_watch_range keeps_watch_state keeps_log_if : keeps.

Lemma keeps_call_handler h d : keeps view (call_handler h d).
Proof. destruct h; simpl; match goal with |- keeps _ (?f _) => unfold f end; unfold watch_sfp; keep. Qed.
#[local] Hint Resolve keeps_call_handler : keeps.

Lemma keeps_events address : keeps view (i2c_events_handler address).
Proof. apply keeps_for. intros i. unfold event_of, call. keep. Qed.
Lemma keeps_timer_set i : keeps view (timer_set i).
Proof. unfold timer_set. keep. Qed.
Lemma keeps_timer_expired t : keeps view (timer_expired t).
Proof. unfold timer_expired. keep. Qed.
#[local] Hint Resolve keeps_events keeps_timer_set keeps_timer_expired : keeps.
Lemma keeps_events_round address : keeps view (eventsHandler_round address).
Proof. unfold eventsHandler_round. keep. Qed.
Lemma keeps_events_start : keeps view events_start.
Proof. unfold events_start. keep. Qed.

Lemma keeps_parse fuel len offset : keeps view (parse_tlv_from fuel len offset).
Proof.
  revert offset. induction fuel as [|fuel IH]; intros offset; simpl; [auto with keeps|].
  unfold raw_octet, raw_octets. keep; apply IH.
Qed.
Lemma keeps_read_buffer reg len : keeps view (read_buffer reg len).
Proof. unfold read_buffer. keep. Qed.
#[local] Hint Resolve keeps_parse keeps_read_buffer : keeps.
Lemma keeps_read_dump reg len : keeps view (read_dump reg len).
Proof. unfold read_dump, i2c_parse_tlv. keep. Qed.
End handlers.

#[export] Hint Resolve keeps_mod_entry keeps_getData keeps_setData keeps_uninitialised keeps_events_round keeps_events_start
  keeps_timer_set keeps_timer_expired keeps_parse keeps_read_buffer keeps_read_dump : keeps.

(** ** The reset of the microcontroller *)

Definition outputs_of (p : output -> bool) (os : list output) : nat := length (List.filter p os).
Lemma outputs_app p os os' : outputs_of p (os ++ os') = (outputs_of p os + outputs_of p os')%nat.
Proof. unfold outputs_of. by rewrite List.filter_app, length_app. Qed.

Definition is_reset (o : output) : bool := match o with Iomcu_reset => true | _ => false end.
Definition resets (s : hwsys) : nat := outputs_of is_reset (outs s).

Definition main_view (s : hwsys) : Z * timer * timer * nat :=
  (errorCount s, hi_prio_timer s, low_prio_timer s, resets s).
#[export] Instance main_insensitive : Insensitive main_view.
Proof.
  split; try done. intros s m. unfold main_view, resets. upd_simpl. by rewrite outputs_app, Nat.add_0_r.
Qed.
#[export] Instance main_unwritten : Unwritten main_view.
Proof. done. Qed.
#[export] Instance main_unasked : Unasked main_view.
Proof. done. Qed.

(** The stream of answers and the number of questions. *)
Definition ask_view (s : hwsys) : (nat -> env_t) * nat := (env s, asked s).
#[export] Instance ask_insensitive : Insensitive ask_view.
Proof. by split. Qed.

(** Clients do not matter. *)
Lemma client_keeps_main OPEN_MAX : keeps main_view (runComHandler OPEN_MAX).
Proof.
  assert (forall msg n, keeps main_view (send_msg msg n)) as Hsend.
  { intros msg n. apply keeps_put. intros s. unfold main_view, resets. upd_simpl. by rewrite outputs_app, Nat.add_0_r. }
  assert (forall m, keeps main_view (receive_msg m)) as Hrec by (intros m; unfold receive_msg; keep).
  unfold runComHandler, accept_socket, clientHandler. keep; apply Hrec || apply Hsend.
Qed.

(** The timer was set in the [n] seconds before [T]. *)
Definition set_within (t : timer) (interval T n : Z) : Prop :=
  t_interval t = interval /\ exists x, t_start t = u32 x /\ T - n <= x <= T.

Lemma not_expired t interval T n now :
  set_within t interval T n -> T <= now -> now - T + n < interval -> interval <= 4294967296 ->
  (t_interval t <=? u32 (now - t_start t)) = false.
Proof.
  intros [-> (x & -> & Hx)] HT Hn Hi. apply Z.leb_gt.
  replace (u32 (now - u32 x)) with (now - x); [lia|]. unfold u32.
  rewrite Zminus_mod_idemp_r. symmetry. apply Z.mod_small. lia.
Qed.

(** A round of the loop: transfers fail after a timer that has expired, which
    is then set at the time of the [k]-th question. *)
Inductive round_result (s : hwsys) : bool -> hwsys -> Prop :=
  | R_hi failed s' k :
      (k <= 3)%nat -> (t_interval (hi_prio_timer s) <=? u32 (time (env s (asked s)) - t_start (hi_prio_timer s))) = true ->
      main_view s' = (errorCount s, mk_timer (u32 (time (env s (asked s + k)))) 3, low_prio_timer s, resets s) ->
      round_result s failed s'
  | R_low failed s' k :
      (k <= 3)%nat ->
      (t_interval (hi_prio_timer s) <=? u32 (time (env s (asked s)) - t_start (hi_prio_timer s))) = false ->
      (t_interval (low_prio_timer s) <=? u32 (time (env s (S (asked s))) - t_start (low_prio_timer s))) = true ->
      main_view s' = (errorCount s, hi_prio_timer s, mk_timer (u32 (time (env s (asked s + k)))) 30, resets s) ->
      round_result s failed s'
  | R_none s' :
      main_view s' = main_view s -> round_result s false s'.

(** A dump is one question. *)
Lemma read_dump_asks reg len s :
  spec false (read_dump reg len) (fun _ s' => main_view s' = main_view s /\ env s' = env s /\ asked s' = S (asked s)) s.
Proof.
  apply (spec_mono _ _ (fun _ s' => main_view s' = main_view s /\ ask_view s' = (env s, S (asked s)))).
  2:{ intros b s' [Hm Ha]. split; [done|]. by injection Ha as -> ->. }
  apply spec_and; [by apply (keeps_read_dump main_view)|]. unfold read_dump, read_buffer.
  apply spec_bind, spec_bind, spec_ask.
  set (s1 := s <| asked := S (asked s) |>). change (env s, S (asked s)) with (ask_view s1).
  assert (forall b, keeps ask_view (if (b : bool) then mret true else i2c_parse_tlv len)) as Hk.
  { intros b. unfold i2c_parse_tlv. keep. }
  destruct (bus _ reg len) as [l|]; [|apply spec_ret; exact (Hk true s1)].
  apply (spec_mono _ _ (fun _ s' => ask_view s' = ask_view s1)); [|intros b s' Hb; rewrite <- Hb; exact (Hk b s')].
  assert (keeps ask_view ((if (sizeof_raw_data <? Z.to_nat len)%nat then overrun else mret tt) ;;
    put (fun s => s <| i2c_raw_data := memcpy (i2c_raw_data s) (map u8 (resize (Z.to_nat len) 255 l)) (Z.to_nat len) |>) ;;
    s ← get; mret ((octet_at 0 (i2c_raw_data s) =? 170) && (octet_at 1 (i2c_raw_data s) =? 170)))) as Hk' by keep.
  apply Hk'.
Qed.

Lemma dump_and_timer reg len interval (f : timer -> hwsys -> hwsys) s (Q : bool -> hwsys -> Prop) :
  (forall failed s1, main_view s1 = main_view s -> outs s1 = outs s1 ->
     let t := mk_timer (u32 (time (env s (S (asked s))))) interval in
     forall k, Q failed (f t (s1 <| asked := k |>))) ->
  spec false (failed ← read_dump reg len; t ← timer_set interval; put (f t) ;; mret failed) Q s.
Proof.
  intros HQ. apply spec_bind. eapply spec_mono; [apply read_dump_asks|]. intros failed s1 (Hm & He & Ha).
  apply spec_bind, spec_bind, spec_ask, spec_ret, spec_bind, spec_put, spec_ret. rewrite He, Ha. by apply HQ.
Qed.

Lemma read_i2c_round s : spec false read_i2c (round_result s) s.
Proof.
  unfold read_i2c. apply spec_bind, spec_get, spec_bind, spec_bind, spec_ask, spec_ret.
  destruct (_ <=? _) eqn:Hhi.
  - apply dump_and_timer. intros failed s1 Hm _ t k. eapply (R_hi s _ _ 2); [lia|done|].
    unfold main_view in *. upd_simpl in Hm. injection Hm as H1 H2 H3 H4. unfold resets in *. upd_simpl.
    rewrite H1, H3, H4. unfold t. upd_simpl. by replace (S (S (asked s))) with (asked s + 2)%nat by lia.
  - apply spec_bind, spec_bind, spec_ask, spec_ret. upd_simpl. destruct (t_interval (low_prio_timer s) <=? _) eqn:Hlow.
    + apply dump_and_timer. intros failed s1 Hm _ t k. eapply (R_low s _ _ 3); [lia|done|done|].
      unfold main_view in *. upd_simpl in Hm. injection Hm as H1 H2 H3 H4. unfold resets in *. upd_simpl.
      rewrite H1, H2, H4. unfold t. upd_simpl. by replace (S (S (S (asked s)))) with (asked s + 3)%nat by lia.
    + set (s1 := _ <| asked := _ |>). apply spec_bind. apply (spec_mono _ _ (fun _ s' => main_view s' = main_view s1)).
      * assert (keeps main_view (if write_flag s then
          write_buffer (addr (write_data s)) (lenData (write_data s)) (value (write_data s)) ;;
          put (fun s => s <| write_flag := false |>) else mret tt)) as Hk; [|apply Hk].
        assert (forall a n b, keeps main_view (write_buffer a n b)) as Hw.
        { intros a n b. unfold write_buffer. destruct (_ <? _); [auto with keeps|]. apply keeps_put. intros s0.
          unfold main_view, resets. upd_simpl. by rewrite outputs_app, Nat.add_0_r. }
        destruct (write_flag s); [apply keeps_then; [apply Hw|intros _; keep]|auto with keeps].
      * intros _ s2 Hm. apply spec_ret. apply R_none. exact Hm.
Qed.

(** The first question of a visit, and the times of the others. *)
Definition begins (e : nat -> env_t) : Z := time (e 0%nat).

(** The rounds of the loop of the bus follow each other within two seconds, and
    the clock does not go back. *)
Fixpoint paced (es : list (nat -> env_t)) : Prop :=
  match es with
  | e :: ((e' :: _) as es') =>
      (forall k, (k <= 3)%nat -> begins e <= time (e k) <= begins e') /\ begins e' <= begins e + 2 /\ paced es'
  | _ => True
  end.

(** What is known when a round begins at [T]: after [c] failures the timers
    have been set lately. *)
Record fails_late (T : Z) (s : hwsys) : Prop := mk_fails_late {
  fl_count : 0 <= errorCount s <= 3;
  fl_one : 1 <= errorCount s -> set_within (hi_prio_timer s) 3 T 2 \/ set_within (low_prio_timer s) 30 T 2;
  fl_two : 2 <= errorCount s -> set_within (low_prio_timer s) 30 T (2 * errorCount s);
  fl_three : 3 <= errorCount s -> set_within (hi_prio_timer s) 3 T 2 }.

Lemma set_within_later t i T n T' n' : set_within t i T n -> T <= T' -> T' - n' <= T - n -> set_within t i T' n'.
Proof. intros [Hi (x & Hx & Hr)] HT Hn. split; [done|]. exists x. split; [done|lia]. Qed.

(** [round_result] with the counter of failures. *)
Lemma fails_round T T' s failed s1 :
  fails_late T s -> time (env s (asked s)) = T ->
  (forall k, (k <= 3)%nat -> T <= time (env s (asked s + k)) <= T') -> T' <= T + 2 ->
  round_result s failed s1 ->
  fails_late T' (s1 <| errorCount := if (failed : bool) then u8 (errorCount s1 + 1) else 0 |>).
Proof.
  intros [H0 H1 H2 H3] HT Hk HT' Hr.
  assert (forall k, (k <= 3)%nat -> forall t i, t = mk_timer (u32 (time (env s (asked s + k)))) i -> set_within t i T' 2) as Hnew.
  { intros k Hk3 t i ->. split; [done|]. eexists. split; [reflexivity|]. specialize (Hk k Hk3). lia. }
  assert (forall s2, errorCount s2 = 0 -> fails_late T' s2) as Hzero by (intros s2 H; split; lia).
  pose proof (Hk 1%nat ltac:(lia)) as Hk1. replace (asked s + 1)%nat with (S (asked s)) in Hk1 by lia.
  destruct failed; [|by apply Hzero].
  inversion Hr as [failed' s' k Hk3 Hhi Hv|failed' s' k Hk3 Hhi Hlow Hv|]; subst failed' s'; unfold main_view in Hv;
    injection Hv as E1 E2 E3 _; rewrite HT in Hhi.
  - (* the dump of high priority *)
    assert (errorCount s <= 2) as Hc.
    { destruct (decide (errorCount s = 3)) as [H|H]; [|lia].
      by rewrite (not_expired _ _ _ _ T (H3 ltac:(lia))) in Hhi by lia. }
    assert (1 <= errorCount s -> set_within (low_prio_timer s) 30 T (2 * errorCount s)) as Hl.
    { intros H. destruct (decide (2 <= errorCount s)); [by apply H2|]. destruct (H1 H) as [Hs|Hs].
      - by rewrite (not_expired _ _ _ _ T Hs) in Hhi by lia.
      - apply (set_within_later _ _ _ _ _ _ Hs); lia. }
    rewrite E1, u8_small by lia. split; upd_simpl; try lia; rewrite ?E2, ?E3.
    + intros _. left. by apply (Hnew k).
    + intros H. apply (set_within_later _ _ T (2 * errorCount s)); [apply Hl| |]; lia.
    + intros _. by apply (Hnew k).
  - (* the dump of low priority *)
    assert (errorCount s <= 1) as Hc.
    { destruct (decide (2 <= errorCount s)) as [H|H]; [|lia].
      by rewrite (not_expired _ _ _ _ _ (H2 H)) in Hlow by lia. }
    rewrite E1, u8_small by lia. split; upd_simpl; try lia; rewrite ?E2, ?E3.
    + intros _. right. by apply (Hnew k).
    + intros _. apply (set_within_later _ _ T' 2); [by apply (Hnew k)| |]; lia.
Qed.

Lemma mainHandler_fails T s :
  fails_late T s -> time (env s (asked s)) = T ->
  spec false mainHandler (fun _ s' => resets s' = resets s /\
    forall T', (forall k, (k <= 3)%nat -> T <= time (env s (asked s + k)) <= T') -> T' <= T + 2 -> fails_late T' s') s.
Proof.
  intros Hf HT. unfold mainHandler. apply spec_bind. eapply spec_mono; [apply read_i2c_round|].
  intros failed s1 Hr. apply spec_bind, spec_put, spec_bind, spec_get.
  set (s2 := s1 <| errorCount := _ |>).
  assert (resets s1 = resets s /\ errorCount s1 = errorCount s) as [Hres Hec]
    by (inversion Hr as [? ? ? ? ? Hv|? ? ? ? ? ? Hv|? Hv]; unfold main_view in Hv; by injection Hv).
  assert (errorCount s2 <= 4) as Hle.
  { unfold s2. upd_simpl. rewrite Hec. destruct Hf as [Hc _ _ _]. destruct failed; [|lia]. rewrite u8_small; lia. }
  unfold MAX_I2C_ERROR. replace (5 <? errorCount s2) with false by (symmetry; apply Z.ltb_ge; lia).
  apply spec_ret. split; [done|]. intros T' Hk HT'. by apply (fails_round T T' s).
Qed.

(** The visits of the thread of the bus. *)
Definition main_visits (l : list (visit * (nat -> env_t))) : list (nat -> env_t) :=
  omap (fun v => match v.1 with V_main => Some v.2 | _ => None end) l.

Lemma other_keeps address OPEN_MAX v s :
  v.1 <> V_main -> v.1 <> V_open ->
  spec false (step address OPEN_MAX v) (fun _ s' => main_view s' = main_view s) s.
Proof.
  intros H1 H2. unfold step. apply spec_bind, spec_put. set (s0 := s <| env := v.2 |> <| asked := 0%nat |>).
  change (main_view s) with (main_view s0). destruct (v.1); try done; simpl.
  - apply client_keeps_main.
  - apply keeps_events_round; apply _.
Qed.

Lemma fails_late_view T s s' : main_view s' = main_view s -> fails_late T s -> fails_late T s'.
Proof. unfold main_view. intros [= E1 E2 E3 _] [H0 H1 H2 H3]. split; rewrite ?E1, ?E2, ?E3; done. Qed.

(** C23: The daemon never resets the microcontroller for failed transfers,
    although it means to after more than five: even if every transfer fails, a
    round of the loop in which no timer has expired counts as a success, and as
    long as the rounds follow each other within two seconds at most three
    rounds in a row transfer anything. *)
Theorem microcontroller_is_never_reset address OPEN_MAX l s s' :
  errorCount s = 0 -> Forall (fun v => v.1 <> V_open) l -> paced (main_visits l) ->
  run address OPEN_MAX l s = Some (tt, s') -> resets s' = resets s.
Proof.
  intros Hc Ho Hp Hrun.
  assert (forall e es, main_visits l = e :: es -> fails_late (begins e) s) as Hf by (intros; split; lia).
  clear Hc. revert s Hf Hrun. induction Ho as [|v l Hv Ho IH]; intros s Hf Hrun; [by injection Hrun as <-|].
  apply run_cons in Hrun as (s1 & Hs1 & Hrun). destruct (decide (v.1 = V_main)) as [Hm|Hm].
  - assert (main_visits (v :: l) = v.2 :: main_visits l) as Hmv by (unfold main_visits; csimpl; by rewrite Hm).
    rewrite Hmv in Hp. set (s0 := s <| env := v.2 |> <| asked := 0%nat |>).
    assert (fails_late (begins v.2) s0) as Hf0 by (by apply (fails_late_view _ s), (Hf _ (main_visits l))).
    pose proof (mainHandler_fails _ s0 Hf0 eq_refl) as Hs.
    assert (mainHandler s0 = Some (tt, s1)) as Hrun1.
    { unfold step, mbind, ST_bind in Hs1. rewrite Hm in Hs1. exact Hs1. }
    apply (spec_elim _ _ _ _ _ _ Hs) in Hrun1 as [Hr Hl]. change (resets s0) with (resets s) in Hr. rewrite <- Hr.
    destruct (main_visits l) as [|e' es] eqn:Hml; [by apply IH|].
    destruct Hp as (Hk & Ht & Hp). apply IH; [done| |done]. intros e es' [= <- <-]. by apply Hl.
  - assert (main_visits (v :: l) = main_visits l) as Hmv by (unfold main_visits; csimpl; destruct (v.1); done).
    rewrite Hmv in Hp, Hf. pose proof (other_keeps address OPEN_MAX v s Hm Hv) as Hk.
    apply (spec_elim _ _ _ _ _ _ Hk) in Hs1. assert (resets s1 = resets s) as <- by (by injection Hs1).
    apply IH; [done| |done]. intros e es He. apply (fails_late_view _ s); [done|by apply (Hf e es)].
Qed.

(** ** The descriptors of clients *)

Definition is_answer (o : output) : bool := match o with Sent _ => true | _ => false end.
Definition answers (s : hwsys) : nat := outputs_of is_answer (outs s).

Definition fds_view (s : hwsys) : Z * nat := (open_fds s, answers s).
Lemma fds_output s o : is_answer o = false -> fds_view (s <| outs := outs s ++ [o] |>) = fds_view s.
Proof.
  intros Ho. unfold fds_view, answers. upd_simpl. rewrite outputs_app. unfold outputs_of at 2. simpl. rewrite Ho.
  by rewrite Nat.add_0_r.
Qed.
#[export] Instance fds_insensitive : Insensitive fds_view.
Proof. split; try done. intros s m. by apply fds_output. Qed.
#[export] Instance fds_unwritten : Unwritten fds_view.
Proof. done. Qed.
#[export] Instance fds_unasked : Unasked fds_view.
Proof. done. Qed.

Lemma main_keeps_fds : keeps fds_view mainHandler.
Proof.
  assert (forall o, is_answer o = false -> keeps fds_view (emit o)) as He.
  { intros o Ho. apply keeps_put. intros s. by apply fds_output. }
  assert (forall a n b, keeps fds_view (write_buffer a n b)) as Hw.
  { intros a n b. unfold write_buffer. destruct (_ <? _); [auto with keeps|]. by apply He. }
  unfold mainHandler, read_i2c. keep; first [apply Hw | by apply He].
Qed.
Lemma open_keeps_fds : keeps fds_view open_i2c.
Proof. unfold open_i2c. keep. Qed.

(** A visit without a client. *)
Lemma no_client_keeps address OPEN_MAX v s :
  v.1 <> V_client -> spec false (step address OPEN_MAX v) (fun _ s' => fds_view s' = fds_view s) s.
Proof.
  intros Hv. unfold step. apply spec_bind, spec_put. set (s0 := s <| env := v.2 |> <| asked := 0%nat |>).
  change (fds_view s) with (fds_view s0). destruct (v.1); try done; simpl.
  - apply open_keeps_fds.
  - apply main_keeps_fds.
  - apply keeps_events_round; apply _.
Qed.

(** A client's message: at most one answer, and the descriptor stays open. *)
Lemma client_answers s :
  (forall k, received (env s k) <> None) ->
  spec false clientHandler (fun _ s' => open_fds s' = open_fds s /\ (answers s' <= S (answers s))%nat) s.
Proof.
  intros Hr. unfold clientHandler. do 2 (apply spec_bind, spec_bind, spec_ask, spec_ret).
  apply spec_bind. unfold receive_msg. apply spec_bind, spec_bind, spec_ask, spec_ret, spec_bind, spec_ask. upd_simpl.
  rewrite decide_False by apply Hr. apply spec_bind, spec_ret, spec_ret.
  match goal with |- spec _ _ _ ?x => set (s1 := x) end.
  change (open_fds s) with (open_fds s1). change (answers s) with (answers s1).
  destruct (receive _ _ _) as [st rec]. cbv zeta.
  assert (forall {A} (m : HW A), keeps fds_view m -> spec false m (fun _ s' => open_fds s' = open_fds s1 /\ (answers s' <= S (answers s1))%nat) s1) as Hk.
  { intros A m Hm. eapply spec_mono; [apply Hm|]. intros a s2 [= -> ->]. split; [done|lia]. }
  destruct (_ =? I2C_OPCODE_RESPONSE).
  - apply spec_bind. eapply spec_mono; [apply (keeps_getData fds_view)|]. intros d s2 [= Hf Ha].
    apply spec_bind, spec_put, spec_ret. unfold answers in *. upd_simpl. rewrite outputs_app, Ha, Hf. split; [done|].
    unfold outputs_of at 2. simpl. lia.
  - destruct (_ =? I2C_OPCODE_WRITE).
    + apply Hk. keep.
    + destruct (_ =? I2C_OPCODE_RESET); apply Hk; auto with keeps.
Qed.

(** The connections of clients are never closed, so that the daemon answers
    at most as many clients as it has descriptors left when it starts: after
    that every connection is refused, for good. *)
Theorem clients_run_out address OPEN_MAX fds e l s' :
  Forall (fun v => forall k, received (v.2 k) <> None) l ->
  run address OPEN_MAX l (boot address fds e) = Some (tt, s') ->
  Z.of_nat (answers s') <= Z.max 0 (OPEN_MAX - fds).
Proof.
  intros Hl. assert (forall s, Z.of_nat (answers s) + fds <= open_fds s <= Z.max fds OPEN_MAX ->
    run address OPEN_MAX l s = Some (tt, s') -> Z.of_nat (answers s') + fds <= open_fds s' <= Z.max fds OPEN_MAX) as H.
  { induction Hl as [|v l Hv _ IH]; intros s Hs Hrun; [by injection Hrun as <-|].
    apply run_cons in Hrun as (s1 & Hs1 & Hrun). apply (IH s1); [|done]. destruct (decide (v.1 = V_client)) as [Hc|Hc].
    - set (s0 := s <| env := v.2 |> <| asked := 1%nat |>).
      unfold step, visit_of in Hs1. rewrite Hc in Hs1. unfold runComHandler, accept_socket, mbind, ST_bind, get, put, ask in Hs1.
      simpl in Hs1. destruct (_ && _) eqn:Ha.
      + set (s2 := s0 <| open_fds := open_fds s + 1 |>).
        change (match clientHandler s2 with Some (_, s') => Some (tt, s') | None => None end = Some (tt, s1)) in Hs1.
        destruct (clientHandler s2) as [[st s3]|] eqn:Hch; [|done]. injection Hs1 as ->.
        pose proof (client_answers s2 Hv) as Hca. apply (spec_elim _ _ _ _ _ _ Hca) in Hch as [Hf Hn].
        change (open_fds s2) with (open_fds s + 1) in Hf. change (answers s2) with (answers s) in Hn.
        apply andb_true_iff in Ha as [_ Ha]. apply Z.ltb_lt in Ha. change (open_fds s < OPEN_MAX) in Ha. lia.
      + injection Hs1 as <-. exact Hs.
    - pose proof (no_client_keeps address OPEN_MAX v s Hc) as Hk. apply (spec_elim _ _ _ _ _ _ Hk) in Hs1.
      injection Hs1 as Hf Ha. rewrite Hf, Ha. done. }
  intros Hrun. assert (Z.of_nat 0 + fds <= fds <= Z.max fds OPEN_MAX) as H0 by lia.
  pose proof (H (boot address fds e) H0 Hrun). lia.
Qed.

(** ** The register that a client sets, on the bus *)

(** Whether no dump is due in a round of the thread of the bus. *)
Definition waiting (t : timer) (e : env_t) : bool := negb (t_interval t <=? u32 (time e - t_start t)).
Definition idle (e0 e1 : env_t) (s : hwsys) : bool := waiting (hi_prio_timer s) e0 && waiting (low_prio_timer s) e1.

(** What is written to the bus. *)
Definition writes (os : list output) : list (list Z) :=
  omap (fun o => match o with I2c_write m => Some m | _ => None end) os.
Lemma writes_app os os' : writes (os ++ os') = writes os ++ writes os'.
Proof. apply omap_app. Qed.

Definition write_view (s : hwsys) : bool * i2c_data_t * list (list Z) := (write_flag s, write_data s, writes (outs s)).
Lemma write_output s o : writes [o] = [] -> write_view (s <| outs := outs s ++ [o] |>) = write_view s.
Proof. intros Ho. unfold write_view. upd_simpl. by rewrite writes_app, Ho, app_nil_r. Qed.
#[export] Instance write_insensitive : Insensitive write_view.
Proof. split; try done. intros s m. by apply write_output. Qed.
#[export] Instance write_unasked : Unasked write_view.
Proof. done. Qed.

(** The message of [write_buffer] for a register. *)
Definition write_message (d : i2c_data_t) : list Z := u8 (addr d) :: u8 (lenData d) :: take (Z.to_nat (lenData d)) (value d).

(** What an idle round makes of the view. *)
Definition flushed (x : bool * i2c_data_t * list (list Z)) : bool * i2c_data_t * list (list Z) :=
  let '(flag, d, ws) := x in (false, d, ws ++ if (flag : bool) then [write_message d] else []).

Lemma spec_partial {A} (m : HW A) (Q : A -> hwsys -> Prop) s : spec true m Q s -> spec false m Q s.
Proof. unfold spec. by destruct (m s) as [[a s']|]. Qed.

Lemma read_i2c_writes s :
  spec false read_i2c (fun _ s' => write_view s' =
    if idle (env s (asked s)) (env s (S (asked s))) s then flushed (write_view s) else write_view s) s.
Proof.
  unfold read_i2c, idle, waiting. apply spec_bind, spec_get, spec_bind, spec_bind, spec_ask, spec_ret.
  set (s1 := s <| asked := S (asked s) |>). change (write_view s) with (write_view s1).
  destruct (_ <=? _); simpl negb; cbn [andb].
  { match goal with |- spec _ ?m _ _ => assert (keeps write_view m) as Hk by keep end.
    eapply spec_mono; [apply Hk|]. intros b s' H. exact H. }
  apply spec_bind, spec_bind, spec_ask, spec_ret. upd_simpl. destruct (t_interval (low_prio_timer s) <=? _); simpl negb.
  { match goal with |- spec _ ?m _ _ => assert (keeps write_view m) as Hk by keep end.
    eapply spec_mono; [apply Hk|]. intros b s' H. exact H. }
  apply spec_bind. unfold write_view at 2. cbn [flushed]. unfold s1. upd_simpl. destruct (write_flag s) eqn:Hf.
  - unfold write_buffer. destruct (_ <? _); [by apply spec_bind, spec_overrun|].
    apply spec_bind, spec_put, spec_put, spec_ret. unfold write_view. upd_simpl. by rewrite writes_app.
  - apply spec_ret, spec_ret. unfold write_view. upd_simpl. by rewrite Hf, app_nil_r.
Qed.

Lemma mainHandler_writes s :
  spec false mainHandler (fun _ s' => write_view s' =
    if idle (env s (asked s)) (env s (S (asked s))) s then flushed (write_view s) else write_view s) s.
Proof.
  unfold mainHandler. apply spec_bind. eapply spec_mono; [apply read_i2c_writes|]. intros failed s1 <-.
  assert (keeps write_view (emit Iomcu_reset)) as He by (apply keeps_put; intros s2; by apply write_output).
  match goal with |- spec _ ?m _ _ => assert (keeps write_view m) as Hk by (keep; exact He) end.
  eapply spec_mono; [apply Hk|]. intros b s' H. exact H.
Qed.

(** A client does not set a register in this visit. *)
Definition sets_nothing (v : visit * (nat -> env_t)) : Prop :=
  v.1 = V_client -> forall bs, received (v.2 4%nat) = Some bs -> opcode (map u8 bs) <> I2C_OPCODE_WRITE.

Section sets.
Context (address : handler -> Z) `{!linked address} (OPEN_MAX : Z).

(** Whether the thread of the bus makes a round without a dump in a visit and
    in a run. *)
Definition idle_in (v : visit * (nat -> env_t)) (s : hwsys) : bool :=
  match v.1 with V_main => idle (v.2 0%nat) (v.2 1%nat) s | _ => false end.
Fixpoint some_idle (l : list (visit * (nat -> env_t))) (s : hwsys) : bool :=
  match l with
  | [] => false
  | v :: l => idle_in v s || match step address OPEN_MAX v s with Some (_, s') => some_idle l s' | None => false end
  end.

Lemma reading_client_writes s :
  hw_ok address s -> well_behaved (env s) ->
  (forall bs, received (env s (asked s + 3)) = Some bs -> opcode (map u8 bs) <> I2C_OPCODE_WRITE) ->
  spec true clientHandler (fun _ s' => write_view s' = write_view s) s.
Proof.
  intros Hs He Hn. destruct (ge_client _ (He (asked s + 3)%nat) _ eq_refl) as (bs & Hbs & Hgood).
  apply (clientHandler_spec address bs); [done|done|done| | |done].
  - intros st id d _ _ _ _. unfold write_view. upd_simpl. by rewrite writes_app, app_nil_r.
  - intros st id d rec _ _ Hop. by destruct (Hn bs Hbs).
Qed.

Lemma step_writes v s :
  hw_ok address s -> well_behaved v.2 -> sets_nothing v ->
  spec false (step address OPEN_MAX v) (fun _ s' => write_view s' =
    if idle_in v s then flushed (write_view s) else write_view s) s.
Proof.
  intros Hs He Hq. unfold step, idle_in. apply spec_bind, spec_put.
  set (s0 := s <| env := v.2 |> <| asked := 0%nat |>). change (write_view s) with (write_view s0).
  assert (forall m : HW unit, keeps write_view m -> spec false m (fun _ s' => write_view s' = write_view s0) s0) as Hk
    by (intros m Hm; apply Hm).
  destruct (v.1) eqn:Hv; simpl.
  - apply Hk. unfold open_i2c. keep.
  - exact (mainHandler_writes s0).
  - unfold runComHandler, accept_socket. apply spec_bind, spec_bind, spec_get, spec_bind, spec_ask.
    destruct (_ && _); [|by apply spec_ret, spec_ret]. apply spec_bind, spec_put, spec_ret, spec_bind.
    match goal with |- spec _ _ _ ?x => set (s1 := x) end. change (write_view s0) with (write_view s1).
    apply (spec_mono _ _ (fun _ s' => write_view s' = write_view s1)); [|intros st s2 H; by apply spec_ret].
    apply (spec_partial _ _ _), reading_client_writes; [destruct Hs; by split|exact He|]. intros bs. apply Hq, Hv.
  - apply Hk. unfold events_start. keep.
  - apply Hk. auto with keeps typeclass_instances.
Qed.

(** The run after a message: the pending register goes to the bus in the first
    idle round. *)
Lemma run_writes l s :
  hw_ok address s -> Forall (fun v => well_behaved v.2 /\ sets_nothing v) l ->
  exists s', run address OPEN_MAX l s = Some (tt, s') /\
    write_view s' = if some_idle l s then flushed (write_view s) else write_view s.
Proof.
  intros Hs Hl. revert s Hs. induction Hl as [|v l [Hv Hq] _ IH]; intros s Hs; [by exists s|].
  destruct (spec_total _ _ _ (step_spec address OPEN_MAX v s Hs Hv)) as ([] & s1 & Hstep & [Hs1 _ _]).
  destruct (IH s1 Hs1) as (s' & Hrun & Hw). exists s'. cbn [some_idle]. rewrite Hstep. split.
  { unfold run in *. cbn [for_each_p]. unfold mbind at 1, ST_bind at 1. by rewrite Hstep. }
  pose proof (step_writes v s Hs Hv Hq) as Hsw. apply (spec_elim _ _ _ _ _ _ Hsw) in Hstep. rewrite Hw, Hstep.
  destruct (idle_in v s), (some_idle l s1); try done; cbn [orb];
    destruct (write_view s) as [[f d] ws]; cbn [flushed]; by rewrite ?app_nil_r.
Qed.

(** C20: "set" with the name of a register of at most 8 octets and a number
    reaches the bus: through whatever rounds of the bus, of the events and of
    clients that set nothing come next, the register stays to be written, and
    the first round of the bus in which no dump is due writes to the
    microcontroller the register, its number of octets, the number as the first
    octet and zeros; no later round writes it again. *)
Theorem set_reaches_bus n a p val s l :
  hw_ok address s -> get_i2c_addr_by_name address n zero_data = Some (a, p) -> lenData p <= 8 ->
  well_behaved (env s) -> received (env s (asked s + 3)) = Some (take message_size (set_request p val)) ->
  Forall (fun v => well_behaved v.2 /\ sets_nothing v) l ->
  exists st s1 s2, clientHandler s = Some (st, s1) /\ run address OPEN_MAX l s1 = Some (tt, s2) /\
    write_flag s2 = negb (some_idle l s1) /\
    writes (outs s2) = writes (outs s) ++
      if some_idle l s1 then [a :: lenData p :: take (Z.to_nat (lenData p)) (u8 val :: replicate 31 0)] else [].
Proof.
  intros Hs Hn Hlen He Hr Hl. destruct (client_param address n a p Hn) as (d0 & _ & _ & Har & Hp & Hap & _ & Hhp & Hvp).
  destruct (set_request_fields p val Hp) as (Hq & Haq & Hoq & Hlq & Hhq). destruct (first_octets _ Hq) as [Hql Hqf].
  pose proof (set_request_value p val Hp Hvp) as Hval. set (bs := take message_size (set_request p val)) in *.
  assert (addr (map u8 bs) = a /\ opcode (map u8 bs) = I2C_OPCODE_WRITE /\ lenData (map u8 bs) = lenData p) as (Ham & Hom & Hlm).
  { rewrite addr_field, opcode_field, lenData_field, !Hqf by (unfold message_size; lia).
    rewrite <- addr_field, <- opcode_field, <- lenData_field. split_and!; congruence. }
  assert (spec true clientHandler (fun _ s1 => exists r, write_view s1 = (true, r, writes (outs s)) /\
    addr r = a /\ lenData r = lenData p /\ take 12 (value r) = u8 val :: replicate 11 0) s) as Hset.
  { apply (clientHandler_spec address bs); [done|done| | | |].
    - apply (request_message _ a); [done|congruence|done|]. intros _. split; [lia|congruence].
    - intros st id d _ _ _ [Hop|Hop]; by rewrite Hom in Hop.
    - intros st id d rec _ _ _ Hrec. cbv zeta. destruct (holds_rest _ _ Hrec) as (H1 & _ & H2 & H3 & _ & _ & H4).
      exists (set_lenMSG 80 rec). split_and!; try done; congruence.
    - intros st _ Hop. by rewrite Hom in Hop. }
  destruct (spec_total _ _ _ (spec_and _ _ _ _ _ Hset (clientHandler_calm address s Hs He)))
    as (st & s1 & Hrun & (r & Hw & Hra & Hrl & Hrv) & [Hs1 _ _ _]).
  destruct (run_writes l s1 Hs1 Hl) as (s2 & Hrun2 & Hw2). exists st, s1, s2. split; [done|]. split; [done|].
  pose proof (field_byte 36 p Hp) as Hb. rewrite <- lenData_field in Hb. unfold is_byte in Hb.
  assert (Forall (fun a => u8 a = a) register_addrs) as Hsmall by (by apply (bool_decide_unpack _)).
  pose proof (proj1 (list.Forall_forall _ _) Hsmall a Har) as Hua. cbv beta in Hua.
  assert (take (Z.to_nat (lenData p)) (value r) = take (Z.to_nat (lenData p)) (u8 val :: replicate 31 0)) as Htake.
  { assert (Z.to_nat (lenData p) = Z.to_nat (lenData p) `min` 12)%nat as Hmin by lia.
    rewrite Hmin, <- !take_take, Hrv. done. }
  rewrite Hw in Hw2. unfold write_view in Hw2. destruct (some_idle l s1); injection Hw2 as Hf _ Ho; rewrite Hf, Ho.
  - split; [done|]. cbn [flushed]. unfold write_message. by rewrite Hra, Hrl, Hua, (u8_small (lenData p)), Htake by lia.
  - split; [done|]. by rewrite app_nil_r.
Qed.
End sets.

(** ** Runs *)

Definition dead_visits : list (visit * (nat -> env_t)) :=
  map (fun t => (V_main, fun _ => dead_env t)) [0; 2; 4; 6; 8; 10; 12; 14].

Lemma microcontroller_is_never_reset_witness :
  exists s', run demo_address 16 dead_visits demo_boot = Some (tt, s') /\ resets s' = 0%nat.
Proof.
  assert (match run demo_address 16 dead_visits demo_boot with Some _ => true | None => false end = true) as Hsome
    by (vm_compute; reflexivity).
  destruct (run demo_address 16 dead_visits demo_boot) as [[[] s']|] eqn:Hrun; [|discriminate Hsome].
  exists s'. split; [reflexivity|].
  rewrite (microcontroller_is_never_reset demo_address 16 dead_visits demo_boot s'); [reflexivity|reflexivity| | |exact Hrun].
  - repeat constructor; discriminate.
  - unfold dead_visits, begins. cbn. repeat split; intros; lia.
Defined.

Definition client_visits : list (visit * (nat -> env_t)) := replicate 4 (V_client, fun _ => dead_env 0).

Lemma clients_run_out_witness :
  exists s', run demo_address 5 client_visits demo_boot = Some (tt, s') /\ Z.of_nat (answers s') <= 2.
Proof.
  assert (match run demo_address 5 client_visits demo_boot with Some _ => true | None => false end = true) as Hsome
    by (vm_compute; reflexivity).
  destruct (run demo_address 5 client_visits demo_boot) as [[[] s']|] eqn:Hrun; [|discriminate Hsome].
  exists s'. split; [reflexivity|].
  refine (clients_run_out demo_address 5 3 _ client_visits s' _ Hrun). repeat constructor; discriminate.
Defined.

(** A dump, events and a client come before the first idle round. *)
Definition set_visits : list (visit * (nat -> env_t)) :=
  [demo_visit V_main 3 1 3300 200 demo_get; demo_visit V_events 4 1 3300 200 demo_get;
   demo_visit V_client 4 1 3300 200 demo_get; demo_visit V_main 4 1 3300 200 demo_get;
   demo_visit V_main 5 1 3300 200 demo_get].

Lemma set_reaches_bus_witness :
  exists st s1 s2, clientHandler demo_client = Some (st, s1) /\ run demo_address 16 set_visits s1 = Some (tt, s2) /\
    write_flag s2 = false /\ writes (outs s2) = [[13; 1; 1]].
Proof.
  destruct (set_reaches_bus demo_address 16 (str "relay") 13 (demo_param "relay") 1 demo_client set_visits)
    as (st & s1 & s2 & Hrun & Hrun2 & Hf & Hw).
  - destruct demo_boot_ok as [H1 H2 H3 H4 H5]. by split.
  - vm_compute. reflexivity.
  - vm_compute. discriminate.
  - intros k. apply demo_good; [lia|lia|lia|]. split; [vm_compute; reflexivity|].
    split; [apply (bool_decide_unpack _); vm_compute; exact I|]. vm_compute. intros _. split; congruence.
  - reflexivity.
  - unfold set_visits. repeat (apply list.Forall_cons; split; [split|]); [..|by apply list.Forall_nil].
    all: try (intros k; apply demo_good; lia || apply demo_messages).
    all: intros Hv bs [= <-]; vm_compute; discriminate.
  - assert (match clientHandler demo_client with Some (_, s) => some_idle demo_address 16 set_visits s | None => false end = true)
      as Hi by (vm_compute; reflexivity).
    rewrite Hrun in Hi. rewrite Hi in Hf, Hw. exists st, s1, s2. split; [exact Hrun|]. split; [exact Hrun2|].
    split; [exact Hf|]. rewrite Hw. vm_compute. reflexivity.
Defined.
